(* ===== verification/_CoqProject ===== *)
-Q . S2P
Prelude.v
GoSlice.v
Hash.v
Aes.v
Lib.v
Types.v
Net.v
Codec.v
Lts.v
Payloads.v
SecurityAssociation.v
TrafficSelector.v
EapAka.v
Eap.v
Header.v
Message.v
Typed.v
Build.v
Dh.v
Prf.v
Integ.v
Esn.v
Encr.v
Security.v
Ike.v
Session.v
Vectors.v
