(* ===== verification/Prelude.v ===== *)
(** * The IKEv2 library of free5gc, verified

    The program is a Go library that a 5G core (the N3IWF) and its test clients
    use to speak IKEv2 (RFC 7296) with EAP-AKA' and EAP-5G. It has no I/O of its
    own: callers hand it bytes and keys, and get bytes, keys and messages back.
    Its parts, under src/, and how they interact:

    - message/ turns a chain of payloads into bytes and back. A message is a
      28-byte header and a chain of payloads; every payload type has a
      [Marshal] and an [Unmarshal]; the EAP payload delegates to eap/.
    - eap/ is the EAP packet, its five simple kinds of data, and EAP-AKA' with
      its attributes, its message authentication code and its key derivation.
    - security/ holds the negotiable algorithms (dh, encr, integ, prf, esn, each a
      registry from transform identifiers to implementations), and
      security.go, which negotiates a proposal and derives the keys of an IKE SA
      and of its child SAs with the key stream of security/lib.
    - ike.go protects and opens messages: it encodes the payloads, encrypts
      them, wraps them in an Encrypted payload and appends the checksum; or
      parses, verifies, decrypts and decodes.

    ** Files, from the bottom up

    - [Prelude] (this file): outcomes of a Go call, their automation, and the
      lemmas on lists and integers the others share.
    - [GoSlice]: Go byte slices as windows with capacity, and encoding/binary.
    - [Hash], [Aes], [Net]: what the code uses of the Go standard library:
      SHA-1, SHA-256, HMAC and the [hash.Hash] object, AES and CBC,
      [net.ParseIP]. [Lib] has crypto/rand besides security/lib/lib.go, and
      [Dh] has math/big.
    - [Types]: message/types.go, every constant of it.
    - [Codec]: the contract of the interfaces [IKEPayload] and [EapTypeData], a
      class that every payload and every kind of EAP data instantiates and
      against which the container and the packet are proved.
    - [Lts]: labelled transition systems, invariants and trace inclusion.
    - [Payloads]: message/payload_*.go but the following three.
      [SecurityAssociation]: payload_securityassociation.go.
      [TrafficSelector]: payload_trafficselectorinitiator.go and responder.go.
      [EapAka]: eap/eap_aka_prime.go. [Eap]: the other files of eap/, and
      message/payload_eap.go, which only wraps a packet.
    - [Header]: message/header.go. [Message]: message/message.go, with
      [IKEPayload] as a sum over the payload types. [Build]: message/build.go.
      [Typed]: decoded messages have fields within their Go types.
    - [Dh], [Prf], [Integ], [Esn], [Encr]: the directories of security/ of the
      same names; [Encr] has security/IKECrypto as a record of operations with
      a class of laws. [Security]: security/security.go.
    - [Ike]: ike.go. [Session]: two SAs exchanging messages through it over a
      network with an attacker, as a step relation.
    - [Vectors]: the recorded results of the tests under src/, evaluated on the
      definitions: a captured IKE_AUTH message opened with its keys, the derived
      keys, cipher texts, authentication codes and encoded messages.

    A definition has the name of the function it translates, with its receiver
    type in front where the name alone is not unique ([Nonce_Marshal] is
    [Nonce.Marshal], [integ_StrToType] is [StrToType] of package integ); a loop
    of a function is a definition of its own next to it.

    ** Conventions

    - A call that can fail returns a [res]: [Ok], [Err] with the text of the
      error less its formatted arguments, [Panic] for a run-time panic,
      [Diverge] for a loop out of fuel. On an error the model returns no
      receiver: what the code has already stored in it is not described.
    - Integers are [Z]. Every conversion to a sized type is written ([u8],
      [u16], [u32]); arithmetic the code does on a sized type wraps in the model
      where it can wrap in the code.
    - A byte slice that is sliced further is a [slice] with the hidden part up to
      its capacity, because Go checks a slice expression against the capacity:
      the decoders are proved for every hidden part. A byte slice the code
      only reads whole or builds is a list: where the code appends to a window of
      an array it still uses, as [PrfPlus] does with the last block of its
      stream, it writes only past the end of what is used, and overwrites that
      before it is read. Nil and empty slices are told apart only where the
      code does.
    - A pointer or an interface that the code compares with nil, or that it
      dereferences on a path where it may be nil, is an option. Pointers stored in
      containers and lists (payloads, proposals, transforms, selectors) are
      not nil. A pointer that a builder returns is a
      position in the container ([Build]).
    - Objects that keep state between calls are threaded through: the hash
      objects inside an IKE SA ([Hash] with its pending bytes), the message a
      call mutates, and the random source, which is a tape of bytes: a read from
      a tape that is too short is the failure of crypto/rand.
    - Go maps are [gmap]; where the code iterates over one, the order is a
      parameter or is proved irrelevant ([EapAka.GetAttr_any_order]).

    ** Fuel

    Only loops that are not structural recursions have fuel. A decoder's loop
    gets the length of its input, and every turn consumes at least one byte of
    it; the loop of [PrfPlus] gets the number of bytes asked for, and every turn
    adds at least one; [GenerateRandomNumber] gets one turn per byte of the tape
    and one more, each turn reading at least one byte; the colon form of an
    address gets eight turns, one per group. That this is enough is proved: the
    decoders end on every input ([Message.IKEMessage_Decode_terminates]),
    [PrfPlus] returns the whole stream ([Lib.PrfPlus_stream]), and the random
    numbers and the addresses never run out of fuel
    ([Security.GenerateRandomNumber_range], [Net.parseIPv6_terminates]).

    ** What is proved

    - Protection (C1, C2, C4, C5, C27, C28): a protected message is opened by the
      other side to the payloads it was made from, when its payloads are a valid
      chain ([Message.chain_valid] lists what that asks) that fits; what is accepted under
      protection carries the checksum of the other side's key over everything
      else; a changed checksum is an error; two sides that agree on a proposal
      and on nonces derive keys with which they can talk; and the two gaps of
      the code: a message whose first payload is not an Encrypted payload is
      accepted in the clear, and an Encrypted payload shorter than the checksum
      panics.
    - Sessions (C3, C9, C10): any interleaving of sends, receptions, losses,
      replays, reorderings and injections, from two sides with the same keys,
      is a run of an abstract channel that delivers only what the other side
      has sent; sides keep their keys; everything sent can still be delivered.
      The attacker is assumed not to have the checksum of data that was never
      protected (hypothesis [unforged] of the receiving step); the library has
      no replay window, so the channel may deliver twice.
    - Messages (C6, C8, C11, C12, C13, C19 to C26, C40): round trips for
      messages, payloads, headers, EAP packets and EAP-AKA' attributes, for
      values within the ranges the codecs state (what lies outside is shown
      by the flaws below, and by [EapAka.KDF_INPUT_refused],
      [EapAka.CHECKCODE_truncated] and [Eap.padded_AT_RES_other_mac]); in the
      other direction, what a decoder accepts is marshalled to the same bytes
      or to an exactly described other text; decoding ends, returns typed values,
      and panics exactly when it gets to a payload on which one of four payload
      decoders does ([Message.arrives], [Message.bad_payload]), of which C30 to
      C33 describe the inputs.
    - Keys and algorithms (C7, C14 to C18, C35 to C37): the keys of an IKE SA and
      of a child SA are the slices of prf+ that RFC 7296 asks for, and the hashes and
      ciphers of the IKE SA are made each from its key; PRF' gives the slices of
      RFC 9048; two sides compute the same Diffie-Hellman secret; AES-CBC with
      padding is inverted; proposals built from an SA negotiate its algorithms.
    - Boundaries and flaws (C29 to C34, C38, C39): wrapping length checks, lost
      attribute values and unchecked lengths, with the inputs that show them.

    ** Not modelled

    - Test code (its recorded results are in [Vectors]) and the module and lint
      configuration.
    - Logging and the arguments formatted into error texts.
    - Running time, and so the timing of checksum comparison ([hmac.Equal] is
      equality).
    - Concurrent calls on one SA: the code takes no locks, and a caller that
      shares an SA between goroutines is outside its contract.
    - Security of the primitives: the hashes and AES are functions that compute
      what their standards say, and no theorem assumes they are hard to invert. *)

From stdpp Require Export base list numbers option strings gmap sorting.
From Stdlib Require Export ZArith Lia.

#[global] Open Scope Z_scope.

(** ** Outcomes of a Go call *)

(** [Ok] is a normal return with a nil error, [Err] a return with a non-nil
    error (its text, without the arguments formatted into it), [Panic] a
    run-time panic (an index or a slice expression out of range, a nil
    dereference), and [Diverge] a loop that did not end within its fuel. *)
Inductive res (A : Type) : Type :=
  | Ok (a : A)
  | Err (msg : string)
  | Panic
  | Diverge.
Arguments Ok {A} a.
Arguments Err {A} msg.
Arguments Panic {A}.
Arguments Diverge {A}.

#[export] Instance res_ret : MRet res := @Ok.
#[export] Instance res_bind : MBind res := λ A B f m,
  match m with
  | Ok a => f a
  | Err e => Err e
  | Panic => Panic
  | Diverge => Diverge
  end.
#[export] Instance res_fmap : FMap res := λ A B f m,
  match m with
  | Ok a => Ok (f a)
  | Err e => Err e
  | Panic => Panic
  | Diverge => Diverge
  end.

(** [errors.Wrapf(err, p)] and [errors.Errorf(p ++ "%v", err)]: the text of
    the error gets a prefix, the other outcomes pass through. *)
Definition wrap {A} (p : string) (r : res A) : res A :=
  match r with
  | Err e => Err (p +:+ e)
  | _ => r
  end.

(** A dereference: a nil pointer panics. *)
Definition deref {A} (o : option A) : res A :=
  match o with Some a => Ok a | None => Panic end.

Definition is_ok {A} (r : res A) : bool :=
  match r with Ok _ => true | _ => false end.

(** The call returns (with a value or an error): it neither panics nor runs
    forever. *)
Definition returns {A} (r : res A) : Prop :=
  match r with Ok _ | Err _ => True | Panic | Diverge => False end.

Definition terminates {A} (r : res A) : Prop := r ≠ Diverge.

#[export] Instance Ok_inj {A} : Inj (=) (=) (@Ok A).
Proof. by intros a b [= ->]. Qed.

Lemma bind_Ok_inv {A B} (m : res A) (f : A → res B) b :
  (m ≫= f) = Ok b → ∃ a, m = Ok a ∧ f a = Ok b.
Proof. destruct m; naive_solver. Qed.

Lemma wrap_Ok_inv {A} p (r : res A) a : wrap p r = Ok a → r = Ok a.
Proof. destruct r; naive_solver. Qed.

Lemma wrap_returns {A} p (r : res A) : returns (wrap p r) ↔ returns r.
Proof. by destruct r. Qed.

Lemma wrap_terminates {A} p (r : res A) : terminates (wrap p r) ↔ terminates r.
Proof. unfold terminates. by destruct r. Qed.

Lemma bind_returns {A B} (m : res A) (f : A → res B) :
  returns m → (∀ a, m = Ok a → returns (f a)) → returns (m ≫= f).
Proof. destruct m; naive_solver. Qed.

Lemma bind_terminates {A B} (m : res A) (f : A → res B) :
  terminates m → (∀ a, m = Ok a → terminates (f a)) → terminates (m ≫= f).
Proof. unfold terminates. destruct m; naive_solver. Qed.

Lemma returns_terminates {A} (r : res A) : returns r → terminates r.
Proof. unfold terminates. by destruct r. Qed.

(** ** Machine integers

    A w-bit unsigned integer is a [Z] in range; the arithmetic of the code
    wraps where it says so ([u8], [u16], [u32]). *)
Definition u8 (z : Z) : Z := z mod 2 ^ 8.
Definition u16 (z : Z) : Z := z mod 2 ^ 16.
Definition u32 (z : Z) : Z := z mod 2 ^ 32.
Arguments u8 : simpl never.
Arguments u16 : simpl never.
Arguments u32 : simpl never.

Definition u8b (z : Z) : bool := (0 <=? z) && (z <? 2 ^ 8).
Definition u16b (z : Z) : bool := (0 <=? z) && (z <? 2 ^ 16).
Definition u32b (z : Z) : bool := (0 <=? z) && (z <? 2 ^ 32).
Definition u64b (z : Z) : bool := (0 <=? z) && (z <? 2 ^ 64).
Arguments u8b : simpl never.
Arguments u16b : simpl never.
Arguments u32b : simpl never.
Arguments u64b : simpl never.

Definition bytesb (l : list Z) : bool := forallb u8b l.
Arguments bytesb : simpl never.

(** The length of a slice as a Go [int]. *)
Definition len {A} (l : list A) : Z := Z.of_nat (length l).
Arguments len : simpl never.

Lemma bytesb_app l k : bytesb (l ++ k) = bytesb l && bytesb k.
Proof. apply forallb_app. Qed.
Lemma bytesb_cons x l : bytesb (x :: l) = u8b x && bytesb l.
Proof. done. Qed.

(** ** Automation *)

(** Split boolean conjunctions and reflect the tests among the hypotheses. *)
Ltac bools :=
  repeat match goal with
  | H : _ && _ = true |- _ => apply andb_prop in H; destruct H
  | H : bytesb (_ :: _) = true |- _ => rewrite bytesb_cons in H
  | H : bytesb (_ ++ _) = true |- _ => rewrite bytesb_app in H
  | H : _ || _ = false |- _ => apply orb_false_elim in H; destruct H
  | H : negb _ = true |- _ => apply negb_true_iff in H
  | H : negb _ = false |- _ => apply negb_false_iff in H
  | H : (_ <=? _) = true |- _ => apply Z.leb_le in H
  | H : (_ <=? _) = false |- _ => apply Z.leb_gt in H
  | H : (_ <? _) = true |- _ => apply Z.ltb_lt in H
  | H : (_ <? _) = false |- _ => apply Z.ltb_ge in H
  | H : (_ =? _) = true |- _ => apply Z.eqb_eq in H
  | H : (_ =? _) = false |- _ => apply Z.eqb_neq in H
  | H : (_ >? _) = true |- _ => rewrite Z.gtb_ltb in H
  | H : (_ >? _) = false |- _ => rewrite Z.gtb_ltb in H
  end.

(** Split a goal that says that several bytes are bytes. *)
Ltac bsplit :=
  rewrite ?bytesb_app, ?bytesb_cons; repeat match goal with
         | |- (_ && _) = true => apply andb_true_intro; split
         end; try done.

(** Unfold widths and lengths for [lia]. *)
Ltac widths := unfold u8b, u16b, u32b, u64b, u8, u16, u32, len in *.

(** Decide by [lia] the integer tests of the goal. *)
Ltac ztest_step :=
  match goal with
  | |- context [?a <=? ?b] =>
      first [ rewrite (proj2 (Z.leb_le a b)) by lia
            | rewrite (proj2 (Z.leb_gt a b)) by lia ]
  | |- context [?a <? ?b] =>
      first [ rewrite (proj2 (Z.ltb_lt a b)) by lia
            | rewrite (proj2 (Z.ltb_ge a b)) by lia ]
  | |- context [?a =? ?b] =>
      first [ rewrite (proj2 (Z.eqb_eq a b)) by lia
            | rewrite (proj2 (Z.eqb_neq a b)) by lia ]
  | |- context [?a >? ?b] => rewrite (Z.gtb_ltb a b)
  end.
Ltac ztests := repeat (ztest_step; cbn [andb orb negb]).

(** Invert a successful monadic computation. *)
Ltac inv_res :=
  repeat match goal with
  | H : Ok _ = Ok _ |- _ => injection H as H; try subst
  | H : Err _ = Ok _ |- _ => discriminate H
  | H : Panic = Ok _ |- _ => discriminate H
  | H : Diverge = Ok _ |- _ => discriminate H
  | H : wrap _ _ = Ok _ |- _ => apply wrap_Ok_inv in H
  | H : (_ ≫= _) = Ok _ |- _ =>
      let a := fresh "a" in let E := fresh "E" in
      apply bind_Ok_inv in H; destruct H as (a & E & H)
  end.

Create HintDb go discriminated.
#[export] Hint Constants Transparent : go.
#[export] Hint Variables Transparent : go.
#[export] Hint Resolve returns_terminates : go.

(** ** Ranges *)

Lemma u8_range z : 0 ≤ u8 z < 2 ^ 8.
Proof. apply Z.mod_pos_bound. lia. Qed.
Lemma u8b_u8 z : u8b (u8 z) = true.
Proof. pose proof (u8_range z). unfold u8b. ztests. done. Qed.
Lemma u8_id z : u8b z = true → u8 z = z.
Proof. intros H. unfold u8b in H. bools. apply Z.mod_small. lia. Qed.
Lemma u8_small z : 0 ≤ z < 2 ^ 8 → u8 z = z.
Proof. apply Z.mod_small. Qed.
Lemma u16_small z : 0 ≤ z < 2 ^ 16 → u16 z = z.
Proof. apply Z.mod_small. Qed.
Lemma u32_small z : 0 ≤ z < 2 ^ 32 → u32 z = z.
Proof. apply Z.mod_small. Qed.

(** ** Lists *)

Lemma len_nonneg {A} (l : list A) : 0 ≤ len l.
Proof. unfold len. lia. Qed.
Lemma len_app {A} (l k : list A) : len (l ++ k) = len l + len k.
Proof. unfold len. rewrite length_app. lia. Qed.
Lemma len_cons {A} (x : A) l : len (x :: l) = 1 + len l.
Proof. unfold len. simpl. lia. Qed.
Lemma len_nil {A} : len (@nil A) = 0.
Proof. done. Qed.
Lemma len_replicate {A} n (x : A) : len (replicate n x) = Z.of_nat n.
Proof. unfold len. by rewrite length_replicate. Qed.
Lemma len_zero_nil {A} (l : list A) : len l = 0 → l = [].
Proof. destruct l; [done|]. rewrite len_cons. pose proof (len_nonneg l). lia. Qed.
Create Rewrite HintDb go_rw.
#[export] Hint Rewrite @len_app @len_cons @len_nil @len_replicate : go_rw.

Lemma bytesb_take n l : bytesb l = true → bytesb (take n l) = true.
Proof.
  revert n. induction l as [|x l IH]; intros [|n]; try done.
  simpl. intros H. bools. bsplit. auto.
Qed.
Lemma bytesb_drop n l : bytesb l = true → bytesb (drop n l) = true.
Proof.
  revert n. induction l as [|x l IH]; intros [|n]; try done.
  simpl. intros H. bools. auto.
Qed.
Lemma bytesb_replicate n x : u8b x = true → bytesb (replicate n x) = true.
Proof. intros H. induction n; simpl; [done|]. by bsplit. Qed.
Lemma bytesb_lookup l i x : bytesb l = true → l !! i = Some x → u8b x = true.
Proof.
  intros H Hi. unfold bytesb in H. rewrite forallb_forall in H.
  apply H, list_elem_of_In, list_elem_of_lookup. eauto.
Qed.

(** ** Bytes *)

Lemma elem_of_bytes a : u8b a = true → In a (seqZ 0 256).
Proof.
  intros H. unfold u8b in H. bools. apply list_elem_of_In, elem_of_seqZ. lia.
Qed.

(** A property of bytes is decided by the 256 cases. *)
Lemma byte_cases (P : Z → bool) :
  forallb P (seqZ 0 256) = true → ∀ a, u8b a = true → P a = true.
Proof. rewrite forallb_forall. auto using elem_of_bytes. Qed.

(** ** Bit fields *)
Lemma lor_pow2_add n a : 0 ≤ n → 0 ≤ a < 2 ^ n → Z.lor (2 ^ n) a = 2 ^ n + a.
Proof.
  intros Hn Ha. rewrite <- Z.add_lor_land.
  enough (Z.land (2 ^ n) a = 0) as -> by lia.
  apply Z.bits_inj'. intros i Hi. rewrite Z.land_spec, Z.bits_0, Z.pow2_bits_eqb by done.
  destruct (Z.eqb_spec n i) as [->|]; [|done].
  rewrite <- (Z.mod_small a (2 ^ i)), Z.mod_pow2_bits_high by lia. done.
Qed.

(** The top bit of a byte. *)
Lemma top_bit b : u8b b = true → Z.shiftr (Z.land b 0x80) 7 = b / 128.
Proof.
  intros Hb. apply Z.eqb_eq. revert b Hb. apply (byte_cases (λ b, _ =? _)).
  vm_compute. reflexivity.
Qed.
