(* ===== verification/GoSlice.v ===== *)
(** * Go byte slices and [encoding/binary]

    A slice is a window on a backing array: [vis] is what [len] counts, [hid]
    the bytes between the length and the capacity. A slice expression is
    checked against the capacity, an index against the length, so a slice
    expression past the length of a payload reads the bytes of the message
    that follow it, as it does in Go. *)

From S2P Require Import Prelude.

Record slice := Slice { vis : list Z; hid : list Z }.

Definition of_bytes (l : list Z) : slice := Slice l [].

Definition slen (s : slice) : Z := len (vis s).
Definition scap (s : slice) : Z := len (vis s) + len (hid s).

(** [s[lo:hi]] *)
Definition sub (s : slice) (lo hi : Z) : res slice :=
  if (0 <=? lo) && (lo <=? hi) && (hi <=? scap s) then
    let a := vis s ++ hid s in
    Ok (Slice (take (Z.to_nat (hi - lo)) (drop (Z.to_nat lo) a))
              (drop (Z.to_nat hi) a))
  else Panic.

(** [s[lo:]] and [s[:hi]] *)
Definition sfrom (s : slice) (lo : Z) : res slice := sub s lo (slen s).
Definition sto (s : slice) (hi : Z) : res slice := sub s 0 hi.

(** [s[i]] *)
Definition idx (s : slice) (i : Z) : res Z :=
  if i <? 0 then Panic else
  match vis s !! Z.to_nat i with Some x => Ok x | None => Panic end.

(** [b[i] = x] on a local buffer *)
Definition set_byte (i : nat) (x : Z) (b : list Z) : res (list Z) :=
  match b !! i with Some _ => Ok (<[i:=x]> b) | None => Panic end.

(** ** Big-endian integers *)

Definition be_dec (l : list Z) : Z := foldl (λ a b, a * 256 + b) 0 l.

Fixpoint be_enc (n : nat) (v : Z) : list Z :=
  match n with
  | O => []
  | S m => u8 (v / 256 ^ Z.of_nat m) :: be_enc m v
  end.

(** [binary.BigEndian.Uint16(b)] and its siblings: [n] bytes are read, and a
    shorter slice panics. *)
Definition be_get (n : nat) (s : slice) : res Z :=
  if Z.of_nat n <=? slen s then Ok (be_dec (take n (vis s))) else Panic.
Definition Uint16 : slice → res Z := be_get 2.
Definition Uint32 : slice → res Z := be_get 4.
Definition Uint64 : slice → res Z := be_get 8.

(** [binary.BigEndian.PutUint16(b[off:off+2], v)] and its siblings on a local
    buffer. *)
Definition be_put (n : nat) (off : nat) (v : Z) (b : list Z) : res (list Z) :=
  if (off + n <=? length b)%nat then Ok (list_inserts off (be_enc n v) b)
  else Panic.
Definition PutUint16 : nat → Z → list Z → res (list Z) := be_put 2.
Definition PutUint32 : nat → Z → list Z → res (list Z) := be_put 4.
Definition PutUint64 : nat → Z → list Z → res (list Z) := be_put 8.

(** [make([]byte, n)] *)
Definition make_bytes (n : Z) : list Z := replicate (Z.to_nat n) 0.

(** ** Lemmas on slices *)

Lemma slen_nonneg s : 0 ≤ slen s.
Proof. apply len_nonneg. Qed.

Lemma sub_ok s lo hi :
  0 ≤ lo → lo ≤ hi → hi ≤ scap s →
  sub s lo hi =
    Ok (Slice (take (Z.to_nat (hi - lo)) (drop (Z.to_nat lo) (vis s ++ hid s)))
              (drop (Z.to_nat hi) (vis s ++ hid s))).
Proof. intros. unfold sub. ztests. done. Qed.

Lemma sub_panic s lo hi : hi < lo → sub s lo hi = Panic.
Proof. intros. unfold sub. ztests. by rewrite andb_false_r. Qed.

Lemma sub_inv s lo hi t :
  sub s lo hi = Ok t →
  0 ≤ lo ≤ hi ∧ hi ≤ scap s ∧ slen t = hi - lo ∧
  vis t ++ hid t = drop (Z.to_nat lo) (vis s ++ hid s) ∧
  hid t = drop (Z.to_nat hi) (vis s ++ hid s).
Proof.
  unfold sub. destruct (_ && _) eqn:E; [|done]. bools. intros [= <-].
  unfold slen, scap, len in *. cbn [vis hid].
  rewrite length_take, length_drop, length_app.
  assert (Hd : drop (Z.to_nat hi) (vis s ++ hid s) =
    drop (Z.to_nat (hi - lo)) (drop (Z.to_nat lo) (vis s ++ hid s)))
    by (rewrite drop_drop; f_equal; lia).
  repeat split; try lia. by rewrite Hd, take_drop.
Qed.

Lemma sfrom_inv s lo t :
  sfrom s lo = Ok t →
  0 ≤ lo ≤ slen s ∧ t = Slice (drop (Z.to_nat lo) (vis s)) (hid s).
Proof.
  unfold sfrom, sub. destruct (_ && _) eqn:E; [|done]. bools. intros [= <-].
  unfold slen, scap, len in *. split; [lia|].
  rewrite drop_app_le, take_app_le by (rewrite ?length_drop; lia).
  rewrite take_ge by (rewrite length_drop; lia).
  rewrite drop_app_ge by lia. rewrite Nat2Z.id, Nat.sub_diag. done.
Qed.

Lemma sfrom_ok s lo :
  0 ≤ lo ≤ slen s → sfrom s lo = Ok (Slice (drop (Z.to_nat lo) (vis s)) (hid s)).
Proof.
  intros H. destruct (sfrom s lo) eqn:E.
  - f_equal. by apply sfrom_inv in E as [_ ->].
  - unfold sfrom, sub in E. by destruct (_ && _).
  - unfold sfrom, sub, scap, slen in *. pose proof (len_nonneg (hid s)).
    revert E. ztests. done.
  - unfold sfrom, sub in E. by destruct (_ && _).
Qed.

(** Reading inside the visible part never looks at the hidden one. *)
Lemma sub_vis s lo hi :
  0 ≤ lo ≤ hi → hi ≤ slen s →
  ∃ h, sub s lo hi =
    Ok (Slice (take (Z.to_nat (hi - lo)) (drop (Z.to_nat lo) (vis s))) h).
Proof.
  intros ? Hhi. unfold slen in Hhi. pose proof (len_nonneg (hid s)).
  rewrite sub_ok by (unfold scap; lia). eexists. f_equal. f_equal.
  unfold len in *.
  rewrite drop_app_le, take_app_le by (rewrite ?length_drop; lia). done.
Qed.

Lemma idx_ok s i x : vis s !! Z.to_nat i = Some x → 0 ≤ i → idx s i = Ok x.
Proof. intros E ?. unfold idx. ztests. by rewrite E. Qed.

Lemma idx_inv s i x :
  idx s i = Ok x → 0 ≤ i < slen s ∧ vis s !! Z.to_nat i = Some x.
Proof.
  unfold idx. destruct (i <? 0) eqn:E; [done|]. bools.
  destruct (vis s !! _) eqn:L; [|done]. intros [= <-].
  apply lookup_lt_Some in L as L'. unfold slen, len. split; [lia|done].
Qed.

Lemma idx_returns s i : 0 ≤ i < slen s → returns (idx s i).
Proof.
  intros H. unfold idx. ztests.
  destruct (vis s !! _) eqn:E; [done|].
  apply lookup_ge_None in E. unfold slen, len in H. lia.
Qed.

Lemma idx_is s i : 0 ≤ i < slen s → ∃ x, idx s i = Ok x ∧ vis s !! Z.to_nat i = Some x.
Proof.
  intros H. unfold idx. ztests. destruct (vis s !! _) eqn:E; [by eexists|].
  apply lookup_ge_None in E. unfold slen, len in H. lia.
Qed.
Lemma be_get_is n s : Z.of_nat n ≤ slen s → be_get n s = Ok (be_dec (take n (vis s))).
Proof. intros. unfold be_get. by ztests. Qed.

Lemma sub_returns s lo hi : 0 ≤ lo ≤ hi → hi ≤ slen s → returns (sub s lo hi).
Proof. intros. destruct (sub_vis s lo hi) as [h ->]; done. Qed.

Lemma sfrom_returns s lo : 0 ≤ lo ≤ slen s → returns (sfrom s lo).
Proof. intros. by rewrite sfrom_ok. Qed.

Lemma be_get_returns n s : Z.of_nat n ≤ slen s → returns (be_get n s).
Proof. intros. unfold be_get. by ztests. Qed.

Lemma sub_terminates s lo hi : terminates (sub s lo hi).
Proof. unfold sub, terminates. by destruct (_ && _). Qed.
Lemma idx_terminates s i : terminates (idx s i).
Proof. unfold idx, terminates. by repeat case_match. Qed.
Lemma be_get_terminates n s : terminates (be_get n s).
Proof. unfold be_get, terminates. by destruct (_ <=? _). Qed.
#[export] Hint Resolve sub_terminates idx_terminates be_get_terminates : go.
#[export] Hint Resolve idx_returns sub_returns sfrom_returns be_get_returns : go.

(** ** Lemmas on big-endian integers *)

Lemma length_be_enc n v : length (be_enc n v) = n.
Proof. induction n; simpl; congruence. Qed.

Lemma len_be_enc n v : len (be_enc n v) = Z.of_nat n.
Proof. unfold len. by rewrite length_be_enc. Qed.
#[export] Hint Rewrite len_be_enc : go_rw.

Lemma bytesb_be_enc n v : bytesb (be_enc n v) = true.
Proof. induction n; simpl; [done|]. bsplit. by rewrite u8b_u8. Qed.

Lemma foldl_be_shift l a :
  foldl (λ a b, a * 256 + b) a l = a * 256 ^ len l + be_dec l.
Proof.
  unfold be_dec. revert a. induction l as [|x l IH]; intros a; simpl.
  - rewrite len_nil. lia.
  - rewrite IH, (IH (0 * 256 + x)), len_cons, Z.pow_add_r
      by (pose proof (len_nonneg l); lia). lia.
Qed.

Lemma be_dec_cons x l : be_dec (x :: l) = x * 256 ^ len l + be_dec l.
Proof. unfold be_dec at 1. simpl. rewrite foldl_be_shift. lia. Qed.

(** Decoding what was encoded gives the value back, reduced to the width. *)
Lemma be_dec_enc n v : be_dec (be_enc n v) = v mod 256 ^ Z.of_nat n.
Proof.
  induction n as [|n IH]; simpl be_enc.
  - unfold be_dec. simpl. by rewrite Z.mod_1_r.
  - rewrite be_dec_cons, IH, len_be_enc. unfold u8.
    rewrite Nat2Z.inj_succ, Z.pow_succ_r, (Z.mul_comm 256), Z.rem_mul_r by lia.
    change (2 ^ 8) with 256. lia.
Qed.

Lemma be_dec_range l : bytesb l = true → 0 ≤ be_dec l < 256 ^ len l.
Proof.
  induction l as [|x l IH]; [done|]. rewrite bytesb_cons. intros H. bools.
  destruct IH as [IH1 IH2]; [done|]. unfold u8b in *. bools.
  rewrite be_dec_cons, len_cons, Z.pow_add_r by (pose proof (len_nonneg l); lia).
  change (256 ^ 1) with 256. nia.
Qed.

Lemma be_enc_shift n a b : be_enc n (a * 256 ^ Z.of_nat n + b) = be_enc n b.
Proof.
  revert a b. induction n as [|n IH]; intros a b; [done|]. simpl.
  rewrite Nat2Z.inj_succ, Z.pow_succ_r by lia.
  replace (a * (256 * 256 ^ Z.of_nat n)) with (a * 256 * 256 ^ Z.of_nat n) by lia.
  f_equal; [|apply IH].
  rewrite Z.div_add_l by lia. unfold u8. change (2 ^ 8) with 256.
  rewrite Z.add_comm, Z.mod_add by lia. done.
Qed.

(** Encoding what was decoded gives the bytes back. *)
Lemma be_enc_dec l : bytesb l = true → be_enc (length l) (be_dec l) = l.
Proof.
  induction l as [|x l IH]; [done|]. rewrite bytesb_cons. intros H. bools.
  pose proof (be_dec_range l) as R. unfold len in R.
  destruct R as [R1 R2]; [done|]. simpl. rewrite be_dec_cons. unfold len.
  f_equal.
  - rewrite Z.div_add_l, Z.div_small, Z.add_0_r by lia. by apply u8_id.
  - rewrite be_enc_shift. auto.
Qed.

Lemma be16_rt v : u16b v = true → be_dec (be_enc 2 v) = v.
Proof.
  intros H. rewrite be_dec_enc. unfold u16b in H. bools. apply Z.mod_small. lia.
Qed.
Lemma be32_rt v : u32b v = true → be_dec (be_enc 4 v) = v.
Proof.
  intros H. rewrite be_dec_enc. unfold u32b in H. bools. apply Z.mod_small. lia.
Qed.
Lemma be64_rt v : u64b v = true → be_dec (be_enc 8 v) = v.
Proof.
  intros H. rewrite be_dec_enc. unfold u64b in H. bools. apply Z.mod_small. lia.
Qed.

(** ** Reading a message built from pieces *)

Lemma sub_at a m c s lo hi :
  vis s = a ++ m ++ c → lo = len a → hi = len a + len m →
  sub s lo hi = Ok (Slice m (c ++ hid s)).
Proof.
  intros E -> ->. pose proof (len_nonneg a). pose proof (len_nonneg m).
  pose proof (len_nonneg c). pose proof (len_nonneg (hid s)).
  rewrite sub_ok; [|lia|lia|unfold scap; rewrite E, !len_app; lia].
  replace (len a + len m - len a) with (len m) by lia.
  rewrite E, <- !app_assoc. unfold len. rewrite <- Nat2Z.inj_add, !Nat2Z.id.
  rewrite drop_app_length, take_app_length, app_assoc, <- length_app.
  by rewrite drop_app_length.
Qed.

Lemma sfrom_at a c s lo :
  vis s = a ++ c → lo = len a → sfrom s lo = Ok (Slice c (hid s)).
Proof.
  intros E ->. rewrite sfrom_ok.
  - rewrite E. unfold len. by rewrite Nat2Z.id, drop_app_length.
  - unfold slen. rewrite E, len_app. pose proof (len_nonneg a).
    pose proof (len_nonneg c). lia.
Qed.

Lemma idx_at a x c s i : vis s = a ++ x :: c → i = len a → idx s i = Ok x.
Proof.
  intros E ->. apply idx_ok; [|apply len_nonneg].
  rewrite E. unfold len. by rewrite Nat2Z.id, list_lookup_middle.
Qed.

Lemma be_get_enc n v h :
  be_dec (be_enc n v) = v → be_get n (Slice (be_enc n v) h) = Ok v.
Proof.
  intros E. unfold be_get, slen. cbn [vis]. rewrite len_be_enc. ztests.
  rewrite take_ge by (rewrite length_be_enc; lia). by rewrite E.
Qed.
Lemma Uint16_enc v h : u16b v = true → Uint16 (Slice (be_enc 2 v) h) = Ok v.
Proof. intros. by apply be_get_enc, be16_rt. Qed.
Lemma Uint32_enc v h : u32b v = true → Uint32 (Slice (be_enc 4 v) h) = Ok v.
Proof. intros. by apply be_get_enc, be32_rt. Qed.
Lemma Uint64_enc v h : u64b v = true → Uint64 (Slice (be_enc 8 v) h) = Ok v.
Proof. intros. by apply be_get_enc, be64_rt. Qed.

(** A slice cut in two pieces. *)
Lemma key_sto (a b h : list Z) n : n = len a → sto (Slice (a ++ b) h) n = Ok (Slice a (b ++ h)).
Proof. intros ->. unfold sto. by rewrite (sub_at [] a b). Qed.
Lemma key_sfrom (a b h : list Z) n : n = len a → sfrom (Slice (a ++ b) h) n = Ok (Slice b h).
Proof. intros ->. by apply sfrom_at with (a := a). Qed.
Lemma key_last (a h : list Z) n : n = len a → sto (Slice a h) n = Ok (Slice a h).
Proof. intros ->. unfold sto. apply (sub_at [] a []); cbn; [by rewrite app_nil_r|done|done]. Qed.

(** ** Stepping through a decoder *)

(** [rd_*] rewrite one read of a decoder applied to a message built from
    pieces: [a] precedes what is read, [c] follows it. *)
Ltac len_simpl := autorewrite with go_rw.
Ltac rd_len := len_simpl; lia.
(** The call a monadic computation runs first. *)
Ltac first_call m k :=
  lazymatch m with
  | @mbind _ _ _ _ _ ?m' => first_call m' k
  | @fmap _ _ _ _ _ ?m' => first_call m' k
  | wrap _ ?m' => first_call m' k
  | _ => k m
  end.
Ltac goal_call k := lazymatch goal with |- ?m = _ => first_call m k end.
Ltac rd_side := first [reflexivity | rd_len].
Tactic Notation "rd_sub" uconstr(a) uconstr(m) uconstr(c) :=
  goal_call ltac:(fun t => lazymatch t with
  | sub ?s ?lo ?hi => rewrite (sub_at a m c s lo hi) by rd_side
  end).
Tactic Notation "rd_from" uconstr(a) uconstr(c) :=
  goal_call ltac:(fun t => lazymatch t with
  | sfrom ?s ?lo => rewrite (sfrom_at a c s lo) by rd_side
  end).
Tactic Notation "rd_idx" uconstr(a) :=
  goal_call ltac:(fun t => lazymatch t with
  | idx ?s ?i => erewrite (idx_at a _ _ s i) by rd_side
  end).
Ltac rd_step := cbn [mbind res_bind vis hid of_bytes app].

Lemma be_get_range n s v :
  bytesb (vis s) = true → be_get n s = Ok v → 0 ≤ v < 256 ^ Z.of_nat n.
Proof.
  unfold be_get. intros Hb. destruct (_ <=? _) eqn:E; [|done]. intros [= <-]. bools.
  pose proof (be_dec_range _ (bytesb_take n _ Hb)) as R.
  unfold len, slen in *. rewrite length_take in R.
  replace (Z.of_nat (n `min` length (vis s))) with (Z.of_nat n) in R
    by (unfold len in *; lia). done.
Qed.

Lemma idx_range s i x : bytesb (vis s) = true → idx s i = Ok x → u8b x = true.
Proof. intros Hb H. apply idx_inv in H as [_ H]. by eapply bytesb_lookup. Qed.

(** The facts a read leaves in the context, for [lia]. *)
Ltac read_facts :=
  repeat match goal with
  | H : sto _ _ = Ok _ |- _ => unfold sto in H
  | H : sub _ _ _ = Ok _ |- _ => apply sub_inv in H as (? & ? & ? & ? & ?)
  | H : sfrom _ _ = Ok _ |- _ => apply sfrom_inv in H as [? ->]
  end.

(** Show that a decoder returns, read by read. *)
Ltac ret_lia := read_facts; bools;
  repeat match goal with
  | |- context [u8 ?z] => lazymatch goal with
      | _ : 0 ≤ u8 z < 2 ^ 8 |- _ => fail
      | _ => pose proof (u8_range z) end
  | H : context [slen (Slice _ _)] |- _ => unfold slen in H; cbn [vis] in H
  end; unfold slen in *; cbn [vis hid] in *; unfold len in *;
  rewrite ?length_drop in *; lia.
Ltac ret_step :=
  lazymatch goal with
  | |- returns (Ok _) => exact I
  | |- returns (Err _) => exact I
  | |- returns (wrap _ _) => apply wrap_returns
  | |- returns (_ ≫= _) => apply bind_returns; [|intros ? ?]
  | |- returns (if ?c then _ else _) => destruct c eqn:?
  | |- returns (sub _ _ _) => apply sub_returns; [ret_lia|ret_lia]
  | |- returns (sto _ _) => apply sub_returns; [ret_lia|ret_lia]
  | |- returns (sfrom _ _) => apply sfrom_returns; ret_lia
  | |- returns (idx _ _) => apply idx_returns; ret_lia
  | |- returns (Uint16 _) => apply be_get_returns; ret_lia
  | |- returns (Uint32 _) => apply be_get_returns; ret_lia
  | |- returns (Uint64 _) => apply be_get_returns; ret_lia
  end.
Ltac rets := repeat ret_step.

Lemma be_enc_2 v : be_enc 2 v = [u8 (v / 256); u8 v].
Proof. cbn. by rewrite Z.div_1_r. Qed.

(** A 4-byte header made of two 16-bit fields. *)
Lemma len_make_bytes n : 0 ≤ n → len (make_bytes n) = n.
Proof. intros. unfold make_bytes. rewrite len_replicate. lia. Qed.

Lemma put16_first x : PutUint16 0 x (make_bytes 4) = Ok (be_enc 2 x ++ [0; 0]).
Proof. done. Qed.
Lemma put16_second x y :
  PutUint16 2 y (be_enc 2 x ++ [0; 0]) = Ok (be_enc 2 x ++ be_enc 2 y).
Proof. done. Qed.

Lemma idx_be2 a v c s i :
  vis s = a ++ be_enc 2 v ++ c → i = len a → idx s i = Ok (u8 (v / 256)).
Proof. intros E. rewrite be_enc_2 in E. by apply idx_at with (c := u8 v :: c). Qed.
Tactic Notation "rd_idx_be2" uconstr(a) uconstr(v) uconstr(c) :=
  goal_call ltac:(fun t => lazymatch t with
  | idx ?s ?i => rewrite (idx_be2 a v c s i) by rd_side
  end).

(** Show that a decoder does not run out of fuel. *)
Lemma sfrom_terminates s lo : terminates (sfrom s lo).
Proof. apply sub_terminates. Qed.
Lemma sto_terminates s lo : terminates (sto s lo).
Proof. apply sub_terminates. Qed.
Ltac term_step :=
  lazymatch goal with
  | |- terminates (Ok _) => discriminate
  | |- terminates (Err _) => discriminate
  | |- terminates Panic => discriminate
  | |- terminates (wrap _ _) => apply wrap_terminates
  | |- terminates (_ ≫= _) => apply bind_terminates; [|intros ? ?]
  | |- terminates (if ?c then _ else _) => destruct c eqn:?
  | |- terminates (sub _ _ _) => apply sub_terminates
  | |- terminates (sfrom _ _) => apply sfrom_terminates
  | |- terminates (sto _ _) => apply sto_terminates
  | |- terminates (idx _ _) => apply idx_terminates
  | |- terminates (Uint16 _) => apply be_get_terminates
  | |- terminates (Uint32 _) => apply be_get_terminates
  | |- terminates (Uint64 _) => apply be_get_terminates
  end.
Ltac terms := repeat term_step.

(** A slice expression that drops at least one byte makes the slice shorter. *)
Lemma sfrom_shrinks s lo t :
  sfrom s lo = Ok t → (length (vis t) + Z.to_nat lo = length (vis s))%nat.
Proof.
  intros [H ->]%sfrom_inv. cbn [vis]. rewrite length_drop. unfold slen, len in H. lia.
Qed.
