(* ===== verification/Hash.v ===== *)
(** * The Go standard library's hashes: [crypto/sha1], [crypto/sha256],
    [crypto/hmac] and the [hash.Hash] object

    SHA-1 and SHA-256 follow FIPS 180-4 on lists of bytes, HMAC follows
    RFC 2104 with the 64-byte block both hashes have. A [hash.Hash] is the
    function it computes, its output size and the bytes written since the last
    [Reset]; [Write] of a hash never fails, as the documentation of the
    interface says. *)

From S2P Require Import Prelude GoSlice.

(** ** 32-bit words *)
Definition add32 (a b : Z) : Z := u32 (a + b).
Definition rotl32 (n x : Z) : Z :=
  Z.lor (u32 (Z.shiftl x n)) (Z.shiftr x (32 - n)).
Definition rotr32 (n x : Z) : Z := rotl32 (32 - n) x.
Definition not32 (x : Z) : Z := Z.lxor x (2 ^ 32 - 1).

Fixpoint words (n : nat) (l : list Z) : list Z :=
  match n with
  | O => []
  | S m => be_dec (take 4 l) :: words m (drop 4 l)
  end.

(** Merkle-Damgard padding to 64-byte blocks. *)
Definition md_pad (l : list Z) : list Z :=
  l ++ [128] ++ make_bytes ((55 - len l) mod 64) ++ be_enc 8 (8 * len l).

Fixpoint md_fold {S : Type} (f : S → list Z → S) (n : nat) (s : S) (l : list Z) : S :=
  match n with
  | O => s
  | S m => md_fold f m (f s (words 16 l)) (drop 64 l)
  end.
Definition md_run {S : Type} (f : S → list Z → S) (s : S) (l : list Z) : S :=
  let p := md_pad l in md_fold f (length p / 64) s p.

Definition nth_word (w : list Z) (i : nat) : Z := default 0 (w !! i).

(** ** SHA-256 *)
Record st8 := St8 { sa : Z; sb : Z; sc : Z; sd : Z; se : Z; sf : Z; sg : Z; sh : Z }.

(** The constants as FIPS 180-4 defines them: the first 32 bits of the
    fractional parts of the cube roots of the first 64 primes, and of the
    square roots of the first 8. *)
Definition is_prime (n : Z) : bool :=
  forallb (λ d, negb (n mod d =? 0)) (seqZ 2 (n - 2)).
Definition primes_to (n : Z) : list Z := filter (λ p, is_prime p = true) (seqZ 2 (n - 1)).

(** The largest [x < r + 2^bits] with [x^e <= n], bit by bit from the top. *)
Fixpoint root_bits (e n : Z) (bits : nat) (r : Z) : Z :=
  match bits with
  | O => r
  | S m => let x := r + 2 ^ Z.of_nat m in root_bits e n m (if x ^ e <=? n then x else r)
  end.
Definition root_fraction (e p : Z) : Z := u32 (root_bits e (p * 2 ^ (32 * e)) 40 0).

Definition k256 : list Z := Eval vm_compute in root_fraction 3 <$> primes_to 311.

Definition h256 : st8 := Eval vm_compute in
  match root_fraction 2 <$> primes_to 19 with
  | [a; b; c; d; e; f; g; h] => St8 a b c d e f g h
  | _ => St8 0 0 0 0 0 0 0 0
  end.

Definition next256 (w : list Z) : Z :=
  let x1 := nth_word w 1 in let x14 := nth_word w 14 in
  let s0 := Z.lxor (rotr32 7 x1) (Z.lxor (rotr32 18 x1) (Z.shiftr x1 3)) in
  let s1 := Z.lxor (rotr32 17 x14) (Z.lxor (rotr32 19 x14) (Z.shiftr x14 10)) in
  add32 (add32 s1 (nth_word w 9)) (add32 s0 (nth_word w 0)).

Definition round256 (sw : st8 * list Z) (k : Z) : st8 * list Z :=
  let '(St8 a b c d e f g h, w) := sw in
  let s1 := Z.lxor (rotr32 6 e) (Z.lxor (rotr32 11 e) (rotr32 25 e)) in
  let ch := Z.lxor (Z.land e f) (Z.land (not32 e) g) in
  let t1 := add32 (add32 (add32 h s1) (add32 ch k)) (nth_word w 0) in
  let s0 := Z.lxor (rotr32 2 a) (Z.lxor (rotr32 13 a) (rotr32 22 a)) in
  let mj := Z.lxor (Z.land a b) (Z.lxor (Z.land a c) (Z.land b c)) in
  (St8 (add32 t1 (add32 s0 mj)) a b c (add32 d t1) e f g,
   drop 1 w ++ [next256 w]).

Definition block256 (s : st8) (w : list Z) : st8 :=
  let '(St8 a b c d e f g h) := s in
  let '(St8 a' b' c' d' e' f' g' h') := (foldl round256 (s, w) k256).1 in
  St8 (add32 a a') (add32 b b') (add32 c c') (add32 d d')
      (add32 e e') (add32 f f') (add32 g g') (add32 h h').

Definition sha256 (l : list Z) : list Z :=
  let '(St8 a b c d e f g h) := md_run block256 h256 l in
  be_enc 4 a ++ be_enc 4 b ++ be_enc 4 c ++ be_enc 4 d ++
  be_enc 4 e ++ be_enc 4 f ++ be_enc 4 g ++ be_enc 4 h.

(** ** SHA-1 *)
Record st5 := St5 { ta : Z; tb : Z; tc : Z; td : Z; te : Z }.
Definition h1 : st5 := St5 0x67452301 0xefcdab89 0x98badcfe 0x10325476 0xc3d2e1f0.

Definition next1 (w : list Z) : Z :=
  rotl32 1 (Z.lxor (Z.lxor (nth_word w 13) (nth_word w 8))
                   (Z.lxor (nth_word w 2) (nth_word w 0))).

Definition f1 (i b c d : Z) : Z :=
  if i <? 20 then Z.lxor (Z.land b c) (Z.land (not32 b) d)
  else if i <? 40 then Z.lxor b (Z.lxor c d)
  else if i <? 60 then Z.lxor (Z.land b c) (Z.lxor (Z.land b d) (Z.land c d))
  else Z.lxor b (Z.lxor c d).
Definition k1 (i : Z) : Z :=
  if i <? 20 then 0x5a827999 else if i <? 40 then 0x6ed9eba1
  else if i <? 60 then 0x8f1bbcdc else 0xca62c1d6.

Definition round1 (sw : st5 * list Z) (i : Z) : st5 * list Z :=
  let '(St5 a b c d e, w) := sw in
  let t := add32 (add32 (rotl32 5 a) (f1 i b c d))
                 (add32 (add32 e (k1 i)) (nth_word w 0)) in
  (St5 t a (rotl32 30 b) c d, drop 1 w ++ [next1 w]).

Definition block1 (s : st5) (w : list Z) : st5 :=
  let '(St5 a b c d e) := s in
  let '(St5 a' b' c' d' e') := (foldl round1 (s, w) (seqZ 0 80)).1 in
  St5 (add32 a a') (add32 b b') (add32 c c') (add32 d d') (add32 e e').

Definition sha1 (l : list Z) : list Z :=
  let '(St5 a b c d e) := md_run block1 h1 l in
  be_enc 4 a ++ be_enc 4 b ++ be_enc 4 c ++ be_enc 4 d ++ be_enc 4 e.

(** ** HMAC *)
Definition hmac (h : list Z → list Z) (key msg : list Z) : list Z :=
  let k0 := if 64 <? len key then h key else key in
  let k := k0 ++ make_bytes (64 - len k0) in
  h ((Z.lxor 0x5c <$> k) ++ h ((Z.lxor 0x36 <$> k) ++ msg)).

(** ** hash.Hash *)
Record Hash := MkHash { h_fun : list Z → list Z; h_size : Z; h_buf : list Z }.

Definition Hash_Reset (h : Hash) : Hash := MkHash (h_fun h) (h_size h) [].
Definition Hash_Write (h : Hash) (p : list Z) : Hash :=
  MkHash (h_fun h) (h_size h) (h_buf h ++ p).
(** [Sum(b)] appends the digest to [b] and does not change the state. *)
Definition Hash_Sum (h : Hash) (b : list Z) : list Z := b ++ h_fun h (h_buf h).

Definition hmac_sha1_New (key : list Z) : Hash := MkHash (hmac sha1 key) 20 [].
Definition hmac_sha256_New (key : list Z) : Hash := MkHash (hmac sha256 key) 32 [].

(** [crypto/hmac.Equal]: constant-time comparison. *)
Definition hmac_Equal (a b : list Z) : bool := bool_decide (a = b).

(** ** Lemmas *)

Lemma length_sha256 l : length (sha256 l) = 32%nat.
Proof. unfold sha256. destruct (md_run _ _ _). reflexivity. Qed.
Lemma length_sha1 l : length (sha1 l) = 20%nat.
Proof. unfold sha1. destruct (md_run _ _ _). reflexivity. Qed.
Lemma bytesb_sha256 l : bytesb (sha256 l) = true.
Proof.
  unfold sha256. destruct (md_run _ _ _).
  by rewrite !bytesb_app, !bytesb_be_enc.
Qed.
Lemma bytesb_sha1 l : bytesb (sha1 l) = true.
Proof.
  unfold sha1. destruct (md_run _ _ _).
  by rewrite !bytesb_app, !bytesb_be_enc.
Qed.

Lemma len_hmac_sha256 k m : len (hmac sha256 k m) = 32.
Proof. unfold hmac, len. by rewrite length_sha256. Qed.
Lemma len_hmac_sha1 k m : len (hmac sha1 k m) = 20.
Proof. unfold hmac, len. by rewrite length_sha1. Qed.
Lemma bytesb_hmac_sha256 k m : bytesb (hmac sha256 k m) = true.
Proof. apply bytesb_sha256. Qed.
Lemma bytesb_hmac_sha1 k m : bytesb (hmac sha1 k m) = true.
Proof. apply bytesb_sha1. Qed.
#[export] Hint Rewrite len_hmac_sha256 len_hmac_sha1 : go_rw.

(** A hash object is well formed when its function gives [h_size] bytes. *)
Definition hash_ok (h : Hash) : Prop :=
  0 < h_size h ∧ ∀ m, len (h_fun h m) = h_size h ∧ bytesb (h_fun h m) = true.

Lemma hmac_sha1_ok k : hash_ok (hmac_sha1_New k).
Proof. split; [done|]. intros m. split; [apply len_hmac_sha1|apply bytesb_hmac_sha1]. Qed.
Lemma hmac_sha256_ok k : hash_ok (hmac_sha256_New k).
Proof. split; [done|]. intros m. split; [apply len_hmac_sha256|apply bytesb_hmac_sha256]. Qed.
#[export] Hint Resolve hmac_sha1_ok hmac_sha256_ok : go.

(** FIPS 180-4 and RFC 4231 vectors. *)
Definition abc : list Z := [97; 98; 99].
Example sha256_abc : be_dec (sha256 abc) =
  0xba7816bf8f01cfea414140de5dae2223b00361a396177a9cb410ff61f20015ad.
Proof. vm_compute. reflexivity. Qed.
Example sha1_abc : be_dec (sha1 abc) = 0xa9993e364706816aba3e25717850c26c9cd0d89d.
Proof. vm_compute. reflexivity. Qed.
Example hmac_sha256_rfc4231_1 :
  be_dec (hmac sha256 (replicate 20 0x0b) [0x48; 0x69; 0x20; 0x54; 0x68; 0x65; 0x72; 0x65]) =
  0xb0344c61d8db38535ca8afceaf0bf12b881dc200c9833da726e9376c2e32cff7.
Proof. vm_compute. reflexivity. Qed.
