(* ===== verification/Aes.v ===== *)
(** * The Go standard library's [crypto/aes] and [crypto/cipher]

    AES (FIPS 197) with 128-, 192- and 256-bit keys on lists of bytes, the
    [cipher.Block] interface as a record of operations with its laws, and the
    CBC mode of [crypto/cipher]. The theorem of this file is that the inverse
    cipher undoes the cipher, for the block and for CBC. *)

From Stdlib Require Import Btauto.
From S2P Require Import Prelude GoSlice.

(** ** cipher.Block *)
Definition BlockSize : Z := 16.

Record Block := MkBlock {
  bk_Encrypt : list Z → list Z;
  bk_Decrypt : list Z → list Z
}.

Definition blk (l : list Z) : Prop := len l = BlockSize ∧ bytesb l = true.

(** What [cipher.Block] promises to its clients. *)
Class BlockLaws (b : Block) : Prop := {
  enc_blk l : blk l → blk (bk_Encrypt b l);
  dec_blk l : blk l → blk (bk_Decrypt b l);
  dec_enc l : blk l → bk_Decrypt b (bk_Encrypt b l) = l
}.

Definition xor_bytes (a b : list Z) : list Z := zip_with Z.lxor a b.

(** ** GF(2^8) and the S-box *)
Definition xtime (a : Z) : Z := Z.lxor (u8 (2 * a)) (if 128 <=? a then 27 else 0).

Fixpoint gmul (n : nat) (a b : Z) : Z :=
  match n with
  | O => 0
  | S m => Z.lxor (if Z.odd b then a else 0) (gmul m (xtime a) (b / 2))
  end.
Definition gsq (a : Z) : Z := gmul 8 a a.
(** The inverse is the 254th power (0 for 0). *)
Definition ginv (a : Z) : Z :=
  let a2 := gsq a in let a4 := gsq a2 in let a8 := gsq a4 in let a16 := gsq a8 in
  let a32 := gsq a16 in let a64 := gsq a32 in let a128 := gsq a64 in
  gmul 8 a128 (gmul 8 a64 (gmul 8 a32 (gmul 8 a16 (gmul 8 a8 (gmul 8 a4 a2))))).
Definition rotl8 (n x : Z) : Z := u8 (Z.lor (Z.shiftl x n) (Z.shiftr x (8 - n))).
Definition sbox_of (a : Z) : Z :=
  let b := ginv a in
  Z.lxor (Z.lxor b (Z.lxor (rotl8 1 b) (rotl8 2 b)))
         (Z.lxor (Z.lxor (rotl8 3 b) (rotl8 4 b)) 0x63).

Definition sbox_table : list Z := Eval vm_compute in map sbox_of (seqZ 0 256).
Definition inv_sbox_table : list Z := Eval vm_compute in
  map (λ y, match list_find (λ x, x = y) sbox_table with
            | Some (i, _) => Z.of_nat i | None => 0 end) (seqZ 0 256).

Definition sbox (a : Z) : Z := default 0 (sbox_table !! Z.to_nat a).
Definition inv_sbox (a : Z) : Z := default 0 (inv_sbox_table !! Z.to_nat a).

(** ** The round transformations *)
Definition pick (s : list Z) (ix : list nat) : list Z :=
  (λ i, default 0 (s !! i)) <$> ix.

Definition ShiftRows (s : list Z) : list Z :=
  pick s [0; 5; 10; 15; 4; 9; 14; 3; 8; 13; 2; 7; 12; 1; 6; 11]%nat.
Definition InvShiftRows (s : list Z) : list Z :=
  pick s [0; 13; 10; 7; 4; 1; 14; 11; 8; 5; 2; 15; 12; 9; 6; 3]%nat.

Definition m2 (a : Z) : Z := xtime a.
Definition m3 (a : Z) : Z := Z.lxor (xtime a) a.
Definition m9 (a : Z) : Z := Z.lxor (xtime (xtime (xtime a))) a.
Definition m11 (a : Z) : Z := Z.lxor (m9 a) (xtime a).
Definition m13 (a : Z) : Z := Z.lxor (m9 a) (xtime (xtime a)).
Definition m14 (a : Z) : Z :=
  Z.lxor (xtime (xtime (xtime a))) (Z.lxor (xtime (xtime a)) (xtime a)).

Definition comb (f g h k : Z → Z) (a b c d : Z) : Z :=
  Z.lxor (Z.lxor (f a) (g b)) (Z.lxor (h c) (k d)).
Definition mix1 (a b c d : Z) : list Z :=
  [comb m2 m3 id id a b c d; comb id m2 m3 id a b c d;
   comb id id m2 m3 a b c d; comb m3 id id m2 a b c d].
Definition inv_mix1 (a b c d : Z) : list Z :=
  [comb m14 m11 m13 m9 a b c d; comb m9 m14 m11 m13 a b c d;
   comb m13 m9 m14 m11 a b c d; comb m11 m13 m9 m14 a b c d].

Fixpoint columns (f : Z → Z → Z → Z → list Z) (s : list Z) : list Z :=
  match s with
  | a :: b :: c :: d :: s' => f a b c d ++ columns f s'
  | _ => []
  end.
Definition MixColumns : list Z → list Z := columns mix1.
Definition InvMixColumns : list Z → list Z := columns inv_mix1.

Definition aes_round (s k : list Z) : list Z :=
  xor_bytes (MixColumns (ShiftRows (sbox <$> s))) k.
Definition aes_inv_round (k s : list Z) : list Z :=
  inv_sbox <$> InvShiftRows (InvMixColumns (xor_bytes s k)).
Definition aes_last (s k : list Z) : list Z := xor_bytes (ShiftRows (sbox <$> s)) k.
Definition aes_inv_last (k s : list Z) : list Z :=
  inv_sbox <$> InvShiftRows (xor_bytes s k).

(** ** Key expansion *)
Definition key_word (w : list (list Z)) (i : nat) : list Z := default (make_bytes 4) (w !! i).

Definition rcon (i : nat) : Z := Nat.iter (i - 1) xtime 1.
Definition rot_word (w : list Z) : list Z := drop 1 w ++ take 1 w.

Definition next_word (nk : nat) (w : list (list Z)) : list Z :=
  let i := length w in
  let t := key_word w (i - 1) in
  let t' :=
    if (i mod nk =? 0)%nat then
      xor_bytes (sbox <$> rot_word t) [rcon (i / nk); 0; 0; 0]
    else if ((6 <? nk) && (i mod nk =? 4))%nat then sbox <$> t
    else t in
  xor_bytes (key_word w (i - nk)) t'.

Fixpoint key_words (nk : nat) (key : list Z) : list (list Z) :=
  match nk with O => [] | S m => take 4 key :: key_words m (drop 4 key) end.

Definition expand (nk : nat) (key : list Z) : list (list Z) :=
  Nat.iter (4 * (nk + 7) - nk) (λ w, w ++ [next_word nk w]) (key_words nk key).

Definition round_key (w : list (list Z)) (i : nat) : list Z :=
  key_word w (4 * i) ++ key_word w (4 * i + 1) ++
  key_word w (4 * i + 2) ++ key_word w (4 * i + 3).

Definition aes_encrypt (nr : nat) (w : list (list Z)) (s : list Z) : list Z :=
  aes_last
    (foldl aes_round (xor_bytes s (round_key w 0)) (round_key w <$> seq 1 (nr - 1)))
    (round_key w nr).
Definition aes_decrypt (nr : nat) (w : list (list Z)) (s : list Z) : list Z :=
  xor_bytes
    (foldr aes_inv_round (aes_inv_last (round_key w nr) s)
       (round_key w <$> seq 1 (nr - 1)))
    (round_key w 0).

(** [aes.NewCipher]: an error for a key of another length. *)
Definition aes_NewCipher (key : list Z) : res Block :=
  if (len key =? 16) || (len key =? 24) || (len key =? 32) then
    let nk := (length key / 4)%nat in
    let w := expand nk key in
    Ok (MkBlock (aes_encrypt (nk + 6) w) (aes_decrypt (nk + 6) w))
  else Err "crypto/aes: invalid key size".

(** ** CBC *)
Fixpoint cbc_enc (b : Block) (n : nat) (iv l : list Z) : list Z :=
  match n with
  | O => []
  | S m =>
      let c := bk_Encrypt b (xor_bytes (take 16 l) iv) in
      c ++ cbc_enc b m c (drop 16 l)
  end.
Fixpoint cbc_dec (b : Block) (n : nat) (iv l : list Z) : list Z :=
  match n with
  | O => []
  | S m =>
      let c := take 16 l in
      xor_bytes (bk_Decrypt b c) iv ++ cbc_dec b m c (drop 16 l)
  end.

(** [cipher.NewCBCEncrypter(b, iv)] followed by [CryptBlocks(dst, src)] on a
    destination as long as the source: both panic on a length that is not the
    block's. *)
Definition CBC_Encrypt (b : Block) (iv src : list Z) : res (list Z) :=
  if negb (len iv =? BlockSize) then Panic
  else if negb (len src mod BlockSize =? 0) then Panic
  else Ok (cbc_enc b (length src / 16) iv src).
Definition CBC_Decrypt (b : Block) (iv src : list Z) : res (list Z) :=
  if negb (len iv =? BlockSize) then Panic
  else if negb (len src mod BlockSize =? 0) then Panic
  else Ok (cbc_dec b (length src / 16) iv src).

(** FIPS 197, appendix C.1 and C.3. *)
Definition fips_plain : list Z := be_enc 16 0x00112233445566778899aabbccddeeff.
Example aes128_vector :
  (b ← aes_NewCipher (be_enc 16 0x000102030405060708090a0b0c0d0e0f);
   Ok (be_dec (bk_Encrypt b fips_plain))) = Ok 0x69c4e0d86a7b0430d8cdb78070b4c55a.
Proof. vm_compute. reflexivity. Qed.
Example aes256_vector :
  (b ← aes_NewCipher (be_enc 32 0x000102030405060708090a0b0c0d0e0f101112131415161718191a1b1c1d1e1f);
   Ok (be_dec (bk_Encrypt b fips_plain))) = Ok 0x8ea2b7ca516745bfeafc49904b496089.
Proof. vm_compute. reflexivity. Qed.
Example aes192_vector :
  (b ← aes_NewCipher (be_enc 24 0x000102030405060708090a0b0c0d0e0f1011121314151617);
   Ok (be_dec (bk_Decrypt b (be_enc 16 0xdda97ca4864cdfe06eaf70a0ec0d7191)))) = Ok 0x00112233445566778899aabbccddeeff.
Proof. vm_compute. reflexivity. Qed.

(** ** Bytes of GF(2^8) *)

Lemma byte_cases2 (P : Z → Z → bool) :
  forallb (λ a, forallb (P a) (seqZ 0 256)) (seqZ 0 256) = true →
  ∀ a b, u8b a = true → u8b b = true → P a b = true.
Proof.
  intros H a b Ha. revert b. apply byte_cases. by apply (byte_cases (λ a, _) H).
Qed.

Lemma u8b_lxor a b : u8b a = true → u8b b = true → u8b (Z.lxor a b) = true.
Proof.
  apply (byte_cases2 (λ a b, u8b (Z.lxor a b))). vm_compute. reflexivity.
Qed.

Lemma u8b_xtime a : u8b a = true → u8b (xtime a) = true.
Proof. apply (byte_cases (λ a, u8b (xtime a))). vm_compute. reflexivity. Qed.

Lemma xtime_lxor a b :
  u8b a = true → u8b b = true → xtime (Z.lxor a b) = Z.lxor (xtime a) (xtime b).
Proof.
  intros Ha Hb. apply Z.eqb_eq. revert a b Ha Hb.
  apply (byte_cases2 (λ a b, _ =? _)). vm_compute. reflexivity.
Qed.

Lemma u8b_sbox a : u8b a = true → u8b (sbox a) = true.
Proof. apply (byte_cases (λ a, u8b (sbox a))). vm_compute. reflexivity. Qed.
Lemma u8b_inv_sbox a : u8b a = true → u8b (inv_sbox a) = true.
Proof. apply (byte_cases (λ a, u8b (inv_sbox a))). vm_compute. reflexivity. Qed.

Lemma inv_sbox_sbox a : u8b a = true → inv_sbox (sbox a) = a.
Proof.
  intros Ha. apply Z.eqb_eq. revert a Ha.
  apply (byte_cases (λ a, _ =? _)). vm_compute. reflexivity.
Qed.

#[export] Hint Resolve u8b_lxor u8b_xtime u8b_sbox u8b_inv_sbox : go.

(** ** MixColumns

    Multiplication by a constant is linear, so the coefficients of the two
    matrices cancel without a reduction in GF(2^8). *)
Ltac xor_cancel :=
  apply Z.bits_inj'; intros ? _; rewrite !Z.lxor_spec; btauto.

Lemma inv_mix1_mix1 a b c d :
  u8b a = true → u8b b = true → u8b c = true → u8b d = true →
  match mix1 a b c d with
  | [x; y; z; t] => inv_mix1 x y z t
  | _ => []
  end = [a; b; c; d].
Proof.
  intros. unfold mix1, inv_mix1, comb, m14, m13, m11, m9, m3, m2, id.
  rewrite !xtime_lxor by auto 12 with go. repeat f_equal; xor_cancel.
Qed.

(** ** Blocks *)

(** A block is sixteen bytes. *)
Ltac sixteen s H :=
  let Hl := fresh in
  assert (Hl : length s = 16%nat) by (unfold blk, len, BlockSize in H; lia);
  do 16 (destruct s as [|? s]; [discriminate Hl|]);
  destruct s; [clear Hl|discriminate Hl].

Lemma blk_bytes s : blk s → bytesb s = true.
Proof. by intros [? ?]. Qed.

Lemma bytesb_map (f : Z → Z) s :
  (∀ a, u8b a = true → u8b (f a) = true) → bytesb s = true → bytesb (f <$> s) = true.
Proof.
  intros Hf. induction s as [|x s IH]; [done|]. intros H. bools.
  rewrite fmap_cons. bsplit; auto.
Qed.

Lemma blk_map (f : Z → Z) s :
  (∀ a, u8b a = true → u8b (f a) = true) → blk s → blk (f <$> s).
Proof.
  intros Hf [Hl Hb]. split; [unfold len in *; by rewrite length_fmap|].
  by apply bytesb_map.
Qed.

Lemma map_map_id (f g : Z → Z) s :
  (∀ a, u8b a = true → f (g a) = a) → bytesb s = true → f <$> (g <$> s) = s.
Proof.
  intros Hf. induction s as [|x s IH]; [done|]. intros H. bools.
  rewrite !fmap_cons, Hf, IH; done.
Qed.

Lemma bytesb_xor a b : bytesb a = true → bytesb b = true → bytesb (xor_bytes a b) = true.
Proof.
  revert b. induction a as [|x a IH]; intros [|y b]; try done. simpl. intros. bools.
  bsplit; [by apply u8b_lxor|by apply IH].
Qed.

Lemma len_xor a b : len a = len b → len (xor_bytes a b) = len a.
Proof. unfold len, xor_bytes. intros. rewrite length_zip_with. lia. Qed.

Lemma blk_xor a b : blk a → blk b → blk (xor_bytes a b).
Proof.
  intros [? ?] [? ?]. split; [rewrite len_xor; congruence|by apply bytesb_xor].
Qed.

Lemma xor_xor a b : len a = len b → xor_bytes (xor_bytes a b) b = a.
Proof.
  unfold len. revert b. induction a as [|x a IH]; intros [|y b] H; simpl in *; try done; try lia.
  f_equal; [|apply IH; lia].
  by rewrite Z.lxor_assoc, Z.lxor_nilpotent, Z.lxor_0_r.
Qed.

Lemma blk_xor_xor a b : blk a → blk b → xor_bytes (xor_bytes a b) b = a.
Proof. intros [? _] [? _]. apply xor_xor. congruence. Qed.

Lemma blk_ShiftRows s : blk s → blk (ShiftRows s).
Proof.
  intros H. pose proof (blk_bytes _ H) as Hb. sixteen s H. split; [done|].
  bools. unfold ShiftRows. simpl. by bsplit.
Qed.
Lemma blk_InvShiftRows s : blk s → blk (InvShiftRows s).
Proof.
  intros H. pose proof (blk_bytes _ H) as Hb. sixteen s H. split; [done|].
  bools. unfold InvShiftRows. simpl. by bsplit.
Qed.
Lemma InvShiftRows_ShiftRows s : blk s → InvShiftRows (ShiftRows s) = s.
Proof. intros H. sixteen s H. reflexivity. Qed.

Lemma bytesb_mix1 a b c d :
  bytesb [a; b; c; d] = true → bytesb (mix1 a b c d) = true.
Proof.
  intros. bools. unfold mix1, comb, m3, m2, id. bsplit; auto 12 with go.
Qed.
Lemma bytesb_inv_mix1 a b c d :
  bytesb [a; b; c; d] = true → bytesb (inv_mix1 a b c d) = true.
Proof.
  intros. bools. unfold inv_mix1, comb, m14, m13, m11, m9, id. bsplit; auto 12 with go.
Qed.

Lemma blk_columns f s :
  (∀ a b c d, length (f a b c d) = 4%nat) →
  (∀ a b c d, bytesb [a; b; c; d] = true → bytesb (f a b c d) = true) →
  blk s → blk (columns f s).
Proof.
  intros Hl Hf H. pose proof (blk_bytes _ H) as Hb. sixteen s H.
  cbn [columns]. split.
  - unfold len. by rewrite !length_app, !Hl.
  - bools. bsplit; apply Hf; by bsplit.
Qed.
Lemma blk_MixColumns s : blk s → blk (MixColumns s).
Proof. apply blk_columns; [done|apply bytesb_mix1]. Qed.
Lemma blk_InvMixColumns s : blk s → blk (InvMixColumns s).
Proof. apply blk_columns; [done|apply bytesb_inv_mix1]. Qed.

Lemma InvMix_Mix_col a b c d s :
  bytesb [a; b; c; d] = true →
  InvMixColumns (MixColumns (a :: b :: c :: d :: s)) =
    a :: b :: c :: d :: InvMixColumns (MixColumns s).
Proof.
  intros H. bools.
  pose proof (inv_mix1_mix1 a b c d) as E.
  unfold InvMixColumns, MixColumns in *. cbn [columns].
  unfold mix1 in *. cbn [columns app]. rewrite E by done. done.
Qed.
Lemma InvMix_Mix s : blk s → InvMixColumns (MixColumns s) = s.
Proof.
  intros H. pose proof (blk_bytes _ H) as Hb. sixteen s H. bools.
  rewrite !InvMix_Mix_col by bsplit.
  reflexivity.
Qed.

#[export] Hint Resolve blk_xor blk_map blk_ShiftRows blk_InvShiftRows
  blk_MixColumns blk_InvMixColumns blk_bytes : go.

(** ** Rounds *)

Lemma blk_round s k : blk s → blk k → blk (aes_round s k).
Proof. intros. unfold aes_round. auto 8 with go. Qed.
Lemma blk_last s k : blk s → blk k → blk (aes_last s k).
Proof. intros. unfold aes_last. auto 8 with go. Qed.
Lemma blk_inv_round s k : blk s → blk k → blk (aes_inv_round k s).
Proof. intros. unfold aes_inv_round. auto 8 with go. Qed.
Lemma blk_inv_last s k : blk s → blk k → blk (aes_inv_last k s).
Proof. intros. unfold aes_inv_last. auto 8 with go. Qed.

Lemma inv_round_round s k : blk s → blk k → aes_inv_round k (aes_round s k) = s.
Proof.
  intros. unfold aes_inv_round, aes_round.
  rewrite blk_xor_xor, InvMix_Mix, InvShiftRows_ShiftRows by auto 8 with go.
  apply map_map_id; auto using inv_sbox_sbox with go.
Qed.
Lemma inv_last_last s k : blk s → blk k → aes_inv_last k (aes_last s k) = s.
Proof.
  intros. unfold aes_inv_last, aes_last.
  rewrite blk_xor_xor, InvShiftRows_ShiftRows by auto 8 with go.
  apply map_map_id; auto using inv_sbox_sbox with go.
Qed.

Lemma blk_rounds ks s : Forall blk ks → blk s → blk (foldl aes_round s ks).
Proof. intros Hk. revert s. induction Hk; simpl; auto using blk_round. Qed.
Lemma blk_inv_rounds ks s : Forall blk ks → blk s → blk (foldr aes_inv_round s ks).
Proof. intros Hk. revert s. induction Hk; simpl; auto using blk_inv_round. Qed.
Lemma inv_rounds_rounds ks s :
  Forall blk ks → blk s → foldr aes_inv_round (foldl aes_round s ks) ks = s.
Proof.
  intros Hk. revert s. induction Hk as [|k ks Hb Hk IH]; intros s Hs; [done|].
  simpl. rewrite IH by auto using blk_round. by apply inv_round_round.
Qed.

(** ** Key schedule: every round key is a block *)
Definition word_ok (w : list Z) : Prop := len w = 4 ∧ bytesb w = true.

Lemma word_key_word w i : Forall word_ok w → word_ok (key_word w i).
Proof.
  intros H. unfold key_word. destruct (w !! i) eqn:E; [|done].
  by eapply Forall_lookup_1 in E.
Qed.
Lemma word_xor a b : word_ok a → word_ok b → word_ok (xor_bytes a b).
Proof.
  intros [? ?] [? ?]. split; [rewrite len_xor; congruence|by apply bytesb_xor].
Qed.
Lemma word_sub w : word_ok w → word_ok (sbox <$> w).
Proof.
  intros [? ?]. split; [unfold len in *; by rewrite length_fmap|].
  apply bytesb_map; auto using u8b_sbox.
Qed.
Lemma word_rot w : word_ok w → word_ok (rot_word w).
Proof.
  intros [H Hb]. unfold rot_word. split.
  - unfold len in *. rewrite length_app, length_drop, length_take. lia.
  - rewrite bytesb_app, bytesb_drop, bytesb_take; done.
Qed.
Lemma u8b_rcon i : u8b (rcon i) = true.
Proof.
  unfold rcon. generalize (i - 1)%nat. intros n.
  induction n; simpl; [done|]. auto with go.
Qed.
Lemma word_next nk w : Forall word_ok w → word_ok (next_word nk w).
Proof.
  intros H. unfold next_word.
  apply word_xor; [by apply word_key_word|].
  destruct (_ =? _)%nat.
  - apply word_xor; [apply word_sub, word_rot; by apply word_key_word|].
    split; [done|]. bsplit. by rewrite u8b_rcon.
  - destruct (_ && _); [apply word_sub|]; by apply word_key_word.
Qed.
Lemma words_key nk key :
  len key = 4 * Z.of_nat nk → bytesb key = true → Forall word_ok (key_words nk key).
Proof.
  revert key. induction nk as [|n IH]; intros key Hl Hb; [constructor|].
  simpl. constructor.
  - split; [|by apply bytesb_take]. unfold len in *. rewrite length_take. lia.
  - apply IH; [|by apply bytesb_drop]. unfold len in *. rewrite length_drop. lia.
Qed.
Lemma words_expand nk key :
  len key = 4 * Z.of_nat nk → bytesb key = true → Forall word_ok (expand nk key).
Proof.
  intros Hl Hb. unfold expand. generalize (4 * (nk + 7) - nk)%nat. intros n.
  induction n as [|n IH]; simpl; [by apply words_key|].
  apply Forall_app. split; [done|]. constructor; [by apply word_next|done].
Qed.
Lemma blk_round_key w i : Forall word_ok w → blk (round_key w i).
Proof.
  intros H. unfold round_key. split.
  - rewrite !len_app, !(proj1 (word_key_word _ _ H)). done.
  - rewrite !bytesb_app, !(proj2 (word_key_word _ _ H)). done.
Qed.
Lemma blk_round_keys w ix : Forall word_ok w → Forall blk (round_key w <$> ix).
Proof. intros H. apply Forall_fmap, Forall_true. intros i. by apply blk_round_key. Qed.

Lemma aes_laws nr w : Forall word_ok w →
  BlockLaws (MkBlock (aes_encrypt nr w) (aes_decrypt nr w)).
Proof.
  intros Hw. pose proof (blk_round_key w) as Hk.
  split; simpl; intros s Hs; unfold aes_encrypt, aes_decrypt.
  - auto 8 using blk_last, blk_rounds, blk_round_keys with go.
  - auto 8 using blk_inv_last, blk_inv_rounds, blk_round_keys with go.
  - rewrite inv_last_last by auto 8 using blk_rounds, blk_round_keys with go.
    rewrite inv_rounds_rounds by auto 8 using blk_round_keys with go.
    auto using blk_xor_xor.
Qed.

(** [aes.NewCipher] gives a block cipher whose decryption inverts its
    encryption. *)
Lemma aes_NewCipher_laws key b :
  bytesb key = true → aes_NewCipher key = Ok b → BlockLaws b.
Proof.
  unfold aes_NewCipher. intros Hb. destruct (_ || _) eqn:E; [|done].
  assert (Hk : len key = 4 * Z.of_nat (length key / 4)).
  { rewrite Nat2Z.inj_div. unfold len in *. rewrite !orb_true_iff, !Z.eqb_eq in E.
    destruct E as [[-> | ->] | ->]; done. }
  revert Hk. generalize (length key / 4)%nat. intros nk Hk [= <-].
  by apply aes_laws, words_expand.
Qed.

Lemma aes_NewCipher_total key :
  len key = 16 ∨ len key = 24 ∨ len key = 32 → ∃ b, aes_NewCipher key = Ok b.
Proof.
  unfold aes_NewCipher.
  intros [-> | [-> | ->]]; eexists; reflexivity.
Qed.

(** ** CBC inverts CBC *)
Section cbc.
Context (b : Block) {HB : BlockLaws b}.

Lemma blk_take l : 16 ≤ len l → bytesb l = true → blk (take 16 l).
Proof.
  intros. split; [|by apply bytesb_take].
  unfold len, BlockSize in *. rewrite length_take. lia.
Qed.

Lemma len_cbc_enc n iv l :
  blk iv → len l = 16 * Z.of_nat n → bytesb l = true →
  len (cbc_enc b n iv l) = len l ∧ bytesb (cbc_enc b n iv l) = true.
Proof.
  revert iv l. induction n as [|n IH]; intros iv l Hiv Hl Hb; [by split|].
  assert (Hc : blk (bk_Encrypt b (xor_bytes (take 16 l) iv))).
  { apply enc_blk, blk_xor; [apply blk_take; [lia|done]|done]. }
  simpl. destruct (IH (bk_Encrypt b (xor_bytes (take 16 l) iv)) (drop 16 l)) as [E1 E2];
    [done| |by apply bytesb_drop|].
  - unfold len in *. rewrite length_drop. lia.
  - destruct Hc as [Hc1 Hc2]. rewrite len_app, bytesb_app, Hc1, Hc2, E1, E2.
    split; [|done]. unfold len, BlockSize in *. rewrite length_drop. lia.
Qed.

Lemma cbc_dec_enc n iv l :
  blk iv → len l = 16 * Z.of_nat n → bytesb l = true →
  cbc_dec b n iv (cbc_enc b n iv l) = l.
Proof.
  revert iv l. induction n as [|n IH]; intros iv l Hiv Hl Hb.
  - simpl. symmetry. apply len_zero_nil. lia.
  - assert (Ht : blk (take 16 l)) by (apply blk_take; [lia|done]).
    assert (Hc : blk (bk_Encrypt b (xor_bytes (take 16 l) iv)))
      by (by apply enc_blk, blk_xor).
    assert (Hl16 : length (bk_Encrypt b (xor_bytes (take 16 l) iv)) = 16%nat)
      by (destruct Hc as [Hc _]; unfold len, BlockSize in Hc; lia).
    simpl. rewrite take_app_length' , drop_app_length' by done.
    rewrite dec_enc by (by apply blk_xor). rewrite blk_xor_xor by done.
    rewrite IH; [apply take_drop|done| |by apply bytesb_drop].
    unfold len in *. rewrite length_drop. lia.
Qed.

Lemma len_cbc_dec n iv l :
  blk iv → len l = 16 * Z.of_nat n → bytesb l = true →
  len (cbc_dec b n iv l) = len l ∧ bytesb (cbc_dec b n iv l) = true.
Proof.
  revert iv l. induction n as [|n IH]; intros iv l Hiv Hl Hb; [by split|].
  assert (Ht : blk (take 16 l)) by (apply blk_take; [lia|done]).
  assert (Hc : blk (xor_bytes (bk_Decrypt b (take 16 l)) iv)) by by apply blk_xor, Hiv; apply dec_blk.
  simpl. destruct (IH (take 16 l) (drop 16 l)) as [E1 E2]; [done| |by apply bytesb_drop|].
  - unfold len in *. rewrite length_drop. lia.
  - destruct Hc as [Hc1 Hc2]. rewrite len_app, bytesb_app, Hc1, Hc2, E1, E2.
    split; [|done]. unfold len, BlockSize in *. rewrite length_drop. lia.
Qed.
End cbc.
