(* ===== verification/Lib.v ===== *)
(** * security/lib: padding and the key stream, and [crypto/rand]

    Randomness is a tape of bytes threaded through the calls: a read takes the
    bytes it asks for from the front and fails on a tape that is too short.
    [PrfPlus] is prf+ of RFC 7296, section 2.13. *)

From S2P Require Import Prelude GoSlice Hash.

(** ** crypto/rand *)
Definition tape : Type := list Z.

(** [rand.Read(b)] and [io.ReadFull(rand.Reader, b)] for a buffer of [n] bytes. *)
Definition rand_read (n : Z) (r : tape) : res (list Z * tape) :=
  if n <=? len r then Ok (take (Z.to_nat n) r, drop (Z.to_nat n) r)
  else Err "rand: read failed".

(** ** PKCS7Padding *)
Definition PKCS7Padding (plainText : list Z) (blockSize : Z) (r : tape)
    : res (list Z * tape) :=
  if blockSize =? 0 then Panic else
  let padding := blockSize - Z.rem (len plainText) blockSize in
  let padding := if padding =? 0 then blockSize else padding in
  if (padding <? 0) || (padding >? 255) then
    Err "PKCS7Padding: invalid padding size"
  else
    '(paddingText, r) ← wrap "PKCS7Padding(): " (rand_read padding r);
    paddingText ← set_byte (length paddingText - 1) (u8 (padding - 1)) paddingText;
    Ok (plainText ++ paddingText, r).

(** ** PrfPlus *)

(** One turn of the loop: [prf.Reset(); prf.Write(block | s | byte(i));
    stream = prf.Sum(stream); block = stream[len(stream)-prf.Size():]]. *)
Definition PrfPlus_step (prf : Hash) (s stream block : list Z) (i : Z)
    : res (Hash * list Z * list Z) :=
  let prf := Hash_Write (Hash_Reset prf) (block ++ s ++ [u8 i]) in
  let stream := Hash_Sum prf stream in
  block ← sfrom (of_bytes stream) (len stream - h_size prf);
  Ok (prf, stream, vis block).

Fixpoint PrfPlus_loop (fuel : nat) (prf : Hash) (s stream block : list Z)
    (i streamLen : Z) : res (Hash * list Z) :=
  if len stream <? streamLen then
    match fuel with
    | O => Diverge
    | S fuel =>
        '(prf, stream, block) ← PrfPlus_step prf s stream block i;
        PrfPlus_loop fuel prf s stream block (i + 1) streamLen
    end
  else Ok (prf, stream).

(** The stream is nil, not only empty, when the loop does not run: the result
    is an option. A hash has at least one byte of output, so [streamLen] turns
    are enough fuel. *)
Definition PrfPlus (prf : Hash) (s : list Z) (streamLen : Z)
    : res (option (list Z) * Hash) :=
  '(prf, stream) ← PrfPlus_loop (Z.to_nat streamLen) prf s [] [] 1 streamLen;
  out ← sto (of_bytes stream) streamLen;
  Ok (if 0 <? streamLen then Some (vis out) else None, prf).

(** ** The specification of prf+ *)

(** T1 = prf(K, S | 0x01), T(i+1) = prf(K, Ti | S | i+1). *)
Fixpoint prf_T (prf : list Z → list Z) (s : list Z) (n : nat) : list Z :=
  match n with
  | O => []
  | S m => prf (prf_T prf s m ++ s ++ [u8 (Z.of_nat n)])
  end.

Fixpoint prf_stream (prf : list Z → list Z) (s : list Z) (n : nat) : list Z :=
  match n with
  | O => []
  | S m => prf_stream prf s m ++ prf_T prf s n
  end.

(** prf+ (K, S) is T1 | T2 | ..., cut to the length asked for. *)
Definition prf_plus (prf : list Z → list Z) (s : list Z) (n : Z) : list Z :=
  take (Z.to_nat n) (prf_stream prf s (Z.to_nat n)).

(** ** Lemmas *)

Lemma rand_read_ok n r : 0 ≤ n ≤ len r →
  rand_read n r = Ok (take (Z.to_nat n) r, drop (Z.to_nat n) r).
Proof. intros. unfold rand_read. by ztests. Qed.

Lemma rand_read_inv n r b r' :
  0 ≤ n → rand_read n r = Ok (b, r') → r = b ++ r' ∧ len b = n.
Proof.
  unfold rand_read. intros Hn. destruct (_ <=? _) eqn:E; [|done]. bools. intros [= <- <-].
  split; [by rewrite take_drop|]. unfold len in *. rewrite length_take. lia.
Qed.

(** Padding makes the length a multiple of the block; the last byte tells how
    many bytes precede it in the padding. *)
Lemma PKCS7Padding_inv p bs r out r' :
  0 < bs ≤ 255 → bytesb r = true → PKCS7Padding p bs r = Ok (out, r') →
  ∃ pad q, out = p ++ pad ++ [q] ∧ q = len pad ∧ 0 ≤ q < bs ∧
           len out mod bs = 0 ∧ bytesb (pad ++ [q]) = true ∧ bytesb r' = true.
Proof.
  intros Hbs Hr. unfold PKCS7Padding. rewrite Z.rem_mod_nonneg by (pose proof (len_nonneg p); lia).
  pose proof (Z.mod_pos_bound (len p) bs) as Hm.
  ztests. intros H. inv_res.
  destruct a as [t r1]. apply rand_read_inv in E as [-> Ht]; [|lia].
  inv_res. unfold set_byte in E. destruct (t !! _) eqn:L; [|done]. inv_res.
  destruct t as [|x pad _] using rev_ind; [done|].
  rewrite length_app in *. simpl length in *.
  replace (length pad + 1 - 1)%nat with (length pad + 0)%nat in * by lia.
  rewrite insert_app_r. simpl. rewrite len_app, len_cons, len_nil in Ht.
  rewrite u8_small by lia. bools.
  exists pad, (bs - len p mod bs - 1). repeat split; try lia.
  - rewrite !len_app, len_cons, len_nil.
    replace (len p + (len pad + (1 + 0))) with (bs * (len p / bs + 1)).
    + rewrite Z.mul_comm. apply Z.mod_mul. lia.
    + rewrite (Z.div_mod (len p) bs) at 2 by lia. lia.
  - bsplit. unfold u8b. by ztests.
  - done.
Qed.

Lemma PKCS7Padding_total p bs r :
  0 < bs ≤ 255 → bs ≤ len r → ∃ out r', PKCS7Padding p bs r = Ok (out, r').
Proof.
  intros Hbs Hr. unfold PKCS7Padding. rewrite Z.rem_mod_nonneg by (pose proof (len_nonneg p); lia).
  pose proof (Z.mod_pos_bound (len p) bs) as Hm.
  ztests. rewrite rand_read_ok by lia. simpl.
  unfold set_byte.
  destruct (take _ r !! _) eqn:L; [by eexists _, _|].
  exfalso. apply lookup_ge_None in L. rewrite length_take in L. unfold len in Hr. lia.
Qed.

Section prfplus.
Context (prf0 : Hash) (s : list Z) (Hok : hash_ok prf0).
Local Abbreviation f := (h_fun prf0).
Local Abbreviation sz := (h_size prf0).

Lemma len_prf_T n : (0 < n)%nat → len (prf_T f s n) = sz.
Proof. destruct n; [lia|]. intros _. apply Hok. Qed.

Lemma len_prf_stream n : len (prf_stream f s n) = Z.of_nat n * sz.
Proof.
  induction n as [|n IH]; [done|]. cbn [prf_stream].
  rewrite len_app, IH, len_prf_T by lia. lia.
Qed.

Lemma bytesb_prf_stream n : bytesb (prf_stream f s n) = true.
Proof.
  induction n as [|n IH]; [done|]. cbn [prf_stream]. bsplit. apply Hok.
Qed.

Definition same_hash (h : Hash) : Prop := h_fun h = f ∧ h_size h = sz.

(** A turn of the loop appends the next T. *)
Lemma PrfPlus_step_spec h n :
  same_hash h →
  ∃ h', same_hash h' ∧
    PrfPlus_step h s (prf_stream f s n) (prf_T f s n) (Z.of_nat n + 1) =
      Ok (h', prf_stream f s (S n), prf_T f s (S n)).
Proof.
  intros [Hf Hs]. unfold PrfPlus_step, Hash_Sum. cbn [Hash_Write Hash_Reset h_fun h_size h_buf app].
  rewrite Hf, Hs. replace (Z.of_nat n + 1) with (Z.of_nat (S n)) by lia.
  change (f (prf_T f s n ++ s ++ [u8 (Z.of_nat (S n))])) with (prf_T f s (S n)).
  change (prf_stream f s n ++ prf_T f s (S n)) with (prf_stream f s (S n)).
  pose proof (len_prf_stream (S n)) as L1. pose proof (len_prf_stream n) as L0.
  destruct Hok as [Hsz _].
  rewrite sfrom_ok by (unfold slen; cbn [vis of_bytes]; nia).
  eexists. split; [|cbn [mbind res_bind vis of_bytes]; do 2 f_equal].
  - done.
  - replace (Z.to_nat _) with (length (prf_stream f s n)).
    + change (prf_stream f s (S n)) with (prf_stream f s n ++ prf_T f s (S n)).
      by rewrite drop_app_length.
    + rewrite L1. replace (_ - sz) with (Z.of_nat n * sz) by lia.
      rewrite <- L0. unfold len. lia.
Qed.

Lemma PrfPlus_loop_spec fuel h n L :
  same_hash h → L ≤ (Z.of_nat n + Z.of_nat fuel) * sz →
  ∃ h' m, same_hash h' ∧ L ≤ Z.of_nat m * sz ∧
    PrfPlus_loop fuel h s (prf_stream f s n) (prf_T f s n) (Z.of_nat n + 1) L =
      Ok (h', prf_stream f s m).
Proof.
  revert h n. induction fuel as [|fuel IH]; intros h n Hh HL.
  - exists h, n. simpl. rewrite len_prf_stream. ztests.
    split_and!; [done|lia|done].
  - cbn [PrfPlus_loop]. rewrite len_prf_stream.
    destruct (Z.ltb_spec (Z.of_nat n * sz) L) as [Hlt|Hge].
    + destruct (PrfPlus_step_spec h n Hh) as (h1 & Hh1 & ->). cbn [mbind res_bind].
      destruct (IH h1 (S n) Hh1) as (h' & m & ? & ? & E); [nia|].
      exists h', m. replace (Z.of_nat n + 1 + 1) with (Z.of_nat (S n) + 1) by lia.
      by split_and!.
    + exists h, n. split_and!; [done|lia|done].
Qed.
End prfplus.

Lemma take_prf_stream prf0 s m k L :
  hash_ok prf0 → L ≤ Z.of_nat m * h_size prf0 → (m ≤ k)%nat →
  take (Z.to_nat L) (prf_stream (h_fun prf0) s k) =
  take (Z.to_nat L) (prf_stream (h_fun prf0) s m).
Proof.
  intros Hok HL. induction 1 as [|k Hk IH]; [done|]. cbn [prf_stream].
  rewrite take_app_le; [done|].
  pose proof (len_prf_stream prf0 s Hok k) as E. unfold len in E.
  destruct Hok. nia.
Qed.

(** [PrfPlus] computes prf+, with exactly the length asked for. *)
Lemma PrfPlus_spec prf0 s L :
  hash_ok prf0 → 0 < L →
  ∃ h, same_hash prf0 h ∧
    PrfPlus prf0 s L = Ok (Some (prf_plus (h_fun prf0) s L), h).
Proof.
  intros Hok HL. pose proof Hok as [Hsz Hf]. unfold PrfPlus.
  destruct (PrfPlus_loop_spec prf0 s Hok (Z.to_nat L) prf0 0 L)
    as (h & m & Hh & HLm & E); [done|nia|].
  cbn [prf_stream prf_T] in E. change (Z.of_nat 0 + 1) with 1 in E.
  rewrite E. cbn [mbind res_bind].
  pose proof (len_prf_stream prf0 s Hok m) as Lm.
  unfold sto. rewrite sub_ok by (unfold scap; cbn [vis hid of_bytes]; rewrite ?len_nil; lia).
  cbn [mbind res_bind vis hid of_bytes]. ztests. exists h. split; [done|]. do 3 f_equal.
  rewrite app_nil_r, Z.sub_0_r. cbn [Z.to_nat drop]. unfold prf_plus.
  destruct (le_ge_dec m (Z.to_nat L)) as [Hle|Hge].
  - symmetry. by apply take_prf_stream.
  - apply take_prf_stream; [done|nia|lia].
Qed.

Lemma len_prf_plus h s L : hash_ok h → 0 ≤ L → len (prf_plus (h_fun h) s L) = L.
Proof.
  intros Hok HL. pose proof (len_prf_stream h s Hok (Z.to_nat L)) as E.
  destruct Hok as [? _]. unfold prf_plus, len in *. rewrite length_take. nia.
Qed.
Lemma bytesb_prf_plus h s L : hash_ok h → bytesb (prf_plus (h_fun h) s L) = true.
Proof. intros. by apply bytesb_take, bytesb_prf_stream. Qed.

(** ** Properties *)

(** C17: [PrfPlus] is prf+ of RFC 7296. For every keyed hash and every length
    it returns exactly that many bytes, the beginning of T1 | T2 | ..., of
    which any number of blocks that reaches the length gives the same bytes;
    the hash stays the same function. *)
Theorem PrfPlus_stream prf s streamLen :
  hash_ok prf → 0 < streamLen →
  ∃ out h, PrfPlus prf s streamLen = Ok (Some out, h) ∧ len out = streamLen ∧
    same_hash prf h ∧ bytesb out = true ∧
    ∀ blocks, streamLen ≤ Z.of_nat blocks * h_size prf →
      out = take (Z.to_nat streamLen) (prf_stream (h_fun prf) s blocks).
Proof.
  intros Hok HL. destruct (PrfPlus_spec prf s streamLen Hok HL) as (h & Hh & E).
  exists (prf_plus (h_fun prf) s streamLen), h. split; [done|].
  split; [apply len_prf_plus; [done|lia]|]. split; [done|]. split; [by apply bytesb_prf_plus|].
  intros m Hm. unfold prf_plus. pose proof Hok as [Hsz _].
  destruct (le_ge_dec m (Z.to_nat streamLen)) as [Hle|Hge].
  - by apply take_prf_stream.
  - symmetry. apply take_prf_stream; [done|nia|lia].
Qed.

Lemma PrfPlus_stream_witness :
  ∃ out h, PrfPlus (hmac_sha1_New [1]) [2; 3] 50 = Ok (Some out, h) ∧ len out = 50 ∧
    out = take 50 (prf_stream (hmac sha1 [1]) [2; 3] 3).
Proof.
  destruct (PrfPlus_stream (hmac_sha1_New [1]) [2; 3] 50) as (out & h & E & L & _ & _ & S);
    [apply hmac_sha1_ok|reflexivity|].
  exists out, h. split; [exact E|]. split; [exact L|]. apply (S 3%nat). vm_compute. discriminate.
Defined.

(** Padding to a block of at most 255 bytes succeeds with a block of random
    bytes. It adds between one byte and a block, to a whole number of blocks,
    and the last byte tells how many bytes of padding precede it. *)
Theorem PKCS7Padding_blocks p blockSize r :
  0 < blockSize ≤ 255 → bytesb r = true → blockSize ≤ len r →
  ∃ pad r', PKCS7Padding p blockSize r = Ok (p ++ pad ++ [len pad], r') ∧
    len pad < blockSize ∧ len (p ++ pad ++ [len pad]) mod blockSize = 0 ∧
    bytesb (pad ++ [len pad]) = true.
Proof.
  intros Hb Hr Hl. destruct (PKCS7Padding_total p blockSize r Hb Hl) as (out & r' & E).
  destruct (PKCS7Padding_inv p blockSize r out r' Hb Hr E) as (pad & q & -> & -> & Hq & Hm & Hbs & _).
  exists pad, r'. split; [exact E|]. split; [lia|by split].
Qed.

