(* ===== verification/Types.v ===== *)
(** * message/types.go: the constants of the protocol

    Payload types with their names, transform types and identifiers, exchange,
    notify, certificate, identification, authentication and configuration codes,
    the codes of EAP-5G and 3GPP, and the role of a side. [Z] values; the width
    of each is that of the field it is stored in. *)

From stdpp Require Import pretty.
From S2P Require Import Prelude.

(** Payload types ([IkePayloadType]) *)
Definition NoNext : Z := 0.
Definition TypeSA : Z := 33.
Definition TypeKE : Z := 34.
Definition TypeIDi : Z := 35.
Definition TypeIDr : Z := 36.
Definition TypeCERT : Z := 37.
Definition TypeCERTreq : Z := 38.
Definition TypeAUTH : Z := 39.
Definition TypeNiNr : Z := 40.
Definition TypeN : Z := 41.
Definition TypeD : Z := 42.
Definition TypeV : Z := 43.
Definition TypeTSi : Z := 44.
Definition TypeTSr : Z := 45.
Definition TypeSK : Z := 46.
Definition TypeCP : Z := 47.
Definition TypeEAP : Z := 48.

Definition typeStr : gmap Z string := list_to_map [
  (NoNext, "NoNext"); (TypeSA, "SA"); (TypeKE, "KE"); (TypeIDi, "IDi"); (TypeIDr, "IDr");
  (TypeCERT, "CERT"); (TypeCERTreq, "CERTreq"); (TypeAUTH, "AUTH"); (TypeNiNr, "NiNr");
  (TypeN, "N"); (TypeD, "D"); (TypeV, "V"); (TypeTSi, "TSi"); (TypeTSr, "TSr");
  (TypeSK, "SK"); (TypeCP, "CP"); (TypeEAP, "EAP")].

Definition IkePayloadType_String (t : Z) : string :=
  match typeStr !! t with
  | Some s => s
  | None => "IKE payload type[" +:+ pretty t +:+ "] is not supported"
  end.

(** Transform types *)
Definition TypeEncryptionAlgorithm : Z := 1.
Definition TypePseudorandomFunction : Z := 2.
Definition TypeIntegrityAlgorithm : Z := 3.
Definition TypeDiffieHellmanGroup : Z := 4.
Definition TypeExtendedSequenceNumbers : Z := 5.

Definition AttributeFormatUseTLV : Z := 0.
Definition AttributeFormatUseTV : Z := 1.
Definition AttributeTypeKeyLength : Z := 14.

(** Transform IDs *)
Definition ENCR_DES_IV64 : Z := 1.
Definition ENCR_DES : Z := 2.
Definition ENCR_3DES : Z := 3.
Definition ENCR_RC5 : Z := 4.
Definition ENCR_IDEA : Z := 5.
Definition ENCR_CAST : Z := 6.
Definition ENCR_BLOWFISH : Z := 7.
Definition ENCR_3IDEA : Z := 8.
Definition ENCR_DES_IV32 : Z := 9.
Definition ENCR_NULL : Z := 11.
Definition ENCR_AES_CBC : Z := 12.
Definition ENCR_AES_CTR : Z := 13.

Definition PRF_HMAC_MD5 : Z := 1.
Definition PRF_HMAC_SHA1 : Z := 2.
Definition PRF_HMAC_TIGER : Z := 3.
Definition PRF_HMAC_SHA2_256 : Z := 5.

Definition AUTH_NONE : Z := 0.
Definition AUTH_HMAC_MD5_96 : Z := 1.
Definition AUTH_HMAC_SHA1_96 : Z := 2.
Definition AUTH_DES_MAC : Z := 3.
Definition AUTH_KPDK_MD5 : Z := 4.
Definition AUTH_AES_XCBC_96 : Z := 5.
Definition AUTH_HMAC_SHA2_256_128 : Z := 12.

Definition DH_NONE : Z := 0.
Definition DH_768_BIT_MODP : Z := 1.
Definition DH_1024_BIT_MODP : Z := 2.
Definition DH_1536_BIT_MODP : Z := 5.
Definition DH_2048_BIT_MODP : Z := 14.
Definition DH_3072_BIT_MODP : Z := 15.
Definition DH_4096_BIT_MODP : Z := 16.
Definition DH_6144_BIT_MODP : Z := 17.
Definition DH_8192_BIT_MODP : Z := 18.

Definition ESN_DISABLE : Z := 0.
Definition ESN_ENABLE : Z := 1.

(** Traffic selector types, and the protocols of a traffic selector *)
Definition TS_IPV4_ADDR_RANGE : Z := 7.
Definition TS_IPV6_ADDR_RANGE : Z := 8.
Definition IPProtocolAll : Z := 0.
Definition IPProtocolICMP : Z := 1.
Definition IPProtocolTCP : Z := 6.
Definition IPProtocolUDP : Z := 17.
Definition IPProtocolGRE : Z := 47.

(** Exchange types *)
Definition IKE_SA_INIT : Z := 34.
Definition IKE_AUTH : Z := 35.
Definition CREATE_CHILD_SA : Z := 36.
Definition INFORMATIONAL : Z := 37.

(** Notify message types: the errors are below 16384, the states from there *)
Definition UNSUPPORTED_CRITICAL_PAYLOAD : Z := 1.
Definition INVALID_IKE_SPI : Z := 4.
Definition INVALID_MAJOR_VERSION : Z := 5.
Definition INVALID_SYNTAX : Z := 7.
Definition INVALID_MESSAGE_ID : Z := 9.
Definition INVALID_SPI : Z := 11.
Definition NO_PROPOSAL_CHOSEN : Z := 14.
Definition INVALID_KE_PAYLOAD : Z := 17.
Definition AUTHENTICATION_FAILED : Z := 24.
Definition SINGLE_PAIR_REQUIRED : Z := 34.
Definition NO_ADDITIONAL_SAS : Z := 35.
Definition INTERNAL_ADDRESS_FAILURE : Z := 36.
Definition FAILED_CP_REQUIRED : Z := 37.
Definition TS_UNACCEPTABLE : Z := 38.
Definition INVALID_SELECTORS : Z := 39.
Definition UNACCEPTABLE_ADDRESSES : Z := 40.
Definition UNEXPECTED_NAT_DETECTED : Z := 41.
Definition TEMPORARY_FAILURE : Z := 43.
Definition CHILD_SA_NOT_FOUND : Z := 44.
Definition INITIAL_CONTACT : Z := 16384.
Definition SET_WINDOW_SIZE : Z := 16385.
Definition ADDITIONAL_TS_POSSIBLE : Z := 16386.
Definition IPCOMP_SUPPORTED : Z := 16387.
Definition NAT_DETECTION_SOURCE_IP : Z := 16388.
Definition NAT_DETECTION_DESTINATION_IP : Z := 16389.
Definition COOKIE : Z := 16390.
Definition USE_TRANSPORT_MODE : Z := 16391.
Definition HTTP_CERT_LOOKUP_SUPPORTED : Z := 16392.
Definition REKEY_SA : Z := 16393.
Definition ESP_TFC_PADDING_NOT_SUPPORTED : Z := 16394.
Definition NON_FIRST_FRAGMENTS_ALSO : Z := 16395.
Definition MOBIKE_SUPPORTED : Z := 16396.
Definition ADDITIONAL_IP4_ADDRESS : Z := 16397.
Definition ADDITIONAL_IP6_ADDRESS : Z := 16398.
Definition NO_ADDITIONAL_ADDRESSES : Z := 16399.
Definition UPDATE_SA_ADDRESSES : Z := 16400.
Definition COOKIE2 : Z := 16401.
Definition NO_NATS_ALLOWED : Z := 16402.

(** Protocol identifiers *)
Definition TypeNone : Z := 0.
Definition TypeIKE : Z := 1.
Definition TypeAH : Z := 2.
Definition TypeESP : Z := 3.

(** Certificate encodings, identification types and authentication methods *)
Definition PKCS7WrappedX509Certificate : Z := 1.
Definition PGPCertificate : Z := 2.
Definition DNSSignedKey : Z := 3.
Definition X509CertificateSignature : Z := 4.
Definition KerberosToken : Z := 6.
Definition CertificateRevocationList : Z := 7.
Definition AuthorityRevocationList : Z := 8.
Definition SPKICertificate : Z := 9.
Definition X509CertificateAttribute : Z := 10.
Definition HashAndURLOfX509Certificate : Z := 12.
Definition HashAndURLOfX509Bundle : Z := 13.

Definition ID_IPV4_ADDR : Z := 1.
Definition ID_FQDN : Z := 2.
Definition ID_RFC822_ADDR : Z := 3.
Definition ID_IPV6_ADDR : Z := 5.
Definition ID_DER_ASN1_DN : Z := 9.
Definition ID_DER_ASN1_GN : Z := 10.
Definition ID_KEY_ID : Z := 11.

Definition RSADigitalSignature : Z := 1.
Definition SharedKeyMesageIntegrityCode : Z := 2.
Definition DSSDigitalSignature : Z := 3.

(** Configuration types and attributes *)
Definition CFG_REQUEST : Z := 1.
Definition CFG_REPLY : Z := 2.
Definition CFG_SET : Z := 3.
Definition CFG_ACK : Z := 4.

Definition INTERNAL_IP4_ADDRESS : Z := 1.
Definition INTERNAL_IP4_NETMASK : Z := 2.
Definition INTERNAL_IP4_DNS : Z := 3.
Definition INTERNAL_IP4_NBNS : Z := 4.
Definition INTERNAL_IP4_DHCP : Z := 6.
Definition APPLICATION_VERSION : Z := 7.
Definition INTERNAL_IP6_ADDRESS : Z := 8.
Definition INTERNAL_IP6_DNS : Z := 10.
Definition INTERNAL_IP6_DHCP : Z := 12.
Definition INTERNAL_IP4_SUBNET : Z := 13.
Definition SUPPORTED_ATTRIBUTES : Z := 14.
Definition INTERNAL_IP6_SUBNET : Z := 15.

(** EAP-5G: message types, AN parameters and the establishment causes *)
Definition EAP5GType5GStart : Z := 1.
Definition EAP5GType5GNAS : Z := 2.
Definition EAP5GType5GStop : Z := 4.
Definition EAP5GSpareValue : Z := 0.

Definition ANParametersTypeGUAMI : Z := 1.
Definition ANParametersTypeSelectedPLMNID : Z := 2.
Definition ANParametersTypeRequestedNSSAI : Z := 3.
Definition ANParametersTypeEstablishmentCause : Z := 4.
Definition ANParametersLenGUAMI : Z := 6.
Definition ANParametersLenPLMNID : Z := 3.
Definition ANParametersLenEstCause : Z := 1.

Definition EstablishmentCauseEmergency : Z := 0.
Definition EstablishmentCauseHighPriorityAccess : Z := 1.
Definition EstablishmentCauseMO_Signaling : Z := 3.
Definition EstablishmentCauseMO_Data : Z := 4.
Definition EstablishmentCauseMPS_PriorityAccess : Z := 8.
Definition EstablishmentCauseMCS_PriorityAccess : Z := 9.

(** The 3GPP notify types and the flags of the QoS notification *)
Definition Vendor3GPPNotifyType5G_QOS_INFO : Z := 55501.
Definition Vendor3GPPNotifyTypeNAS_IP4_ADDRESS : Z := 55502.
Definition Vendor3GPPNotifyTypeUP_IP4_ADDRESS : Z := 55504.
Definition Vendor3GPPNotifyTypeNAS_TCP_PORT : Z := 55506.
Definition NotifyType5G_QOS_INFOBitDSCPICheck : Z := 1.
Definition NotifyType5G_QOS_INFOBitDCSICheck : Z := 2.

(** [type Role bool] *)
Definition Role : Type := bool.
Definition Role_Initiator : Role := true.
Definition Role_Responder : Role := false.
