(* ===== verification/Net.v ===== *)
(** * The Go standard library's [net.ParseIP] and [IP.To4]

    [ParseIP] is [netip.ParseAddr] without zones: the first separator of the
    text decides between the dotted form and the colon form. An address is its
    16 bytes, a dotted one in the v4-mapped form; [None] is the nil [IP]. *)

From stdpp Require Import pretty.
From S2P Require Import Prelude GoSlice.

(** The bytes of a Go string. *)
Definition string_bytes (s : string) : list Z :=
  (λ a, Z.of_N (Ascii.N_of_ascii a)) <$> String.list_ascii_of_string s.

Definition is_digit (c : Z) : bool := (48 <=? c) && (c <=? 57).
Definition hex_digit (c : Z) : option Z :=
  if is_digit c then Some (c - 48)
  else if (97 <=? c) && (c <=? 102) then Some (c - 97 + 10)
  else if (65 <=? c) && (c <=? 70) then Some (c - 65 + 10)
  else None.
Definition dot : Z := 46.
Definition colon : Z := 58.
Definition percent : Z := 37.

(** ** The dotted form

    One turn of the loop of [parseIPv4Fields] per character; [prev] is the
    character before it and [fields] are the octets already stored. *)
Fixpoint parseIPv4Fields_loop (prev : option Z) (s : list Z) (val digLen : Z) (fields : list Z)
    : res (list Z) :=
  match s with
  | [] =>
      if len fields <? 3 then Err "IPv4 address too short" else Ok (fields ++ [u8 val])
  | c :: s =>
      if is_digit c then
        if (digLen =? 1) && (val =? 0) then Err "IPv4 field has octet with leading zero"
        else
          let val := val * 10 + c - 48 in
          if val >? 255 then Err "IPv4 field has value >255"
          else parseIPv4Fields_loop (Some c) s val (digLen + 1) fields
      else if c =? dot then
        if bool_decide (prev = None) || bool_decide (s = []) || bool_decide (prev = Some dot) then
          Err "IPv4 field must have at least one digit"
        else if len fields =? 3 then Err "IPv4 address too long"
        else parseIPv4Fields_loop (Some c) s 0 0 (fields ++ [u8 val])
      else Err "unexpected character"
  end.
Definition parseIPv4Fields (s : list Z) : res (list Z) :=
  parseIPv4Fields_loop None s 0 0 [].

Definition v4_mapped (f : list Z) : list Z := make_bytes 10 ++ [255; 255] ++ f.

(** ** The colon form *)

(** The digits of one group: how many, their value, and what follows them. *)
Fixpoint hex_group (off acc : Z) (s : list Z) : res (Z * Z * list Z) :=
  match s with
  | c :: r =>
      match hex_digit c with
      | Some d =>
          let acc := acc * 16 + d in
          if off >? 3 then Err "each group must have 4 or less digits"
          else if acc >? 65535 then Err "IPv6 field has value >=2^16"
          else hex_group (off + 1) acc r
      | None => Ok (off, acc, s)
      end
  | [] => Ok (off, acc, [])
  end.

(** The loop of [parseIPv6]: [ip] are the bytes stored so far. It ends with the
    text that is left, the bytes and the position of the ellipsis. *)
Fixpoint parseIPv6_loop (fuel : nat) (s ip : list Z) (ellipsis : option Z)
    : res (list Z * list Z * option Z) :=
  if len ip <? 16 then
    match fuel with
    | O => Diverge
    | S fuel =>
        '(off, acc, r) ← hex_group 0 0 s;
        if off =? 0 then Err "each colon-separated field must have at least one digit"
        else if bool_decide (head r = Some dot) then
          if bool_decide (ellipsis = None) && negb (len ip =? 12) then
            Err "embedded IPv4 address must replace the final 2 fields of the address"
          else if len ip + 4 >? 16 then
            Err "too many hex fields to fit an embedded IPv4 at the end of the address"
          else f ← parseIPv4Fields s; Ok ([], ip ++ f, ellipsis)
        else
          let ip := ip ++ [u8 (acc / 256); u8 acc] in
          match r with
          | [] => Ok ([], ip, ellipsis)
          | c :: r =>
              if negb (c =? colon) then Err "unexpected character, want colon"
              else
                match r with
                | [] => Err "colon must be followed by more characters"
                | c :: r' =>
                    if c =? colon then
                      if negb (bool_decide (ellipsis = None)) then Err "multiple :: in address"
                      else match r' with
                           | [] => Ok ([], ip, Some (len ip))
                           | _ => parseIPv6_loop fuel r' ip (Some (len ip))
                           end
                    else parseIPv6_loop fuel r ip ellipsis
                end
          end
    end
  else Ok (s, ip, ellipsis).

(** What follows the loop: the ellipsis is expanded. *)
Definition expand_ellipsis (s ip : list Z) (ellipsis : option Z) : res (list Z) :=
  if negb (len s =? 0) then Err "trailing garbage after address"
  else if len ip <? 16 then
    match ellipsis with
    | None => Err "address string too short"
    | Some e =>
        Ok (take (Z.to_nat e) ip ++ make_bytes (16 - len ip) ++ drop (Z.to_nat e) ip)
    end
  else match ellipsis with
       | Some _ => Err "the :: must expand to at least one field of zeros"
       | None => Ok ip
       end.

(** Every turn stores two bytes, so eight turns are enough. *)
Definition parseIPv6 (s : list Z) : res (list Z) :=
  match s with
  | c1 :: c2 :: r =>
      if (c1 =? colon) && (c2 =? colon) then
        if len r =? 0 then Ok (make_bytes 16)
        else '(s, ip, e) ← parseIPv6_loop 8 r [] (Some 0); expand_ellipsis s ip e
      else '(s, ip, e) ← parseIPv6_loop 8 s [] None; expand_ellipsis s ip e
  | _ => '(s, ip, e) ← parseIPv6_loop 8 s [] None; expand_ellipsis s ip e
  end.

(** ** [ParseIP] *)

(** [ParseAddr]'s scan for the first separator. An address with a zone is
    refused by [ParseIP], whatever stands before the zone. *)
Fixpoint first_separator (s : list Z) : option Z :=
  match s with
  | [] => None
  | c :: s =>
      if (c =? dot) || (c =? colon) || (c =? percent) then Some c else first_separator s
  end.

Definition ParseIP (s : string) : option (list Z) :=
  let b := string_bytes s in
  match first_separator b with
  | Some c =>
      if c =? dot then
        match parseIPv4Fields b with Ok f => Some (v4_mapped f) | _ => None end
      else if (c =? colon) && negb (bool_decide (percent ∈ b)) then
        match parseIPv6 b with Ok ip => Some ip | _ => None end
      else None
  | None => None
  end.

(** [To4] of a nil or of a 16-byte address; nil is the empty slice. *)
Definition To4 (ip : option (list Z)) : list Z :=
  match ip with
  | Some ip =>
      if bool_decide (take 12 ip = make_bytes 10 ++ [255; 255]) then drop 12 ip else []
  | None => []
  end.

Example ParseIP_examples :
  To4 (ParseIP "192.168.1.254") = [192; 168; 1; 254] ∧
  To4 (ParseIP "::ffff:10.0.0.1") = [10; 0; 0; 1] ∧
  To4 (ParseIP "0:0:0:0:0:FFFF:0102:0304") = [1; 2; 3; 4] ∧
  ParseIP "2001:db8::1" = Some ([32; 1; 13; 184] ++ make_bytes 11 ++ [1]) ∧
  To4 (ParseIP "2001:db8::1") = [] ∧ ParseIP "fe80::1%eth0" = None ∧
  ParseIP "256.1.1.1" = None ∧ ParseIP "1.2.3" = None ∧ ParseIP "01.2.3.4" = None ∧
  ParseIP "1.2.3.4.5" = None ∧ ParseIP "1..2.3" = None ∧ ParseIP "1:2:3:4:5:6:7::8" = None ∧
  ParseIP "localhost" = None.
Proof. vm_compute. done. Qed.

(** ** Dotted text *)

Definition octet_digits (x : Z) : list Z :=
  if x <? 10 then [48 + x]
  else if x <? 100 then [48 + x / 10; 48 + x mod 10]
  else [48 + x / 100; 48 + x / 10 mod 10; 48 + x mod 10].

Lemma pretty_octet x : u8b x = true → string_bytes (pretty x) = octet_digits x.
Proof.
  intros H. apply (bool_decide_eq_true_1 _). revert x H.
  apply (byte_cases (λ x, bool_decide (string_bytes (pretty x) = octet_digits x))).
  vm_compute. done.
Qed.

Definition dotted (a b c d : Z) : string :=
  pretty a +:+ "." +:+ pretty b +:+ "." +:+ pretty c +:+ "." +:+ pretty d.

Lemma string_bytes_app s t : string_bytes (s +:+ t) = string_bytes s ++ string_bytes t.
Proof.
  unfold string_bytes. rewrite <- fmap_app. f_equal.
  induction s as [|c s IH]; [done|].
  change (c :: String.list_ascii_of_string (s +:+ t) =
          c :: String.list_ascii_of_string s ++ String.list_ascii_of_string t).
  by rewrite IH.
Qed.

Lemma dotted_bytes a b c d :
  u8b a = true → u8b b = true → u8b c = true → u8b d = true →
  string_bytes (dotted a b c d) =
    octet_digits a ++ dot :: octet_digits b ++ dot :: octet_digits c ++ dot :: octet_digits d.
Proof. intros. unfold dotted. by rewrite !string_bytes_app, !pretty_octet. Qed.

(** The digits of an octet, read from the start of a field. *)
Lemma parse_octet prev x rest fields :
  u8b x = true →
  ∃ n, parseIPv4Fields_loop prev (octet_digits x ++ rest) 0 0 fields =
    parseIPv4Fields_loop (Some (48 + x mod 10)) rest x n fields.
Proof.
  intros H. unfold u8b in H. bools. unfold octet_digits.
  pose proof (Z.div_mod x 10) as E1. pose proof (Z.mod_pos_bound x 10) as R1.
  pose proof (Z.div_mod (x / 10) 10) as E2. pose proof (Z.mod_pos_bound (x / 10) 10) as R2.
  rewrite Z.div_div in E2 by lia. change (10 * 10) with 100 in E2.
  destruct (Z.ltb_spec x 10); [|destruct (Z.ltb_spec x 100)];
    cbn [app parseIPv4Fields_loop]; unfold is_digit; rewrite ?Z.gtb_ltb;
    ztests; eexists; match goal with
    | |- parseIPv4Fields_loop (Some ?c) _ ?v _ _ = _ =>
        replace v with x by lia; replace c with (48 + x mod 10) by lia
    end; reflexivity.
Qed.

(** A dot between two fields. *)
Lemma parse_dot x rest val n fields :
  48 ≤ x ≤ 57 → rest ≠ [] → len fields < 3 →
  parseIPv4Fields_loop (Some x) (dot :: rest) val n fields =
    parseIPv4Fields_loop (Some dot) rest 0 0 (fields ++ [u8 val]).
Proof.
  intros Hx Hr Hf. cbn [parseIPv4Fields_loop]. change (is_digit dot) with false.
  rewrite Z.eqb_refl, !bool_decide_eq_false_2 by (done || unfold dot; congruence || (intros [= ->]; unfold dot in *; lia)).
  cbn [orb]. by ztests.
Qed.

Lemma octet_digits_ne x : octet_digits x ≠ [].
Proof. unfold octet_digits. by destruct (_ <? _); [|destruct (_ <? _)]. Qed.

(** A dotted address is parsed to its four octets. *)
Lemma parseIPv4_dotted a b c d :
  u8b a = true → u8b b = true → u8b c = true → u8b d = true →
  parseIPv4Fields (string_bytes (dotted a b c d)) = Ok [a; b; c; d].
Proof.
  intros Ha Hb Hc Hd. rewrite dotted_bytes by done. unfold parseIPv4Fields.
  assert (Hdig : ∀ x, u8b x = true → 48 ≤ 48 + x mod 10 ≤ 57)
    by (intros x _; Z.div_mod_to_equations; lia).
  assert (Hne : ∀ x l, octet_digits x ++ l ≠ [])
    by (intros x l [E _]%app_eq_nil; by apply octet_digits_ne in E).
  rewrite <- (app_nil_r (octet_digits d)).
  edestruct (parse_octet None a) as [? ->]; [done|].
  rewrite parse_dot by (auto || done). edestruct (parse_octet (Some dot) b) as [? ->]; [done|].
  rewrite parse_dot by (auto || done). edestruct (parse_octet (Some dot) c) as [? ->]; [done|].
  rewrite parse_dot by (auto || done). edestruct (parse_octet (Some dot) d) as [? ->]; [done|].
  cbn [parseIPv4Fields_loop app len length]. unfold len. cbn. by rewrite !u8_id by done.
Qed.

Lemma first_separator_dotted a b c d :
  u8b a = true → u8b b = true → u8b c = true → u8b d = true →
  first_separator (string_bytes (dotted a b c d)) = Some dot.
Proof.
  intros Ha Hb Hc Hd. rewrite dotted_bytes by done. clear Hb Hc Hd. unfold u8b in Ha. bools.
  unfold octet_digits at 1.
  assert (0 ≤ a / 10 ∧ 0 ≤ a / 100 < 10 ∧ (a < 100 → a / 10 < 10) ∧ 0 ≤ a mod 10 < 10 ∧
    0 ≤ a / 10 mod 10 < 10) as (? & ? & ? & ? & ?) by (Z.div_mod_to_equations; lia).
  destruct (Z.ltb_spec a 10); [|destruct (Z.ltb_spec a 100)];
    cbn [app first_separator]; unfold dot, colon, percent; ztests; done.
Qed.

Lemma To4_dotted a b c d :
  u8b a = true → u8b b = true → u8b c = true → u8b d = true →
  To4 (ParseIP (dotted a b c d)) = [a; b; c; d].
Proof.
  intros. unfold ParseIP. rewrite first_separator_dotted, parseIPv4_dotted by done.
  reflexivity.
Qed.

(** ** The length of an address *)

Lemma parseIPv4Fields_loop_len s prev val n fields l :
  len fields ≤ 3 → parseIPv4Fields_loop prev s val n fields = Ok l → len l = 4.
Proof.
  revert prev val n fields. induction s as [|c s IH]; intros prev val n fields Hf H;
    cbn [parseIPv4Fields_loop] in H.
  - destruct (Z.ltb_spec (len fields) 3); [done|]. injection H as <-. rewrite len_app; change (len [u8 val]) with 1; lia.
  - destruct (is_digit c).
    + destruct (_ && _); [done|]. destruct (_ >? 255); [done|]. by eapply IH.
    + destruct (c =? dot); [|done]. destruct (_ || _); [done|].
      destruct (Z.eqb_spec (len fields) 3); [done|]. eapply IH; [|exact H].
      rewrite len_app; change (len [u8 val]) with 1; lia.
Qed.

Lemma parseIPv4Fields_len s l : parseIPv4Fields s = Ok l → len l = 4.
Proof. by apply parseIPv4Fields_loop_len. Qed.

Lemma parseIPv6_loop_len fuel s ip e s' ip' e' :
  len ip ≤ 16 → len ip mod 2 = 0 → parseIPv6_loop fuel s ip e = Ok (s', ip', e') → len ip' ≤ 16.
Proof.
  revert s ip e. induction fuel as [|fuel IH]; intros s ip e Hl Hm H; cbn [parseIPv6_loop] in H;
    destruct (Z.ltb_spec (len ip) 16); try done; try by injection H as <- <- <-.
  apply bind_Ok_inv in H as ([[off acc] r] & _ & H). destruct (off =? 0); [done|].
  assert (L : ∀ x y, len (ip ++ [x; y]) = len ip + 2) by (intros; rewrite len_app; done).
  assert (M : len ip + 2 ≤ 16 ∧ (len ip + 2) mod 2 = 0) by (Z.div_mod_to_equations; lia).
  case_bool_decide.
  - destruct (_ && _); [done|]. rewrite Z.gtb_ltb in H.
    destruct (Z.ltb_spec 16 (len ip + 4)); [done|]. apply bind_Ok_inv in H as (f & E & H).
    injection H as <- <- <-. apply parseIPv4Fields_len in E. rewrite len_app. lia.
  - destruct r as [|c [|c' r']]; [injection H as <- <- <-; rewrite L; lia|
      by destruct (negb (c =? colon))|].
    destruct (negb (c =? colon)); [done|]. destruct (c' =? colon).
    + destruct (negb _); [done|]. destruct r'; [injection H as <- <- <-; rewrite L; lia|].
      apply IH in H; rewrite ?L; lia.
    + apply IH in H; rewrite ?L; lia.
Qed.

Lemma expand_ellipsis_len s ip e l : len ip ≤ 16 → expand_ellipsis s ip e = Ok l → len l = 16.
Proof.
  unfold expand_ellipsis. intros Hl H. destruct (negb _); [done|].
  destruct (Z.ltb_spec (len ip) 16), e as [e|]; try done; injection H as <-; [|lia].
  pose proof (f_equal len (take_drop (Z.to_nat e) ip)) as E.
  rewrite len_app in E. rewrite !len_app, len_make_bytes by lia. lia.
Qed.

Lemma parseIPv6_len s l : parseIPv6 s = Ok l → len l = 16.
Proof.
  assert (K : ∀ s e, ('(s, ip, e) ← parseIPv6_loop 8 s [] e; expand_ellipsis s ip e) = Ok l →
    len l = 16).
  { intros t e H. apply bind_Ok_inv in H as ([[s' ip] e'] & E & H).
    apply parseIPv6_loop_len in E; [|done..]. by apply expand_ellipsis_len in H. }
  unfold parseIPv6. destruct s as [|c1 [|c2 r]]; [apply K..|]. destruct (_ && _); [|apply K].
  destruct (len r =? 0); [|apply K]. by intros [= <-].
Qed.

(** An address is 16 bytes, so [To4] gives four bytes or none. *)
Lemma To4_len s : len (To4 (ParseIP s)) = 4 ∨ To4 (ParseIP s) = [].
Proof.
  assert (K : ∀ ip, len ip = 16 → len (To4 (Some ip)) = 4 ∨ To4 (Some ip) = []).
  { intros ip H. unfold To4. case_bool_decide; [left|by right]. unfold len in *.
    rewrite length_drop. lia. }
  unfold ParseIP. destruct (first_separator _) as [c|]; [|by right]. destruct (c =? dot).
  - destruct (parseIPv4Fields _) eqn:E; try by right. apply K. unfold v4_mapped.
    apply parseIPv4Fields_len in E. rewrite !len_app, E. done.
  - destruct (_ && _); [|by right]. destruct (parseIPv6 _) eqn:E; try by right.
    apply K. by eapply parseIPv6_len.
Qed.

(** ** Eight turns are enough *)

Lemma parseIPv4Fields_loop_terminates s prev val n fields :
  terminates (parseIPv4Fields_loop prev s val n fields).
Proof.
  revert prev val n fields. induction s as [|c s IH]; intros prev val n fields;
    cbn [parseIPv4Fields_loop]; repeat case_match; done || apply IH.
Qed.

Lemma hex_group_terminates s off acc : terminates (hex_group off acc s).
Proof.
  revert off acc. induction s as [|c s IH]; intros off acc; cbn [hex_group]; [done|].
  repeat case_match; done || apply IH.
Qed.

Lemma parseIPv6_loop_terminates fuel s ip e :
  16 ≤ len ip + 2 * Z.of_nat fuel → terminates (parseIPv6_loop fuel s ip e).
Proof.
  revert s ip e. induction fuel as [|fuel IH]; intros s ip e Hf; cbn [parseIPv6_loop];
    destruct (Z.ltb_spec (len ip) 16); try done; [lia|].
  apply bind_terminates; [apply hex_group_terminates|]. intros [[off acc] r] _.
  destruct (off =? 0); [done|]. case_bool_decide.
  - destruct (_ && _); [done|]. destruct (_ >? 16); [done|].
    apply bind_terminates; [apply parseIPv4Fields_loop_terminates|done].
  - assert (L : 16 ≤ len (ip ++ [u8 (acc / 256); u8 acc]) + 2 * Z.of_nat fuel)
      by (rewrite len_app; unfold len at 2; cbn [length]; lia).
    repeat case_match; done || by apply IH.
Qed.

Lemma parseIPv6_terminates s : terminates (parseIPv6 s).
Proof.
  assert (K : ∀ t e, terminates ('(s, ip, e) ← parseIPv6_loop 8 t [] e; expand_ellipsis s ip e)).
  { intros t e. apply bind_terminates; [by apply parseIPv6_loop_terminates|].
    intros [[s' ip] e'] _. unfold expand_ellipsis. by repeat case_match. }
  unfold parseIPv6. repeat case_match; done || apply K.
Qed.
