(* ===== verification/Codec.v ===== *)
(** * The contract between the container and a payload

    [IKEPayload] and [EapTypeData] are Go interfaces with a [Marshal] and an
    [Unmarshal]. What their clients rely on is stated once, as a class: a value
    that is [valid] is marshalled, to bytes, and a fresh receiver unmarshals
    these bytes to the same value wherever they lie in a message. *)

From S2P Require Import Prelude GoSlice.

Class Codec (P : Type) := {
  marshal : P → res (list Z);
  unmarshal : P → slice → res P;
  fresh_for : P → P;
  valid : P → bool;
  round_trip : ∀ p, valid p = true →
    ∃ l, marshal p = Ok l ∧ bytesb l = true ∧
         ∀ h, unmarshal (fresh_for p) (Slice l h) = Ok p
}.

(** A decoder that returns on every input. *)
Definition total_decoder {P} (dec : P → slice → res P) : Prop :=
  ∀ p b, returns (dec p b).

Section laws.
Context {P : Type} {C : Codec P}.

(** The encoding of a valid value determines the value, among the values
    decoded with the same receiver. *)
Lemma marshal_inj p q l :
  fresh_for p = fresh_for q → valid p = true → valid q = true →
  marshal p = Ok l → marshal q = Ok l → p = q.
Proof.
  intros Hf Hp Hq Ep Eq.
  destruct (round_trip p Hp) as (lp & E1 & _ & Dp).
  destruct (round_trip q Hq) as (lq & E2 & _ & Dq).
  specialize (Dp []). specialize (Dq []). congruence.
Qed.
End laws.
