(* ===== verification/Lts.v ===== *)
(** * Labelled transition systems

    Finite runs of a step relation with their labels, invariants by induction
    on the run, and trace inclusion from a simulation. *)

From S2P Require Import Prelude.

Inductive run {S L : Type} (step : S → L → S → Prop) (s : S) : list L → S → Prop :=
  | run_nil : run step s [] s
  | run_snoc t l s1 s2 : run step s t s1 → step s1 l s2 → run step s (t ++ [l]) s2.

Section runs.
Context {S L : Type} (step : S → L → S → Prop).

(** What holds at the start and is kept by every step of a run holds at its
    end. The property may look at the labels seen so far. *)
Lemma run_invariant (P : list L → S → Prop) s t s' :
  P [] s → (∀ t s1 l s2, run step s t s1 → P t s1 → step s1 l s2 → P (t ++ [l]) s2) →
  run step s t s' → P t s'.
Proof. intros H0 Hs H. induction H; [done|]. by eapply Hs. Qed.
(** A run can be cut at any label. *)
Lemma run_split s t1 l t2 s' :
  run step s (t1 ++ l :: t2) s' → ∃ s1 s2, run step s t1 s1 ∧ step s1 l s2.
Proof.
  revert s'. induction t2 as [|l' t2 IH] using rev_ind; intros s' H; inversion H as [E|t l0 s1 s2 H1 H2 E].
  - by destruct t1.
  - apply app_inj_tail in E as [-> ->]. by exists s1, s'.
  - by destruct t1.
  - rewrite app_comm_cons, app_assoc in E. apply app_inj_tail in E as [-> ->]. by eapply IH.
Qed.
End runs.

(** A simulation: every step of the implementation is matched by a step of the
    specification with the same label. *)
Lemma run_simulation {S A L} (step : S → L → S → Prop) (astep : A → L → A → Prop)
    (R : S → A → Prop) s a t s' :
  (∀ s l s' a, R s a → step s l s' → ∃ a', astep a l a' ∧ R s' a') →
  R s a → run step s t s' → ∃ a', run astep a t a' ∧ R s' a'.
Proof.
  intros Hsim H0 H. induction H as [|t l s1 s2 _ (a1 & H1 & HR) Hl]; [eexists; by split; [left|]|].
  destruct (Hsim _ _ _ _ HR Hl) as (a2 & H2 & HR2). exists a2. split; [by eright|done].
Qed.
