(* ===== verification/Payloads.v ===== *)
(** * message: the payloads with a fixed layout

    One record per payload struct, one definition per [Marshal] and
    [Unmarshal]. [Unmarshal] takes the receiver, because the code appends to
    its slices. *)

From S2P Require Import Prelude GoSlice Codec.

(** ** Key exchange *)
Record KeyExchange := MkKE { ke_DiffieHellmanGroup : Z; ke_KeyExchangeData : list Z }.
Definition new_KeyExchange : KeyExchange := MkKE 0 [].

Definition KeyExchange_Marshal (p : KeyExchange) : res (list Z) :=
  b ← PutUint16 0 (ke_DiffieHellmanGroup p) (make_bytes 4);
  Ok (b ++ ke_KeyExchangeData p).

Definition KeyExchange_Unmarshal (p : KeyExchange) (b : slice) : res KeyExchange :=
  if 0 <? slen b then
    if slen b <=? 4 then
      Err "KeyExchange: No sufficient bytes to decode next key exchange data"
    else
      g ← (t ← sub b 0 2; Uint16 t);
      d ← sfrom b 4;
      Ok (MkKE g (ke_KeyExchangeData p ++ vis d))
  else Ok p.

(** ** Identification *)
Record IdentificationInitiator := MkIDi { idi_IDType : Z; idi_IDData : list Z }.
Definition new_IdentificationInitiator : IdentificationInitiator := MkIDi 0 [].

Definition IdentificationInitiator_Marshal (p : IdentificationInitiator) : res (list Z) :=
  b ← set_byte 0 (idi_IDType p) (make_bytes 4);
  Ok (b ++ idi_IDData p).

Definition IdentificationInitiator_Unmarshal (p : IdentificationInitiator) (b : slice)
    : res IdentificationInitiator :=
  if 0 <? slen b then
    if slen b <=? 4 then
      Err "Identification: No sufficient bytes to decode next identification"
    else
      t ← idx b 0;
      d ← sfrom b 4;
      Ok (MkIDi t (idi_IDData p ++ vis d))
  else Ok p.

Record IdentificationResponder := MkIDr { idr_IDType : Z; idr_IDData : list Z }.
Definition new_IdentificationResponder : IdentificationResponder := MkIDr 0 [].

Definition IdentificationResponder_Marshal (p : IdentificationResponder) : res (list Z) :=
  b ← set_byte 0 (idr_IDType p) (make_bytes 4);
  Ok (b ++ idr_IDData p).

Definition IdentificationResponder_Unmarshal (p : IdentificationResponder) (b : slice)
    : res IdentificationResponder :=
  if 0 <? slen b then
    if slen b <=? 4 then
      Err "Identification: No sufficient bytes to decode next identification"
    else
      t ← idx b 0;
      d ← sfrom b 4;
      Ok (MkIDr t (idr_IDData p ++ vis d))
  else Ok p.

(** ** Certificate *)
Record Certificate := MkCert { cert_CertificateEncoding : Z; cert_CertificateData : list Z }.
Definition new_Certificate : Certificate := MkCert 0 [].

Definition Certificate_Marshal (p : Certificate) : res (list Z) :=
  b ← set_byte 0 (cert_CertificateEncoding p) (make_bytes 1);
  Ok (b ++ cert_CertificateData p).

Definition Certificate_Unmarshal (p : Certificate) (b : slice) : res Certificate :=
  if 0 <? slen b then
    if slen b <=? 1 then
      Err "Certificate: No sufficient bytes to decode next certificate"
    else
      e ← idx b 0;
      d ← sfrom b 1;
      Ok (MkCert e (cert_CertificateData p ++ vis d))
  else Ok p.

Record CertificateRequest :=
  MkCertReq { cr_CertificateEncoding : Z; cr_CertificationAuthority : list Z }.
Definition new_CertificateRequest : CertificateRequest := MkCertReq 0 [].

Definition CertificateRequest_Marshal (p : CertificateRequest) : res (list Z) :=
  b ← set_byte 0 (cr_CertificateEncoding p) (make_bytes 1);
  Ok (b ++ cr_CertificationAuthority p).

Definition CertificateRequest_Unmarshal (p : CertificateRequest) (b : slice)
    : res CertificateRequest :=
  if 0 <? slen b then
    if slen b <=? 1 then
      Err "CertificateRequest: No sufficient bytes to decode next certificate request"
    else
      e ← idx b 0;
      d ← sfrom b 1;
      Ok (MkCertReq e (cr_CertificationAuthority p ++ vis d))
  else Ok p.

(** ** Authentication *)
Record Authentication :=
  MkAuth { auth_AuthenticationMethod : Z; auth_AuthenticationData : list Z }.
Definition new_Authentication : Authentication := MkAuth 0 [].

Definition Authentication_Marshal (p : Authentication) : res (list Z) :=
  b ← set_byte 0 (auth_AuthenticationMethod p) (make_bytes 4);
  Ok (b ++ auth_AuthenticationData p).

Definition Authentication_Unmarshal (p : Authentication) (b : slice) : res Authentication :=
  if 0 <? slen b then
    if slen b <=? 4 then
      Err "Authentication: No sufficient bytes to decode next authentication"
    else
      m ← idx b 0;
      d ← sfrom b 4;
      Ok (MkAuth m (auth_AuthenticationData p ++ vis d))
  else Ok p.

(** ** Nonce, vendor identifier *)
Record Nonce := MkNonce { nonce_NonceData : list Z }.
Definition new_Nonce : Nonce := MkNonce [].
Definition Nonce_Marshal (p : Nonce) : res (list Z) := Ok ([] ++ nonce_NonceData p).
Definition Nonce_Unmarshal (p : Nonce) (b : slice) : res Nonce :=
  if 0 <? slen b then Ok (MkNonce (nonce_NonceData p ++ vis b)) else Ok p.

Record VendorID := MkVendor { vendor_VendorIDData : list Z }.
Definition new_VendorID : VendorID := MkVendor [].
Definition VendorID_Marshal (p : VendorID) : res (list Z) := Ok (vendor_VendorIDData p).
Definition VendorID_Unmarshal (p : VendorID) (b : slice) : res VendorID :=
  if 0 <? slen b then Ok (MkVendor (vendor_VendorIDData p ++ vis b)) else Ok p.

(** ** Encrypted *)
Record Encrypted := MkSK { sk_NextPayload : Z; sk_EncryptedData : list Z }.
Definition Encrypted_Marshal (p : Encrypted) : res (list Z) :=
  if len (sk_EncryptedData p) =? 0 then Err "[Encrypted] The encrypted data is empty"
  else Ok (sk_EncryptedData p).
Definition Encrypted_Unmarshal (p : Encrypted) (b : slice) : res Encrypted :=
  Ok (MkSK (sk_NextPayload p) (sk_EncryptedData p ++ vis b)).

(** ** Notification *)
Record Notification := MkN {
  n_ProtocolID : Z;
  n_NotifyMessageType : Z;
  n_SPI : list Z;
  n_NotificationData : list Z
}.
Definition new_Notification : Notification := MkN 0 0 [] [].

Definition Notification_Marshal (p : Notification) : res (list Z) :=
  b ← set_byte 0 (n_ProtocolID p) (make_bytes 4);
  let numberofSPI := len (n_SPI p) in
  if numberofSPI >? 255 then Err "Notification: Number of SPI exceeds uint8 limit"
  else if len b <? 2 then Err "Notification: data buffer too short"
  else
    b ← set_byte 1 (u8 numberofSPI) b;
    b ← PutUint16 2 (n_NotifyMessageType p) b;
    Ok (b ++ n_SPI p ++ n_NotificationData p).

(** [4+spiSize] is computed on a [uint8]. *)
Definition Notification_Unmarshal (p : Notification) (b : slice) : res Notification :=
  if 0 <? slen b then
    if slen b <? 4 then
      Err "Notification: No sufficient bytes to decode next notification"
    else
      spiSize ← idx b 1;
      if slen b <? u8 (4 + spiSize) then
        Err "Notification: No sufficient bytes to get SPI according to the length specified in header"
      else
        proto ← idx b 0;
        ty ← (t ← sub b 2 4; Uint16 t);
        spi ← sub b 4 (u8 (4 + spiSize));
        data ← sfrom b (u8 (4 + spiSize));
        Ok (MkN proto ty (n_SPI p ++ vis spi) (n_NotificationData p ++ vis data))
  else Ok p.

(** ** Delete *)
Record Delete := MkD {
  d_ProtocolID : Z;
  d_SPISize : Z;
  d_NumberOfSPI : Z;
  d_SPIs : list Z
}.
Definition new_Delete : Delete := MkD 0 0 0 [].

(** The buffer is made once, outside the loop. *)
Fixpoint Delete_put_spis (byteSlice : list Z) (spis : list Z) : res (list Z) :=
  match spis with
  | [] => Ok []
  | v :: spis =>
      byteSlice ← PutUint32 0 v byteSlice;
      rest ← Delete_put_spis byteSlice spis;
      Ok (byteSlice ++ rest)
  end.

Definition Delete_Marshal (p : Delete) : res (list Z) :=
  if negb (len (d_SPIs p) =? d_NumberOfSPI p) then Err "Number of SPI not correct"
  else
    b ← set_byte 0 (d_ProtocolID p) (make_bytes 4);
    b ← set_byte 1 (d_SPISize p) b;
    b ← PutUint16 2 (d_NumberOfSPI p) b;
    if d_NumberOfSPI p >? 0 then
      s ← Delete_put_spis (make_bytes (d_SPISize p)) (d_SPIs p);
      Ok (b ++ s)
    else Ok b.

(** [for i := 0; i < len(b); i += 4]: [b[i:i+4]] may run past the length, up
    to the capacity. *)
Fixpoint Delete_get_spis (fuel : nat) (b : slice) (i : Z) (spis : list Z) : res (list Z) :=
  if i <? slen b then
    match fuel with
    | O => Diverge
    | S fuel =>
        spi ← (t ← sub b i (i + 4); Uint32 t);
        Delete_get_spis fuel b (i + 4) (spis ++ [spi])
    end
  else Ok spis.

Definition Delete_Unmarshal (p : Delete) (b : slice) : res Delete :=
  if 0 <? slen b then
    if slen b <=? 3 then Err "Delete: No sufficient bytes to decode next delete"
    else
      spiSize ← idx b 1;
      numberOfSPI ← (t ← sub b 2 4; Uint16 t);
      if slen b <? 4 + spiSize * numberOfSPI then
        Err "Delete: No Sufficient bytes to get SPIs according to the length specified in header"
      else
        proto ← idx b 0;
        b' ← sfrom b 4;
        spis ← Delete_get_spis (length (vis b')) b' 0 (d_SPIs p);
        Ok (MkD proto spiSize numberOfSPI spis)
  else Ok p.

(** ** Configuration *)
Record IndividualConfigurationAttribute := MkCPAttr { ca_Type : Z; ca_Value : list Z }.
Record Configuration := MkCP {
  cp_ConfigurationType : Z;
  cp_ConfigurationAttribute : list IndividualConfigurationAttribute
}.
Definition new_Configuration : Configuration := MkCP 0 [].

Fixpoint Configuration_put_attrs (l : list IndividualConfigurationAttribute)
    (data : list Z) : res (list Z) :=
  match l with
  | [] => Ok data
  | a :: l =>
      b ← PutUint16 0 (Z.land (ca_Type a) 0x7fff) (make_bytes 4);
      let attributeLen := len (ca_Value a) in
      if attributeLen >? 0xFFFF then
        Err "Configuration: attribute value length exceeds uint16 limit"
      else
        b ← PutUint16 2 (u16 attributeLen) b;
        Configuration_put_attrs l (data ++ b ++ ca_Value a)
  end.

Definition Configuration_Marshal (p : Configuration) : res (list Z) :=
  b ← set_byte 0 (cp_ConfigurationType p) (make_bytes 4);
  Configuration_put_attrs (cp_ConfigurationAttribute p) b.

(** [int(4+length)] is computed on a [uint16]. *)
Fixpoint Configuration_get_attrs (fuel : nat) (b : slice)
    (acc : list IndividualConfigurationAttribute)
    : res (list IndividualConfigurationAttribute) :=
  if 0 <? slen b then
    match fuel with
    | O => Diverge
    | S fuel =>
        if slen b <? 4 then
          Err "ConfigurationAttribute: No sufficient bytes to decode next configuration attribute"
        else
          length ← (t ← sub b 2 4; Uint16 t);
          if slen b <? u16 (4 + length) then
            Err "ConfigurationAttribute: TLV attribute length error"
          else
            ty ← (t ← sub b 0 2; Uint16 t);
            b ← sfrom b 4;
            v ← sto b length;
            b ← sfrom b length;
            Configuration_get_attrs fuel b (acc ++ [MkCPAttr ty (vis v)])
    end
  else Ok acc.

Definition Configuration_Unmarshal (p : Configuration) (b : slice) : res Configuration :=
  if 0 <? slen b then
    if slen b <=? 4 then
      Err "Configuration: No sufficient bytes to decode next configuration"
    else
      ty ← idx b 0;
      d ← sfrom b 4;
      attrs ← Configuration_get_attrs (length (vis d)) d (cp_ConfigurationAttribute p);
      Ok (MkCP ty attrs)
  else Ok p.

(** ** Codecs *)

(** The decoder of a byte followed by [k] ignored bytes and the data. *)
Lemma nonempty_len (l : list Z) : negb (len l =? 0) = true → 0 < len l.
Proof. intros H. bools. pose proof (len_nonneg l). lia. Qed.

Definition KeyExchange_valid (p : KeyExchange) : bool :=
  u16b (ke_DiffieHellmanGroup p) && bytesb (ke_KeyExchangeData p) &&
  negb (len (ke_KeyExchangeData p) =? 0).

#[export] Program Instance KeyExchange_codec : Codec KeyExchange := {|
  marshal := KeyExchange_Marshal;
  unmarshal := KeyExchange_Unmarshal;
  fresh_for _ := new_KeyExchange;
  valid := KeyExchange_valid
|}.
Next Obligation.
  intros [g d]. unfold KeyExchange_valid. cbn. intros H.
  apply andb_prop in H as [H Hd%nonempty_len]. bools.
  exists (be_enc 2 g ++ [0; 0] ++ d). split; [done|]. split.
  { bsplit. apply bytesb_be_enc. }
  intros h. unfold KeyExchange_Unmarshal, slen. cbn [vis]. len_simpl. ztests.
  rd_sub [] (be_enc 2 g) ([0; 0] ++ d). rd_step. rewrite Uint16_enc by done. rd_step.
  rd_from (be_enc 2 g ++ [0; 0]) d. done.
Qed.

(** Identification, authentication (three reserved bytes) and certificates
    (none): the proofs differ only in the names. *)
Ltac byte_data_codec pre :=
  let H := fresh in let Hd := fresh "Hd" in
  let t := fresh "t" in let d := fresh "d" in
  intros [t d] H; cbn in H;
  apply andb_prop in H as [H Hd%nonempty_len]; bools;
  exists ([t] ++ pre ++ d);
  split; [done|]; split; [by bsplit|]; intros h;
  cbv beta delta [slen]; cbn [vis]; len_simpl; ztests;
  rd_idx []; rd_step; rd_from ([t] ++ pre) d; done.

Definition IdentificationInitiator_valid (p : IdentificationInitiator) : bool :=
  u8b (idi_IDType p) && bytesb (idi_IDData p) && negb (len (idi_IDData p) =? 0).
#[export] Program Instance IdentificationInitiator_codec : Codec IdentificationInitiator := {|
  marshal := IdentificationInitiator_Marshal;
  unmarshal := IdentificationInitiator_Unmarshal;
  fresh_for _ := new_IdentificationInitiator;
  valid := IdentificationInitiator_valid
|}.
Next Obligation.
  unfold IdentificationInitiator_valid, IdentificationInitiator_Unmarshal.
  byte_data_codec [0; 0; 0].
Qed.

Definition IdentificationResponder_valid (p : IdentificationResponder) : bool :=
  u8b (idr_IDType p) && bytesb (idr_IDData p) && negb (len (idr_IDData p) =? 0).
#[export] Program Instance IdentificationResponder_codec : Codec IdentificationResponder := {|
  marshal := IdentificationResponder_Marshal;
  unmarshal := IdentificationResponder_Unmarshal;
  fresh_for _ := new_IdentificationResponder;
  valid := IdentificationResponder_valid
|}.
Next Obligation.
  unfold IdentificationResponder_valid, IdentificationResponder_Unmarshal.
  byte_data_codec [0; 0; 0].
Qed.

Definition Authentication_valid (p : Authentication) : bool :=
  u8b (auth_AuthenticationMethod p) && bytesb (auth_AuthenticationData p) &&
  negb (len (auth_AuthenticationData p) =? 0).
#[export] Program Instance Authentication_codec : Codec Authentication := {|
  marshal := Authentication_Marshal;
  unmarshal := Authentication_Unmarshal;
  fresh_for _ := new_Authentication;
  valid := Authentication_valid
|}.
Next Obligation.
  unfold Authentication_valid, Authentication_Unmarshal. byte_data_codec [0; 0; 0].
Qed.

Definition Certificate_valid (p : Certificate) : bool :=
  u8b (cert_CertificateEncoding p) && bytesb (cert_CertificateData p) &&
  negb (len (cert_CertificateData p) =? 0).
#[export] Program Instance Certificate_codec : Codec Certificate := {|
  marshal := Certificate_Marshal;
  unmarshal := Certificate_Unmarshal;
  fresh_for _ := new_Certificate;
  valid := Certificate_valid
|}.
Next Obligation.
  unfold Certificate_valid, Certificate_Unmarshal. byte_data_codec (@nil Z).
Qed.

Definition CertificateRequest_valid (p : CertificateRequest) : bool :=
  u8b (cr_CertificateEncoding p) && bytesb (cr_CertificationAuthority p) &&
  negb (len (cr_CertificationAuthority p) =? 0).
#[export] Program Instance CertificateRequest_codec : Codec CertificateRequest := {|
  marshal := CertificateRequest_Marshal;
  unmarshal := CertificateRequest_Unmarshal;
  fresh_for _ := new_CertificateRequest;
  valid := CertificateRequest_valid
|}.
Next Obligation.
  unfold CertificateRequest_valid, CertificateRequest_Unmarshal.
  byte_data_codec (@nil Z).
Qed.

#[export] Program Instance Nonce_codec : Codec Nonce := {|
  marshal := Nonce_Marshal;
  unmarshal := Nonce_Unmarshal;
  fresh_for _ := new_Nonce;
  valid p := bytesb (nonce_NonceData p)
|}.
Next Obligation.
  intros [d] H. exists d. split_and!; [done..|]. intros h.
  unfold Nonce_Unmarshal. destruct (0 <? _) eqn:E; [done|]. bools.
  cbn in *. unfold slen in E. cbn in E.
  rewrite (len_zero_nil d) by (pose proof (len_nonneg d); lia). done.
Qed.

#[export] Program Instance VendorID_codec : Codec VendorID := {|
  marshal := VendorID_Marshal;
  unmarshal := VendorID_Unmarshal;
  fresh_for _ := new_VendorID;
  valid p := bytesb (vendor_VendorIDData p)
|}.
Next Obligation.
  intros [d] H. exists d. split_and!; [done..|]. intros h.
  unfold VendorID_Unmarshal. destruct (0 <? _) eqn:E; [done|]. bools.
  unfold slen in E. cbn in E.
  rewrite (len_zero_nil d) by (pose proof (len_nonneg d); lia). done.
Qed.

(** The container sets the next payload of the receiver before it calls
    [Unmarshal]. *)
Definition Encrypted_valid (p : Encrypted) : bool :=
  u8b (sk_NextPayload p) && bytesb (sk_EncryptedData p) &&
  negb (len (sk_EncryptedData p) =? 0).
#[export] Program Instance Encrypted_codec : Codec Encrypted := {|
  marshal := Encrypted_Marshal;
  unmarshal := Encrypted_Unmarshal;
  fresh_for p := MkSK (sk_NextPayload p) [];
  valid := Encrypted_valid
|}.
Next Obligation.
  intros [n d] H. unfold Encrypted_valid in H. cbn in H.
  apply andb_prop in H as [H Hd%nonempty_len]. bools.
  exists d. unfold Encrypted_Marshal. cbn. ztests. done.
Qed.

(** A notification survives when its SPI is short enough for the length
    computation of the decoder not to wrap. *)
Definition Notification_valid (p : Notification) : bool :=
  u8b (n_ProtocolID p) && u16b (n_NotifyMessageType p) && bytesb (n_SPI p) &&
  bytesb (n_NotificationData p) && (len (n_SPI p) <=? 251).

Lemma Notification_Marshal_eq p : len (n_SPI p) <= 255 →
  Notification_Marshal p =
    Ok ([n_ProtocolID p; u8 (len (n_SPI p))] ++ be_enc 2 (n_NotifyMessageType p) ++
        n_SPI p ++ n_NotificationData p).
Proof. intros. unfold Notification_Marshal. cbn [mbind res_bind set_byte]. by ztests. Qed.

#[export] Program Instance Notification_codec : Codec Notification := {|
  marshal := Notification_Marshal;
  unmarshal := Notification_Unmarshal;
  fresh_for _ := new_Notification;
  valid := Notification_valid
|}.
Next Obligation.
  intros [pr ty spi nd] H. unfold Notification_valid in H. cbn in H. bools.
  pose proof (len_nonneg spi). pose proof (len_nonneg nd).
  rewrite Notification_Marshal_eq by (cbn; lia). cbn [n_ProtocolID n_NotifyMessageType n_SPI n_NotificationData].
  eexists. split; [done|]. split; [bsplit; [apply u8b_u8|apply bytesb_be_enc]|].
  intros h. unfold Notification_Unmarshal, slen. cbn [vis]. len_simpl.
  rewrite (u8_small (len spi)) by lia. ztests.
  rd_idx [pr]. rd_step. rewrite (u8_small (4 + _)) by lia. len_simpl. ztests.
  rd_idx []. rd_step.
  rd_sub [pr; len spi] (be_enc 2 ty) (spi ++ nd). rd_step.
  rewrite Uint16_enc by done. rd_step.
  rd_sub ([pr; len spi] ++ be_enc 2 ty) spi nd. rd_step.
  rd_from ([pr; len spi] ++ be_enc 2 ty ++ spi) nd. done.
Qed.

(** A delete payload survives when its SPIs have four bytes, or when it has
    none, as the one that deletes an IKE SA. *)
Definition Delete_valid (p : Delete) : bool :=
  u8b (d_ProtocolID p) && u16b (d_NumberOfSPI p) && u8b (d_SPISize p) &&
  ((d_SPISize p =? 4) || (d_NumberOfSPI p =? 0)) &&
  (len (d_SPIs p) =? d_NumberOfSPI p) && forallb u32b (d_SPIs p).

Definition spis_bytes (spis : list Z) : list Z := concat (be_enc 4 <$> spis).

Lemma len_spis_bytes spis : len (spis_bytes spis) = 4 * len spis.
Proof.
  induction spis as [|v spis IH]; [done|]. unfold spis_bytes in *. rewrite fmap_cons.
  cbn [concat]. len_simpl. rewrite IH. lia.
Qed.

Lemma Delete_put_spis_eq b spis : len b = 4 → Delete_put_spis b spis = Ok (spis_bytes spis).
Proof.
  revert b. induction spis as [|v spis IH]; intros b Hb; [done|]. cbn [Delete_put_spis].
  unfold PutUint32, be_put. rewrite (proj2 (Nat.leb_le _ _)) by (unfold len in Hb; lia).
  cbn [mbind res_bind].
  assert (list_inserts 0 (be_enc 4 v) b = be_enc 4 v) as ->.
  { assert (Hn : length b = 4%nat) by (unfold len in Hb; lia). clear Hb.
    do 4 (destruct b as [|? b]; [discriminate Hn|]).
    destruct b; [done|discriminate Hn]. }
  rewrite IH by (by rewrite len_be_enc). done.
Qed.

Lemma Delete_get_spis_rt done_ spis h fuel pre :
  forallb u32b spis = true → (length (spis_bytes spis) ≤ fuel)%nat →
  Delete_get_spis fuel (Slice (pre ++ spis_bytes spis) h) (len pre) done_ =
    Ok (done_ ++ spis).
Proof.
  revert done_ fuel pre. induction spis as [|v spis IH]; intros done_ fuel pre Hv Hf.
  - change (spis_bytes []) with (@nil Z). rewrite !app_nil_r.
    destruct fuel; cbn [Delete_get_spis]; unfold slen; cbn [vis]; by rewrite Z.ltb_irrefl.
  - cbn [forallb] in Hv. bools.
    change (spis_bytes (v :: spis)) with (be_enc 4 v ++ spis_bytes spis) in *.
    rewrite length_app, length_be_enc in Hf. destruct fuel as [|fuel]; [lia|].
    cbn [Delete_get_spis]. unfold slen. cbn [vis].
    pose proof (len_nonneg (spis_bytes spis)). len_simpl. ztests.
    rd_sub pre (be_enc 4 v) (spis_bytes spis). rd_step. rewrite Uint32_enc by done. rd_step.
    specialize (IH (done_ ++ [v]) fuel (pre ++ be_enc 4 v)).
    rewrite len_app, len_be_enc, <- app_assoc in IH.
    change (Z.of_nat 4) with 4 in IH. rewrite IH by (done || lia).
    by rewrite <- app_assoc.
Qed.

Lemma bytesb_spis spis : bytesb (spis_bytes spis) = true.
Proof.
  induction spis as [|v spis IH]; [done|].
  change (spis_bytes (v :: spis)) with (be_enc 4 v ++ spis_bytes spis).
  bsplit. apply bytesb_be_enc.
Qed.

#[export] Program Instance Delete_codec : Codec Delete := {|
  marshal := Delete_Marshal;
  unmarshal := Delete_Unmarshal;
  fresh_for _ := new_Delete;
  valid := Delete_valid
|}.
Next Obligation.
  intros [pr sz n spis] H. unfold Delete_valid in H. cbn in H. bools. subst n.
  match goal with H : _ || _ = true |- _ => apply orb_prop in H as Hsz; clear H end.
  exists ([pr; sz] ++ be_enc 2 (len spis) ++ spis_bytes spis). split; [|split].
  - unfold Delete_Marshal. cbn [d_SPIs d_NumberOfSPI d_ProtocolID d_SPISize].
    rewrite Z.eqb_refl. cbn [mbind res_bind negb set_byte]. rewrite Z.gtb_ltb.
    destruct (Z.ltb_spec 0 (len spis)).
    + destruct Hsz as [Hsz|Hsz]; apply Z.eqb_eq in Hsz; [subst sz|lia].
      rewrite Delete_put_spis_eq by done. done.
    + rewrite (len_zero_nil spis) by (pose proof (len_nonneg spis); lia). done.
  - bsplit; [apply bytesb_be_enc|apply bytesb_spis].
  - intros h. unfold Delete_Unmarshal, slen. cbn [vis]. len_simpl.
    rewrite len_spis_bytes. pose proof (len_nonneg spis).
    assert (sz * len spis = 4 * len spis) by (destruct Hsz as [E|E]; apply Z.eqb_eq in E; nia).
    ztests. rd_idx [pr]. rd_step.
    rd_sub [pr; sz] (be_enc 2 (len spis)) (spis_bytes spis). rd_step.
    rewrite Uint16_enc by done. rd_step. ztests.
    rd_idx []. rd_step.
    rd_from ([pr; sz] ++ be_enc 2 (len spis)) (spis_bytes spis). rd_step.
    by rewrite (Delete_get_spis_rt [] spis h _ []).
Qed.

(** A configuration survives when it has an attribute, the attribute types
    leave the reserved bit clear, and no value is so long that the length
    computation of the decoder wraps. *)
Definition attr_valid (a : IndividualConfigurationAttribute) : bool :=
  (0 <=? ca_Type a) && (ca_Type a <? 2 ^ 15) && bytesb (ca_Value a) &&
  (len (ca_Value a) <=? 65531).
Definition Configuration_valid (p : Configuration) : bool :=
  u8b (cp_ConfigurationType p) && negb (len (cp_ConfigurationAttribute p) =? 0) &&
  forallb attr_valid (cp_ConfigurationAttribute p).

Definition attr_bytes (a : IndividualConfigurationAttribute) : list Z :=
  be_enc 2 (ca_Type a) ++ be_enc 2 (len (ca_Value a)) ++ ca_Value a.
Definition attrs_bytes (l : list IndividualConfigurationAttribute) : list Z :=
  concat (attr_bytes <$> l).

Lemma len_attr_bytes a : len (attr_bytes a) = 4 + len (ca_Value a).
Proof. unfold attr_bytes. len_simpl. lia. Qed.

Lemma Configuration_put_attrs_eq l data :
  forallb attr_valid l = true →
  Configuration_put_attrs l data = Ok (data ++ attrs_bytes l).
Proof.
  revert data. induction l as [|[ty v] l IH]; intros data H.
  - by rewrite app_nil_r.
  - cbn [forallb] in H. bools. unfold attr_valid in H. cbn in H. bools.
    cbn [Configuration_put_attrs ca_Type ca_Value].
    change 0x7fff with (Z.ones 15). rewrite Z.land_ones, Z.mod_small by lia.
    pose proof (len_nonneg v). rewrite put16_first. cbn [mbind res_bind]. ztests.
    rewrite (u16_small (len v)), put16_second by lia. cbn [mbind res_bind].
    rewrite IH by done. f_equal. rewrite <- !app_assoc. reflexivity.
Qed.

Lemma bytesb_attrs l : forallb attr_valid l = true → bytesb (attrs_bytes l) = true.
Proof.
  induction l as [|[ty v] l IH]; [done|]. cbn [forallb]. intros H. bools.
  unfold attr_valid in H. bools. change (attrs_bytes (MkCPAttr ty v :: l)) with
    (attr_bytes (MkCPAttr ty v) ++ attrs_bytes l).
  unfold attr_bytes. bsplit; [apply bytesb_be_enc..|by apply IH].
Qed.

Lemma Configuration_get_attrs_rt l acc h fuel :
  forallb attr_valid l = true → (length (attrs_bytes l) ≤ fuel)%nat →
  Configuration_get_attrs fuel (Slice (attrs_bytes l) h) acc = Ok (acc ++ l).
Proof.
  revert acc fuel. induction l as [|[ty v] l IH]; intros acc fuel H Hf.
  - rewrite app_nil_r. by destruct fuel.
  - cbn [forallb] in H. bools. unfold attr_valid in H. cbn in H. bools.
    change (attrs_bytes (MkCPAttr ty v :: l)) with
      (attr_bytes (MkCPAttr ty v) ++ attrs_bytes l) in *.
    unfold attr_bytes in *. cbn [ca_Type ca_Value] in *. rewrite <- !app_assoc in *.
    rewrite !length_app, !length_be_enc in Hf. destruct fuel as [|fuel]; [lia|].
    cbn [Configuration_get_attrs]. unfold slen. cbn [vis].
    pose proof (len_nonneg (attrs_bytes l)). pose proof (len_nonneg v).
    len_simpl. ztests.
    rd_sub (be_enc 2 ty) (be_enc 2 (len v)) (v ++ attrs_bytes l). rd_step.
    rewrite Uint16_enc by (unfold u16b; by ztests). rd_step.
    rewrite (u16_small (4 + _)) by lia. ztests.
    rd_sub [] (be_enc 2 ty) (be_enc 2 (len v) ++ v ++ attrs_bytes l). rd_step.
    rewrite Uint16_enc by (unfold u16b; by ztests). rd_step.
    rd_from (be_enc 2 ty ++ be_enc 2 (len v)) (v ++ attrs_bytes l). rd_step.
    unfold sto. rd_sub [] v (attrs_bytes l). rd_step.
    rd_from v (attrs_bytes l). rd_step.
    rewrite IH by (done || lia). by rewrite <- app_assoc.
Qed.

#[export] Program Instance Configuration_codec : Codec Configuration := {|
  marshal := Configuration_Marshal;
  unmarshal := Configuration_Unmarshal;
  fresh_for _ := new_Configuration;
  valid := Configuration_valid
|}.
Next Obligation.
  intros [ty l] H. unfold Configuration_valid in H. cbn in H. bools.
  assert (Hl : 0 < len (attrs_bytes l)).
  { destruct l as [|a l]; [done|].
    change (attrs_bytes (a :: l)) with (attr_bytes a ++ attrs_bytes l).
    rewrite len_app, len_attr_bytes. pose proof (len_nonneg (ca_Value a)).
    pose proof (len_nonneg (attrs_bytes l)). lia. }
  exists ([ty; 0; 0; 0] ++ attrs_bytes l). split; [|split].
  - unfold Configuration_Marshal. cbn [cp_ConfigurationType cp_ConfigurationAttribute].
    change (set_byte 0 ty (make_bytes 4)) with (Ok [ty; 0; 0; 0]). cbn [mbind res_bind].
    by rewrite Configuration_put_attrs_eq.
  - bsplit. by apply bytesb_attrs.
  - intros h. unfold Configuration_Unmarshal, slen. cbn [vis]. len_simpl. ztests.
    rd_idx []. rd_step. rd_from [ty; 0; 0; 0] (attrs_bytes l). rd_step.
    by rewrite Configuration_get_attrs_rt.
Qed.

(** ** Decoders that return on every input *)

Ltac total_dec f := intros p b; unfold f; rets.

Lemma KeyExchange_total : total_decoder KeyExchange_Unmarshal.
Proof. total_dec KeyExchange_Unmarshal. Qed.
Lemma IdentificationInitiator_total : total_decoder IdentificationInitiator_Unmarshal.
Proof. total_dec IdentificationInitiator_Unmarshal. Qed.
Lemma IdentificationResponder_total : total_decoder IdentificationResponder_Unmarshal.
Proof. total_dec IdentificationResponder_Unmarshal. Qed.
Lemma Certificate_total : total_decoder Certificate_Unmarshal.
Proof. total_dec Certificate_Unmarshal. Qed.
Lemma CertificateRequest_total : total_decoder CertificateRequest_Unmarshal.
Proof. total_dec CertificateRequest_Unmarshal. Qed.
Lemma Authentication_total : total_decoder Authentication_Unmarshal.
Proof. total_dec Authentication_Unmarshal. Qed.
Lemma Nonce_total : total_decoder Nonce_Unmarshal.
Proof. total_dec Nonce_Unmarshal. Qed.
Lemma VendorID_total : total_decoder VendorID_Unmarshal.
Proof. total_dec VendorID_Unmarshal. Qed.
Lemma Encrypted_total : total_decoder Encrypted_Unmarshal.
Proof. total_dec Encrypted_Unmarshal. Qed.
#[export] Hint Resolve KeyExchange_total IdentificationInitiator_total
  IdentificationResponder_total Certificate_total CertificateRequest_total
  Authentication_total Nonce_total VendorID_total Encrypted_total : go.

(** ** Decoders that panic *)

(** Every read of the notification decoder succeeds unless the SPI size makes
    [4+spiSize] wrap, and then the slice expression [b[4:4+spiSize]] is out of
    order. *)
Lemma Notification_Unmarshal_outcome p b :
  bytesb (vis b) = true →
  if (4 <=? slen b) && (252 <=? default 0 (vis b !! 1%nat)) then
    Notification_Unmarshal p b = Panic
  else returns (Notification_Unmarshal p b).
Proof.
  intros Hb. unfold Notification_Unmarshal.
  destruct (Z.leb_spec 4 (slen b)) as [H4|H4]; cbn [andb].
  2: { destruct (0 <? slen b); [|exact I]. by ztests. }
  ztests. destruct (idx_is b 1) as (s & Ei & Es); [lia|].
  rewrite Ei. apply idx_range in Ei as Hs; [|done].
  change (Z.to_nat 1) with 1%nat in Es. rewrite Es.
  change (default 0 (Some s)) with s. cbn [mbind res_bind].
  unfold u8b in Hs. bools.
  destruct (Z.leb_spec 252 s) as [Hw|Hw].
  - assert (u8 (4 + s) = s - 252) as -> by (unfold u8; Z.div_mod_to_equations; lia).
    ztests.
    destruct (idx_is b 0) as (s0 & -> & _); [lia|]. cbn [mbind res_bind].
    destruct (sub_vis b 2 4) as [h ->]; [lia..|]. cbn [mbind res_bind].
    unfold Uint16. rewrite be_get_is.
    2: { unfold slen, len in *; cbn [vis]; rewrite length_take, length_drop; lia. }
    cbn [mbind res_bind]. by rewrite sub_panic by lia.
  - rewrite u8_small by lia. destruct (Z.ltb_spec (slen b) (4 + s)); [exact I|]. rets.
Qed.

(** The first [n] big-endian 32-bit words of [bs]. *)
Fixpoint words (n : nat) (bs : list Z) : list Z :=
  match n with
  | O => []
  | S n => be_dec (take 4 bs) :: words n (drop 4 bs)
  end.

Lemma length_words n bs : length (words n bs) = n.
Proof. revert bs. induction n; intros bs; cbn [words length]; by f_equal. Qed.

(** The delete decoder reads whole 32-bit words: it panics when the last one
    runs past the capacity. *)
Lemma Delete_get_spis_outcome fuel b i acc :
  0 ≤ i → slen b - i ≤ 4 * Z.of_nat fuel →
  let turns := (slen b - i + 3) / 4 in
  Delete_get_spis fuel b i acc =
    if (i <? slen b) && (scap b <? i + 4 * turns) then Panic
    else Ok (acc ++ words (Z.to_nat turns) (drop (Z.to_nat i) (vis b ++ hid b))).
Proof.
  revert i acc. induction fuel as [|fuel IH]; intros i acc Hi Hf turns; cbn [Delete_get_spis].
  - ztests. rewrite Z2Nat.nonpos by (subst turns; Z.div_mod_to_equations; lia).
    cbn [words]. by rewrite app_nil_r.
  - destruct (Z.ltb_spec i (slen b)) as [Hlt|Hge]; cbn [andb].
    2: { rewrite Z2Nat.nonpos by (subst turns; Z.div_mod_to_equations; lia).
         cbn [words]. by rewrite app_nil_r. }
    assert (Ht : turns = (slen b - (i + 4) + 3) / 4 + 1)
      by (subst turns; Z.div_mod_to_equations; lia).
    set (t' := (slen b - (i + 4) + 3) / 4) in *.
    assert (0 ≤ t') by (subst t'; Z.div_mod_to_equations; lia).
    destruct (Z.leb_spec (i + 4) (scap b)) as [Hc|Hc].
    2: { rewrite (proj2 (Z.ltb_lt _ _)) by lia. unfold sub. by ztests. }
    rewrite sub_ok by lia. cbn [mbind res_bind].
    unfold Uint32. rewrite be_get_is.
    2: { unfold slen, len, scap in *. cbn [vis].
         rewrite length_take, length_drop, length_app. unfold len in Hc. lia. }
    cbn [mbind res_bind vis]. replace (Z.to_nat (i + 4 - i)) with 4%nat by lia.
    rewrite take_take. change (Nat.min 4 4) with 4%nat.
    rewrite IH by lia. cbn zeta. fold t'. rewrite Ht.
    replace (Z.to_nat (t' + 1)) with (S (Z.to_nat t')) by lia. cbn [words].
    rewrite drop_drop, <- app_assoc. cbn [app].
    replace (Z.to_nat i + 4)%nat with (Z.to_nat (i + 4)) by lia.
    replace (i + 4 * (t' + 1)) with (i + 4 + 4 * t') by lia.
    destruct (Z.ltb_spec (i + 4) (slen b)) as [Hl|Hl]; cbn [andb]; [done|].
    assert (t' = 0) by (subst t' turns; Z.div_mod_to_equations; lia). by ztests.
Qed.

(** The number of 32-bit words the decoder reads after the header. *)
Definition delete_turns (b : slice) : Z := (slen b - 4 + 3) / 4.

(** The SPIs read from those words, the last of which may reach into the
    bytes that follow the payload in its buffer. *)
Definition delete_words (b : slice) : list Z :=
  words (Z.to_nat (delete_turns b)) (drop 4 (vis b ++ hid b)).

(** The SPI size and the number of SPIs of the header. *)
Definition delete_size (b : slice) : Z := default 0 (vis b !! 1%nat).
Definition delete_number (b : slice) : Z := be_dec (take 2 (drop 2 (vis b))).

Lemma Delete_Unmarshal_outcome p b :
  Delete_Unmarshal p b =
  if slen b <=? 0 then Ok p
  else if slen b <? 4 then Err "Delete: No sufficient bytes to decode next delete"
  else if slen b <? 4 + delete_size b * delete_number b then
    Err "Delete: No Sufficient bytes to get SPIs according to the length specified in header"
  else if (4 <? slen b) && (scap b <? 4 + 4 * delete_turns b) then Panic
  else Ok (MkD (default 0 (vis b !! 0%nat)) (delete_size b) (delete_number b)
               (d_SPIs p ++ delete_words b)).
Proof.
  unfold Delete_Unmarshal. pose proof (len_nonneg (vis b)). fold (slen b) in *.
  destruct (Z.leb_spec (slen b) 0) as [H0|H0]; [by ztests|]. ztests.
  destruct (Z.ltb_spec (slen b) 4) as [H4|H4]; [by ztests|]. ztests.
  destruct (idx_is b 1) as (sz & -> & Es); [lia|]. unfold delete_size.
  change (Z.to_nat 1) with 1%nat in Es. rewrite Es.
  change (default 0 (Some sz)) with sz. cbn [mbind res_bind].
  destruct (sub_vis b 2 4) as [h ->]; [lia..|]. cbn [mbind res_bind].
  unfold Uint16. rewrite be_get_is.
  2: { unfold slen, len in *; cbn [vis]; rewrite length_take, length_drop; lia. }
  cbn [mbind res_bind vis]. change (Z.to_nat (4 - 2)) with 2%nat.
  change (Z.to_nat 2) with 2%nat. rewrite take_take, Nat.min_id. fold (delete_number b).
  set (n := delete_number b). destruct (slen b <? 4 + sz * n); [done|].
  destruct (idx_is b 0) as (pr & -> & Ep); [lia|]. change (Z.to_nat 0) with 0%nat in Ep.
  rewrite Ep. change (default 0 (Some pr)) with pr. cbn [mbind res_bind].
  rewrite sfrom_ok by lia. cbn [mbind res_bind vis]. change (Z.to_nat 4) with 4%nat.
  set (b' := Slice (drop 4 (vis b)) (hid b)).
  assert (Hl : slen b' = slen b - 4)
    by (unfold slen, len in *; cbn [vis b']; rewrite length_drop; lia).
  assert (Hc : scap b' = scap b - 4) by (unfold scap, slen in *; cbn [hid b']; lia).
  change (drop 4 (vis b)) with (vis b').
  rewrite Delete_get_spis_outcome by (rewrite ?Hl; unfold slen, len in *; lia).
  cbn zeta. rewrite Hl, Hc, Z.sub_0_r, Z.add_0_l. fold (delete_turns b).
  replace (0 <? slen b - 4) with (4 <? slen b)
    by (destruct (Z.ltb_spec 4 (slen b)), (Z.ltb_spec 0 (slen b - 4)); lia).
  replace (scap b - 4 <? 4 * delete_turns b) with (scap b <? 4 + 4 * delete_turns b)
    by (destruct (Z.ltb_spec (scap b) (4 + 4 * delete_turns b)),
                 (Z.ltb_spec (scap b - 4) (4 * delete_turns b)); lia).
  destruct (_ && _); [done|]. cbn [mbind res_bind]. unfold delete_words.
  change (Z.to_nat 0) with 0%nat. rewrite drop_0. cbn [vis hid b'].
  by rewrite drop_app_le by (unfold slen, len in *; lia).
Qed.

(** Encoding a delete payload: a panic when the SPIs do not fit the size
    announced for them. *)
Lemma Delete_put_spis_short b spis :
  len b < 4 → spis ≠ [] → Delete_put_spis b spis = Panic.
Proof.
  intros Hb Hs. destruct spis as [|v spis]; [done|]. cbn [Delete_put_spis].
  unfold PutUint32, be_put.
  rewrite (proj2 (Nat.leb_gt _ _)) by (unfold len in Hb; lia). done.
Qed.

Lemma Delete_put_spis_long b spis :
  4 ≤ len b →
  ∃ l, Delete_put_spis b spis = Ok l ∧ len l = len b * len spis.
Proof.
  intros Hb. revert b Hb. induction spis as [|v spis IH]; intros b Hb.
  - exists []. split; [done|]. rewrite len_nil. lia.
  - cbn [Delete_put_spis]. unfold PutUint32, be_put.
    rewrite (proj2 (Nat.leb_le _ _)) by (unfold len in Hb; lia). cbn [mbind res_bind].
    assert (E : len (list_inserts 0 (be_enc 4 v) b) = len b)
      by (unfold len; by rewrite length_inserts).
    destruct (IH (list_inserts 0 (be_enc 4 v) b)) as (l & -> & Hl); [lia|].
    eexists. split; [done|]. len_simpl. rewrite Hl, E. lia.
Qed.

(** A configuration attribute whose length field makes [4+length] wrap passes
    the length check and then slices past the data. *)
Lemma Configuration_get_attrs_wrap fuel t n rest h acc :
  (0 < fuel)%nat → u16b t = true → 65532 ≤ n < 65536 → len rest < n →
  Configuration_get_attrs fuel (Slice (be_enc 2 t ++ be_enc 2 n ++ rest) h) acc = Panic.
Proof.
  intros Hf Ht Hn Hr. destruct fuel as [|fuel]; [lia|].
  cbn [Configuration_get_attrs]. unfold slen. cbn [vis]. len_simpl.
  pose proof (len_nonneg rest). ztests.
  rd_sub (be_enc 2 t) (be_enc 2 n) rest. rd_step.
  rewrite Uint16_enc by (unfold u16b; by ztests). rd_step.
  assert (u16 (4 + n) = n - 65532) as -> by (unfold u16; Z.div_mod_to_equations; lia).
  ztests. rd_sub [] (be_enc 2 t) (be_enc 2 n ++ rest). rd_step.
  rewrite Uint16_enc by done. rd_step.
  rd_from (be_enc 2 t ++ be_enc 2 n) rest. rd_step.
  unfold sto, sub at 1. destruct (_ && _); [|done]. rd_step.
  unfold sfrom. rewrite sub_panic; [done|]. unfold slen. cbn [vis]. lia.
Qed.

(** ** Properties *)

(** C31: exactly which bytes make the notification decoder panic: at least a
    header, with an SPI size of 252 or more, for which [4+spiSize] wraps
    around in 8 bits. On all others it returns. *)
Theorem Notification_Unmarshal_panics p b :
  bytesb (vis b) = true →
  terminates (Notification_Unmarshal p b) ∧
  (Notification_Unmarshal p b = Panic ↔
   4 ≤ slen b ∧ ∃ spiSize, vis b !! 1%nat = Some spiSize ∧ 252 ≤ spiSize).
Proof.
  intros Hb. pose proof (Notification_Unmarshal_outcome p b Hb) as H.
  assert (Hd : 4 ≤ slen b → ∃ s, vis b !! 1%nat = Some s).
  { intros ?. destruct (idx_is b 1) as (s & _ & E); [lia|]. by exists s. }
  destruct (_ && _) eqn:E.
  - rewrite H. split; [done|]. split; [intros _|done]. bools. split; [done|].
    destruct Hd as [s Es]; [done|]. exists s. rewrite Es in *.
    change (default 0 (Some s)) with s in *. done.
  - split; [by apply returns_terminates|]. split; [intros Hp; by rewrite Hp in H|].
    intros (H4 & s & Es & Hs). exfalso. rewrite Es in E.
    change (default 0 (Some s)) with s in E. revert E. by ztests.
Qed.

Lemma Notification_Unmarshal_panics_witness :
  Notification_Unmarshal new_Notification (of_bytes [0; 255; 64; 4]) = Panic.
Proof.
  apply Notification_Unmarshal_panics; [reflexivity|].
  split; [vm_compute; discriminate|]. exists 255. split; [reflexivity|lia].
Defined.

(** C32: what the delete decoder reads. It compares the product of the SPI size
    and the number of SPIs with the length, and refuses a payload too short
    for it; after that it looks at neither field, and reads everything behind
    the header as 32-bit words, which it adds to the SPIs. The last word may
    take bytes from what follows the payload in its buffer: the decoder panics
    exactly when the comparison passes, there is something behind the header,
    and its last word runs past the end of the buffer. *)
Theorem Delete_Unmarshal_words p b :
  terminates (Delete_Unmarshal p b) ∧
  (Delete_Unmarshal p b = Panic ↔
   4 < slen b ∧ scap b < 4 + 4 * delete_turns b ∧
   4 + delete_size b * delete_number b ≤ slen b) ∧
  ((∃ e, Delete_Unmarshal p b = Err e) ↔
   0 < slen b ∧ (slen b < 4 ∨ slen b < 4 + delete_size b * delete_number b)) ∧
  ∀ q, Delete_Unmarshal p b = Ok q → 0 < slen b →
    vis b !! 0%nat = Some (d_ProtocolID q) ∧
    d_SPISize q = delete_size b ∧ d_NumberOfSPI q = delete_number b ∧
    d_SPIs q = d_SPIs p ++ delete_words b.
Proof.
  rewrite Delete_Unmarshal_outcome. unfold terminates.
  assert (E0 : 0 < slen b → vis b !! 0%nat = Some (default 0 (vis b !! 0%nat))).
  { intros Hp. destruct (idx_is b 0) as (x & _ & E); [lia|].
    change (Z.to_nat 0) with 0%nat in E. by rewrite E. }
  destruct (Z.leb_spec (slen b) 0), (Z.ltb_spec (slen b) 4),
    (Z.ltb_spec (slen b) (4 + delete_size b * delete_number b)),
    (Z.ltb_spec 4 (slen b)), (Z.ltb_spec (scap b) (4 + 4 * delete_turns b)); cbn [andb];
    split_and!; try done; try (split; [intros [? [=]]|intros; exfalso; lia]);
    try (split; [done|intros; exfalso; lia]); try (split; [lia|eauto]; done);
    try (intros q [= <-] ?; try lia; cbn; by eauto).
  all: split; [intros _; split; lia|by eauto].
Qed.

(** What [Marshal] makes of a delete payload whose SPI count is right: an
    SPI size of 4 gives 4 bytes per SPI; a smaller one panics, and a larger
    one pads every SPI with zeros to that size. *)
Theorem Delete_Marshal_sizes p :
  len (d_SPIs p) = d_NumberOfSPI p → 0 < d_NumberOfSPI p → 0 ≤ d_SPISize p →
  if d_SPISize p <? 4 then Delete_Marshal p = Panic
  else ∃ bs, Delete_Marshal p = Ok bs ∧ len bs = 4 + d_SPISize p * d_NumberOfSPI p.
Proof.
  intros En Hn Hs. unfold Delete_Marshal. rewrite En, Z.eqb_refl. cbn [negb].
  change (set_byte 0 (d_ProtocolID p) (make_bytes 4)) with (Ok [d_ProtocolID p; 0; 0; 0]).
  cbn [mbind res_bind].
  change (set_byte 1 (d_SPISize p) [d_ProtocolID p; 0; 0; 0]) with
    (Ok [d_ProtocolID p; d_SPISize p; 0; 0]).
  cbn [mbind res_bind].
  change (PutUint16 2 (d_NumberOfSPI p) [d_ProtocolID p; d_SPISize p; 0; 0]) with
    (Ok ([d_ProtocolID p; d_SPISize p] ++ be_enc 2 (d_NumberOfSPI p))).
  cbn [mbind res_bind]. rewrite Z.gtb_ltb. ztests.
  assert (Hm : len (make_bytes (d_SPISize p)) = d_SPISize p)
    by (unfold make_bytes; rewrite len_replicate; lia).
  destruct (Z.ltb_spec (d_SPISize p) 4).
  - rewrite Delete_put_spis_short; [done|lia|]. intros E. rewrite E in En.
    change (len (@nil Z)) with 0 in En. lia.
  - destruct (Delete_put_spis_long (make_bytes (d_SPISize p)) (d_SPIs p)) as (l & -> & El); [lia|].
    cbn [mbind res_bind]. eexists. split; [reflexivity|]. rewrite len_app, El, Hm, En. done.
Qed.

(** C33: a configuration whose first attribute announces 65532 bytes or more makes
    the decoder panic: [4+length] wraps around in 16 bits, passes the length
    check, and the value is sliced past the end of the data. *)
Theorem Configuration_Unmarshal_wraps p ty t n rest h :
  u16b t = true → 65532 ≤ n < 65536 → len rest < n →
  Configuration_Unmarshal p
    (Slice ([ty; 0; 0; 0] ++ be_enc 2 t ++ be_enc 2 n ++ rest) h) = Panic.
Proof.
  intros Ht Hn Hr. unfold Configuration_Unmarshal, slen. cbn [vis]. len_simpl.
  pose proof (len_nonneg rest). ztests. rd_idx []. rd_step.
  rd_from [ty; 0; 0; 0] (be_enc 2 t ++ be_enc 2 n ++ rest). rd_step.
  rewrite Configuration_get_attrs_wrap; [done|rewrite !length_app, length_be_enc; lia|done..].
Qed.

Lemma Configuration_Unmarshal_wraps_witness :
  Configuration_Unmarshal new_Configuration (of_bytes [1; 0; 0; 0; 0; 1; 255; 255]) = Panic.
Proof.
  apply (Configuration_Unmarshal_wraps new_Configuration 1 1 65535 [] []);
    [reflexivity|lia|reflexivity].
Defined.
