(* ===== verification/SecurityAssociation.v ===== *)
(** * message/payload_securityassociation.go

    Proposals and transforms. [Marshal] and [Unmarshal] are the two nested
    loops of the code; [8+spiSize] is a [uint8] and [12+attributeLength] a
    [uint16], as in the code. *)

From S2P Require Import Prelude GoSlice Types Codec.

Record Transform := MkTransform {
  t_TransformType : Z;
  t_TransformID : Z;
  t_AttributePresent : bool;
  t_AttributeFormat : Z;
  t_AttributeType : Z;
  t_AttributeValue : Z;
  t_VariableLengthAttributeValue : list Z
}.

Record Proposal := MkProposal {
  p_ProposalNumber : Z;
  p_ProtocolID : Z;
  p_SPI : list Z;
  p_EncryptionAlgorithm : list Transform;
  p_PseudorandomFunction : list Transform;
  p_IntegrityAlgorithm : list Transform;
  p_DiffieHellmanGroup : list Transform;
  p_ExtendedSequenceNumbers : list Transform
}.

Record SecurityAssociation := MkSA { sa_Proposals : list Proposal }.
Definition new_SecurityAssociation : SecurityAssociation := MkSA [].

(** ** Marshal *)

(** The attribute of one transform. *)
Definition attribute_data (t : Transform) : res (list Z) :=
  let attributeFormatAndType :=
    Z.lor (Z.shiftl (Z.land (t_AttributeFormat t) 1) 15) (t_AttributeType t) in
  if t_AttributeFormat t =? 0 then
    if len (t_VariableLengthAttributeValue t) =? 0 then
      Err "Attribute of one transform not specified"
    else
      d ← PutUint16 0 attributeFormatAndType (make_bytes 4);
      let variableLen := len (t_VariableLengthAttributeValue t) in
      if variableLen >? 0xFFFF then
        Err "VariableLengthAttributeValue length exceeds uint16 limit"
      else
        d ← PutUint16 2 (u16 variableLen) d;
        Ok (d ++ t_VariableLengthAttributeValue t)
  else
    d ← PutUint16 0 attributeFormatAndType (make_bytes 4);
    PutUint16 2 (t_AttributeValue t) d.

(** One turn of the loop over the transforms; [more]: another one follows. *)
Definition transform_data (more : bool) (t : Transform) : res (list Z) :=
  d ← set_byte 0 (if more then 3 else 0) (make_bytes 8);
  d ← set_byte 4 (t_TransformType t) d;
  d ← PutUint16 6 (t_TransformID t) d;
  d ← (if t_AttributePresent t then a ← attribute_data t; Ok (d ++ a) else Ok d);
  let transformDataLen := len d in
  if transformDataLen >? 0xFFFF then
    Err "Transform: transformData length exceeds uint16 limit"
  else PutUint16 2 (u16 transformDataLen) d.

Fixpoint transforms_data (l : list Transform) : res (list Z) :=
  match l with
  | [] => Ok []
  | t :: l =>
      d ← transform_data (negb (len l =? 0)) t;
      rest ← transforms_data l;
      Ok (d ++ rest)
  end.

Definition transformList (p : Proposal) : list Transform :=
  p_EncryptionAlgorithm p ++ p_PseudorandomFunction p ++ p_IntegrityAlgorithm p ++
  p_DiffieHellmanGroup p ++ p_ExtendedSequenceNumbers p.

Definition proposal_data (more : bool) (p : Proposal) : res (list Z) :=
  d ← set_byte 0 (if more then 2 else 0) (make_bytes 8);
  d ← set_byte 4 (p_ProposalNumber p) d;
  d ← set_byte 5 (p_ProtocolID p) d;
  let numberofSPI := len (p_SPI p) in
  if numberofSPI >? 255 then Err "Proposal: Too many SPI"
  else if len d <? 7 then Err "Proposal: proposal data buffer too short"
  else
    d ← set_byte 6 (u8 numberofSPI) d;
    let d := if len (p_SPI p) >? 0 then d ++ p_SPI p else d in
    let transforms := transformList p in
    if len transforms =? 0 then Err "One proposal has no any transform"
    else if len transforms >? 0xFF then Err "Transform: Too many transform"
    else
      d ← set_byte 7 (u8 (len transforms)) d;
      td ← transforms_data transforms;
      let d := d ++ td in
      if len d >? 0xFFFF then
        Err "Proposal: proposalData length exceeds uint16 limit"
      else PutUint16 2 (u16 (len d)) d.

Fixpoint proposals_data (l : list Proposal) : res (list Z) :=
  match l with
  | [] => Ok []
  | p :: l =>
      d ← proposal_data (negb (len l =? 0)) p;
      rest ← proposals_data l;
      Ok (d ++ rest)
  end.

Definition SecurityAssociation_Marshal (sa : SecurityAssociation) : res (list Z) :=
  proposals_data (sa_Proposals sa).

(** ** Unmarshal *)

(** The switch on the transform type; another type is dropped. *)
Definition add_transform (t : Transform) (p : Proposal) : Proposal :=
  let '(MkProposal num proto spi e r i d x) := p in
  if t_TransformType t =? TypeEncryptionAlgorithm then
    MkProposal num proto spi (e ++ [t]) r i d x
  else if t_TransformType t =? TypePseudorandomFunction then
    MkProposal num proto spi e (r ++ [t]) i d x
  else if t_TransformType t =? TypeIntegrityAlgorithm then
    MkProposal num proto spi e r (i ++ [t]) d x
  else if t_TransformType t =? TypeDiffieHellmanGroup then
    MkProposal num proto spi e r i (d ++ [t]) x
  else if t_TransformType t =? TypeExtendedSequenceNumbers then
    MkProposal num proto spi e r i d (x ++ [t])
  else p.

(** The attribute of a transform longer than its header. [copy] into the nil
    [VariableLengthAttributeValue] copies nothing, but its source is sliced. *)
Definition get_attribute (td : slice) (transformLength ty id : Z) : res Transform :=
  if slen td <? 10 then
    Err "Transform: attribute data too short to read Type"
  else
    b8 ← idx td 8;
    let format := Z.shiftr (Z.land b8 0x80) 7 in
    at16 ← (s ← sub td 8 10; Uint16 s);
    let atype := Z.land at16 0x7f in
    if format =? 0 then
      if slen td <? 12 then
        Err "Transform: attribute data too short to read Length"
      else
        attributeLength ← (s ← sub td 10 12; Uint16 s);
        if negb (u16 (12 + attributeLength) =? transformLength) then
          Err "Illegal attribute length not satisfies the transform length"
        else
          _ ← sub td 12 (u16 (12 + attributeLength));
          Ok (MkTransform ty id true format atype 0 [])
    else if slen td <? 12 then
      Err "Transform: attribute data too short to read Value"
    else
      value ← (s ← sub td 10 12; Uint16 s);
      Ok (MkTransform ty id true format atype value []).

Definition get_transform (td : slice) (transformLength : Z) : res Transform :=
  ty ← idx td 4;
  id ← (s ← sub td 6 8; Uint16 s);
  if transformLength >? 8 then get_attribute td transformLength ty id
  else Ok (MkTransform ty id false 0 0 0 []).

Fixpoint get_transforms (fuel : nat) (td : slice) (p : Proposal) : res Proposal :=
  if slen td >? 0 then
    match fuel with
    | O => Diverge
    | S fuel =>
        if slen td <? 8 then
          Err "Transform: No sufficient bytes to decode next transform"
        else
          transformLength ← (s ← sub td 2 4; Uint16 s);
          if transformLength <? 8 then
            Err "Transform: Illegal payload length < header length 8"
          else if slen td <? transformLength then
            Err "Transform: The length of received message not matchs the length specified in header"
          else
            t ← get_transform td transformLength;
            td ← sfrom td transformLength;
            get_transforms fuel td (add_transform t p)
    end
  else Ok p.

(** One proposal of [proposalLength] bytes at the front of [b]. *)
Definition get_proposal (b : slice) (proposalLength : Z) : res Proposal :=
  num ← idx b 4;
  proto ← idx b 5;
  spiSize ← idx b 6;
  spi ← (if spiSize >? 0 then
           if slen b <? u8 (8 + spiSize) then
             Err "Proposal: No sufficient bytes for unmarshalling SPI of proposal"
           else s ← sub b 8 (u8 (8 + spiSize)); Ok (vis s)
         else Ok []);
  td ← sub b (u8 (8 + spiSize)) proposalLength;
  get_transforms (length (vis td)) td (MkProposal num proto spi [] [] [] [] []).

Fixpoint get_proposals (fuel : nat) (b : slice) (acc : list Proposal) : res (list Proposal) :=
  if slen b >? 0 then
    match fuel with
    | O => Diverge
    | S fuel =>
        if slen b <? 8 then
          Err "Proposal: No sufficient bytes to decode next proposal"
        else
          proposalLength ← (s ← sub b 2 4; Uint16 s);
          if proposalLength <? 8 then
            Err "Proposal: Illegal payload length < header length 8"
          else if slen b <? proposalLength then
            Err "Proposal: The length of received message not matchs the length specified in header"
          else
            p ← get_proposal b proposalLength;
            b ← sfrom b proposalLength;
            get_proposals fuel b (acc ++ [p])
    end
  else Ok acc.

(** Every turn of either loop takes at least eight bytes off, so the length is
    enough fuel. *)
Definition SecurityAssociation_Unmarshal (sa : SecurityAssociation) (b : slice)
    : res SecurityAssociation :=
  l ← get_proposals (length (vis b)) b (sa_Proposals sa);
  Ok (MkSA l).

(** ** What [Marshal] writes *)

Definition attribute_bytes (t : Transform) : list Z :=
  if negb (t_AttributePresent t) then []
  else if t_AttributeFormat t =? 0 then
    be_enc 2 (t_AttributeType t) ++ be_enc 2 (len (t_VariableLengthAttributeValue t)) ++
    t_VariableLengthAttributeValue t
  else be_enc 2 (2 ^ 15 + t_AttributeType t) ++ be_enc 2 (t_AttributeValue t).

Definition transform_bytes (more : bool) (t : Transform) : list Z :=
  [if more then 3 else 0; 0] ++ be_enc 2 (8 + len (attribute_bytes t)) ++
  [t_TransformType t; 0] ++ be_enc 2 (t_TransformID t) ++ attribute_bytes t.

Fixpoint transforms_bytes (l : list Transform) : list Z :=
  match l with
  | [] => []
  | t :: l => transform_bytes (negb (len l =? 0)) t ++ transforms_bytes l
  end.

Definition proposal_bytes (more : bool) (p : Proposal) : list Z :=
  let body := p_SPI p ++ transforms_bytes (transformList p) in
  [if more then 2 else 0; 0] ++ be_enc 2 (8 + len body) ++
  [p_ProposalNumber p; p_ProtocolID p; len (p_SPI p); len (transformList p)] ++ body.

Fixpoint proposals_bytes (l : list Proposal) : list Z :=
  match l with
  | [] => []
  | p :: l => proposal_bytes (negb (len l =? 0)) p ++ proposals_bytes l
  end.

(** The fields are in the range of their types, the attribute format is one of
    the two, and the attribute type has its 15 bits. *)
Definition transform_in_range (t : Transform) : bool :=
  u8b (t_TransformType t) && u16b (t_TransformID t) &&
  ((t_AttributeFormat t =? 0) || (t_AttributeFormat t =? 1)) &&
  (0 <=? t_AttributeType t) && (t_AttributeType t <? 2 ^ 15) &&
  u16b (t_AttributeValue t) && bytesb (t_VariableLengthAttributeValue t).

Definition of_type (k : Z) (t : Transform) : bool := t_TransformType t =? k.

(** In a typed proposal every transform is in the container of its type. *)
Definition proposal_in_range (p : Proposal) : bool :=
  u8b (p_ProposalNumber p) && u8b (p_ProtocolID p) && bytesb (p_SPI p) &&
  forallb transform_in_range (transformList p) &&
  forallb (of_type TypeEncryptionAlgorithm) (p_EncryptionAlgorithm p) &&
  forallb (of_type TypePseudorandomFunction) (p_PseudorandomFunction p) &&
  forallb (of_type TypeIntegrityAlgorithm) (p_IntegrityAlgorithm p) &&
  forallb (of_type TypeDiffieHellmanGroup) (p_DiffieHellmanGroup p) &&
  forallb (of_type TypeExtendedSequenceNumbers) (p_ExtendedSequenceNumbers p).

Lemma attribute_data_eq t d :
  transform_in_range t = true → t_AttributePresent t = true →
  attribute_data t = Ok d →
  d = attribute_bytes t ∧
  (t_AttributeFormat t = 0 → 0 < len (t_VariableLengthAttributeValue t) ≤ 65535).
Proof.
  destruct t as [ty id pr fmt at_ val var]. unfold transform_in_range, attribute_data, attribute_bytes.
  cbn [t_TransformType t_TransformID t_AttributePresent t_AttributeFormat t_AttributeType
       t_AttributeValue t_VariableLengthAttributeValue].
  intros H -> E. bools. cbn [negb]. pose proof (len_nonneg var).
  assert (Hf : fmt = 0 ∨ fmt = 1)
    by (destruct (Z.eqb_spec fmt 0), (Z.eqb_spec fmt 1); try done; lia).
  destruct Hf as [-> | ->]; cbn [Z.eqb] in *.
  - destruct (Z.eqb_spec (len var) 0); [done|]. rewrite put16_first in E.
    cbn [mbind res_bind] in E. destruct (len var >? 65535) eqn:El; [done|].
    rewrite Z.gtb_ltb in El. bools.
    rewrite put16_second, u16_small in E by lia. cbn [mbind res_bind] in E.
    apply (inj Ok) in E as <-. rewrite <- app_assoc. split; [done|lia].
  - rewrite put16_first in E. cbn [mbind res_bind] in E. rewrite put16_second in E.
    apply (inj Ok) in E as <-. split; [|lia].
    change (Z.shiftl (Z.land 1 1) 15) with (2 ^ 15). rewrite lor_pow2_add by lia. done.
Qed.

Lemma transform_data_eq more t d :
  transform_in_range t = true → transform_data more t = Ok d →
  d = transform_bytes more t ∧ len d ≤ 65535 ∧
  (t_AttributePresent t = true → t_AttributeFormat t = 0 →
   0 < len (t_VariableLengthAttributeValue t)).
Proof.
  intros Hr. unfold transform_data.
  set (k := if more then 3 else 0). set (ty := t_TransformType t). set (id := t_TransformID t).
  change (set_byte 0 k (make_bytes 8)) with (Ok [k; 0; 0; 0; 0; 0; 0; 0]).
  cbn [mbind res_bind].
  change (set_byte 4 ty [k; 0; 0; 0; 0; 0; 0; 0]) with (Ok [k; 0; 0; 0; ty; 0; 0; 0]).
  cbn [mbind res_bind].
  change (PutUint16 6 id _) with (Ok ([k; 0; 0; 0; ty; 0] ++ be_enc 2 id)).
  cbn [mbind res_bind]. intros H. apply bind_Ok_inv in H as (x & Hx & H).
  assert (Ha : x = ([k; 0; 0; 0; ty; 0] ++ be_enc 2 id) ++ attribute_bytes t ∧
    (t_AttributePresent t = true → t_AttributeFormat t = 0 →
     0 < len (t_VariableLengthAttributeValue t))).
  { destruct (t_AttributePresent t) eqn:Ep.
    - apply bind_Ok_inv in Hx as (a & Ea & [= <-]).
      apply attribute_data_eq in Ea as [-> Ea]; [|done..]. split; [done|]. intros _ E0. by apply Ea.
    - injection Hx as <-. unfold attribute_bytes. rewrite Ep. by rewrite app_nil_r. }
  destruct Ha as [-> Hv]. clear Hx.
  destruct (_ >? _) eqn:El; [done|]. rewrite Z.gtb_ltb in El. bools.
  revert El H. rewrite !len_app, len_be_enc. change (len [k; 0; 0; 0; ty; 0]) with 6.
  change (Z.of_nat 2) with 2. pose proof (len_nonneg (attribute_bytes t)). intros El.
  rewrite u16_small by lia. intros [= <-].
  replace (6 + 2 + _) with (8 + len (attribute_bytes t)) by lia.
  split; [done|]. split; [|done].
  change (k :: _) with (transform_bytes more t). unfold transform_bytes. len_simpl. lia.
Qed.

Lemma transforms_data_eq l d :
  forallb transform_in_range l = true → transforms_data l = Ok d →
  d = transforms_bytes l ∧
  Forall (λ t, len (attribute_bytes t) ≤ 65527 ∧
    (t_AttributePresent t = true → t_AttributeFormat t = 0 →
     0 < len (t_VariableLengthAttributeValue t))) l.
Proof.
  revert d. induction l as [|t l IH]; intros d.
  - intros _ [= <-]. done.
  - cbn [forallb transforms_data]. intros H Hd. bools. inv_res.
    apply transform_data_eq in E as (-> & Hl & Hv); [|done].
    destruct (IH a0) as [-> HF]; [done..|]. split; [done|]. constructor; [|done].
    split; [|done]. unfold transform_bytes in Hl. revert Hl. len_simpl. lia.
Qed.

Lemma proposal_data_eq more p d :
  forallb transform_in_range (transformList p) = true → proposal_data more p = Ok d →
  d = proposal_bytes more p ∧ len d ≤ 65535 ∧ len (p_SPI p) ≤ 255 ∧
  Forall (λ t, len (attribute_bytes t) ≤ 65527 ∧
    (t_AttributePresent t = true → t_AttributeFormat t = 0 →
     0 < len (t_VariableLengthAttributeValue t))) (transformList p).
Proof.
  intros Hr. unfold proposal_data.
  set (k := if more then 2 else 0). set (num := p_ProposalNumber p).
  set (proto := p_ProtocolID p).
  change (set_byte 0 k (make_bytes 8)) with (Ok [k; 0; 0; 0; 0; 0; 0; 0]).
  cbn [mbind res_bind].
  change (set_byte 4 num [k; 0; 0; 0; 0; 0; 0; 0]) with (Ok [k; 0; 0; 0; num; 0; 0; 0]).
  cbn [mbind res_bind].
  change (set_byte 5 proto [k; 0; 0; 0; num; 0; 0; 0]) with (Ok [k; 0; 0; 0; num; proto; 0; 0]).
  cbn [mbind res_bind]. pose proof (len_nonneg (p_SPI p)).
  destruct (_ >? 255) eqn:E1; [done|]. rewrite Z.gtb_ltb in E1. bools.
  change (len [_; _; _; _; _; _; _; _] <? 7) with false. cbn iota.
  change (set_byte 6 (u8 (len (p_SPI p))) _) with
    (Ok [k; 0; 0; 0; num; proto; u8 (len (p_SPI p)); 0]).
  cbn [mbind res_bind]. rewrite (u8_small (len (p_SPI p))) by lia.
  replace (if len (p_SPI p) >? 0 then _ else _) with
    ([k; 0; 0; 0; num; proto; len (p_SPI p); 0] ++ p_SPI p).
  2: { rewrite Z.gtb_ltb. destruct (Z.ltb_spec 0 (len (p_SPI p))); [done|].
       rewrite (len_zero_nil (p_SPI p)) at 2 by lia. by rewrite app_nil_r. }
  destruct (_ =? 0) eqn:E2; [done|]. destruct (_ >? 255) eqn:E3; [done|].
  rewrite Z.gtb_ltb in E3. bools. pose proof (len_nonneg (transformList p)).
  rewrite (u8_small (len (transformList p))) by lia.
  change (set_byte 7 (len (transformList p)) _) with
    (Ok ([k; 0; 0; 0; num; proto; len (p_SPI p); len (transformList p)] ++ p_SPI p)).
  cbn [mbind res_bind]. intros Hd. inv_res.
  apply transforms_data_eq in E as [-> HF]; [|done].
  destruct (_ >? 65535) eqn:El; [done|]. rewrite Z.gtb_ltb in El. bools.
  revert El Hd. rewrite !len_app. change (len [_; _; _; _; _; _; _; _]) with 8.
  pose proof (len_nonneg (transforms_bytes (transformList p))). intros El.
  rewrite u16_small by lia. intros [= <-].
  rewrite <- Z.add_assoc, <- len_app.
  split; [done|]. split; [|done].
  change (k :: _) with (proposal_bytes more p). unfold proposal_bytes. len_simpl. lia.
Qed.

(** ** What [Unmarshal] reads back *)

(** The decoder keeps seven bits of the attribute type and loses the value of
    a variable-length attribute. *)
Definition lossy (t : Transform) : Transform :=
  if negb (t_AttributePresent t) then
    MkTransform (t_TransformType t) (t_TransformID t) false 0 0 0 []
  else if t_AttributeFormat t =? 0 then
    MkTransform (t_TransformType t) (t_TransformID t) true 0
      (Z.land (t_AttributeType t) 0x7f) 0 []
  else
    MkTransform (t_TransformType t) (t_TransformID t) true 1
      (Z.land (t_AttributeType t) 0x7f) (t_AttributeValue t) [].

Definition lossy_proposal (p : Proposal) : Proposal :=
  MkProposal (p_ProposalNumber p) (p_ProtocolID p) (p_SPI p)
    (lossy <$> p_EncryptionAlgorithm p) (lossy <$> p_PseudorandomFunction p)
    (lossy <$> p_IntegrityAlgorithm p) (lossy <$> p_DiffieHellmanGroup p)
    (lossy <$> p_ExtendedSequenceNumbers p).

Definition encodable (t : Transform) : Prop :=
  len (attribute_bytes t) ≤ 65527 ∧
  (t_AttributePresent t = true → t_AttributeFormat t = 0 →
   0 < len (t_VariableLengthAttributeValue t)).

Lemma land_127_high ty : 0 ≤ ty → Z.land (2 ^ 15 + ty) 0x7f = Z.land ty 0x7f.
Proof.
  intros. change 0x7f with (Z.ones 7). rewrite !Z.land_ones by lia.
  change (2 ^ 15) with (256 * 2 ^ 7). rewrite Z.add_comm, Z.mod_add by lia. done.
Qed.

Lemma get_attribute_bytes more t rest h :
  transform_in_range t = true → encodable t → t_AttributePresent t = true →
  get_attribute (Slice (transform_bytes more t ++ rest) h) (8 + len (attribute_bytes t))
    (t_TransformType t) (t_TransformID t) = Ok (lossy t).
Proof.
  destruct t as [ty id pr fmt at_ val var].
  unfold transform_in_range, encodable, transform_bytes, lossy, attribute_bytes.
  cbn [t_TransformType t_TransformID t_AttributePresent t_AttributeFormat t_AttributeType
       t_AttributeValue t_VariableLengthAttributeValue].
  intros H [Hl Hv] ->. bools. cbn [negb] in *.
  set (k := if more then 3 else 0).
  assert (Hf : fmt = 0 ∨ fmt = 1)
    by (destruct (Z.eqb_spec fmt 0), (Z.eqb_spec fmt 1); try done; lia).
  unfold get_attribute, slen. cbn [vis]. pose proof (len_nonneg rest).
  destruct Hf as [-> | ->]; cbn [Z.eqb] in *.
  - specialize (Hv eq_refl eq_refl). revert Hl. len_simpl. intros Hl.
    set (L := 8 + (Z.of_nat 2 + (Z.of_nat 2 + len var))).
    set (hdr := [k; 0] ++ be_enc 2 L ++ [ty; 0] ++ be_enc 2 id).
    replace (([k; 0] ++ _) ++ rest) with
      (hdr ++ be_enc 2 at_ ++ be_enc 2 (len var) ++ var ++ rest)
      by (unfold hdr; by rewrite <- !app_assoc).
    assert (Hh : len hdr = 8) by done. ztests.
    rd_idx_be2 hdr at_ (be_enc 2 (len var) ++ var ++ rest). rd_step.
    rewrite top_bit by apply u8b_u8.
    replace (u8 (at_ / 256) / 128) with 0
      by (unfold u8; Z.div_mod_to_equations; lia).
    rd_sub hdr (be_enc 2 at_) (be_enc 2 (len var) ++ var ++ rest). rd_step.
    rewrite Uint16_enc by (unfold u16b; by ztests). rd_step. cbn [Z.eqb].
    rd_sub (hdr ++ be_enc 2 at_) (be_enc 2 (len var)) (var ++ rest). rd_step.
    rewrite Uint16_enc by (unfold u16b; by ztests). rd_step.
    rewrite u16_small by lia. replace (12 + len var =? L) with true
      by (symmetry; apply Z.eqb_eq; unfold L; lia). cbn [negb].
    rd_sub (hdr ++ be_enc 2 at_ ++ be_enc 2 (len var)) var rest. done.
  - revert Hl. len_simpl. intros Hl.
    set (L := 8 + (Z.of_nat 2 + Z.of_nat 2)).
    set (hdr := [k; 0] ++ be_enc 2 L ++ [ty; 0] ++ be_enc 2 id).
    replace (([k; 0] ++ _) ++ rest) with
      (hdr ++ be_enc 2 (2 ^ 15 + at_) ++ be_enc 2 val ++ rest)
      by (unfold hdr; by rewrite <- !app_assoc).
    assert (Hh : len hdr = 8) by done. ztests.
    rd_idx_be2 hdr (2 ^ 15 + at_) (be_enc 2 val ++ rest). rd_step.
    rewrite top_bit by apply u8b_u8.
    replace (u8 ((2 ^ 15 + at_) / 256) / 128) with 1
      by (unfold u8; Z.div_mod_to_equations; lia).
    rd_sub hdr (be_enc 2 (2 ^ 15 + at_)) (be_enc 2 val ++ rest). rd_step.
    rewrite Uint16_enc by (unfold u16b; by ztests). rd_step. cbn [Z.eqb].
    rd_sub (hdr ++ be_enc 2 (2 ^ 15 + at_)) (be_enc 2 val) rest. rd_step.
    rewrite Uint16_enc by done. rd_step. by rewrite land_127_high by lia.
Qed.

Lemma get_transform_bytes more t rest h :
  transform_in_range t = true → encodable t →
  get_transform (Slice (transform_bytes more t ++ rest) h) (8 + len (attribute_bytes t)) =
    Ok (lossy t).
Proof.
  intros Hr He. unfold get_transform.
  assert (Hid : u16b (t_TransformID t) = true) by (unfold transform_in_range in Hr; by bools).
  set (k := if more then 3 else 0).
  assert (E : transform_bytes more t ++ rest =
    ([k; 0] ++ be_enc 2 (8 + len (attribute_bytes t))) ++ t_TransformType t :: 0 ::
    be_enc 2 (t_TransformID t) ++ attribute_bytes t ++ rest)
    by (unfold transform_bytes; by rewrite <- !app_assoc).
  goal_call ltac:(fun c => lazymatch c with idx ?s ?i =>
    rewrite (idx_at _ _ _ s i E) by done end). rd_step.
  goal_call ltac:(fun c => lazymatch c with sub ?s ?lo ?hi =>
    rewrite (sub_at (([k; 0] ++ be_enc 2 (8 + len (attribute_bytes t))) ++
      [t_TransformType t; 0]) (be_enc 2 (t_TransformID t)) (attribute_bytes t ++ rest) s lo hi)
      by first [exact E | reflexivity] end). rd_step.
  rewrite Uint16_enc by done. rd_step. rewrite Z.gtb_ltb.
  destruct (t_AttributePresent t) eqn:Ep.
  - destruct (Z.ltb_spec 8 (8 + len (attribute_bytes t))) as [_|Hl].
    + by apply get_attribute_bytes.
    + exfalso. revert Hl. unfold attribute_bytes. rewrite Ep. cbn [negb].
      destruct (_ =? 0); len_simpl;
        pose proof (len_nonneg (t_VariableLengthAttributeValue t)); lia.
  - unfold lossy, attribute_bytes. rewrite Ep. done.
Qed.

Lemma len_transform_bytes more t : len (transform_bytes more t) = 8 + len (attribute_bytes t).
Proof. unfold transform_bytes. len_simpl. lia. Qed.

Lemma get_transforms_bytes l fuel h p :
  Forall (λ t, transform_in_range t = true ∧ encodable t) l →
  (length (transforms_bytes l) ≤ fuel)%nat →
  get_transforms fuel (Slice (transforms_bytes l) h) p =
    Ok (foldl (λ p t, add_transform (lossy t) p) p l).
Proof.
  intros HF. revert fuel p. induction HF as [|t l [Hr He] HF IH]; intros fuel p Hf.
  - by destruct fuel.
  - cbn [transforms_bytes] in *. set (more := negb _) in *.
    pose proof (len_transform_bytes more t) as Hl.
    pose proof (len_nonneg (attribute_bytes t)). pose proof (len_nonneg (transforms_bytes l)).
    pose proof He as [He1 _].
    rewrite length_app in Hf. destruct fuel as [|fuel]; [unfold len in *; lia|].
    cbn [get_transforms foldl]. unfold slen. cbn [vis]. rewrite len_app, Hl. ztests.
    set (k := if more then 3 else 0).
    assert (E : transform_bytes more t ++ transforms_bytes l =
      [k; 0] ++ be_enc 2 (8 + len (attribute_bytes t)) ++
      [t_TransformType t; 0] ++ be_enc 2 (t_TransformID t) ++ attribute_bytes t ++
      transforms_bytes l) by (unfold transform_bytes; by rewrite <- !app_assoc).
    goal_call ltac:(fun c => lazymatch c with sub ?s ?lo ?hi =>
      rewrite (sub_at [k; 0] (be_enc 2 (8 + len (attribute_bytes t))) _ s lo hi E) by done end).
    rd_step.
    rewrite Uint16_enc by (unfold u16b; by ztests). rd_step. ztests.
    rewrite get_transform_bytes by done. rd_step.
    goal_call ltac:(fun c => lazymatch c with sfrom ?s ?lo =>
      rewrite (sfrom_at (transform_bytes more t) (transforms_bytes l) s lo) by done end).
    rd_step. apply IH. unfold len in *. lia.
Qed.

(** ** Proposals *)

(** The transforms of one type all go to the container of that type. *)
Definition add_lossy (p : Proposal) (t : Transform) : Proposal := add_transform (lossy t) p.

Lemma lossy_type t : t_TransformType (lossy t) = t_TransformType t.
Proof. unfold lossy. by repeat case_match. Qed.

Ltac add_container :=
  match goal with
  | |- ∀ l, _ => let l := fresh "l" in let t := fresh "t" in let IH := fresh "IH" in
    intros l; induction l as [|t l IH]; intros num proto spi e r i d x H;
    [ by rewrite ?app_nil_r
    | cbn [forallb] in H; bools; unfold of_type in *; bools;
      cbn [foldl]; unfold add_lossy at 2, add_transform; rewrite lossy_type;
      match goal with E : t_TransformType t = _ |- _ => rewrite E end;
      cbn [Z.eqb Pos.eqb TypeEncryptionAlgorithm TypePseudorandomFunction
        TypeIntegrityAlgorithm TypeDiffieHellmanGroup TypeExtendedSequenceNumbers];
      rewrite IH by done; rewrite fmap_cons, <- app_assoc; reflexivity ]
  end.

Lemma add_encr : ∀ l num proto spi e r i d x,
  forallb (of_type TypeEncryptionAlgorithm) l = true →
  foldl add_lossy (MkProposal num proto spi e r i d x) l =
    MkProposal num proto spi (e ++ (lossy <$> l)) r i d x.
Proof. add_container. Qed.
Lemma add_prf : ∀ l num proto spi e r i d x,
  forallb (of_type TypePseudorandomFunction) l = true →
  foldl add_lossy (MkProposal num proto spi e r i d x) l =
    MkProposal num proto spi e (r ++ (lossy <$> l)) i d x.
Proof. add_container. Qed.
Lemma add_integ : ∀ l num proto spi e r i d x,
  forallb (of_type TypeIntegrityAlgorithm) l = true →
  foldl add_lossy (MkProposal num proto spi e r i d x) l =
    MkProposal num proto spi e r (i ++ (lossy <$> l)) d x.
Proof. add_container. Qed.
Lemma add_dh : ∀ l num proto spi e r i d x,
  forallb (of_type TypeDiffieHellmanGroup) l = true →
  foldl add_lossy (MkProposal num proto spi e r i d x) l =
    MkProposal num proto spi e r i (d ++ (lossy <$> l)) x.
Proof. add_container. Qed.
Lemma add_esn : ∀ l num proto spi e r i d x,
  forallb (of_type TypeExtendedSequenceNumbers) l = true →
  foldl add_lossy (MkProposal num proto spi e r i d x) l =
    MkProposal num proto spi e r i d (x ++ (lossy <$> l)).
Proof. add_container. Qed.

Lemma add_all p : proposal_in_range p = true →
  foldl add_lossy (MkProposal (p_ProposalNumber p) (p_ProtocolID p) (p_SPI p) [] [] [] [] [])
    (transformList p) = lossy_proposal p.
Proof.
  destruct p as [num proto spi e r i d x]. unfold proposal_in_range, transformList.
  cbn [p_ProposalNumber p_ProtocolID p_SPI p_EncryptionAlgorithm p_PseudorandomFunction
       p_IntegrityAlgorithm p_DiffieHellmanGroup p_ExtendedSequenceNumbers].
  intros H. bools. rewrite !foldl_app, add_encr, add_prf, add_integ, add_dh, add_esn by done.
  done.
Qed.

Lemma len_proposal_bytes more p :
  len (proposal_bytes more p) = 8 + len (p_SPI p ++ transforms_bytes (transformList p)).
Proof. unfold proposal_bytes. len_simpl. lia. Qed.

(** A proposal is read back, up to [lossy], when its SPI is short enough for
    [8+spiSize] not to wrap. *)
Lemma get_proposal_bytes more p rest h :
  proposal_in_range p = true → Forall encodable (transformList p) →
  len (p_SPI p) ≤ 247 →
  get_proposal (Slice (proposal_bytes more p ++ rest) h)
    (len (proposal_bytes more p)) = Ok (lossy_proposal p).
Proof.
  intros Hr HF Hs. rewrite len_proposal_bytes. unfold get_proposal.
  set (trs := transforms_bytes (transformList p)).
  set (L := 8 + len (p_SPI p ++ trs)).
  set (hdr4 := [if more then 2 else 0; 0] ++ be_enc 2 L).
  assert (H4 : len hdr4 = 4) by done.
  assert (E : proposal_bytes more p ++ rest = hdr4 ++ [p_ProposalNumber p; p_ProtocolID p;
    len (p_SPI p); len (transformList p)] ++ p_SPI p ++ trs ++ rest)
    by (unfold proposal_bytes, hdr4; by rewrite <- !app_assoc).
  rewrite E. pose proof (len_nonneg (p_SPI p)).
  rd_idx hdr4. rd_step. rd_idx (hdr4 ++ [p_ProposalNumber p]). rd_step.
  rd_idx (hdr4 ++ [p_ProposalNumber p; p_ProtocolID p]). rd_step.
  set (hdr := hdr4 ++ [p_ProposalNumber p; p_ProtocolID p; len (p_SPI p);
                       len (transformList p)]).
  assert (H8 : len hdr = 8) by done. rewrite u8_small by lia.
  replace (if len (p_SPI p) >? 0 then _ else _) with (@Ok (list Z) (p_SPI p)).
  2: { rewrite Z.gtb_ltb. destruct (Z.ltb_spec 0 (len (p_SPI p))) as [_|?].
       - unfold slen. cbn [vis]. len_simpl. rewrite H4.
         pose proof (len_nonneg trs). pose proof (len_nonneg rest). ztests. symmetry.
         goal_call ltac:(fun c => lazymatch c with sub ?s ?lo ?hi =>
           rewrite (sub_at hdr (p_SPI p) (trs ++ rest) s lo hi) by first [done | rd_len] end).
         done.
       - rewrite (len_zero_nil (p_SPI p)) by lia. done. }
  rd_step.
  goal_call ltac:(fun c => lazymatch c with sub ?s ?lo ?hi =>
    rewrite (sub_at (hdr ++ p_SPI p) trs rest s lo hi) end).
  2: { cbn [vis]. unfold hdr. by rewrite <- !app_assoc. }
  2: { rewrite len_app. lia. }
  2: { rewrite len_app, H8. unfold L. rewrite len_app. lia. }
  rd_step. unfold trs. rewrite get_transforms_bytes; [f_equal; by apply add_all| |done].
  assert (Hall : forallb transform_in_range (transformList p) = true)
    by (unfold proposal_in_range in Hr; by bools).
  rewrite forallb_forall in Hall. apply Forall_forall. intros t Ht. split.
  - by apply Hall, list_elem_of_In.
  - by eapply Forall_forall in HF.
Qed.

Definition proposal_encodable (p : Proposal) : Prop :=
  Forall encodable (transformList p) ∧ len (p_SPI p) ≤ 247 ∧
  len (p_SPI p ++ transforms_bytes (transformList p)) ≤ 65527.

Lemma get_proposals_bytes l fuel h acc :
  Forall (λ p, proposal_in_range p = true ∧ proposal_encodable p) l →
  (length (proposals_bytes l) ≤ fuel)%nat →
  get_proposals fuel (Slice (proposals_bytes l) h) acc = Ok (acc ++ (lossy_proposal <$> l)).
Proof.
  intros HF. revert fuel acc. induction HF as [|p l [Hr (He & Hs & Hl)] HF IH]; intros fuel acc Hf.
  - rewrite app_nil_r. by destruct fuel.
  - cbn [proposals_bytes] in *. set (more := negb _) in *.
    pose proof (len_proposal_bytes more p) as Hb.
    set (body := p_SPI p ++ transforms_bytes (transformList p)) in *.
    pose proof (len_nonneg body). pose proof (len_nonneg (proposals_bytes l)).
    rewrite length_app in Hf. destruct fuel as [|fuel]; [unfold len in *; lia|].
    cbn [get_proposals]. unfold slen. cbn [vis]. rewrite len_app, Hb. ztests.
    set (k := if more then 2 else 0).
    assert (E : proposal_bytes more p ++ proposals_bytes l = [k; 0] ++ be_enc 2 (8 + len body) ++
      [p_ProposalNumber p; p_ProtocolID p; len (p_SPI p); len (transformList p)] ++ body ++
      proposals_bytes l) by (unfold proposal_bytes; fold body; fold k; by rewrite <- !app_assoc).
    goal_call ltac:(fun c => lazymatch c with sub ?s ?lo ?hi =>
      rewrite (sub_at [k; 0] (be_enc 2 (8 + len body)) _ s lo hi E) by done end).
    rd_step. rewrite Uint16_enc by (unfold u16b; by ztests). rd_step. ztests.
    rewrite <- Hb. rewrite get_proposal_bytes by done. rd_step.
    goal_call ltac:(fun c => lazymatch c with sfrom ?s ?lo =>
      rewrite (sfrom_at (proposal_bytes more p) (proposals_bytes l) s lo) by done end).
    rd_step. rewrite IH by (unfold len in *; lia). by rewrite fmap_cons, <- app_assoc.
Qed.

Definition sa_in_range (sa : SecurityAssociation) : bool :=
  forallb (λ p, proposal_in_range p && (len (p_SPI p) <=? 247)) (sa_Proposals sa).

Lemma proposals_data_eq l d :
  forallb (λ p, proposal_in_range p && (len (p_SPI p) <=? 247)) l = true →
  proposals_data l = Ok d →
  d = proposals_bytes l ∧ Forall (λ p, proposal_in_range p = true ∧ proposal_encodable p) l.
Proof.
  revert d. induction l as [|p l IH]; intros d.
  - intros _ [= <-]. done.
  - cbn [forallb proposals_data]. intros H Hd. bools. inv_res.
    apply proposal_data_eq in E as (-> & Hl & Hs & He).
    2: { match goal with Hp : proposal_in_range p = true |- _ => clear -Hp end.
         unfold proposal_in_range in *. by bools. }
    destruct (IH a0) as [-> HF]; [done..|]. split; [done|]. constructor; [|done].
    rewrite len_proposal_bytes in Hl. repeat split; try done; lia.
Qed.

Lemma SecurityAssociation_read_back sa bs h :
  sa_in_range sa = true → SecurityAssociation_Marshal sa = Ok bs →
  SecurityAssociation_Unmarshal new_SecurityAssociation (Slice bs h) =
    Ok (MkSA (lossy_proposal <$> sa_Proposals sa)).
Proof.
  unfold sa_in_range, SecurityAssociation_Marshal, SecurityAssociation_Unmarshal.
  intros Hr Hm. apply proposals_data_eq in Hm as [-> HF]; [|done].
  cbn [vis]. by rewrite get_proposals_bytes.
Qed.

(** ** Termination of the two loops *)

Lemma get_transform_terminates td n : terminates (get_transform td n).
Proof. unfold get_transform, get_attribute. terms. Qed.

Lemma get_transforms_terminates fuel td p :
  (length (vis td) ≤ fuel)%nat → terminates (get_transforms fuel td p).
Proof.
  revert td p. induction fuel as [|fuel IH]; intros td p Hf; cbn [get_transforms].
  - destruct (slen td >? 0) eqn:E; [|done]. rewrite Z.gtb_ltb in E. bools.
    unfold slen, len in E. lia.
  - terms; [apply get_transform_terminates|]. apply IH.
    match goal with H : sfrom _ _ = Ok _ |- _ => apply sfrom_shrinks in H end.
    bools. lia.
Qed.

Lemma get_proposal_terminates b n : terminates (get_proposal b n).
Proof. unfold get_proposal. terms. by apply get_transforms_terminates. Qed.

Lemma get_proposals_terminates fuel b acc :
  (length (vis b) ≤ fuel)%nat → terminates (get_proposals fuel b acc).
Proof.
  revert b acc. induction fuel as [|fuel IH]; intros b acc Hf; cbn [get_proposals].
  - destruct (slen b >? 0) eqn:E; [|done]. rewrite Z.gtb_ltb in E. bools.
    unfold slen, len in E. lia.
  - terms; [apply get_proposal_terminates|]. apply IH.
    match goal with H : sfrom _ _ = Ok _ |- _ => apply sfrom_shrinks in H end.
    bools. lia.
Qed.

Lemma SecurityAssociation_terminates sa b : terminates (SecurityAssociation_Unmarshal sa b).
Proof. unfold SecurityAssociation_Unmarshal. terms. by apply get_proposals_terminates. Qed.
#[export] Hint Resolve SecurityAssociation_terminates : go.

(** ** The codec: the associations that survive unchanged *)

(** No attribute, or a fixed-length one whose type has seven bits. *)
Definition lossless (t : Transform) : bool :=
  if t_AttributePresent t then
    (t_AttributeFormat t =? 1) && (t_AttributeType t <? 128) &&
    (len (t_VariableLengthAttributeValue t) =? 0)
  else (t_AttributeFormat t =? 0) && (t_AttributeType t =? 0) &&
    (t_AttributeValue t =? 0) && (len (t_VariableLengthAttributeValue t) =? 0).

Definition proposal_valid (p : Proposal) : bool :=
  proposal_in_range p && (len (p_SPI p) <=? 247) &&
  forallb lossless (transformList p) &&
  (0 <? len (transformList p)) && (len (transformList p) <=? 255).

Definition SecurityAssociation_valid (sa : SecurityAssociation) : bool :=
  forallb proposal_valid (sa_Proposals sa).

Lemma lossless_lossy t : transform_in_range t = true → lossless t = true → lossy t = t.
Proof.
  destruct t as [ty id pr fmt at_ val var]. unfold lossless, lossy, transform_in_range.
  cbn [t_TransformType t_TransformID t_AttributePresent t_AttributeFormat t_AttributeType
       t_AttributeValue t_VariableLengthAttributeValue].
  destruct pr; cbn [negb]; intros H1 H2; bools; assert (var = []) as -> by (by apply len_zero_nil); subst.
  - cbn [Z.eqb]. change 0x7f with (Z.ones 7). by rewrite Z.land_ones, Z.mod_small by lia.
  - done.
Qed.

Lemma transform_data_total more t :
  lossless t = true → ∃ d, transform_data more t = Ok d ∧ len d ≤ 12.
Proof.
  intros H. unfold transform_data. set (k := if more then 3 else 0).
  change (set_byte 0 k (make_bytes 8)) with (Ok [k; 0; 0; 0; 0; 0; 0; 0]).
  cbn [mbind res_bind].
  change (set_byte 4 _ _) with (Ok [k; 0; 0; 0; t_TransformType t; 0; 0; 0]).
  cbn [mbind res_bind].
  change (PutUint16 6 _ _) with
    (Ok ([k; 0; 0; 0; t_TransformType t; 0] ++ be_enc 2 (t_TransformID t))).
  cbn [mbind res_bind]. unfold lossless in H. destruct (t_AttributePresent t).
  - bools. unfold attribute_data. ztests. rewrite put16_first. cbn [mbind res_bind].
    rewrite put16_second. cbn [mbind res_bind].
    match goal with |- context [len ?d >? _] => assert (len d = 12) as -> by done end.
    eexists. split; [reflexivity|]. done.
  - cbn [mbind res_bind]. eexists. split; [reflexivity|]. done.
Qed.

Lemma transforms_data_total l :
  forallb lossless l = true → ∃ d, transforms_data l = Ok d ∧ len d ≤ 12 * len l.
Proof.
  induction l as [|t l IH]; [by exists []|]. cbn [forallb transforms_data]. intros H. bools.
  destruct (transform_data_total (negb (len l =? 0)) t) as (d & -> & Hd); [done|].
  destruct IH as (d' & -> & Hd'); [done|]. eexists. split; [reflexivity|].
  len_simpl. lia.
Qed.

Lemma proposal_data_total more p :
  len (p_SPI p) ≤ 247 → forallb lossless (transformList p) = true →
  0 < len (transformList p) ≤ 255 → ∃ d, proposal_data more p = Ok d.
Proof.
  intros Hs Hl Hn. unfold proposal_data. set (k := if more then 2 else 0).
  change (set_byte 0 k (make_bytes 8)) with (Ok [k; 0; 0; 0; 0; 0; 0; 0]).
  cbn [mbind res_bind].
  change (set_byte 4 _ _) with (Ok [k; 0; 0; 0; p_ProposalNumber p; 0; 0; 0]).
  cbn [mbind res_bind].
  change (set_byte 5 _ _) with (Ok [k; 0; 0; 0; p_ProposalNumber p; p_ProtocolID p; 0; 0]).
  cbn [mbind res_bind]. ztests. rewrite ?Z.gtb_ltb.
  change (len [_; _; _; _; _; _; _; _]) with 8. ztests.
  change (set_byte 6 _ _) with
    (Ok [k; 0; 0; 0; p_ProposalNumber p; p_ProtocolID p; u8 (len (p_SPI p)); 0]).
  cbn [mbind res_bind].
  destruct (transforms_data_total _ Hl) as (td & Htd & Hlen).
  set (d7 := if 0 <? len (p_SPI p) then _ else _).
  assert (H7 : ∃ e, set_byte 7 (u8 (len (transformList p))) d7 = Ok e ∧
     len e = 8 + len (p_SPI p) ∧ (2 + 2 ≤ length e)%nat).
  { subst d7. destruct (Z.ltb_spec 0 (len (p_SPI p))) as [?|?].
    - eexists. split; [reflexivity|]. cbn. len_simpl. unfold len. split; [lia|]. cbn; lia.
    - eexists. split; [reflexivity|]. pose proof (len_nonneg (p_SPI p)).
      unfold len in *. cbn. lia. }
  destruct H7 as (e & -> & He & He4). cbn [mbind res_bind]. rewrite Htd. cbn [mbind res_bind].
  rewrite len_app, He. ztests. unfold PutUint16, be_put.
  rewrite (proj2 (Nat.leb_le _ _)) by (rewrite length_app; lia). by eexists.
Qed.

Lemma proposals_data_total l :
  forallb proposal_valid l = true → ∃ d, proposals_data l = Ok d.
Proof.
  induction l as [|p l IH]; [by exists []|]. cbn [forallb proposals_data]. intros H.
  apply andb_prop in H as [Hp H]. unfold proposal_valid in Hp. bools.
  destruct (proposal_data_total (negb (len l =? 0)) p) as (d & ->); [done..|].
  destruct IH as (d' & ->); [done|]. by eexists.
Qed.

Lemma lossy_list_id l :
  forallb transform_in_range l = true → forallb lossless l = true → lossy <$> l = l.
Proof.
  induction l as [|t l IH]; [done|]. cbn [forallb]. intros. bools.
  rewrite fmap_cons, lossless_lossy, IH; done.
Qed.

Lemma lossless_proposal p :
  proposal_in_range p = true → forallb lossless (transformList p) = true → lossy_proposal p = p.
Proof.
  intros Hr Hl. unfold proposal_in_range in Hr. do 5 (apply andb_prop in Hr as [Hr _]).
  apply andb_prop in Hr as [_ Hr]. destruct p as [num proto spi e r i d x].
  unfold transformList in *. cbn [p_EncryptionAlgorithm p_PseudorandomFunction p_IntegrityAlgorithm
    p_DiffieHellmanGroup p_ExtendedSequenceNumbers] in *.
  rewrite !forallb_app in Hr, Hl. unfold lossy_proposal. cbn.
  repeat (apply andb_prop in Hr as [? Hr]). repeat (apply andb_prop in Hl as [? Hl]).
  by rewrite !lossy_list_id.
Qed.

Lemma proposal_valid_id p : proposal_valid p = true → lossy_proposal p = p.
Proof.
  unfold proposal_valid. intros H. do 2 (apply andb_prop in H as [H _]).
  apply andb_prop in H as [H Hl]. apply andb_prop in H as [H _]. by apply lossless_proposal.
Qed.

Lemma bytesb_attribute t : transform_in_range t = true → bytesb (attribute_bytes t) = true.
Proof.
  unfold transform_in_range, attribute_bytes. intros H. bools.
  destruct (negb _); [done|]. destruct (_ =? 0); bsplit; apply bytesb_be_enc.
Qed.
Lemma bytesb_transforms l :
  forallb transform_in_range l = true → bytesb (transforms_bytes l) = true.
Proof.
  induction l as [|t l IH]; [done|]. cbn [forallb transforms_bytes]. intros H.
  apply andb_prop in H as [Ht H]. pose proof (bytesb_attribute t Ht).
  unfold transform_in_range in Ht. bools. unfold transform_bytes.
  bsplit; try apply bytesb_be_enc; [by destruct (negb _)|by apply IH].
Qed.
Lemma bytesb_proposals l :
  forallb proposal_valid l = true → bytesb (proposals_bytes l) = true.
Proof.
  induction l as [|p l IH]; [done|]. cbn [forallb proposals_bytes]. intros H.
  apply andb_prop in H as [Hp H]. unfold proposal_valid, proposal_in_range in Hp. bools.
  unfold proposal_bytes. pose proof (len_nonneg (p_SPI p)). bsplit; try apply bytesb_be_enc.
  - by destruct (negb _).
  - unfold u8b. by ztests.
  - unfold u8b. by ztests.
  - by apply bytesb_transforms.
  - by apply IH.
Qed.

#[export] Program Instance SecurityAssociation_codec : Codec SecurityAssociation := {|
  marshal := SecurityAssociation_Marshal;
  unmarshal := SecurityAssociation_Unmarshal;
  fresh_for _ := new_SecurityAssociation;
  valid := SecurityAssociation_valid
|}.
Next Obligation.
  intros [l] H. unfold SecurityAssociation_valid in H. cbn in H.
  destruct (proposals_data_total l H) as (d & Hd).
  assert (Hr : sa_in_range (MkSA l) = true).
  { unfold sa_in_range. cbn. rewrite forallb_forall in *. intros p Hp%H.
    unfold proposal_valid in Hp. apply andb_true_intro.
    do 4 (apply andb_prop in Hp as [Hp ?]). done. }
  exists d. split; [done|]. split.
  - apply proposals_data_eq in Hd as [-> _]; [|done]. by apply bytesb_proposals.
  - intros h. rewrite (SecurityAssociation_read_back _ d) by done. do 2 f_equal. cbn.
    clear Hd Hr. induction l as [|p l IH]; [done|]. cbn [forallb] in H.
    apply andb_prop in H as [Hp H]. by rewrite fmap_cons, proposal_valid_id, IH.
Qed.

(** ** The slice expressions that panic *)

(** [8+spiSize] wraps, or the SPI does not fit the proposal but fits the
    message: the bounds check passes and a slice expression is out of order. *)
Lemma get_proposal_spi_panics b L s :
  8 ≤ slen b → vis b !! 6%nat = Some s → u8b s = true →
  248 ≤ s ∨ L < 8 + s ≤ slen b → 8 ≤ L → get_proposal b L = Panic.
Proof.
  intros H8 Hs Hb Hc HL. unfold u8b in Hb. bools. unfold get_proposal.
  destruct (idx_is b 4) as (num & -> & _); [lia|].
  destruct (idx_is b 5) as (proto & -> & _); [lia|]. cbn [mbind res_bind].
  rewrite (idx_ok b 6 s) by (done || lia). cbn [mbind res_bind].
  destruct (Z.leb_spec 248 s) as [Hw|Hw].
  - assert (u8 (8 + s) = s - 248) as -> by (unfold u8; Z.div_mod_to_equations; lia).
    ztests. by rewrite (sub_panic b 8) by lia.
  - rewrite u8_small by lia. ztests.
    destruct (sub_vis b 8 (8 + s)) as [h ->]; [lia..|]. cbn [mbind res_bind].
    by rewrite sub_panic by lia.
Qed.

(** ** Properties *)

Definition demo_Proposal (encr : Transform) : Proposal :=
  MkProposal 1 1 [1; 2; 3; 4] [encr] [MkTransform 2 2 false 0 0 0 []]
    [MkTransform 3 2 false 0 0 0 []] [MkTransform 4 14 false 0 0 0 []] [].
(** AES-CBC with its key length: as a fixed-length attribute, and as a
    variable-length one. *)
Definition demo_TV : Transform := MkTransform 1 12 true 1 14 256 [].
Definition demo_TLV : Transform := MkTransform 1 12 true 0 14 0 [1; 0].

(** C13: a security association in range (bytes and fields in their widths, SPIs
    of at most 247 bytes, every transform in the container of its type, with an
    attribute format of one bit) that [Marshal] accepts is read back with all
    its proposals, transforms in the same containers and the same order, up to
    the two losses of the decoder: the value of a variable-length attribute,
    and the high bits of an attribute type. When every transform has no
    attribute, or a fixed-length one whose type has seven bits, nothing is
    lost. *)
Theorem SecurityAssociation_decoded sa bs h :
  sa_in_range sa = true → SecurityAssociation_Marshal sa = Ok bs →
  SecurityAssociation_Unmarshal new_SecurityAssociation (Slice bs h) =
    Ok (MkSA (lossy_proposal <$> sa_Proposals sa)) ∧
  (forallb (λ p, forallb lossless (transformList p)) (sa_Proposals sa) = true →
   SecurityAssociation_Unmarshal new_SecurityAssociation (Slice bs h) = Ok sa).
Proof.
  intros Hr Hm. rewrite (SecurityAssociation_read_back sa bs h Hr Hm). split; [done|].
  destruct sa as [l]. unfold sa_in_range in Hr. cbn [sa_Proposals] in *. clear Hm. intros Hl.
  do 2 f_equal. induction l as [|p l IH]; [done|]. cbn [forallb] in *. bools.
  by rewrite fmap_cons, lossless_proposal, IH.
Qed.

Lemma SecurityAssociation_decoded_witness :
  ∃ bs, SecurityAssociation_Marshal (MkSA [demo_Proposal demo_TV; demo_Proposal demo_TV]) = Ok bs ∧
    SecurityAssociation_Unmarshal new_SecurityAssociation (Slice bs [7]) =
      Ok (MkSA [demo_Proposal demo_TV; demo_Proposal demo_TV]).
Proof.
  eexists. split; [vm_compute; reflexivity|].
  apply (SecurityAssociation_decoded (MkSA [demo_Proposal demo_TV; demo_Proposal demo_TV]));
    vm_compute; reflexivity.
Defined.

(** C34: a variable-length attribute does not survive. The decoder copies its
    value into a nil slice, so the transform comes back marked with an
    attribute that has no value, which [Marshal] then refuses to encode. *)
Theorem Transform_TLV_lost more t rest h :
  transform_in_range t = true → len (attribute_bytes t) ≤ 65527 →
  t_AttributePresent t = true → t_AttributeFormat t = 0 →
  0 < len (t_VariableLengthAttributeValue t) →
  ∃ t', get_transform (Slice (transform_bytes more t ++ rest) h) (8 + len (attribute_bytes t)) =
      Ok t' ∧ t_AttributePresent t' = true ∧ t_VariableLengthAttributeValue t' = [] ∧
    ∀ m, transform_data m t' = Err "Attribute of one transform not specified".
Proof.
  intros Hr Hl Hp Hf Hv. rewrite get_transform_bytes by (done || by split).
  exists (lossy t). split; [done|]. unfold lossy. rewrite Hp, Hf. by split_and!.
Qed.

Lemma Transform_TLV_lost_witness :
  ∃ t', get_transform (Slice (transform_bytes false demo_TLV ++ []) []) 14 = Ok t' ∧
    ∀ m, transform_data m t' = Err "Attribute of one transform not specified".
Proof.
  destruct (Transform_TLV_lost false demo_TLV [] []) as (t' & E & _ & _ & H);
    [reflexivity|vm_compute; discriminate|reflexivity|reflexivity|reflexivity|].
  exists t'. split; [exact E|exact H].
Defined.

(** C30: two ways to make the decoder panic with the SPI size of a proposal. A
    size of 248 or more makes [8+spiSize] wrap around in 8 bits; a smaller one
    that fits the message but not the proposal passes the only length check,
    and the transforms are then sliced from a position after their end. *)
Theorem SecurityAssociation_spi_panics sa b L s :
  8 ≤ slen b → vis b !! 6%nat = Some s → u8b s = true →
  be_dec (take 2 (drop 2 (vis b))) = L → 8 ≤ L ≤ slen b →
  248 ≤ s ∨ L < 8 + s ≤ slen b → SecurityAssociation_Unmarshal sa b = Panic.
Proof.
  intros H8 Hs Hb EL HL Hc. unfold SecurityAssociation_Unmarshal.
  destruct (length (vis b)) as [|fuel] eqn:El; [unfold slen, len in *; lia|].
  cbn [get_proposals]. ztests.
  destruct (sub_vis b 2 4) as [h ->]; [lia..|]. cbn [mbind res_bind].
  unfold Uint16. rewrite be_get_is.
  2: { unfold slen, len in *; cbn [vis]; rewrite length_take, length_drop; lia. }
  cbn [mbind res_bind vis]. change (Z.to_nat (4 - 2)) with 2%nat.
  change (Z.to_nat 2) with 2%nat. rewrite take_take, Nat.min_id, EL. ztests.
  by rewrite (get_proposal_spi_panics b L s) by (done || lia).
Qed.

Lemma SecurityAssociation_spi_panics_witness :
  SecurityAssociation_Unmarshal new_SecurityAssociation (of_bytes [0; 0; 0; 8; 1; 1; 255; 1]) = Panic ∧
  SecurityAssociation_Unmarshal new_SecurityAssociation
    (of_bytes ([0; 0; 0; 8; 1; 1; 4; 1] ++ [0; 0; 0; 8])) = Panic.
Proof.
  split.
  - apply (SecurityAssociation_spi_panics _ _ 8 255);
      [vm_compute; discriminate|reflexivity..|vm_compute; split; discriminate|left; lia].
  - apply (SecurityAssociation_spi_panics _ _ 8 4);
      [vm_compute; discriminate|reflexivity..|vm_compute; split; discriminate|right].
    split; [reflexivity|vm_compute; discriminate].
Defined.

(** The length of a variable-length attribute wraps around too. For a transform
    of 9 to 11 bytes an attribute length of 65533 to 65535 passes the
    comparison with the transform length, which is made in 16 bits, and the
    value is then sliced to a position before its start. *)
Lemma get_attribute_wraps hdr at_ L rest h ty id :
  len hdr = 8 → 0 ≤ at_ < 2 ^ 15 → 9 ≤ L ≤ 11 →
  get_attribute (Slice (hdr ++ be_enc 2 at_ ++ be_enc 2 (65524 + L) ++ rest) h) L ty id = Panic.
Proof.
  intros Hh Ha HL. unfold get_attribute, slen. cbn [vis]. pose proof (len_nonneg rest).
  len_simpl. ztests.
  rd_idx_be2 hdr at_ (be_enc 2 (65524 + L) ++ rest). rd_step. rewrite top_bit by apply u8b_u8.
  replace (u8 (at_ / 256) / 128) with 0 by (unfold u8; Z.div_mod_to_equations; lia).
  rd_sub hdr (be_enc 2 at_) (be_enc 2 (65524 + L) ++ rest). rd_step.
  rewrite Uint16_enc by (unfold u16b; by ztests). rd_step. cbn [Z.eqb].
  rewrite (app_assoc hdr). rd_sub (hdr ++ be_enc 2 at_) (be_enc 2 (65524 + L)) rest. rd_step.
  rewrite Uint16_enc by (unfold u16b; by ztests). rd_step.
  replace (u16 (12 + (65524 + L))) with L by (unfold u16; Z.div_mod_to_equations; lia).
  rewrite Z.eqb_refl. cbn [negb]. by rewrite sub_panic by lia.
Qed.

Example transform_length_wraps :
  SecurityAssociation_Unmarshal new_SecurityAssociation
    (of_bytes ([0; 0; 0; 20; 1; 1; 0; 1] ++ [0; 0; 0; 9; 1; 0; 0; 12] ++ [0; 14; 255; 253])) = Panic.
Proof. vm_compute. reflexivity. Qed.
