(* ===== verification/TrafficSelector.v ===== *)
(** * message/payload_trafficselectorinitiator.go, ..responder.go

    The two payloads have the same loops; [ts_marshal] and [ts_get] are one
    turn of each. *)

From S2P Require Import Prelude GoSlice Types Codec.

Record IndividualTrafficSelector := MkTS {
  ts_TSType : Z;
  ts_IPProtocolID : Z;
  ts_StartPort : Z;
  ts_EndPort : Z;
  ts_StartAddress : list Z;
  ts_EndAddress : list Z
}.

Record TrafficSelectorInitiator := MkTSi { tsi_TrafficSelectors : list IndividualTrafficSelector }.
Definition new_TrafficSelectorInitiator : TrafficSelectorInitiator := MkTSi [].
Record TrafficSelectorResponder := MkTSr { tsr_TrafficSelectors : list IndividualTrafficSelector }.
Definition new_TrafficSelectorResponder : TrafficSelectorResponder := MkTSr [].

(** ** Marshal *)

(** A case of the switch: addresses of [n] bytes. *)
Definition ts_range (n : Z) (version : string) (ts : IndividualTrafficSelector)
    : res (list Z) :=
  if negb (len (ts_StartAddress ts) =? n) then
    Err ("TrafficSelector: Start " +:+ version +:+ " address length is not correct")
  else if negb (len (ts_EndAddress ts) =? n) then
    Err ("TrafficSelector: End " +:+ version +:+ " address length is not correct")
  else
    d ← set_byte 0 (ts_TSType ts) (make_bytes 8);
    d ← set_byte 1 (ts_IPProtocolID ts) d;
    d ← PutUint16 4 (ts_StartPort ts) d;
    d ← PutUint16 6 (ts_EndPort ts) d;
    let d := (d ++ ts_StartAddress ts) ++ ts_EndAddress ts in
    if len d >? 0xFFFF then
      Err "TrafficSelector: individualTrafficSelectorData length exceeds uint16 maximum value"
    else PutUint16 2 (u16 (len d)) d.

Definition ts_marshal (ts : IndividualTrafficSelector) : res (list Z) :=
  if ts_TSType ts =? TS_IPV4_ADDR_RANGE then ts_range 4 "IPv4" ts
  else if ts_TSType ts =? TS_IPV6_ADDR_RANGE then ts_range 16 "IPv6" ts
  else Err "TrafficSelector: Unsupported traffic selector type".

Fixpoint ts_marshal_all (l : list IndividualTrafficSelector) (data : list Z)
    : res (list Z) :=
  match l with
  | [] => Ok data
  | ts :: l => d ← ts_marshal ts; ts_marshal_all l (data ++ d)
  end.

Definition TrafficSelectorInitiator_Marshal (p : TrafficSelectorInitiator)
    : res (list Z) :=
  let l := tsi_TrafficSelectors p in
  if len l =? 0 then
    Err "TrafficSelector: Contains no traffic selector for marshaling message"
  else if len l >? 0xFF then Err "TrafficSelector: too many traffic selectors"
  else d ← set_byte 0 (u8 (len l)) (make_bytes 4); ts_marshal_all l d.

Definition TrafficSelectorResponder_Marshal (p : TrafficSelectorResponder)
    : res (list Z) :=
  let l := tsr_TrafficSelectors p in
  if len l >? 0 then
    if len l >? 255 then Err "TrafficSelector: invalid traffic selectors count"
    else d ← set_byte 0 (u8 (len l)) (make_bytes 4); ts_marshal_all l d
  else Err "TrafficSelector: Contains no traffic selector for marshaling message".

(** ** Unmarshal *)

(** A case of the switch: addresses of [n] bytes, so [8+2n] bytes. *)
Definition ts_get_range (n : Z) (e : string) (b : slice)
    : res (IndividualTrafficSelector * slice) :=
  selectorLength ← (t ← sub b 2 4; Uint16 t);
  if negb (selectorLength =? 8 + 2 * n) then Err e
  else if slen b <? selectorLength then
    Err "TrafficSelector: No sufficient bytes to decode next individual traffic selector"
  else
    ty ← idx b 0;
    proto ← idx b 1;
    sp ← (t ← sub b 4 6; Uint16 t);
    ep ← (t ← sub b 6 8; Uint16 t);
    sa ← sub b 8 (8 + n);
    ea ← sub b (8 + n) (8 + 2 * n);
    b ← sfrom b (8 + 2 * n);
    Ok (MkTS ty proto sp ep (vis sa) (vis ea), b).

Definition ts_get (b : slice) : res (IndividualTrafficSelector * slice) :=
  if slen b <? 4 then
    Err "TrafficSelector: No sufficient bytes to decode next individual traffic selector length in header"
  else
    ty ← idx b 0;
    if ty =? TS_IPV4_ADDR_RANGE then
      ts_get_range 4
        "TrafficSelector: A TS_IPV4_ADDR_RANGE type traffic selector should has length 16 bytes" b
    else if ty =? TS_IPV6_ADDR_RANGE then
      ts_get_range 16
        "TrafficSelector: A TS_IPV6_ADDR_RANGE type traffic selector should has length 40 bytes" b
    else Err "TrafficSelector: Unsupported traffic selector type".

(** [for ; numberOfSPI > 0; numberOfSPI--] *)
Fixpoint ts_get_all (numberOfSPI : nat) (b : slice) (acc : list IndividualTrafficSelector)
    : res (list IndividualTrafficSelector) :=
  match numberOfSPI with
  | O => Ok acc
  | S n => '(ts, b) ← ts_get b; ts_get_all n b (acc ++ [ts])
  end.

Definition ts_unmarshal (acc : list IndividualTrafficSelector) (b : slice)
    : res (list IndividualTrafficSelector) :=
  if slen b >? 0 then
    if slen b <? 4 then
      Err "TrafficSelector: No sufficient bytes to get number of traffic selector in header"
    else
      n ← idx b 0;
      b ← sfrom b 4;
      ts_get_all (Z.to_nat n) b acc
  else Ok acc.

Definition TrafficSelectorInitiator_Unmarshal (p : TrafficSelectorInitiator) (b : slice)
    : res TrafficSelectorInitiator :=
  l ← ts_unmarshal (tsi_TrafficSelectors p) b; Ok (MkTSi l).

Definition TrafficSelectorResponder_Unmarshal (p : TrafficSelectorResponder) (b : slice)
    : res TrafficSelectorResponder :=
  l ← ts_unmarshal (tsr_TrafficSelectors p) b; Ok (MkTSr l).

(** ** The codecs *)

Definition ts_addr_len (ts : IndividualTrafficSelector) : Z :=
  if ts_TSType ts =? TS_IPV4_ADDR_RANGE then 4 else 16.

Definition ts_valid (ts : IndividualTrafficSelector) : bool :=
  ((ts_TSType ts =? TS_IPV4_ADDR_RANGE) || (ts_TSType ts =? TS_IPV6_ADDR_RANGE)) &&
  u8b (ts_IPProtocolID ts) && u16b (ts_StartPort ts) && u16b (ts_EndPort ts) &&
  bytesb (ts_StartAddress ts) && bytesb (ts_EndAddress ts) &&
  (len (ts_StartAddress ts) =? ts_addr_len ts) && (len (ts_EndAddress ts) =? ts_addr_len ts).

Definition ts_bytes (ts : IndividualTrafficSelector) : list Z :=
  [ts_TSType ts; ts_IPProtocolID ts] ++ be_enc 2 (8 + 2 * ts_addr_len ts) ++
  be_enc 2 (ts_StartPort ts) ++ be_enc 2 (ts_EndPort ts) ++
  ts_StartAddress ts ++ ts_EndAddress ts.

Lemma ts_range_eq n v ts :
  0 ≤ n ≤ 16 → len (ts_StartAddress ts) = n → len (ts_EndAddress ts) = n →
  ts_range n v ts = Ok ([ts_TSType ts; ts_IPProtocolID ts] ++ be_enc 2 (8 + 2 * n) ++
    be_enc 2 (ts_StartPort ts) ++ be_enc 2 (ts_EndPort ts) ++
    ts_StartAddress ts ++ ts_EndAddress ts).
Proof.
  intros Hn Hs He. unfold ts_range. ztests.
  set (ty := ts_TSType ts). set (pr := ts_IPProtocolID ts).
  change (set_byte 0 ty (make_bytes 8)) with (Ok [ty; 0; 0; 0; 0; 0; 0; 0]).
  cbn [mbind res_bind].
  change (set_byte 1 pr _) with (Ok [ty; pr; 0; 0; 0; 0; 0; 0]). cbn [mbind res_bind].
  change (PutUint16 4 (ts_StartPort ts) _) with
    (Ok ([ty; pr; 0; 0] ++ be_enc 2 (ts_StartPort ts) ++ [0; 0])). cbn [mbind res_bind].
  change (PutUint16 6 (ts_EndPort ts) _) with
    (Ok ([ty; pr; 0; 0] ++ be_enc 2 (ts_StartPort ts) ++ be_enc 2 (ts_EndPort ts))).
  cbn [mbind res_bind]. len_simpl. rewrite Hs, He. ztests.
  rewrite u16_small by lia. rewrite <- !app_assoc.
  replace (_ + _) with (8 + 2 * n) by lia. done.
Qed.

Lemma ts_marshal_eq ts : ts_valid ts = true → ts_marshal ts = Ok (ts_bytes ts).
Proof.
  unfold ts_valid, ts_marshal, ts_bytes, ts_addr_len. intros H. bools.
  destruct (ts_TSType ts =? TS_IPV4_ADDR_RANGE) eqn:E4.
  - by rewrite ts_range_eq.
  - cbn [orb] in *. match goal with H : (_ =? TS_IPV6_ADDR_RANGE) = true |- _ => rewrite H end.
    by rewrite ts_range_eq.
Qed.

Lemma ts_marshal_all_eq l data :
  forallb ts_valid l = true →
  ts_marshal_all l data = Ok (data ++ concat (ts_bytes <$> l)).
Proof.
  revert data. induction l as [|ts l IH]; intros data H; [by rewrite app_nil_r|].
  cbn [forallb] in H. bools. cbn [ts_marshal_all]. rewrite ts_marshal_eq by done.
  cbn [mbind res_bind]. rewrite IH by done. by rewrite <- app_assoc.
Qed.

Lemma bytesb_ts l : forallb ts_valid l = true → bytesb (concat (ts_bytes <$> l)) = true.
Proof.
  induction l as [|ts l IH]; [done|]. cbn [forallb]. intros H. bools.
  rewrite fmap_cons. cbn [concat]. unfold ts_valid in *. bools. unfold ts_bytes.
  bsplit; try apply bytesb_be_enc; [|by apply IH].
  match goal with H : _ || _ = true |- _ => apply orb_prop in H as [H|H] end; bools;
  match goal with H : ts_TSType ts = _ |- _ => by rewrite H end.
Qed.

Lemma ts_get_bytes ts rest h :
  ts_valid ts = true → ts_get (Slice (ts_bytes ts ++ rest) h) = Ok (ts, Slice rest h).
Proof.
  intros H. unfold ts_valid in H. bools.
  assert (Hty : (ts_TSType ts = 7 ∧ ts_addr_len ts = 4) ∨
                (ts_TSType ts = 8 ∧ ts_addr_len ts = 16)).
  { unfold ts_addr_len.
    match goal with H : _ || _ = true |- _ => apply orb_prop in H as [H|H] end; bools;
    match goal with H : ts_TSType ts = _ |- _ => rewrite H end; [by left|by right]. }
  unfold ts_get, ts_bytes. set (n := ts_addr_len ts) in *.
  set (tail := be_enc 2 (ts_StartPort ts) ++ be_enc 2 (ts_EndPort ts) ++
    ts_StartAddress ts ++ ts_EndAddress ts).
  rewrite <- app_assoc. rewrite <- app_assoc. unfold slen. cbn [vis].
  assert (Ht : len tail = 4 + 2 * n) by (unfold tail; len_simpl; lia).
  pose proof (len_nonneg rest). len_simpl. rewrite Ht. ztests.
  rd_idx []. rd_step.
  enough (∀ k e, k = n → ts_get_range k e (Slice (ts_TSType ts :: ts_IPProtocolID ts ::
    be_enc 2 (8 + 2 * n) ++ tail ++ rest) h) = Ok (ts, Slice rest h)) as Hn.
  { unfold TS_IPV4_ADDR_RANGE, TS_IPV6_ADDR_RANGE.
    destruct Hty as [[Et E]|[Et E]]; ztests; by apply Hn. }
  intros k e ->. unfold ts_get_range, slen. cbn [vis]. len_simpl. rewrite Ht.
  rd_sub [ts_TSType ts; ts_IPProtocolID ts] (be_enc 2 (8 + 2 * n)) (tail ++ rest). rd_step.
  rewrite Uint16_enc by (unfold u16b; by ztests). rd_step. ztests.
  rd_idx []. rd_step. rd_idx [ts_TSType ts]. rd_step.
  set (h4 := [ts_TSType ts; ts_IPProtocolID ts] ++ be_enc 2 (8 + 2 * n)).
  assert (Hh4 : len h4 = 4) by done. unfold tail. rewrite <- !app_assoc.
  rd_sub h4 (be_enc 2 (ts_StartPort ts))
    (be_enc 2 (ts_EndPort ts) ++ ts_StartAddress ts ++ ts_EndAddress ts ++ rest). rd_step.
  rewrite Uint16_enc by done. rd_step.
  rd_sub (h4 ++ be_enc 2 (ts_StartPort ts)) (be_enc 2 (ts_EndPort ts))
    (ts_StartAddress ts ++ ts_EndAddress ts ++ rest). rd_step.
  rewrite Uint16_enc by done. rd_step.
  set (h8 := h4 ++ be_enc 2 (ts_StartPort ts) ++ be_enc 2 (ts_EndPort ts)).
  assert (Hh8 : len h8 = 8) by done.
  rd_sub h8 (ts_StartAddress ts) (ts_EndAddress ts ++ rest). rd_step.
  rd_sub (h8 ++ ts_StartAddress ts) (ts_EndAddress ts) rest. rd_step.
  goal_call ltac:(fun c => lazymatch c with sfrom ?s ?lo =>
    rewrite (sfrom_at (h8 ++ ts_StartAddress ts ++ ts_EndAddress ts) rest s lo) end).
  2: { cbn [vis]. unfold h8, h4. by rewrite <- !app_assoc. }
  2: rd_len.
  by destruct ts.
Qed.

Lemma ts_get_all_bytes l acc h :
  forallb ts_valid l = true →
  ts_get_all (length l) (Slice (concat (ts_bytes <$> l)) h) acc = Ok (acc ++ l).
Proof.
  revert acc. induction l as [|ts l IH]; intros acc H; [by rewrite app_nil_r|].
  cbn [forallb] in H. bools. rewrite fmap_cons. cbn [concat length ts_get_all].
  rewrite ts_get_bytes by done. rd_step. rewrite IH by done. by rewrite <- app_assoc.
Qed.

(** The count is one byte: between 1 and 255 selectors. *)
Definition ts_list_valid (l : list IndividualTrafficSelector) : bool :=
  (0 <? len l) && (len l <=? 255) && forallb ts_valid l.

Definition ts_list_bytes (l : list IndividualTrafficSelector) : list Z :=
  [len l; 0; 0; 0] ++ concat (ts_bytes <$> l).

Lemma ts_list_marshal l : ts_list_valid l = true →
  (d ← set_byte 0 (u8 (len l)) (make_bytes 4); ts_marshal_all l d) = Ok (ts_list_bytes l).
Proof.
  unfold ts_list_valid. intros H. bools. rewrite u8_small by lia.
  change (set_byte 0 (len l) (make_bytes 4)) with (Ok [len l; 0; 0; 0]).
  cbn [mbind res_bind]. by rewrite ts_marshal_all_eq.
Qed.

Lemma ts_list_unmarshal l h : ts_list_valid l = true →
  ts_unmarshal [] (Slice (ts_list_bytes l) h) = Ok l.
Proof.
  unfold ts_list_valid, ts_unmarshal, ts_list_bytes. intros H. bools. unfold slen. cbn [vis].
  len_simpl. pose proof (len_nonneg (concat (ts_bytes <$> l))). ztests.
  rd_idx []. rd_step. rd_from [len l; 0; 0; 0] (concat (ts_bytes <$> l)). rd_step.
  unfold len at 1. rewrite Nat2Z.id. by rewrite ts_get_all_bytes.
Qed.

Lemma bytesb_ts_list l : ts_list_valid l = true → bytesb (ts_list_bytes l) = true.
Proof.
  unfold ts_list_valid, ts_list_bytes. intros H. bools. bsplit.
  - unfold u8b. by ztests.
  - by apply bytesb_ts.
Qed.

#[export] Program Instance TrafficSelectorInitiator_codec : Codec TrafficSelectorInitiator := {|
  marshal := TrafficSelectorInitiator_Marshal;
  unmarshal := TrafficSelectorInitiator_Unmarshal;
  fresh_for _ := new_TrafficSelectorInitiator;
  valid p := ts_list_valid (tsi_TrafficSelectors p)
|}.
Next Obligation.
  intros [l] H. cbn in H. exists (ts_list_bytes l). split; [|split].
  - unfold TrafficSelectorInitiator_Marshal. cbn [tsi_TrafficSelectors].
    rewrite ts_list_marshal by done. unfold ts_list_valid in H. bools. by ztests.
  - by apply bytesb_ts_list.
  - intros h. unfold TrafficSelectorInitiator_Unmarshal. cbn [tsi_TrafficSelectors].
    by rewrite ts_list_unmarshal.
Qed.

#[export] Program Instance TrafficSelectorResponder_codec : Codec TrafficSelectorResponder := {|
  marshal := TrafficSelectorResponder_Marshal;
  unmarshal := TrafficSelectorResponder_Unmarshal;
  fresh_for _ := new_TrafficSelectorResponder;
  valid p := ts_list_valid (tsr_TrafficSelectors p)
|}.
Next Obligation.
  intros [l] H. cbn in H. exists (ts_list_bytes l). split; [|split].
  - unfold TrafficSelectorResponder_Marshal. cbn [tsr_TrafficSelectors].
    rewrite ts_list_marshal by done. unfold ts_list_valid in H. bools. by ztests.
  - by apply bytesb_ts_list.
  - intros h. unfold TrafficSelectorResponder_Unmarshal. cbn [tsr_TrafficSelectors].
    by rewrite ts_list_unmarshal.
Qed.

(** ** The decoders return on every input *)

Lemma ts_get_returns b : returns (ts_get b).
Proof. unfold ts_get, ts_get_range. rets. Qed.

Lemma ts_get_all_returns n b acc : returns (ts_get_all n b acc).
Proof.
  revert b acc. induction n as [|n IH]; intros b acc; [done|].
  cbn [ts_get_all]. apply bind_returns; [apply ts_get_returns|]. intros [ts b'] _. apply IH.
Qed.

Lemma ts_unmarshal_returns acc b : returns (ts_unmarshal acc b).
Proof. unfold ts_unmarshal. rets. apply ts_get_all_returns. Qed.

Lemma TrafficSelectorInitiator_total : total_decoder TrafficSelectorInitiator_Unmarshal.
Proof. intros p b. apply bind_returns; [apply ts_unmarshal_returns|done]. Qed.
Lemma TrafficSelectorResponder_total : total_decoder TrafficSelectorResponder_Unmarshal.
Proof. intros p b. apply bind_returns; [apply ts_unmarshal_returns|done]. Qed.
#[export] Hint Resolve TrafficSelectorInitiator_total TrafficSelectorResponder_total : go.

(** ** What a decoded selector is *)

(** A successful read inside the message, as the piece of it. *)
Lemma sub_piece s lo hi t :
  sub s lo hi = Ok t → hi ≤ slen s →
  drop (Z.to_nat lo) (vis s) = vis t ++ drop (Z.to_nat hi) (vis s) ∧ 0 ≤ lo ∧ slen t = hi - lo.
Proof.
  intros H Hs. pose proof H as H'. apply sub_inv in H' as (Hlo & _ & Hl & _ & _).
  destruct (sub_vis s lo hi Hlo Hs) as [h E]. rewrite E in H. injection H as <-.
  cbn [vis]. split; [|split; [lia|done]].
  replace (Z.to_nat hi) with (Z.to_nat (hi - lo) + Z.to_nat lo)%nat by lia.
  by rewrite Nat.add_comm, <- drop_drop, take_drop.
Qed.

Lemma Uint16_piece s lo v :
  bytesb (vis s) = true → lo + 2 ≤ slen s → (t ← sub s lo (lo + 2); Uint16 t) = Ok v →
  drop (Z.to_nat lo) (vis s) = be_enc 2 v ++ drop (Z.to_nat (lo + 2)) (vis s) ∧ u16b v = true.
Proof.
  intros Hb Hs H. apply bind_Ok_inv in H as (t & E & H).
  apply sub_piece in E as (E & Hlo & Hl); [|done].
  assert (Bt : bytesb (vis t) = true).
  { apply (bytesb_drop (Z.to_nat lo)) in Hb. rewrite E, bytesb_app in Hb. by bools. }
  unfold Uint16 in H. pose proof (be_get_range _ _ _ Bt H) as R.
  rewrite be_get_is in H by lia. injection H as <-.
  rewrite take_ge in * by (unfold slen, len in Hl; lia).
  replace (be_enc 2 (be_dec (vis t))) with (vis t).
  - split; [done|]. unfold u16b. change (256 ^ Z.of_nat 2) with (2 ^ 16) in R. by ztests.
  - rewrite <- (be_enc_dec (vis t)) at 1 by done. f_equal. unfold slen, len in Hl. lia.
Qed.

Lemma idx_piece s i x :
  idx s i = Ok x → drop (Z.to_nat i) (vis s) = x :: drop (Z.to_nat (i + 1)) (vis s).
Proof.
  intros [Hi E]%idx_inv. rewrite (drop_S _ _ _ E). do 2 f_equal. lia.
Qed.

Lemma ts_get_range_inv n e b ts b' :
  bytesb (vis b) = true → 0 ≤ n ≤ 16 → ts_get_range n e b = Ok (ts, b') →
  (∀ ty, idx b 0 = Ok ty → (ty = TS_IPV4_ADDR_RANGE ∧ n = 4) ∨ (ty = TS_IPV6_ADDR_RANGE ∧ n = 16)) →
  ts_valid ts = true ∧ vis b = ts_bytes ts ++ vis b'.
Proof.
  intros Hb Hn H Hty. unfold ts_get_range in H. apply bind_Ok_inv in H as (L & EL & H).
  destruct (Z.eqb_spec L (8 + 2 * n)) as [->|]; [|done]. cbn [negb] in H.
  destruct (Z.ltb_spec (slen b) (8 + 2 * n)); [done|].
  apply bind_Ok_inv in H as (ty & Ety & H). apply bind_Ok_inv in H as (pr & Epr & H).
  apply bind_Ok_inv in H as (sp & Esp & H). apply bind_Ok_inv in H as (ep & Eep & H).
  apply bind_Ok_inv in H as (sa & Esa & H). apply bind_Ok_inv in H as (ea & Eea & H).
  apply bind_Ok_inv in H as (b2 & Eb & H). injection H as <- <-.
  pose proof (idx_range _ _ _ Hb Epr) as Rpr. specialize (Hty ty Ety).
  apply idx_piece in Ety, Epr. change (0 + 1) with 1 in Ety. change (1 + 1) with 2 in Epr.
  apply (Uint16_piece b 2) in EL as [EL _]; [|done|lia].
  apply (Uint16_piece b 4) in Esp as [Esp Rsp]; [|done|lia].
  apply (Uint16_piece b 6) in Eep as [Eep Rep]; [|done|lia].
  apply sub_piece in Esa as (Esa & _ & Lsa); [|lia].
  apply sub_piece in Eea as (Eea & _ & Lea); [|lia].
  apply sfrom_inv in Eb as [_ ->]. cbn [vis].
  assert (E : vis b = [ty; pr] ++ be_enc 2 (8 + 2 * n) ++ be_enc 2 sp ++ be_enc 2 ep ++
    vis sa ++ vis ea ++ drop (Z.to_nat (8 + 2 * n)) (vis b)).
  { rewrite <- Eea, <- Esa. change (6 + 2) with 8 in Eep. rewrite <- Eep.
    change (4 + 2) with 6 in Esp. rewrite <- Esp. change (2 + 2) with 4 in EL. rewrite <- EL.
    cbn [app]. by rewrite <- Epr, <- Ety. }
  assert (Hbs : bytesb (vis sa) = true ∧ bytesb (vis ea) = true).
  { rewrite E in Hb. bools. done. }
  unfold slen in *.
  split.
  - unfold ts_valid, ts_addr_len. cbn. rewrite Rpr, Rsp, Rep. destruct Hbs as [-> ->].
    rewrite Lsa, Lea. destruct Hty as [[-> ->]|[-> ->]]; done.
  - rewrite E at 1. unfold ts_bytes, ts_addr_len. cbn [ts_TSType ts_IPProtocolID ts_StartPort
      ts_EndPort ts_StartAddress ts_EndAddress].
    replace (if ty =? TS_IPV4_ADDR_RANGE then 4 else 16) with n
      by (destruct Hty as [[-> ->]|[-> ->]]; done).
    by rewrite <- !app_assoc.
Qed.

Lemma ts_get_inv b ts b' :
  bytesb (vis b) = true → ts_get b = Ok (ts, b') →
  ts_valid ts = true ∧ vis b = ts_bytes ts ++ vis b'.
Proof.
  intros Hb H. unfold ts_get in H. destruct (_ <? _); [done|].
  apply bind_Ok_inv in H as (ty & Ety & H).
  destruct (Z.eqb_spec ty TS_IPV4_ADDR_RANGE) as [->|]; [|destruct (Z.eqb_spec ty TS_IPV6_ADDR_RANGE)
    as [->|]; [|done]]; (eapply ts_get_range_inv; [done| |exact H|]; [lia|]);
    intros ty' E; rewrite E in Ety; injection Ety as ->; auto.
Qed.

Lemma ts_get_all_inv n b acc l :
  bytesb (vis b) = true → ts_get_all n b acc = Ok l →
  ∃ l' rest, l = acc ++ l' ∧ length l' = n ∧ forallb ts_valid l' = true ∧
    vis b = concat (ts_bytes <$> l') ++ rest.
Proof.
  revert b acc. induction n as [|n IH]; intros b acc Hb H.
  - injection H as <-. exists [], (vis b). by rewrite app_nil_r.
  - cbn [ts_get_all] in H. apply bind_Ok_inv in H as ([ts b'] & E & H).
    apply ts_get_inv in E as [Hv E]; [|done]. rewrite E, bytesb_app in Hb. bools.
    apply IH in H as (l' & rest & -> & Hl & Hvs & E'); [|done].
    exists (ts :: l'), rest. rewrite <- app_assoc, fmap_cons. cbn [concat length forallb].
    rewrite <- app_assoc, <- E', Hv. split_and!; [done|lia|done|done].
Qed.

(** ** Properties *)

(** Between 1 and 255 valid selectors survive the wire, in both payloads,
    which write them in the same way. *)
Theorem TrafficSelector_round_trip l h :
  ts_list_valid l = true →
  ∃ bs, TrafficSelectorInitiator_Marshal (MkTSi l) = Ok bs ∧
    TrafficSelectorResponder_Marshal (MkTSr l) = Ok bs ∧
    TrafficSelectorInitiator_Unmarshal new_TrafficSelectorInitiator (Slice bs h) = Ok (MkTSi l) ∧
    TrafficSelectorResponder_Unmarshal new_TrafficSelectorResponder (Slice bs h) = Ok (MkTSr l).
Proof.
  intros H. exists (ts_list_bytes l). unfold TrafficSelectorInitiator_Marshal,
    TrafficSelectorResponder_Marshal, TrafficSelectorInitiator_Unmarshal,
    TrafficSelectorResponder_Unmarshal. cbn [tsi_TrafficSelectors tsr_TrafficSelectors
    new_TrafficSelectorInitiator new_TrafficSelectorResponder].
  rewrite ts_list_marshal, ts_list_unmarshal by done. unfold ts_list_valid in H. bools. by ztests.
Qed.

(** C26: whatever bytes a peer sends, the selectors that come out are valid (an
    IPv4 or IPv6 range whose two addresses have the length of their type), as
    many as the count announces, and the bytes read are their encoding: only
    the three reserved bytes and what follows the last selector are ignored. *)
Theorem TrafficSelector_decoded b q :
  bytesb (vis b) = true → 0 < slen b →
  TrafficSelectorInitiator_Unmarshal new_TrafficSelectorInitiator b = Ok q →
  forallb ts_valid (tsi_TrafficSelectors q) = true ∧
  ∃ reserved rest, len reserved = 3 ∧
    vis b = [len (tsi_TrafficSelectors q)] ++ reserved ++
            concat (ts_bytes <$> tsi_TrafficSelectors q) ++ rest.
Proof.
  intros Hb Hl H. unfold TrafficSelectorInitiator_Unmarshal, ts_unmarshal in H.
  apply bind_Ok_inv in H as (l & H & [= <-]). rewrite Z.gtb_ltb in H. revert H. ztests.
  destruct (Z.ltb_spec (slen b) 4) as [?|Hge]; [done|]. intros H.
  apply bind_Ok_inv in H as (n & En & H). apply bind_Ok_inv in H as (b' & Eb & H).
  apply sfrom_inv in Eb as [_ ->].
  pose proof (idx_range _ _ _ Hb En) as Rn. unfold u8b in Rn. bools.
  apply idx_piece in En. change (Z.to_nat 0) with 0%nat in En. change (Z.to_nat (0 + 1)) with 1%nat in En.
  apply ts_get_all_inv in H as (l' & rest & -> & Ll & Hv & E).
  2: { cbn [vis]. by apply bytesb_drop. }
  cbn [tsi_TrafficSelectors new_TrafficSelectorInitiator app vis] in *. split; [done|].
  exists (take 3 (drop 1 (vis b))), rest. split.
  - unfold slen, len in *. rewrite length_take, length_drop. lia.
  - rewrite <- E. replace (len l') with n by (unfold len; lia).
    change (Z.to_nat 4) with (1 + 3)%nat. rewrite <- drop_drop, take_drop. exact En.
Qed.

Lemma TrafficSelector_decoded_witness :
  ∃ q, TrafficSelectorInitiator_Unmarshal new_TrafficSelectorInitiator
      (of_bytes ([1; 9; 9; 9] ++ [7; 0; 0; 16; 0; 0; 255; 255; 1; 2; 3; 4; 1; 2; 3; 9] ++ [5])) = Ok q ∧
    forallb ts_valid (tsi_TrafficSelectors q) = true.
Proof.
  eexists. split; [vm_compute; reflexivity|].
  eapply (TrafficSelector_decoded
    (of_bytes ([1; 9; 9; 9] ++ [7; 0; 0; 16; 0; 0; 255; 255; 1; 2; 3; 4; 1; 2; 3; 9] ++ [5])));
    vm_compute; reflexivity.
Defined.
