(* ===== verification/EapAka.v ===== *)
(** * eap/eap_aka_prime.go: the EAP-AKA' type data

    The attribute map, the order of the attributes (kept only by the decoder),
    the encoder, the decoder and the key derivation of RFC 9048. *)

From stdpp Require Import pretty.
From S2P Require Import Prelude GoSlice Hash Lib.

(** ** Attribute types *)
Definition AT_RAND : Z := 1.
Definition AT_AUTN : Z := 2.
Definition AT_RES : Z := 3.
Definition AT_AUTS : Z := 4.
Definition AT_MAC : Z := 11.
Definition AT_NOTIFICATION : Z := 12.
Definition AT_IDENTITY : Z := 14.
Definition AT_CLIENT_ERROR_CODE : Z := 22.
Definition AT_KDF_INPUT : Z := 23.
Definition AT_KDF : Z := 24.
Definition AT_CHECKCODE : Z := 134.

(** The sub-types of a packet ([EapAkaSubtype]) *)
Definition SubtypeAkaChallenge : Z := 1.
Definition SubtypeAkaAuthenticationReject : Z := 2.
Definition SubtypeAkaSynchronizationFailure : Z := 4.
Definition SubtypeAkaIdentity : Z := 5.
Definition SubtypeAkaNotification : Z := 12.
Definition SubtypeAkaReauthentication : Z := 13.
Definition SubtypeAkaClientError : Z := 14.

Definition attrTypeStr : gmap Z string := list_to_map [
  (AT_RAND, "AT_RAND"); (AT_AUTN, "AT_AUTN"); (AT_RES, "AT_RES"); (AT_AUTS, "AT_AUTS");
  (AT_MAC, "AT_MAC"); (AT_NOTIFICATION, "AT_NOTIFICATION"); (AT_IDENTITY, "AT_IDENTITY");
  (AT_CLIENT_ERROR_CODE, "AT_CLIENT_ERROR_CODE"); (AT_KDF_INPUT, "AT_KDF_INPUT");
  (AT_KDF, "AT_KDF"); (AT_CHECKCODE, "AT_CHECKCODE")].

Definition EapAkaPrimeAttrType_String (t : Z) : string :=
  match attrTypeStr !! t with
  | Some s => s
  | None => "EAP-AKA' attribute type[" +:+ pretty t +:+ "] is not supported"
  end.

Definition EapTypeAkaPrime : Z := 50.

(** ** State

    [None] is the nil map and the nil slice: the order of the attributes is
    kept only once a packet was decoded, and [getAttrsKeys] tells the two
    cases apart. *)
Record EapAkaPrimeAttr := MkAttr {
  aa_attrType : Z;
  aa_length : Z;
  aa_reserved : Z;
  aa_value : list Z
}.

Record EapAkaPrime := MkAka {
  aka_subType : Z;
  aka_reserved : Z;
  aka_attributes : option (gmap Z EapAkaPrimeAttr);
  aka_attributeOrder : option (list Z)
}.
Definition zero_EapAkaPrime : EapAkaPrime := MkAka 0 0 None None.

Definition NewEapAkaPrime (subType : Z) : EapAkaPrime := MkAka subType 0 (Some ∅) None.

(** Reading a nil map finds nothing. *)
Definition attrs (e : EapAkaPrime) : gmap Z EapAkaPrimeAttr := default ∅ (aka_attributes e).

(** ** Attributes *)

(** The number of zero bytes that make the attribute a multiple of four. *)
Definition paddingBytes (valBytesLen : Z) : Z := (4 - ((1 + 1 + 2 + valBytesLen) mod 4)) mod 4.

(** [attr.setAttr(attrType, value)] on a new attribute, one definition per
    case of the switch. *)
Definition set_fixed16 (attrType : Z) (value : list Z) : res EapAkaPrimeAttr :=
  let valLen := len value in
  if negb (valLen =? 16) then Err "Set failed: expect 16 bytes"
  else
    let calcLen := (1 + 1 + 2 + valLen) / 4 in
    if (calcLen <? 0) || (calcLen >? 255) then Err "eap aka prime attr length overflow"
    else Ok (MkAttr attrType (u8 calcLen) 0 value).

Definition set_auts (attrType : Z) (value : list Z) : res EapAkaPrimeAttr :=
  if negb (len value =? 14) then Err "Set failed: expect 14 bytes"
  else Ok (MkAttr attrType 4 0 value).

Definition set_kdf_input (attrType : Z) (value : list Z) : res EapAkaPrimeAttr :=
  let valLen := len value in
  let pad := paddingBytes valLen in
  Ok (MkAttr attrType (u8 ((1 + 1 + 2 + valLen + pad) / 4)) (u16 valLen)
        (value ++ make_bytes pad)).

Definition set_res (attrType : Z) (value : list Z) : res EapAkaPrimeAttr :=
  let valLen := len value in
  let valBitsLen := valLen * 8 in
  if (attrType =? AT_RES) && ((valBitsLen >? 128) || (valBitsLen <? 32)) then
    Err "needs between 32 and 128 bits"
  else
    let pad := paddingBytes valLen in
    if (valBitsLen <? 0) || (valBitsLen >? 65535) then
      Err "eap aka prime attr bits length overflow"
    else
      let calcTotalLen := (1 + 1 + 2 + valLen + pad) / 4 in
      if (calcTotalLen <? 0) || (calcTotalLen >? 255) then
        Err "eap aka prime attr length overflow (padding)"
      else
        Ok (MkAttr attrType (u8 calcTotalLen) (u16 valBitsLen) (value ++ make_bytes pad)).

Definition set_kdf (attrType : Z) (value : list Z) : res EapAkaPrimeAttr :=
  if negb (len value =? 2) then Err "needs exactly 2 bytes"
  else r ← Uint16 (of_bytes value); Ok (MkAttr attrType 1 r []).

Definition set_checkcode (attrType : Z) (value : list Z) : res EapAkaPrimeAttr :=
  let valLen := len value in
  let calcLen := (1 + 1 + 2 + valLen) / 4 in
  if (calcLen <? 0) || (calcLen >? 255) then Err "eap aka prime attr length overflow"
  else Ok (MkAttr attrType (u8 calcLen) 0 value).

Definition set_notification (attrType : Z) (value : list Z) : res EapAkaPrimeAttr :=
  if negb (len value =? 2) then Err "needs exactly 2 bytes for Notification Code"
  else r ← Uint16 (of_bytes value); Ok (MkAttr attrType 1 r []).

Definition setAttr (attrType : Z) (value : list Z) : res EapAkaPrimeAttr :=
  if (attrType =? AT_MAC) || (attrType =? AT_RAND) || (attrType =? AT_AUTN) then
    set_fixed16 attrType value
  else if attrType =? AT_AUTS then set_auts attrType value
  else if attrType =? AT_KDF_INPUT then set_kdf_input attrType value
  else if attrType =? AT_RES then set_res attrType value
  else if attrType =? AT_KDF then set_kdf attrType value
  else if attrType =? AT_CHECKCODE then set_checkcode attrType value
  else if attrType =? AT_NOTIFICATION then set_notification attrType value
  else Err "is not supported".

Definition SubType (e : EapAkaPrime) : Z := aka_subType e.
Definition GetAttrType (a : EapAkaPrimeAttr) : Z := aa_attrType a.

Definition GetValue (a : EapAkaPrimeAttr) : list Z :=
  if (aa_attrType a =? AT_KDF) || (aa_attrType a =? AT_NOTIFICATION) then
    be_enc 2 (aa_reserved a)
  else aa_value a.

(** The map update at the end of [SetAttr] and of the decoding loop. *)
Definition put_attr (e : EapAkaPrime) (a : EapAkaPrimeAttr) : EapAkaPrime :=
  let order :=
    match attrs e !! aa_attrType a, aka_attributeOrder e with
    | None, Some o => Some (o ++ [aa_attrType a])
    | _, o => o
    end in
  MkAka (aka_subType e) (aka_reserved e) (Some (<[aa_attrType a := a]> (attrs e))) order.

Definition SetAttr (e : EapAkaPrime) (attrType : Z) (value : list Z) : res EapAkaPrime :=
  a ← wrap "EAP-AKA' SetAttr failed: " (setAttr attrType value);
  Ok (put_attr e a).

(** The loop over the map in [GetAttr], in the order given by a list of its
    values. *)
Definition first_attr (attrType : Z) (l : list EapAkaPrimeAttr) : option EapAkaPrimeAttr :=
  snd <$> list_find (λ a, aa_attrType a = attrType) l.

Definition attr_values (m : gmap Z EapAkaPrimeAttr) : list EapAkaPrimeAttr :=
  (map_to_list m).*2.

Definition GetAttr (e : EapAkaPrime) (attrType : Z) : res EapAkaPrimeAttr :=
  match aka_attributes e with
  | None => Err "EAP-AKA' attributes map is nil"
  | Some m =>
      match first_attr attrType (attr_values m) with
      | Some a => Ok a
      | None => Err "EAP-AKA' attribute is not found"
      end
  end.

Definition initMAC (e : EapAkaPrime) : res EapAkaPrime := SetAttr e AT_MAC (make_bytes 16).

(** [sort.Slice] on distinct keys: the sorted list of the keys. *)
Definition getAttrsKeys (e : EapAkaPrime) : list Z :=
  match aka_attributeOrder e with
  | Some o => o
  | None => merge_sort Z.le (map_to_list (attrs e)).*1
  end.

(** ** Marshal *)

Definition attr_encode (a : EapAkaPrimeAttr) : list Z :=
  [aa_attrType a; aa_length a] ++
  (if negb (aa_attrType a =? AT_AUTS) then be_enc 2 (aa_reserved a) else []) ++
  aa_value a.

Fixpoint put_attrs (m : gmap Z EapAkaPrimeAttr) (keys : list Z) (buffer : list Z)
    : res (list Z) :=
  match keys with
  | [] => Ok buffer
  | k :: keys => a ← deref (m !! k); put_attrs m keys (buffer ++ attr_encode a)
  end.

Definition EapAkaPrime_Marshal (e : EapAkaPrime) : res (list Z) :=
  put_attrs (attrs e) (getAttrsKeys e)
    ([EapTypeAkaPrime; aka_subType e] ++ be_enc 2 (aka_reserved e)).

(** ** Unmarshal *)

(** [io.ReadFull] of [n] bytes from what is left, or the given error. *)
Definition read_full (n : Z) (e : string) (r : list Z) : res (list Z * list Z) :=
  if len r <? n then Err e else Ok (take (Z.to_nat n) r, drop (Z.to_nat n) r).

Definition incomplete : string := "EAP-AKA' Unmarshal(): incomplete reserved bytes".
Definition mismatch : string := "EAP-AKA' Unmarshal(): attribute value length mismatch".

(** The cases [AT_KDF_INPUT] and [AT_RES]: the reserved field tells the
    length of the value, [per] being 1 for bytes and 8 for bits; the padding is
    computed on [uint16] from [attr.length*4], a [uint8]. *)
Definition get_padded (per : Z) (ty length : Z) (r : list Z)
    : res (EapAkaPrimeAttr * list Z) :=
  '(reserved, r) ← read_full 2 incomplete r;
  let valLen := be_dec reserved in
  let valBytesLen := valLen / per in
  let totalLen := u8 (length * 4) in
  let paddingLen := u16 (totalLen - valBytesLen - 1 - 1 - 2) in
  '(v, r) ← read_full valBytesLen mismatch r;
  '(_, r) ← (if paddingLen >? 0 then
               read_full paddingLen
                 "EAP-AKA' Unmarshal(): read attribute/padding failed" r
             else Ok ([], r));
  Ok (MkAttr ty length valLen v, r).

(** The cases [AT_MAC], [AT_RAND] and [AT_AUTN]. *)
Definition get_fixed16 (ty length : Z) (r : list Z) : res (EapAkaPrimeAttr * list Z) :=
  if negb (length =? 5) then Err "EAP-AKA' Unmarshal(): attribute length must be 5"
  else
    '(_, r) ← read_full 2 incomplete r;
    let valLen := u8 (4 * length - 1 - 1 - 2) in
    if negb (valLen =? 16) then
      Err "EAP-AKA' Unmarshal(): attribute value length must be 16"
    else
      '(v, r) ← read_full valLen mismatch r;
      Ok (MkAttr ty length 0 v, r).

(** The cases [AT_KDF] and [AT_NOTIFICATION]: the reserved field is the value. *)
Definition get_code (ty length : Z) (r : list Z) : res (EapAkaPrimeAttr * list Z) :=
  '(reserved, r) ← read_full 2 incomplete r;
  Ok (MkAttr ty length (be_dec reserved) [], r).

Definition get_checkcode (ty length : Z) (r : list Z) : res (EapAkaPrimeAttr * list Z) :=
  '(_, r) ← read_full 2 incomplete r;
  let valLen := u8 (4 * length - 1 - 1 - 2) in
  '(v, r) ← read_full valLen mismatch r;
  Ok (MkAttr ty length 0 v, r).

Definition get_auts (ty length : Z) (r : list Z) : res (EapAkaPrimeAttr * list Z) :=
  if negb (length =? 4) then Err "EAP-AKA' Unmarshal(): attribute length must be 4"
  else
    let valLen := u8 (4 * length - 1 - 1) in
    '(v, r) ← read_full valLen mismatch r;
    Ok (MkAttr ty length 0 v, r).

(** The switch on the type of an attribute: another type has no case, and the
    reader stays where it is. *)
Definition get_attr (ty length : Z) (r : list Z) : res (EapAkaPrimeAttr * list Z) :=
  if (ty =? AT_MAC) || (ty =? AT_RAND) || (ty =? AT_AUTN) then get_fixed16 ty length r
  else if ty =? AT_KDF_INPUT then get_padded 1 ty length r
  else if ty =? AT_RES then get_padded 8 ty length r
  else if ty =? AT_KDF then get_code ty length r
  else if ty =? AT_CHECKCODE then get_checkcode ty length r
  else if ty =? AT_NOTIFICATION then get_code ty length r
  else if ty =? AT_AUTS then get_auts ty length r
  else Ok (MkAttr ty length 0 [], r).

(** The loop ends at the end of the data, also when one byte is left. *)
Fixpoint get_attrs (fuel : nat) (r : list Z) (e : EapAkaPrime) : res EapAkaPrime :=
  match r with
  | ty :: length :: r =>
      match fuel with
      | O => Diverge
      | S fuel =>
          '(a, r) ← get_attr ty length r;
          get_attrs fuel r (put_attr e a)
      end
  | _ => Ok e
  end.

Definition EapAkaPrime_Unmarshal (e : EapAkaPrime) (rawData : slice) : res EapAkaPrime :=
  match vis rawData with
  | code :: subType :: r0 :: r1 :: r =>
      if negb (code =? EapTypeAkaPrime) then
        Err "EAP-AKA' Unmarshal(): expect EAP type is 50"
      else
        get_attrs (length r) r (MkAka subType (be_dec [r0; r1]) (Some ∅) (Some []))
  | _ => Err "EAP-AKA' Unmarshal(): no sufficient bytes to decode the EAP-AKA' type"
  end.

(** ** PRF' of RFC 9048 *)

(** "EAP-AKA'" *)
Definition aka_label : list Z := [69; 65; 80; 45; 65; 75; 65; 39].

Definition prfRounds : nat := 7.

Fixpoint EapAkaPrimePRF_loop (rounds : nat) (i : Z) (key sBase prev MK : list Z)
    : list Z :=
  match rounds with
  | O => MK
  | S rounds =>
      let h := Hash_Write (hmac_sha256_New key) (prev ++ sBase ++ [u8 (i + 1)]) in
      let sha := Hash_Sum h [] in
      EapAkaPrimePRF_loop rounds (i + 1) key sBase sha (MK ++ sha)
  end.

Definition EapAkaPrimePRF (ikPrime ckPrime identity : list Z)
    : res (list Z * list Z * list Z * list Z * list Z) :=
  if (len ikPrime =? 0) || (len ckPrime =? 0) then
    Err "EAP-AKA' PRF: invalid input key length"
  else
    let MK := EapAkaPrimePRF_loop prfRounds 0 (ikPrime ++ ckPrime)
                (aka_label ++ identity) [] [] in
    if len MK <? 208 then Err "EAP-AKA' PRF: insufficient key material generated"
    else
      let MK := of_bytes MK in
      k_encr ← sub MK 0 16;
      k_aut ← sub MK 16 48;
      k_re ← sub MK 48 80;
      msk ← sub MK 80 144;
      emsk ← sub MK 144 208;
      Ok (vis k_encr, vis k_aut, vis k_re, vis msk, vis emsk).

(** ** The attribute map *)

(** Every attribute lies under its own type, and the order, when there is one,
    lists every key once. *)
Definition aka_wf (e : EapAkaPrime) : Prop :=
  map_Forall (λ k a, aa_attrType a = k) (attrs e) ∧
  ∀ o, aka_attributeOrder e = Some o → NoDup o ∧ ∀ k, k ∈ o ↔ is_Some (attrs e !! k).

Lemma NewEapAkaPrime_wf st : aka_wf (NewEapAkaPrime st).
Proof. split; [intros k a H; unfold attrs in H; cbn in H; by rewrite lookup_empty in H|done]. Qed.
Lemma attrs_put_attr e a : attrs (put_attr e a) = <[aa_attrType a := a]> (attrs e).
Proof. done. Qed.

Lemma put_attr_wf e a : aka_wf e → aka_wf (put_attr e a).
Proof.
  intros [Hk Ho]. split.
  - rewrite attrs_put_attr. by apply map_Forall_insert_2.
  - intros o Eo. rewrite attrs_put_attr. unfold put_attr in Eo. cbn [aka_attributeOrder] in Eo.
    destruct (attrs e !! aa_attrType a) eqn:Ea.
    + destruct (Ho o Eo) as [Hn Hd]. split; [done|]. intros k. rewrite Hd.
      destruct (decide (k = aa_attrType a)) as [->|Hne].
      * rewrite lookup_insert_eq, Ea. split; by eexists.
      * by rewrite lookup_insert_ne.
    + destruct (aka_attributeOrder e) as [o'|]; [|done]. injection Eo as <-.
      destruct (Ho o' eq_refl) as [Hn Hd]. split.
      * apply NoDup_app. split; [done|]. split; [|apply NoDup_singleton].
        intros x Hx ->%list_elem_of_singleton. apply Hd in Hx as [? Hx]. congruence.
      * intros k. rewrite elem_of_app, list_elem_of_singleton, Hd.
        destruct (decide (k = aa_attrType a)) as [->|Hne].
        -- rewrite lookup_insert_eq. split; [by eexists|by right].
        -- rewrite lookup_insert_ne by done. split; [by intros [?|?]|by left].
Qed.

Lemma setAttr_type t v a : setAttr t v = Ok a → aa_attrType a = t.
Proof.
  unfold setAttr, set_fixed16, set_auts, set_kdf_input, set_res, set_kdf, set_checkcode, set_notification. intros H.
  repeat match type of H with
  | (if ?c then _ else _) = _ => destruct c
  | (let x := _ in _) = _ => cbv zeta in H
  end; inv_res; done.
Qed.

Lemma SetAttr_inv e t v e' :
  SetAttr e t v = Ok e' → ∃ a, setAttr t v = Ok a ∧ aa_attrType a = t ∧ e' = put_attr e a.
Proof.
  unfold SetAttr. intros H. inv_res. exists a. eauto using setAttr_type.
Qed.

(** The loop of [GetAttr] finds the attribute in every order of the map. *)
Lemma first_attr_any_order m l t :
  map_Forall (λ k a, aa_attrType a = k) m → l ≡ₚ attr_values m →
  first_attr t l = m !! t.
Proof.
  intros Hk Hl. unfold first_attr.
  assert (Hin : ∀ a, a ∈ l ↔ m !! aa_attrType a = Some a).
  { intros a. rewrite Hl. unfold attr_values. rewrite list_elem_of_fmap. split.
    - intros ([k a'] & -> & Hm). apply elem_of_map_to_list in Hm. cbn.
      by rewrite (Hk k a' Hm).
    - intros Hm. exists (aa_attrType a, a). split; [done|]. by apply elem_of_map_to_list. }
  destruct (list_find _ l) as [[i a]|] eqn:E; cbn.
  - apply list_find_Some in E as (Hi & <- & _). symmetry. apply Hin.
    by eapply list_elem_of_lookup_2.
  - destruct (m !! t) as [a|] eqn:Em; [|done]. exfalso.
    apply list_find_None in E. rewrite Forall_forall in E.
    apply (E a); [|by eapply Hk]. apply Hin. by rewrite (Hk t a Em).
Qed.

Lemma GetAttr_lookup e t :
  aka_wf e → is_Some (aka_attributes e) →
  GetAttr e t = match attrs e !! t with
                | Some a => Ok a
                | None => Err "EAP-AKA' attribute is not found"
                end.
Proof.
  intros [Hk _] [m Em]. unfold GetAttr, attrs in *. rewrite Em in *. cbn in *.
  by rewrite (first_attr_any_order m).
Qed.

(** ** The keys and the encoder *)

Lemma getAttrsKeys_perm e : aka_wf e → getAttrsKeys e ≡ₚ (map_to_list (attrs e)).*1.
Proof.
  intros [Hk Ho]. unfold getAttrsKeys. destruct (aka_attributeOrder e) as [o|].
  - destruct (Ho o eq_refl) as [Hn Hd]. apply NoDup_Permutation; [done|apply NoDup_fst_map_to_list|].
    intros k. rewrite Hd, list_elem_of_fmap. split.
    + intros [a Ha]. exists (k, a). split; [done|]. by apply elem_of_map_to_list.
    + intros ([k' a] & -> & H). apply elem_of_map_to_list in H. by eexists.
  - apply merge_sort_Permutation.
Qed.

Lemma getAttrsKeys_spec e : aka_wf e →
  NoDup (getAttrsKeys e) ∧ ∀ k, k ∈ getAttrsKeys e ↔ is_Some (attrs e !! k).
Proof.
  intros He. pose proof (getAttrsKeys_perm e He) as Hp.
  split; [rewrite Hp; apply NoDup_fst_map_to_list|].
  intros k. rewrite Hp, list_elem_of_fmap. split.
  - intros ([k' a] & -> & H). apply elem_of_map_to_list in H. by eexists.
  - intros [a Ha]. exists (k, a). split; [done|]. by apply elem_of_map_to_list.
Qed.

(** The attributes in the order in which they are written. *)
Definition ordered_attrs (e : EapAkaPrime) : list EapAkaPrimeAttr :=
  omap (λ k, attrs e !! k) (getAttrsKeys e).

Lemma put_attrs_eq m keys buf :
  (∀ k, k ∈ keys → is_Some (m !! k)) →
  put_attrs m keys buf = Ok (buf ++ concat (attr_encode <$> omap (λ k, m !! k) keys)).
Proof.
  revert buf. induction keys as [|k keys IH]; intros buf H; [by rewrite app_nil_r|].
  cbn [put_attrs]. destruct (H k) as [a Ea]; [left|]. rewrite Ea. cbn [deref mbind res_bind].
  rewrite IH by (intros; apply H; by right). cbn [omap list_omap]. rewrite Ea.
  rewrite fmap_cons. cbn [concat]. by rewrite app_assoc.
Qed.

(** A well-formed value always marshals: no attribute is missing. *)
Lemma EapAkaPrime_Marshal_eq e :
  aka_wf e →
  EapAkaPrime_Marshal e = Ok ([EapTypeAkaPrime; aka_subType e] ++ be_enc 2 (aka_reserved e) ++
    concat (attr_encode <$> ordered_attrs e)).
Proof.
  intros He. unfold EapAkaPrime_Marshal. rewrite put_attrs_eq; [by rewrite <- app_assoc|].
  intros k Hk. by apply (getAttrsKeys_spec e He).
Qed.

(** ** What is on the wire, and what is read back *)

(** An attribute that the decoder reads back: its length field counts its
    words, at most 63 of them so that [attr.length*4] fits a byte. *)
Definition wire_ok (a : EapAkaPrimeAttr) : bool :=
  let '(MkAttr ty n r v) := a in
  u8b ty && u8b n && u16b r && bytesb v &&
  (if (ty =? AT_MAC) || (ty =? AT_RAND) || (ty =? AT_AUTN) then
     (n =? 5) && (len v =? 16) && (r =? 0)
   else if ty =? AT_KDF_INPUT then
     (4 * n =? 4 + len v) && (n <? 64) && (r <=? len v)
   else if ty =? AT_RES then
     (4 * n =? 4 + len v) && (n <? 64) && (r / 8 <=? len v)
   else if ty =? AT_KDF then (n =? 1) && (len v =? 0)
   else if ty =? AT_CHECKCODE then (4 * n =? 4 + len v) && (n <? 64) && (r =? 0)
   else if ty =? AT_NOTIFICATION then (n =? 1) && (len v =? 0)
   else if ty =? AT_AUTS then (n =? 4) && (len v =? 14) && (r =? 0)
   else false).

(** The decoder drops the padding. *)
Definition stripped (a : EapAkaPrimeAttr) : EapAkaPrimeAttr :=
  let '(MkAttr ty n r v) := a in
  if ty =? AT_KDF_INPUT then MkAttr ty n r (take (Z.to_nat r) v)
  else if ty =? AT_RES then MkAttr ty n r (take (Z.to_nat (r / 8)) v)
  else a.

Lemma stripped_type a : aa_attrType (stripped a) = aa_attrType a.
Proof. destruct a. unfold stripped. by repeat case_match. Qed.

Lemma read_full_app n e a b : n = len a → read_full n e (a ++ b) = Ok (a, b).
Proof.
  intros ->. unfold read_full. rewrite len_app. pose proof (len_nonneg b). ztests.
  unfold len. by rewrite Nat2Z.id, take_app_length, drop_app_length.
Qed.

Lemma get_padded_encode per ty n r v rest :
  0 < per → u16b r = true → 4 * n = 4 + len v → n < 64 → r / per ≤ len v →
  get_padded per ty n (be_enc 2 r ++ v ++ rest) =
    Ok (MkAttr ty n r (take (Z.to_nat (r / per)) v), rest).
Proof.
  intros Hp Hr Hn H64 Hv. unfold get_padded.
  rewrite (read_full_app 2) by by rewrite len_be_enc. cbn [mbind res_bind].
  rewrite be16_rt by done.
  assert (0 ≤ r / per) by (unfold u16b in Hr; bools; apply Z.div_pos; lia).
  pose proof (len_nonneg v).
  set (m := r / per) in *. set (real := take (Z.to_nat m) v). set (pad := drop (Z.to_nat m) v).
  assert (Ev : v = real ++ pad) by (symmetry; apply take_drop).
  assert (Hreal : len real = m)
    by (unfold real, len in *; rewrite length_take; lia).
  assert (Hpad : len pad = len v - m)
    by (rewrite Ev, len_app in Hv; rewrite Ev, len_app; lia).
  rewrite Ev, <- app_assoc. rewrite (read_full_app m) by done. cbn [mbind res_bind].
  rewrite u8_small by lia.
  replace (n * 4 - m - 1 - 1 - 2) with (len pad) by lia.
  rewrite u16_small by lia. rewrite Z.gtb_ltb.
  destruct (Z.ltb_spec 0 (len pad)) as [_|Hz].
  - by rewrite read_full_app.
  - rewrite (len_zero_nil pad) by lia. done.
Qed.

Lemma get_attr_encode a rest :
  wire_ok a = true →
  get_attr (aa_attrType a) (aa_length a)
    (drop 2 (attr_encode a) ++ rest) = Ok (stripped a, rest).
Proof.
  destruct a as [ty n r v]. unfold wire_ok, get_attr, get_fixed16, get_code, get_checkcode, get_auts, attr_encode, stripped.
  cbn [aa_attrType aa_length aa_reserved aa_value app drop]. rewrite drop_0. intros H.
  apply andb_prop in H as [H Hc]. bools.
  destruct ((ty =? AT_MAC) || (ty =? AT_RAND) || (ty =? AT_AUTN)) eqn:E1.
  { assert (Hne : ty ≠ AT_AUTS ∧ ty ≠ AT_KDF_INPUT ∧ ty ≠ AT_RES).
    { split_and!; intros ->; discriminate E1. }
    destruct Hne as (? & ? & ?). bools. subst n r. ztests. cbn [negb].
    rewrite <- app_assoc, (read_full_app 2) by done. cbn [mbind res_bind].
    change (u8 (4 * 5 - 1 - 1 - 2)) with 16. cbn [Z.eqb Pos.eqb negb].
    by rewrite read_full_app. }
  destruct (Z.eqb_spec ty AT_KDF_INPUT) as [->|N1].
  { bools. cbn [Z.eqb Pos.eqb AT_KDF_INPUT AT_AUTS negb]. rewrite <- app_assoc.
    rewrite get_padded_encode by (rewrite ?Z.div_1_r; done || lia). by rewrite Z.div_1_r. }
  destruct (Z.eqb_spec ty AT_RES) as [->|N2].
  { bools. cbn [Z.eqb Pos.eqb AT_RES AT_AUTS negb]. rewrite <- app_assoc.
    by rewrite get_padded_encode by (done || lia). }
  destruct (Z.eqb_spec ty AT_KDF) as [->|N3].
  { bools. assert (v = []) as -> by by apply len_zero_nil. subst n.
    cbn [Z.eqb Pos.eqb AT_KDF AT_AUTS negb]. rewrite app_nil_r, (read_full_app 2) by done.
    cbn [mbind res_bind]. by rewrite be16_rt. }
  destruct (Z.eqb_spec ty AT_CHECKCODE) as [->|N4].
  { bools. subst r. cbn [Z.eqb Pos.eqb AT_CHECKCODE AT_AUTS negb].
    rewrite <- app_assoc, (read_full_app 2) by done. cbn [mbind res_bind].
    pose proof (len_nonneg v). rewrite u8_small by lia.
    by rewrite read_full_app by lia. }
  destruct (Z.eqb_spec ty AT_NOTIFICATION) as [->|N5].
  { bools. assert (v = []) as -> by by apply len_zero_nil. subst n.
    cbn [Z.eqb Pos.eqb AT_NOTIFICATION AT_AUTS negb]. rewrite app_nil_r, (read_full_app 2) by done.
    cbn [mbind res_bind]. by rewrite be16_rt. }
  destruct (Z.eqb_spec ty AT_AUTS) as [->|N6]; [|done].
  bools. subst n r. cbn [Z.eqb Pos.eqb AT_AUTS negb app].
  change (u8 (4 * 4 - 1 - 1)) with 14. by rewrite read_full_app.
Qed.

Lemma get_attrs_encode l e fuel :
  forallb wire_ok l = true → (length (concat (attr_encode <$> l)) ≤ fuel)%nat →
  get_attrs fuel (concat (attr_encode <$> l)) e = Ok (foldl put_attr e (stripped <$> l)).
Proof.
  revert e fuel. induction l as [|a l IH]; intros e fuel H Hf; [by destruct fuel|].
  cbn [forallb] in H. bools. rewrite !fmap_cons in *. cbn [concat] in *.
  rewrite length_app in Hf.
  assert (Ea : attr_encode a = aa_attrType a :: aa_length a :: drop 2 (attr_encode a)) by done.
  rewrite Ea in *. cbn [app length] in *. destruct fuel as [|fuel]; [lia|].
  cbn [get_attrs]. rewrite get_attr_encode by done. cbn [mbind res_bind foldl].
  apply IH; [done|lia].
Qed.

(** Adding attributes of distinct types one by one. *)
Lemma foldl_put_attr l st rv m o :
  (∀ a, a ∈ l → m !! aa_attrType a = None) → NoDup (aa_attrType <$> l) →
  foldl put_attr (MkAka st rv (Some m) (Some o)) l =
    MkAka st rv (Some (list_to_map ((λ a, (aa_attrType a, a)) <$> l) ∪ m))
      (Some (o ++ (aa_attrType <$> l))).
Proof.
  revert m o. induction l as [|a l IH]; intros m o Hm Hn.
  - cbn. by rewrite (left_id_L ∅ (∪)), app_nil_r.
  - cbn [foldl]. rewrite fmap_cons in Hn. apply NoDup_cons in Hn as [Ha Hn].
    unfold put_attr at 2. unfold attrs. cbn [aka_attributes default aka_attributeOrder
      aka_subType aka_reserved]. change (id m) with m.
    rewrite (Hm a) by left. rewrite IH; [|intros b Hb|done].
    + rewrite !fmap_cons, <- app_assoc, list_to_map_cons. f_equal. f_equal.
      rewrite <- insert_union_l, <- insert_union_r; [done|].
      apply not_elem_of_list_to_map_1. by rewrite <- list_fmap_compose.
    + rewrite lookup_insert_ne; [apply Hm; by right|].
      intros E. apply Ha. rewrite E. by apply list_elem_of_fmap_2.
Qed.

(** What the decoder makes of the encoding of [e]. *)
Definition decoded (e : EapAkaPrime) : EapAkaPrime :=
  MkAka (aka_subType e) (aka_reserved e) (Some (stripped <$> attrs e)) (Some (getAttrsKeys e)).

Lemma omap_types (m : gmap Z EapAkaPrimeAttr) (keys : list Z) :
  map_Forall (λ k a, aa_attrType a = k) m → (∀ k, k ∈ keys → is_Some (m !! k)) →
  aa_attrType <$> (stripped <$> omap (λ k, m !! k) keys) = keys.
Proof.
  intros Hk. induction keys as [|k keys IH]; [done|]. intros H.
  destruct (H k) as [a Ea]; [left|]. cbn [omap list_omap]. rewrite Ea, !fmap_cons.
  rewrite stripped_type, (Hk k a Ea). f_equal. apply IH. intros. apply H. by right.
Qed.

Lemma ordered_attrs_types e :
  aka_wf e → aa_attrType <$> (stripped <$> ordered_attrs e) = getAttrsKeys e.
Proof.
  intros He. apply omap_types; [apply He|]. intros k. by apply getAttrsKeys_spec.
Qed.

Lemma elem_of_ordered_attrs e a :
  aka_wf e → a ∈ ordered_attrs e ↔ attrs e !! aa_attrType a = Some a.
Proof.
  intros He. unfold ordered_attrs. rewrite list_elem_of_omap. split.
  - intros (k & _ & Hk). pose proof (proj1 He k a Hk) as E. cbn in E. by rewrite E.
  - intros Ha. exists (aa_attrType a). split; [|done].
    apply (getAttrsKeys_spec e He). by eexists.
Qed.

Lemma ordered_attrs_map e :
  aka_wf e →
  list_to_map ((λ a, (aa_attrType a, a)) <$> (stripped <$> ordered_attrs e)) =
    stripped <$> attrs e.
Proof.
  intros He. set (l := _ <$> (stripped <$> ordered_attrs e)).
  assert (Hn : NoDup l.*1).
  { unfold l. rewrite <- (list_fmap_compose _ fst). change (fst ∘ _) with aa_attrType.
    rewrite (ordered_attrs_types e He). apply (getAttrsKeys_spec e He). }
  apply map_eq. intros k. apply option_eq. intros b.
  rewrite <- elem_of_list_to_map by done. rewrite lookup_fmap, fmap_Some.
  unfold l. rewrite list_elem_of_fmap. split.
  - intros (b' & [= -> ->] & Hb). apply list_elem_of_fmap in Hb as (a & -> & Ha).
    apply elem_of_ordered_attrs in Ha; [|done]. exists a.
    by rewrite stripped_type.
  - intros (a & Ha & ->). pose proof (proj1 He k a Ha) as E. cbn in E.
    exists (stripped a). rewrite stripped_type, E. split; [done|].
    apply list_elem_of_fmap_2, elem_of_ordered_attrs; [done|]. by rewrite E.
Qed.

Definition aka_in_range (e : EapAkaPrime) : bool :=
  u8b (aka_subType e) && u16b (aka_reserved e) && forallb wire_ok (ordered_attrs e).

Definition aka_bytes (e : EapAkaPrime) : list Z :=
  [EapTypeAkaPrime; aka_subType e] ++ be_enc 2 (aka_reserved e) ++
    concat (attr_encode <$> ordered_attrs e).

Lemma EapAkaPrime_read_back e e0 h :
  aka_wf e → aka_in_range e = true →
  EapAkaPrime_Unmarshal e0 (Slice (aka_bytes e) h) = Ok (decoded e).
Proof.
  intros He H. unfold aka_in_range in H. bools. unfold EapAkaPrime_Unmarshal, aka_bytes.
  cbn [vis]. rewrite be_enc_2. cbn [app Z.eqb Pos.eqb EapTypeAkaPrime negb].
  rewrite get_attrs_encode by done. rewrite <- be_enc_2, be16_rt by done.
  rewrite foldl_put_attr.
  - rewrite (right_id_L ∅ (∪)), ordered_attrs_map, ordered_attrs_types by done. done.
  - intros a _. apply lookup_empty.
  - rewrite (ordered_attrs_types e He). apply (getAttrsKeys_spec e He).
Qed.

Lemma bytesb_attr_encode a : wire_ok a = true → bytesb (attr_encode a) = true.
Proof.
  destruct a as [ty n r v]. unfold wire_ok, attr_encode. cbn. intros H.
  apply andb_prop in H as [H _]. bools. bsplit. destruct (negb _); [|done].
  bsplit; apply u8b_u8.
Qed.

Lemma bytesb_aka e : aka_in_range e = true → bytesb (aka_bytes e) = true.
Proof.
  unfold aka_in_range, aka_bytes. intros H. bools. bsplit; [apply bytesb_be_enc|].
  induction (ordered_attrs e) as [|a l IH]; [done|]. cbn [forallb] in *. bools.
  rewrite fmap_cons. cbn [concat]. bsplit; [by apply bytesb_attr_encode|by apply IH].
Qed.

(** An attribute fills the words its length field counts. *)
Lemma len_attr_encode a : wire_ok a = true → len (attr_encode a) = 4 * aa_length a.
Proof.
  destruct a as [ty n r v]. unfold wire_ok, attr_encode.
  cbn [aa_attrType aa_length aa_reserved aa_value]. intros H.
  apply andb_prop in H as [_ H]. rewrite !len_app.
  change (len [ty; n]) with 2.
  destruct ((ty =? AT_MAC) || (ty =? AT_RAND) || (ty =? AT_AUTN)) eqn:E1.
  { assert (ty ≠ AT_AUTS) by (intros ->; discriminate E1). bools. ztests. cbn [negb].
    rewrite len_be_enc. lia. }
  destruct (Z.eqb_spec ty AT_KDF_INPUT) as [->|N1]; [bools; cbn; len_simpl; lia|].
  destruct (Z.eqb_spec ty AT_RES) as [->|N2]; [bools; cbn; len_simpl; lia|].
  destruct (Z.eqb_spec ty AT_KDF) as [->|N3]; [bools; cbn; len_simpl; lia|].
  destruct (Z.eqb_spec ty AT_CHECKCODE) as [->|N4]; [bools; cbn; len_simpl; lia|].
  destruct (Z.eqb_spec ty AT_NOTIFICATION) as [->|N5]; [bools; cbn; len_simpl; lia|].
  destruct (Z.eqb_spec ty AT_AUTS) as [->|N6]; [|done]. bools. cbn. len_simpl. lia.
Qed.

(** ** The decoder returns on every input *)

Lemma read_full_returns n e r : returns (read_full n e r).
Proof. unfold read_full. by destruct (_ <? _). Qed.

Ltac aka_step :=
  lazymatch goal with
  | |- returns (Ok _) => exact I
  | |- returns (Err _) => exact I
  | |- returns (read_full _ _ _) => apply read_full_returns
  | |- returns (if ?c then _ else _) => destruct c
  | |- returns (_ ≫= _) => apply bind_returns; [|intros [? ?] ?]
  end.

Lemma get_attr_returns ty n r : returns (get_attr ty n r).
Proof. unfold get_attr, get_padded, get_fixed16, get_code, get_checkcode, get_auts. repeat aka_step. Qed.

Lemma read_full_shrinks n e r v r' :
  read_full n e r = Ok (v, r') → (length r' ≤ length r)%nat.
Proof.
  unfold read_full. destruct (_ <? _); [done|]. intros [= _ <-]. rewrite length_drop. lia.
Qed.

Lemma get_attr_shrinks ty n r a r' :
  get_attr ty n r = Ok (a, r') → (length r' ≤ length r)%nat.
Proof.
  unfold get_attr, get_padded, get_fixed16, get_code, get_checkcode, get_auts. intros H.
  repeat match type of H with
  | (if ?c then _ else _) = _ => destruct c
  | (let x := _ in _) = _ => cbv zeta in H
  | Err _ = _ => discriminate H
  | Ok _ = _ => injection H as <- <-
  | (_ ≫= _) = Ok _ =>
      let p := fresh in let E := fresh in
      apply bind_Ok_inv in H as (p & E & H); destruct p as [? ?];
      try apply read_full_shrinks in E
  end; try lia;
  repeat match goal with
  | E : (if ?c then _ else _) = Ok _ |- _ => destruct c
  | E : read_full _ _ _ = Ok _ |- _ => apply read_full_shrinks in E
  | E : Ok _ = Ok _ |- _ => injection E as ? ?; subst
  end; lia.
Qed.

Lemma get_attrs_returns fuel r e :
  (length r ≤ fuel)%nat → returns (get_attrs fuel r e).
Proof.
  revert r e. induction fuel as [|fuel IH]; intros r e Hf.
  - destruct r; [done|cbn in Hf; lia].
  - destruct r as [|ty [|n r]]; [done..|]. cbn [get_attrs].
    apply bind_returns; [apply get_attr_returns|]. intros [a r'] E.
    apply get_attr_shrinks in E. apply IH. cbn in Hf. lia.
Qed.

Lemma EapAkaPrime_total : ∀ e b, returns (EapAkaPrime_Unmarshal e b).
Proof.
  intros e b. unfold EapAkaPrime_Unmarshal.
  destruct (vis b) as [|? [|? [|? [|? r]]]]; try exact I.
  destruct (negb _); [done|]. by apply get_attrs_returns.
Qed.
#[export] Hint Resolve EapAkaPrime_total : go.

Lemma get_attrs_wf fuel r e e' : aka_wf e → get_attrs fuel r e = Ok e' → aka_wf e'.
Proof.
  revert r e. induction fuel as [|fuel IH]; intros r e He H.
  - destruct r as [|? [|? ?]]; cbn in H; naive_solver.
  - destruct r as [|ty [|n r]]; [cbn in H; naive_solver..|]. cbn [get_attrs] in H. inv_res.
    destruct a as [a r']. eapply IH; [|done]. by apply put_attr_wf.
Qed.

(** What was decoded is well formed. *)
Lemma EapAkaPrime_Unmarshal_wf e b e' : EapAkaPrime_Unmarshal e b = Ok e' → aka_wf e'.
Proof.
  unfold EapAkaPrime_Unmarshal.
  destruct (vis b) as [|? [|? [|? [|? r]]]]; try done.
  destruct (negb _); [done|]. apply get_attrs_wf. split.
  - unfold attrs. cbn. intros k a H. by rewrite lookup_empty in H.
  - intros o [= <-]. split; [apply NoDup_nil_2|]. intros k. unfold attrs. cbn.
    rewrite lookup_empty. split; [by intros ?%not_elem_of_nil|by intros [? ?]].
Qed.

(** ** Attributes made by [SetAttr] *)

(** The values for which the length field of the attribute is exact and fits
    the [uint8] arithmetic of the decoder. *)
Definition settable (t : Z) (v : list Z) : bool :=
  bytesb v &&
  (if t =? AT_CHECKCODE then (len v mod 4 =? 0) && (len v <=? 248)
   else if t =? AT_KDF_INPUT then len v <=? 248
   else true).

Lemma paddingBytes_spec n :
  0 ≤ n → 0 ≤ paddingBytes n < 4 ∧ (4 + n + paddingBytes n) mod 4 = 0.
Proof. intros. unfold paddingBytes. Z.div_mod_to_equations. lia. Qed.

(** The padded attributes: the length is exact, and the value is what is left
    when the padding is dropped. *)
Lemma padded_attr v :
  bytesb v = true → len v ≤ 248 →
  let pad := paddingBytes (len v) in
  let n := u8 ((1 + 1 + 2 + len v + pad) / 4) in
  u8b n = true ∧ 4 * n = 4 + len (v ++ make_bytes pad) ∧ n < 64 ∧
  bytesb (v ++ make_bytes pad) = true ∧ len v ≤ len (v ++ make_bytes pad) ∧
  take (Z.to_nat (len v)) (v ++ make_bytes pad) = v.
Proof.
  intros Hb Hl pad n. pose proof (len_nonneg v) as H0.
  destruct (paddingBytes_spec (len v) H0) as [Hp Hm]. fold pad in Hp, Hm.
  rewrite len_app, len_make_bytes by lia.
  assert (Hn : 4 * n = 4 + len v + pad).
  { unfold n. rewrite u8_small by (Z.div_mod_to_equations; lia).
    replace (1 + 1 + 2 + len v + pad) with (4 + len v + pad) by lia.
    Z.div_mod_to_equations; lia. }
  split; [apply u8b_u8|]. repeat split; try lia.
  - bsplit. by apply bytesb_replicate.
  - unfold len. by rewrite Nat2Z.id, take_app_length.
Qed.

Ltac set_case E :=
  match type of E with
  | (if ?c then _ else _) = Ok _ =>
      let G := fresh "G" in destruct c eqn:G; [try discriminate E|try discriminate E]
  end.

Lemma setAttr_16 t v a :
  t = AT_MAC ∨ t = AT_RAND ∨ t = AT_AUTN → bytesb v = true → setAttr t v = Ok a →
  len v = 16 ∧ a = MkAttr t 5 0 v.
Proof.
  intros Ht Hb E.
  assert (E' : (if negb (len v =? 16) then Err "Set failed: expect 16 bytes"
      else if ((1 + 1 + 2 + len v) / 4 <? 0) || ((1 + 1 + 2 + len v) / 4 >? 255)
           then Err "eap aka prime attr length overflow"
           else Ok (MkAttr t (u8 ((1 + 1 + 2 + len v) / 4)) 0 v)) = Ok a).
  { by destruct Ht as [-> | [-> | ->]]. }
  clear E. set_case E'. bools. rewrite G in E'. injection E' as <-. done.
Qed.

Lemma setAttr_code t v a :
  t = AT_KDF ∨ t = AT_NOTIFICATION → bytesb v = true → setAttr t v = Ok a →
  len v = 2 ∧ a = MkAttr t 1 (be_dec v) [].
Proof.
  intros Ht Hb E.
  assert (E' : len v = 2 ∧ (r ← Uint16 (of_bytes v); Ok (MkAttr t 1 r [])) = Ok a).
  { destruct Ht as [-> | ->]; unfold setAttr, set_fixed16, set_auts, set_kdf_input, set_res, set_kdf, set_checkcode, set_notification in E; cbn [Z.eqb Pos.eqb orb AT_KDF AT_NOTIFICATION
      AT_MAC AT_RAND AT_AUTN AT_AUTS AT_KDF_INPUT AT_RES AT_CHECKCODE] in E;
    set_case E; bools; done. }
  destruct E' as [Hl E']. unfold Uint16 in E'. rewrite be_get_is in E'
    by (unfold slen; cbn [vis of_bytes]; lia).
  cbn [mbind res_bind vis of_bytes] in E'. injection E' as <-. split; [done|].
  rewrite take_ge; [done|]. unfold len in Hl. lia.
Qed.

(** What [SetAttr] stores can be sent, and the peer reads the value set. *)
Lemma setAttr_wire t v a :
  settable t v = true → setAttr t v = Ok a →
  wire_ok a = true ∧ GetValue (stripped a) = v.
Proof.
  unfold settable. intros H E. apply andb_prop in H as [Hb Hc]. pose proof (len_nonneg v).
  destruct ((t =? AT_MAC) || (t =? AT_RAND) || (t =? AT_AUTN)) eqn:E1.
  { apply setAttr_16 in E as [Hl ->]; [|by repeat (apply orb_prop in E1 as [E1|E1]); bools; auto|done].
    unfold wire_ok. rewrite E1, Hb, Hl.
    repeat (apply orb_prop in E1 as [E1|E1]); bools; subst t; done. }
  destruct (Z.eqb_spec t AT_KDF) as [->|N3].
  { apply setAttr_code in E as [Hl ->]; [|by left|done].
    pose proof (be_dec_range v Hb) as R. rewrite Hl in R. change (256 ^ 2) with 65536 in R.
    cbn. unfold u16b. ztests. split; [done|]. unfold GetValue. cbn.
    change (be_enc 2 (be_dec v) = v). replace 2%nat with (length v) by (unfold len in Hl; lia).
    by apply be_enc_dec. }
  destruct (Z.eqb_spec t AT_NOTIFICATION) as [->|N5].
  { apply setAttr_code in E as [Hl ->]; [|by right|done].
    pose proof (be_dec_range v Hb) as R. rewrite Hl in R. change (256 ^ 2) with 65536 in R.
    cbn. unfold u16b. ztests. split; [done|]. unfold GetValue. cbn.
    change (be_enc 2 (be_dec v) = v). replace 2%nat with (length v) by (unfold len in Hl; lia).
    by apply be_enc_dec. }
  unfold setAttr, set_fixed16, set_auts, set_kdf_input, set_res, set_kdf, set_checkcode,
    set_notification in E. rewrite E1 in E.
  destruct (Z.eqb_spec t AT_AUTS) as [->|N6].
  { set_case E. bools. injection E as <-. cbn. rewrite Hb, G. done. }
  destruct (Z.eqb_spec t AT_KDF_INPUT) as [->|N1].
  { cbn [Z.eqb Pos.eqb AT_KDF_INPUT AT_CHECKCODE] in Hc. bools. cbv zeta in E.
    apply (inj Ok) in E as <-.
    destruct (padded_attr v) as (P1 & P2 & P3 & P4 & P5 & P6); [done|lia|].
    unfold wire_ok, stripped, GetValue.
    rewrite P1, P4, u16_small by lia. cbn [Z.eqb Pos.eqb AT_KDF_INPUT AT_KDF AT_NOTIFICATION
      AT_MAC AT_RAND AT_AUTN orb andb aa_attrType aa_value].
    rewrite P6, P2. unfold u16b. by ztests. }
  destruct (Z.eqb_spec t AT_RES) as [->|N2].
  { cbn [andb] in E. set_case E. bools. cbv zeta in E.
    destruct (padded_attr v) as (P1 & P2 & P3 & P4 & P5 & P6); [done|lia|].
    destruct (_ || _); [done|]. destruct (_ || _); [done|]. apply (inj Ok) in E as <-.
    unfold wire_ok, stripped, GetValue.
    rewrite P1, P4, u16_small by lia. cbn [Z.eqb Pos.eqb AT_KDF_INPUT AT_RES AT_KDF
      AT_NOTIFICATION AT_MAC AT_RAND AT_AUTN orb andb aa_attrType aa_value].
    rewrite Z.div_mul, P6, P2 by done. unfold u16b. by ztests. }
  destruct (Z.eqb_spec t AT_CHECKCODE) as [->|N4].
  2: { by rewrite (proj2 (Z.eqb_neq t AT_KDF)), (proj2 (Z.eqb_neq t AT_NOTIFICATION)) in E. }
  cbn [Z.eqb Pos.eqb AT_CHECKCODE] in Hc. bools. cbv zeta in E.
  assert (Hd : (1 + 1 + 2 + len v) / 4 * 4 = 4 + len v) by (Z.div_mod_to_equations; lia).
  destruct (_ || _); [done|]. apply (inj Ok) in E as <-. unfold wire_ok. rewrite u8b_u8, Hb.
  rewrite u8_small by lia. cbn. split; [|done]. by ztests.
Qed.

Lemma wire_ok_map e :
  aka_wf e →
  forallb wire_ok (ordered_attrs e) = true ↔ map_Forall (λ _ a, wire_ok a = true) (attrs e).
Proof.
  intros He. rewrite forallb_forall. split.
  - intros H k a Ha. apply H, list_elem_of_In, elem_of_ordered_attrs; [done|].
    pose proof (proj1 He k a Ha) as E. cbn in E. by rewrite E.
  - intros H a Ha%list_elem_of_In. apply elem_of_ordered_attrs in Ha; [|done]. by eapply H.
Qed.

Lemma put_attr_in_range e a :
  aka_wf e → aka_in_range e = true → wire_ok a = true → aka_in_range (put_attr e a) = true.
Proof.
  intros He H Ha. pose proof (put_attr_wf e a He) as He'. unfold aka_in_range in *. bools.
  cbn [put_attr aka_subType aka_reserved]. apply andb_true_intro. split; [by bsplit|].
  apply wire_ok_map; [done|]. rewrite attrs_put_attr. apply map_Forall_insert_2; [done|].
  by apply wire_ok_map.
Qed.

Lemma GetAttr_decoded e t :
  aka_wf e →
  GetAttr (decoded e) t = match attrs e !! t with
                          | Some a => Ok (stripped a)
                          | None => Err "EAP-AKA' attribute is not found"
                          end.
Proof.
  intros He. rewrite GetAttr_lookup.
  - unfold attrs at 1. cbn [decoded aka_attributes default]. change (id ?x) with x.
    rewrite lookup_fmap. by destruct (attrs e !! t).
  - split.
    + unfold attrs. cbn. change (id ?x) with x. intros k b Hb.
      rewrite lookup_fmap, fmap_Some in Hb. destruct Hb as (c & Hc & ->).
      rewrite stripped_type. by apply He.
    + intros o [= <-]. pose proof (getAttrsKeys_spec _ He) as [Hn Hd]. split; [done|].
      intros k. rewrite Hd. unfold attrs at 2. cbn [decoded aka_attributes default].
      change (id ?x) with x. by rewrite lookup_fmap, fmap_is_Some.
  - by eexists.
Qed.

(** Packets built with [SetAttr] stay well formed and in range. *)
Lemma SetAttr_in_range e t v e' :
  aka_wf e → aka_in_range e = true → settable t v = true → SetAttr e t v = Ok e' →
  aka_wf e' ∧ aka_in_range e' = true.
Proof.
  intros He Hr Hs (a & Ea & _ & ->)%SetAttr_inv.
  split; [by apply put_attr_wf|]. apply put_attr_in_range; [done..|].
  by apply (setAttr_wire t v a).
Qed.

(** ** Values that are set and not read *)

(** An AT_KDF_INPUT of 249 bytes or more has a length field of 64 words or
    more, [attr.length*4] wraps around in 8 bits, and the padding the decoder
    asks for is longer than any packet: the peer refuses the last attribute of a
    packet when it is one, although it was set and marshalled. *)
Lemma KDF_INPUT_refused v a :
  bytesb v = true → 249 ≤ len v ≤ 1016 → setAttr AT_KDF_INPUT v = Ok a →
  len (attr_encode a) = 4 * aa_length a ∧
  get_attr AT_KDF_INPUT (aa_length a) (drop 2 (attr_encode a)) =
    Err "EAP-AKA' Unmarshal(): read attribute/padding failed".
Proof.
  intros Hb Hl Ea. unfold setAttr, set_kdf_input in Ea.
  cbn [Z.eqb Pos.eqb AT_KDF_INPUT AT_MAC AT_RAND AT_AUTN AT_AUTS orb] in Ea.
  apply (inj Ok) in Ea as <-. set (pad := paddingBytes (len v)) in *.
  destruct (paddingBytes_spec (len v)) as [Hp Hm]; [lia|]. fold pad in Hp, Hm.
  set (n := (1 + 1 + 2 + len v + pad) / 4).
  assert (Hn : 4 * n = 4 + len v + pad /\ 64 <= n <= 255) by (unfold n; Z.div_mod_to_equations; lia).
  rewrite (u8_small n), (u16_small (len v)) by lia. unfold attr_encode.
  cbn [aa_attrType aa_length aa_reserved aa_value]. change (negb (AT_KDF_INPUT =? AT_AUTS)) with true.
  split; [len_simpl; rewrite len_make_bytes by lia; lia|]. cbn [app drop]. rewrite drop_0.
  unfold get_attr. cbn [Z.eqb Pos.eqb AT_KDF_INPUT AT_MAC AT_RAND AT_AUTN orb]. unfold get_padded.
  rewrite (read_full_app 2) by by rewrite len_be_enc. cbn [mbind res_bind].
  rewrite be16_rt by (unfold u16b; ztests; done). rewrite Z.div_1_r.
  rewrite read_full_app by done. cbn [mbind res_bind].
  set (m := u8 (n * 4) - len v - 1 - 1 - 2).
  assert (Hu : 65536 - 1024 <= u16 m) by (unfold m, u16, u8; Z.div_mod_to_equations; lia).
  rewrite Z.gtb_ltb. ztests. unfold read_full. rewrite len_make_bytes by lia. by ztests.
Qed.

(** An AT_CHECKCODE whose length is no multiple of four: the length field is
    rounded down, so the peer reads a beginning of the value and takes the rest
    for the next attribute. *)
Lemma CHECKCODE_truncated v a rest :
  bytesb v = true → len v ≤ 251 → setAttr AT_CHECKCODE v = Ok a →
  let m := Z.to_nat (4 * (len v / 4)) in
  get_attr AT_CHECKCODE (aa_length a) (drop 2 (attr_encode a) ++ rest) =
    Ok (MkAttr AT_CHECKCODE (aa_length a) 0 (take m v), drop m v ++ rest).
Proof.
  intros Hb Hl Ea m. pose proof (len_nonneg v) as H0. unfold setAttr, set_checkcode in Ea.
  cbn [Z.eqb Pos.eqb AT_CHECKCODE AT_KDF AT_RES AT_KDF_INPUT AT_MAC AT_RAND AT_AUTN AT_AUTS orb] in Ea.
  destruct (_ || _); [done|]. apply (inj Ok) in Ea as <-.
  assert (Hd : (1 + 1 + 2 + len v) / 4 = 1 + len v / 4) by (Z.div_mod_to_equations; lia).
  assert (Hm : 4 * (len v / 4) <= len v) by (Z.div_mod_to_equations; lia).
  assert (Hq : 0 <= len v / 4 < 63) by (Z.div_mod_to_equations; lia).
  rewrite Hd, u8_small by lia. unfold attr_encode.
  cbn [aa_attrType aa_length aa_reserved aa_value]. change (negb (AT_CHECKCODE =? AT_AUTS)) with true.
  cbn [app drop]. rewrite drop_0. unfold get_attr.
  cbn [Z.eqb Pos.eqb AT_CHECKCODE AT_KDF AT_RES AT_KDF_INPUT AT_MAC AT_RAND AT_AUTN AT_AUTS orb].
  unfold get_checkcode. rewrite <- app_assoc.
  rewrite (read_full_app 2) by by rewrite len_be_enc. cbn [mbind res_bind].
  rewrite u8_small by lia.
  replace (v ++ rest) with (take m v ++ drop m v ++ rest) by (by rewrite app_assoc, take_drop).
  rewrite read_full_app; [done|]. unfold len in *. rewrite length_take. unfold m, len. lia.
Qed.

(** Both on whole packets: a network name of 252 bytes is marshalled, and
    refused by the decoder; a checkcode of one byte is read as an empty one. *)
Example KDF_INPUT_252 :
  (e ← SetAttr (NewEapAkaPrime 1) AT_KDF_INPUT (make_bytes 252); bs ← EapAkaPrime_Marshal e;
   Ok (len bs)) = Ok 260 ∧
  (e ← SetAttr (NewEapAkaPrime 1) AT_KDF_INPUT (make_bytes 252); bs ← EapAkaPrime_Marshal e;
   EapAkaPrime_Unmarshal zero_EapAkaPrime (of_bytes bs)) =
    Err "EAP-AKA' Unmarshal(): read attribute/padding failed".
Proof. split; vm_compute; reflexivity. Qed.

Example CHECKCODE_1 :
  (e ← SetAttr (NewEapAkaPrime 1) AT_CHECKCODE [1]; bs ← EapAkaPrime_Marshal e;
   e' ← EapAkaPrime_Unmarshal zero_EapAkaPrime (of_bytes bs);
   a ← GetAttr e' AT_CHECKCODE; Ok (GetValue a)) = Ok [].
Proof. vm_compute. reflexivity. Qed.

(** ** The values that are decoded to themselves *)

#[export] Instance EapAkaPrimeAttr_eq_dec : EqDecision EapAkaPrimeAttr.
Proof. solve_decision. Defined.

(** A decoded value, with attributes that have no padding. *)
Definition EapAkaPrime_valid (e : EapAkaPrime) : bool :=
  match aka_attributes e, aka_attributeOrder e with
  | Some m, Some o =>
      bool_decide (map_Forall (λ k a, aa_attrType a = k) m) &&
      bool_decide (NoDup o) && bool_decide (list_to_set o =@{gset Z} dom m) &&
      aka_in_range e &&
      bool_decide (map_Forall (λ _ a, stripped a = a) m)
  | _, _ => false
  end.

Lemma EapAkaPrime_valid_wf e : EapAkaPrime_valid e = true → aka_wf e.
Proof.
  destruct e as [st rv [m|] [o|]]; try done. unfold EapAkaPrime_valid. cbn. intros H. bools.
  repeat match goal with H : bool_decide _ = true |- _ => apply bool_decide_eq_true_1 in H end.
  split; [done|]. intros o' [= <-]. split; [done|]. intros k. unfold attrs. cbn.
  change (id m) with m. rewrite <- elem_of_dom.
  match goal with H : list_to_set o = _ |- _ => rewrite <- H end.
  by rewrite elem_of_list_to_set.
Qed.

Lemma EapAkaPrime_valid_decoded e : EapAkaPrime_valid e = true → decoded e = e.
Proof.
  destruct e as [st rv [m|] [o|]]; try done. unfold EapAkaPrime_valid. cbn. intros H. bools.
  unfold decoded, attrs, getAttrsKeys. cbn. change (id m) with m. do 2 f_equal.
  apply map_eq. intros k. rewrite lookup_fmap. destruct (m !! k) as [a|] eqn:Ea; [|done].
  cbn. f_equal.
  repeat match goal with H : bool_decide _ = true |- _ => apply bool_decide_eq_true_1 in H end.
  by eapply (map_Forall_lookup_1 (λ _ a, stripped a = a)).
Qed.

(** ** Setting an attribute again *)

Lemma put_attr_twice e a b :
  aa_attrType a = aa_attrType b → put_attr (put_attr e a) b = put_attr e b.
Proof.
  intros E. unfold put_attr at 1. rewrite attrs_put_attr, E, lookup_insert_eq.
  rewrite insert_insert_eq. unfold put_attr. cbn [aka_subType aka_reserved aka_attributeOrder].
  f_equal. rewrite E. by repeat case_match.
Qed.

(** The keys depend on the order and on the set of the types only. *)
Lemma getAttrsKeys_same e e' :
  aka_attributeOrder e = aka_attributeOrder e' → dom (attrs e) = dom (attrs e') →
  getAttrsKeys e = getAttrsKeys e'.
Proof.
  intros Eo Ed. unfold getAttrsKeys. rewrite <- Eo. destruct (aka_attributeOrder e); [done|].
  apply (Sorted_unique Z.le); [apply Sorted_merge_sort, _..|].
  rewrite !merge_sort_Permutation. apply NoDup_Permutation; [apply NoDup_fst_map_to_list..|].
  intros k. assert (Hd : ∀ m : gmap Z EapAkaPrimeAttr, k ∈ (map_to_list m).*1 ↔ k ∈ dom m).
  { intros m. rewrite list_elem_of_fmap, elem_of_dom. split.
    - intros ([k' a] & -> & H%elem_of_map_to_list). by eexists.
    - intros [a H]. exists (k, a). split; [done|]. by apply elem_of_map_to_list. }
  by rewrite !Hd, Ed.
Qed.

(** [e] without padding: the decoder gives back its attributes. *)
Definition no_padding (e : EapAkaPrime) : Prop := map_Forall (λ _ a, stripped a = a) (attrs e).

Lemma decoded_attrs e : no_padding e → attrs (decoded e) = attrs e.
Proof.
  intros H. unfold attrs at 1. cbn [decoded aka_attributes default]. change (id ?x) with x.
  apply map_eq. intros k. rewrite lookup_fmap. destruct (attrs e !! k) as [a|] eqn:Ea; [|done].
  cbn. f_equal. by apply (H k a).
Qed.

Lemma aka_bytes_same e e' :
  aka_subType e = aka_subType e' → aka_reserved e = aka_reserved e' →
  attrs e = attrs e' → getAttrsKeys e = getAttrsKeys e' → aka_bytes e = aka_bytes e'.
Proof. intros E1 E2 E3 E4. unfold aka_bytes, ordered_attrs. by rewrite E1, E2, E3, E4. Qed.

(** Replacing an attribute gives the same bytes on both sides of the wire. *)
Lemma aka_bytes_replace e a :
  aka_wf e → no_padding e → is_Some (attrs e !! aa_attrType a) →
  aka_bytes (put_attr (decoded e) a) = aka_bytes (put_attr e a).
Proof.
  intros He Hn Ha. apply aka_bytes_same; [done|done| |].
  - by rewrite !attrs_put_attr, decoded_attrs.
  - transitivity (getAttrsKeys e).
    + unfold getAttrsKeys at 1, put_attr. cbn [aka_attributeOrder decoded].
      rewrite decoded_attrs by done. destruct Ha as [b ->]. done.
    + symmetry. apply getAttrsKeys_same.
      * unfold put_attr. cbn. by destruct Ha as [b ->].
      * rewrite attrs_put_attr, dom_insert_lookup_L; done.
Qed.

Lemma setAttr_mac v : len v = 16 → setAttr AT_MAC v = Ok (MkAttr AT_MAC 5 0 v).
Proof. intros H. unfold setAttr, set_fixed16, set_auts, set_kdf_input, set_res, set_kdf, set_checkcode, set_notification. cbn [Z.eqb Pos.eqb AT_MAC orb]. by rewrite H. Qed.

(** ** The key derivation *)

(** The seven rounds are seven blocks of prf+. *)
Lemma EapAkaPrimePRF_loop_spec key s rounds i :
  EapAkaPrimePRF_loop rounds (Z.of_nat i) key s
    (prf_T (hmac sha256 key) s i) (prf_stream (hmac sha256 key) s i) =
  prf_stream (hmac sha256 key) s (i + rounds).
Proof.
  revert i. induction rounds as [|n IH]; intros i; [by rewrite Nat.add_0_r|].
  cbn [EapAkaPrimePRF_loop]. replace (i + S n)%nat with (S i + n)%nat by lia.
  rewrite <- IH. replace (Z.of_nat i + 1) with (Z.of_nat (S i)) by lia. done.
Qed.

(** ** Properties *)

(** C22: the value of an attribute survives the wire. [SetAttr] may be given any
    bytes it accepts, but for AT_CHECKCODE a multiple of four bytes and at
    most 248, and for AT_KDF_INPUT at most 248 bytes; the packet it is set in is
    well formed and has attributes of exact lengths below 64 words, as the one
    it returns. Then what [SetAttr] was given is what the peer reads, whatever
    the other attributes, with the padding it needed removed. *)
Theorem SetAttr_survives e t v e' e0 h :
  aka_wf e → aka_in_range e = true → settable t v = true → SetAttr e t v = Ok e' →
  aka_wf e' ∧ aka_in_range e' = true ∧
  ∃ bs e'' a, EapAkaPrime_Marshal e' = Ok bs ∧
    EapAkaPrime_Unmarshal e0 (Slice bs h) = Ok e'' ∧
    GetAttr e'' t = Ok a ∧ GetValue a = v.
Proof.
  intros He Hr Hs E. destruct (SetAttr_in_range e t v e' He Hr Hs E) as [He' Hr'].
  do 2 (split; [done|]). apply SetAttr_inv in E as (a & Ea & Et & ->).
  destruct (setAttr_wire t v a Hs Ea) as [Hw Hv].
  exists (aka_bytes (put_attr e a)), (decoded (put_attr e a)), (stripped a).
  split; [by apply EapAkaPrime_Marshal_eq|].
  split; [by apply EapAkaPrime_read_back|].
  split; [|done]. by rewrite GetAttr_decoded, attrs_put_attr, Et, lookup_insert_eq.
Qed.

Lemma SetAttr_survives_witness :
  ∃ e' bs e'' a, SetAttr (NewEapAkaPrime 1) AT_RES [1; 2; 3; 4; 5] = Ok e' ∧
    EapAkaPrime_Marshal e' = Ok bs ∧
    EapAkaPrime_Unmarshal zero_EapAkaPrime (Slice bs [6]) = Ok e'' ∧
    GetAttr e'' AT_RES = Ok a ∧ GetValue a = [1; 2; 3; 4; 5].
Proof.
  assert (E : is_ok (SetAttr (NewEapAkaPrime 1) AT_RES [1; 2; 3; 4; 5]) = true) by reflexivity.
  destruct (SetAttr (NewEapAkaPrime 1) AT_RES [1; 2; 3; 4; 5]) as [e'| | |] eqn:Es;
    try discriminate E.
  destruct (SetAttr_survives (NewEapAkaPrime 1) AT_RES [1; 2; 3; 4; 5] e' zero_EapAkaPrime [6]
    (NewEapAkaPrime_wf 1) eq_refl eq_refl Es) as (_ & _ & bs & e'' & a & H).
  exists e', bs, e'', a. split; [reflexivity|exact H].
Defined.

(** C21: an EAP-AKA' packet survives the wire when it is well formed (its map
    files the attributes under their types, and its order lists them) and its
    attributes are in range: of a known type, with fields in their widths, a
    zero reserved field where it has no meaning, and a length field that counts
    their words exactly and is below 64. It marshals,
    and the decoder gives a packet with the same sub-type, the same attributes without
    their padding and no others, that remembers the order in which they were
    written; if no attribute has padding, it is written back as the same
    bytes. *)
Theorem EapAkaPrime_round_trip e e0 h :
  aka_wf e → aka_in_range e = true →
  ∃ bs e', EapAkaPrime_Marshal e = Ok bs ∧ EapAkaPrime_Unmarshal e0 (Slice bs h) = Ok e' ∧
    aka_subType e' = aka_subType e ∧ aka_attributeOrder e' = Some (getAttrsKeys e) ∧
    (∀ t, GetAttr e' t = match attrs e !! t with
                         | Some a => Ok (stripped a)
                         | None => Err "EAP-AKA' attribute is not found"
                         end) ∧
    (no_padding e → EapAkaPrime_Marshal e' = Ok bs).
Proof.
  intros He Hr. exists (aka_bytes e), (decoded e).
  split; [by apply EapAkaPrime_Marshal_eq|]. split; [by apply EapAkaPrime_read_back|].
  do 2 (split; [done|]). split; [intros t; by apply GetAttr_decoded|]. intros Hn.
  rewrite EapAkaPrime_Marshal_eq.
  - f_equal. apply (aka_bytes_same (decoded e) e); [done..|by apply decoded_attrs|done].
  - eapply EapAkaPrime_Unmarshal_wf. by apply (EapAkaPrime_read_back e e0 h).
Qed.

Lemma EapAkaPrime_round_trip_witness :
  ∃ bs e', EapAkaPrime_Marshal (put_attr (NewEapAkaPrime 2) (MkAttr AT_KDF 1 7 [])) = Ok bs ∧
    EapAkaPrime_Unmarshal zero_EapAkaPrime (Slice bs []) = Ok e' ∧
    GetAttr e' AT_KDF = Ok (MkAttr AT_KDF 1 7 []) ∧ EapAkaPrime_Marshal e' = Ok bs.
Proof.
  destruct (EapAkaPrime_round_trip (put_attr (NewEapAkaPrime 2) (MkAttr AT_KDF 1 7 []))
    zero_EapAkaPrime []) as (bs & e' & E & D & _ & _ & G & M).
  - apply put_attr_wf, NewEapAkaPrime_wf.
  - vm_compute. reflexivity.
  - exists bs, e'. split; [exact E|]. split; [exact D|]. split; [exact (G AT_KDF)|].
    apply M. intros k b Hb. rewrite attrs_put_attr in Hb.
    apply lookup_insert_Some in Hb as [[_ <-]|[_ Hb]]; [reflexivity|].
    unfold attrs in Hb. cbn in Hb. by rewrite lookup_empty in Hb.
Defined.

(** [GetAttr] does not depend on the order in which Go iterates over the
    attribute map: in every order, the first attribute of the wanted type is
    the one stored for it. *)
Theorem GetAttr_any_order e m t l :
  aka_wf e → aka_attributes e = Some m → l ≡ₚ attr_values m →
  GetAttr e t = match first_attr t l with
                | Some a => Ok a
                | None => Err "EAP-AKA' attribute is not found"
                end ∧ first_attr t l = m !! t.
Proof.
  intros [Hk _] Em Hl. unfold attrs in Hk. rewrite Em in Hk. cbn in Hk.
  unfold GetAttr. rewrite Em. by rewrite !(first_attr_any_order m).
Qed.

Lemma GetAttr_any_order_example :
  let e := put_attr (put_attr (NewEapAkaPrime 1) (MkAttr AT_KDF 1 7 [])) (MkAttr AT_AUTS 4 0 (make_bytes 14)) in
  GetAttr e AT_KDF = Ok (MkAttr AT_KDF 1 7 []) ∧
  first_attr AT_KDF (reverse (attr_values (attrs e))) = Some (MkAttr AT_KDF 1 7 []).
Proof.
  cbv zeta. set (e := put_attr _ (MkAttr AT_AUTS _ _ _)).
  destruct (GetAttr_any_order e (attrs e) AT_KDF (reverse (attr_values (attrs e)))) as [E1 E2].
  - apply put_attr_wf, put_attr_wf, NewEapAkaPrime_wf.
  - reflexivity.
  - apply reverse_Permutation.
  - rewrite E1, E2. split; vm_compute; reflexivity.
Defined.

(** C39: a padded AT_RES cannot be relayed. The decoder drops the padding but
    keeps the length field, so the attribute it gives is written back shorter
    than its length field says, and as the last attribute of a packet it is
    then refused. *)
Theorem AT_RES_not_relayed v a :
  bytesb v = true → len v mod 4 ≠ 0 → setAttr AT_RES v = Ok a →
  len (attr_encode a) = 4 * aa_length a ∧
  get_attr AT_RES (aa_length a) (drop 2 (attr_encode a)) = Ok (stripped a, []) ∧
  len (attr_encode (stripped a)) < 4 * aa_length (stripped a) ∧
  get_attr AT_RES (aa_length (stripped a)) (drop 2 (attr_encode (stripped a))) =
    Err "EAP-AKA' Unmarshal(): read attribute/padding failed".
Proof.
  intros Hb Hm Ea. destruct (setAttr_wire AT_RES v a) as [Hw Hv]; [|done|].
  { unfold settable. by rewrite Hb. }
  pose proof (setAttr_type _ _ _ Ea) as Et.
  pose proof (get_attr_encode a [] Hw) as Eg. rewrite app_nil_r, Et in Eg.
  split; [by apply len_attr_encode|]. split; [done|].
  destruct a as [ty n r w]. cbn [aa_attrType] in Et. subst ty.
  unfold wire_ok in Hw. cbn in Hw. bools. unfold stripped, GetValue in *. cbn in Hv |- *.
  rewrite Hv.
  assert (Hr : r / 8 = len v).
  { rewrite <- Hv. unfold len. rewrite length_take. unfold u16b in *. bools. unfold len in *.
    pose proof (Z.div_pos r 8). lia. }
  pose proof (len_nonneg v). assert (Hlt : len v < len w).
  { rewrite <- Hr in *. assert (r / 8 ≠ len w); [|lia]. intros E. rewrite Hr in *.
    Z.div_mod_to_equations; lia. }
  split.
  - unfold attr_encode. cbn [aa_attrType aa_length aa_reserved aa_value].
    cbn [Z.eqb Pos.eqb AT_RES AT_AUTS negb]. len_simpl. lia.
  - change (u8 _ :: u8 _ :: v) with (be_enc 2 r ++ v).
    unfold get_attr, get_fixed16, get_code, get_checkcode, get_auts. cbn [Z.eqb Pos.eqb AT_RES AT_MAC AT_RAND AT_AUTN AT_KDF_INPUT orb].
    unfold get_padded. rewrite (read_full_app 2) by by rewrite len_be_enc. cbn [mbind res_bind].
    rewrite be16_rt by done. rewrite Hr. rewrite <- (app_nil_r v) at 2.
    rewrite read_full_app by done. cbn [mbind res_bind]. rewrite u8_small, u16_small by lia.
    rewrite Z.gtb_ltb. ztests. unfold read_full. change (len []) with 0. by ztests.
Qed.

Lemma AT_RES_not_relayed_witness :
  ∃ a, setAttr AT_RES [1; 2; 3; 4; 5] = Ok a ∧
    len (attr_encode (stripped a)) < 4 * aa_length (stripped a).
Proof.
  eexists. split; [vm_compute; reflexivity|].
  apply (AT_RES_not_relayed [1; 2; 3; 4; 5]); [reflexivity|discriminate|reflexivity].
Defined.

(** C35: the key derivation of EAP-AKA': with both keys, the five keys are the
    consecutive 16, 32, 32, 64 and 64 bytes of seven blocks of prf+ with
    HMAC-SHA-256, over the label and the identity, under the two keys together; with
    an empty key it is an error. *)
Theorem EapAkaPrimePRF_keys ik ck id :
  if (len ik =? 0) || (len ck =? 0) then
    EapAkaPrimePRF ik ck id = Err "EAP-AKA' PRF: invalid input key length"
  else
    let MK := prf_stream (hmac sha256 (ik ++ ck)) (aka_label ++ id) 7 in
    EapAkaPrimePRF ik ck id =
      Ok (take 16 MK, take 32 (drop 16 MK), take 32 (drop 48 MK), take 64 (drop 80 MK),
          take 64 (drop 144 MK)).
Proof.
  destruct (_ || _) eqn:E0; [by unfold EapAkaPrimePRF; rewrite E0|]. intros MK.
  unfold EapAkaPrimePRF. rewrite E0.
  pose proof (EapAkaPrimePRF_loop_spec (ik ++ ck) (aka_label ++ id) 7 0) as E.
  cbn [prf_T prf_stream] in E. change (Z.of_nat 0) with 0 in E.
  change prfRounds with 7%nat. rewrite E. change (0 + 7)%nat with 7%nat. fold MK.
  assert (HL : len MK = 224).
  { unfold MK. change (hmac sha256 (ik ++ ck)) with (h_fun (hmac_sha256_New (ik ++ ck))).
    rewrite len_prf_stream by apply hmac_sha256_ok. done. }
  rewrite HL. cbn [Z.ltb Z.compare Pos.compare Pos.compare_cont].
  assert (Hs : ∀ lo hi, 0 ≤ lo ≤ hi → hi ≤ 224 → sub (of_bytes MK) lo hi =
    Ok (Slice (take (Z.to_nat (hi - lo)) (drop (Z.to_nat lo) MK)) (drop (Z.to_nat hi) MK))).
  { intros lo hi H1 H2. rewrite sub_ok; [|lia..|].
    - cbn [of_bytes vis hid]. by rewrite !app_nil_r.
    - unfold scap. cbn [of_bytes vis hid]. rewrite HL, len_nil. lia. }
  rewrite !Hs by lia. done.
Qed.
