(* ===== verification/Eap.v ===== *)
(** * eap/: the EAP packet and its type data

    The type data are the cases of a sum; [EAP_Unmarshal] picks the decoder
    from the type byte. [CalcEapAkaPrimeAtMAC] resets the AT_MAC of the packet
    it is given, so it returns the packet with the MAC. *)

From stdpp Require Import pretty.
From S2P Require Import Prelude GoSlice Hash Lib Codec EapAka.

(** ** Types and codes *)
Definition EapTypeIdentity : Z := 1.
Definition EapTypeNotification : Z := 2.
Definition EapTypeNak : Z := 3.
Definition EapTypeMD5 : Z := 4.
Definition EapTypeOTP : Z := 5.
Definition EapTypeGTC : Z := 6.
Definition EapTypeExpanded : Z := 254.

Definition typeStr : gmap Z string := list_to_map [
  (EapTypeIdentity, "EAP-Identity"); (EapTypeNotification, "EAP-Notification");
  (EapTypeNak, "EAP-Nak"); (EapTypeMD5, "EAP-MD5-Challenge"); (EapTypeOTP, "EAP-OTP");
  (EapTypeGTC, "EAP-GTC"); (EapTypeAkaPrime, "EAP-AKA'"); (EapTypeExpanded, "EAP-Expanded")].

Definition EapType_String (t : Z) : string :=
  match typeStr !! t with
  | Some s => s
  | None => "EAP type[" +:+ pretty t +:+ "] is not supported"
  end.

Definition EapCodeRequest : Z := 1.
Definition EapCodeResponse : Z := 2.
Definition EapCodeSuccess : Z := 3.
Definition EapCodeFailure : Z := 4.

(** ** Identity, notification, nak *)
Record EapIdentity := MkEapIdentity { ei_IdentityData : list Z }.
Definition EapIdentity_Marshal (e : EapIdentity) : res (list Z) :=
  if len (ei_IdentityData e) =? 0 then Err "EapIdentity: EAP identity is empty"
  else Ok ([EapTypeIdentity] ++ ei_IdentityData e).
Definition EapIdentity_Unmarshal (e : EapIdentity) (b : slice) : res EapIdentity :=
  if slen b >? 1 then
    typeCode ← idx b 0;
    if negb (typeCode =? EapTypeIdentity) then Err "EapIdentity: expect 1"
    else d ← sfrom b 1; Ok (MkEapIdentity (ei_IdentityData e ++ vis d))
  else Ok e.
Definition SetIdentityData (e : EapIdentity) (identityData : list Z) : EapIdentity :=
  MkEapIdentity identityData.

(** A Go string is its bytes. *)
Definition SetIdentityDataString (e : EapIdentity) (identityData : list Z) : EapIdentity :=
  SetIdentityData e identityData.

Record EapNotification := MkEapNotification { en_NotificationData : list Z }.
Definition EapNotification_Marshal (e : EapNotification) : res (list Z) :=
  if len (en_NotificationData e) =? 0 then Err "EapNotification: EAP notification is empty"
  else Ok ([EapTypeNotification] ++ en_NotificationData e).
Definition EapNotification_Unmarshal (e : EapNotification) (b : slice) : res EapNotification :=
  if slen b >? 1 then
    typeCode ← idx b 0;
    if negb (typeCode =? EapTypeNotification) then Err "EapNotification: expect 2"
    else d ← sfrom b 1; Ok (MkEapNotification (en_NotificationData e ++ vis d))
  else Ok e.

Record EapNak := MkEapNak { ek_NakData : list Z }.
Definition EapNak_Marshal (e : EapNak) : res (list Z) :=
  if len (ek_NakData e) =? 0 then Err "EapNak: EAP nak is empty"
  else Ok ([EapTypeNak] ++ ek_NakData e).
Definition EapNak_Unmarshal (e : EapNak) (b : slice) : res EapNak :=
  if slen b >? 1 then
    typeCode ← idx b 0;
    if negb (typeCode =? EapTypeNak) then Err "EapNak: expect 3"
    else d ← sfrom b 1; Ok (MkEapNak (ek_NakData e ++ vis d))
  else Ok e.

(** ** MD5-Challenge; a Go string is its bytes *)
Definition EapMD5ChallengeSize : Z := 16.
Definition EapMD5HeaderLen : Z := 2.
Definition EapMD5MinLen : Z := 3.

Record EapMD5 := MkEapMD5 { em_ValueSize : Z; em_Value : list Z; em_Name : list Z }.
Definition EapMD5_Marshal (e : EapMD5) : res (list Z) :=
  if negb (em_ValueSize e =? EapMD5ChallengeSize) then Err "EapMD5: ValueSize must be 16"
  else if negb (len (em_Value e) =? EapMD5ChallengeSize) then
    Err "EapMD5: Value must be 16 bytes"
  else
    let data := [EapTypeMD5; em_ValueSize e] ++ em_Value e in
    Ok (if len (em_Name e) >? 0 then data ++ em_Name e else data).
Definition EapMD5_Unmarshal (e : EapMD5) (b : slice) : res EapMD5 :=
  if slen b <? EapMD5MinLen then Err "EapMD5: not enough data"
  else
    actualType ← idx b 0;
    if negb (actualType =? EapTypeMD5) then Err "EapMD5: expect type EAP-MD5-Challenge"
    else
      valueSize ← idx b 1;
      if negb (valueSize =? EapMD5ChallengeSize) then Err "EapMD5: ValueSize must be 16"
      else if slen b <? EapMD5HeaderLen + valueSize then Err "EapMD5: insufficient data"
      else
        v ← sub b EapMD5HeaderLen (EapMD5HeaderLen + EapMD5ChallengeSize);
        name ← (if slen b >? EapMD5HeaderLen + EapMD5ChallengeSize then
                  n ← sfrom b (EapMD5HeaderLen + EapMD5ChallengeSize); Ok (vis n)
                else Ok []);
        Ok (MkEapMD5 valueSize (vis v) name).
Definition SetChallengeValue (e : EapMD5) (value : list Z) : res EapMD5 :=
  if negb (len value =? EapMD5ChallengeSize) then
    Err "EapMD5: challenge value must be 16 bytes"
  else Ok (MkEapMD5 EapMD5ChallengeSize value (em_Name e)).
Definition SetName (e : EapMD5) (name : list Z) : EapMD5 :=
  MkEapMD5 (em_ValueSize e) (em_Value e) name.

(** ** Expanded types *)
Definition VendorId3GPP : Z := 10415.
Definition VendorTypeEAP5G : Z := 3.

Record EapExpanded := MkEapExpanded {
  ex_VendorID : Z;
  ex_VendorType : Z;
  ex_VendorData : list Z
}.
Definition EapExpanded_Marshal (e : EapExpanded) : res (list Z) :=
  let vendorID := Z.land (ex_VendorID e) 0x00ffffff in
  let typeAndVendorID := Z.lor (Z.shiftl EapTypeExpanded 24) vendorID in
  d ← PutUint32 0 typeAndVendorID (make_bytes 8);
  d ← PutUint32 4 (ex_VendorType e) d;
  if len (ex_VendorData e) =? 0 then Ok d else Ok (d ++ ex_VendorData e).
Definition EapExpanded_Unmarshal (e : EapExpanded) (b : slice) : res EapExpanded :=
  if slen b >? 0 then
    if slen b <? 8 then
      Err "EapExpanded: No sufficient bytes to decode the EAP expanded type"
    else
      typeAndVendorID ← (t ← sub b 0 4; Uint32 t);
      vt ← (t ← sub b 4 8; Uint32 t);
      data ← (if slen b >? 8 then d ← sfrom b 8; Ok (ex_VendorData e ++ vis d)
              else Ok (ex_VendorData e));
      Ok (MkEapExpanded (Z.land typeAndVendorID 0x00ffffff) vt data)
  else Ok e.

(** ** [EapTypeData] *)
Inductive EapTypeData :=
  | TDIdentity (d : EapIdentity)
  | TDNotification (d : EapNotification)
  | TDNak (d : EapNak)
  | TDMD5 (d : EapMD5)
  | TDAkaPrime (d : EapAkaPrime)
  | TDExpanded (d : EapExpanded).

Definition EapTypeData_Type (t : EapTypeData) : Z :=
  match t with
  | TDIdentity _ => EapTypeIdentity
  | TDNotification _ => EapTypeNotification
  | TDNak _ => EapTypeNak
  | TDMD5 _ => EapTypeMD5
  | TDAkaPrime _ => EapTypeAkaPrime
  | TDExpanded _ => EapTypeExpanded
  end.

Definition EapTypeData_Marshal (t : EapTypeData) : res (list Z) :=
  match t with
  | TDIdentity d => EapIdentity_Marshal d
  | TDNotification d => EapNotification_Marshal d
  | TDNak d => EapNak_Marshal d
  | TDMD5 d => EapMD5_Marshal d
  | TDAkaPrime d => EapAkaPrime_Marshal d
  | TDExpanded d => EapExpanded_Marshal d
  end.

Definition EapTypeData_Unmarshal (t : EapTypeData) (b : slice) : res EapTypeData :=
  match t with
  | TDIdentity d => TDIdentity <$> EapIdentity_Unmarshal d b
  | TDNotification d => TDNotification <$> EapNotification_Unmarshal d b
  | TDNak d => TDNak <$> EapNak_Unmarshal d b
  | TDMD5 d => TDMD5 <$> EapMD5_Unmarshal d b
  | TDAkaPrime d => TDAkaPrime <$> EapAkaPrime_Unmarshal d b
  | TDExpanded d => TDExpanded <$> EapExpanded_Unmarshal d b
  end.

(** The zero value the decoder starts from. *)
Definition new_EapTypeData (eapType : Z) : option EapTypeData :=
  if eapType =? EapTypeIdentity then Some (TDIdentity (MkEapIdentity []))
  else if eapType =? EapTypeNotification then Some (TDNotification (MkEapNotification []))
  else if eapType =? EapTypeNak then Some (TDNak (MkEapNak []))
  else if eapType =? EapTypeMD5 then Some (TDMD5 (MkEapMD5 0 [] []))
  else if eapType =? EapTypeAkaPrime then Some (TDAkaPrime zero_EapAkaPrime)
  else if eapType =? EapTypeExpanded then Some (TDExpanded (MkEapExpanded 0 0 []))
  else None.

(** ** The packet *)
Record EAP := MkEAP { eap_Code : Z; eap_Identifier : Z; eap_EapTypeData : option EapTypeData }.
Definition new_EAP : EAP := MkEAP 0 0 None.

Definition EAP_Marshal (e : EAP) : res (list Z) :=
  b ← set_byte 0 (eap_Code e) (make_bytes 4);
  b ← set_byte 1 (eap_Identifier e) b;
  b ← match eap_EapTypeData e with
      | Some t => d ← wrap "EAP: EAP type data marshal failed: " (EapTypeData_Marshal t);
                  Ok (b ++ d)
      | None => Ok b
      end;
  if len b >? 65535 then Err "eap packet length overflow"
  else PutUint16 2 (u16 (len b)) b.

Definition EAP_Unmarshal (e : EAP) (b : slice) : res EAP :=
  if slen b >? 0 then
    if slen b <? 4 then Err "EAP: No sufficient bytes to decode next EAP payload"
    else
      eapPayloadLength ← (t ← sub b 2 4; Uint16 t);
      if eapPayloadLength <? 4 then
        Err "EAP: Payload length specified in the header is too small for EAP"
      else if negb (slen b =? eapPayloadLength) then
        Err "EAP: Received payload length not matches the length specified in header"
      else
        code ← idx b 0;
        id ← idx b 1;
        if ((code =? EapCodeRequest) || (code =? EapCodeResponse)) && (eapPayloadLength <? 5)
        then Err "EAP payload too short for Request/Response: length"
        else if eapPayloadLength =? 4 then Ok (MkEAP code id (eap_EapTypeData e))
        else
          eapType ← idx b 4;
          match new_EapTypeData eapType with
          | None => Err "EAP: EAP type is not supported"
          | Some t =>
              d ← sfrom b 4;
              t ← wrap "EAP: EAP type data unamrshal failed: " (EapTypeData_Unmarshal t d);
              Ok (MkEAP code id (Some t))
          end
  else Ok e.

(** A nil type data has no [Type], so the call panics. The AT_MAC of the
    packet is left at zero. *)
Definition CalcEapAkaPrimeAtMAC (e : EAP) (key : list Z) : res (EAP * list Z) :=
  t ← deref (eap_EapTypeData e);
  match t with
  | TDAkaPrime a =>
      a ← wrap "EAP init EAP-AKA' AT_MAC failed: " (initMAC a);
      let e := MkEAP (eap_Code e) (eap_Identifier e) (Some (TDAkaPrime a)) in
      eapBytes ← wrap "EAP marshal failed: " (EAP_Marshal e);
      let h := Hash_Write (hmac_sha256_New key) eapBytes in
      sum ← sto (of_bytes (Hash_Sum h [])) 16;
      Ok (e, vis sum)
  | _ => Err "Expected EAP-AKA' type"
  end.

(** ** The codec of the type data *)

Definition EapTypeData_valid (t : EapTypeData) : bool :=
  match t with
  | TDIdentity d => bytesb (ei_IdentityData d) && (0 <? len (ei_IdentityData d))
  | TDNotification d => bytesb (en_NotificationData d) && (0 <? len (en_NotificationData d))
  | TDNak d => bytesb (ek_NakData d) && (0 <? len (ek_NakData d))
  | TDMD5 d => (em_ValueSize d =? 16) && (len (em_Value d) =? 16) && bytesb (em_Value d) &&
               bytesb (em_Name d)
  | TDAkaPrime d => EapAkaPrime_valid d
  | TDExpanded d => (0 <=? ex_VendorID d) && (ex_VendorID d <? 2 ^ 24) &&
                    u32b (ex_VendorType d) && bytesb (ex_VendorData d)
  end.

(** The type data that can be sent: EAP-AKA' data need not be decoded, it can
    also be built with [NewEapAkaPrime] and [SetAttr]. *)
Definition EapTypeData_encodable (t : EapTypeData) : Prop :=
  match t with
  | TDAkaPrime d => aka_wf d ∧ aka_in_range d = true
  | _ => EapTypeData_valid t = true
  end.

(** What the peer reads: of EAP-AKA' data, the attributes without their
    padding, and the order in which they came. *)
Definition EapTypeData_read_back (t : EapTypeData) : EapTypeData :=
  match t with
  | TDAkaPrime d => TDAkaPrime (decoded d)
  | _ => t
  end.

Lemma EapTypeData_valid_encodable t : EapTypeData_valid t = true → EapTypeData_encodable t.
Proof.
  destruct t; try done. cbn [EapTypeData_valid EapTypeData_encodable]. intros H.
  split; [by apply EapAkaPrime_valid_wf|]. revert H. unfold EapAkaPrime_valid.
  destruct (aka_attributes d), (aka_attributeOrder d); try done. intros H. by bools.
Qed.

Lemma EapTypeData_valid_read_back t : EapTypeData_valid t = true → EapTypeData_read_back t = t.
Proof.
  destruct t; try done. cbn [EapTypeData_valid EapTypeData_read_back]. intros H.
  by rewrite EapAkaPrime_valid_decoded.
Qed.

Definition fresh_EapTypeData (t : EapTypeData) : EapTypeData :=
  match t with
  | TDIdentity _ => TDIdentity (MkEapIdentity [])
  | TDNotification _ => TDNotification (MkEapNotification [])
  | TDNak _ => TDNak (MkEapNak [])
  | TDMD5 _ => TDMD5 (MkEapMD5 0 [] [])
  | TDAkaPrime _ => TDAkaPrime zero_EapAkaPrime
  | TDExpanded _ => TDExpanded (MkEapExpanded 0 0 [])
  end.

Lemma new_EapTypeData_fresh t :
  new_EapTypeData (EapTypeData_Type t) = Some (fresh_EapTypeData t).
Proof. by destruct t. Qed.

(** What the type data of [t] looks like: the type byte comes first. *)
Definition encodes (t : EapTypeData) (l : list Z) : Prop :=
  EapTypeData_Marshal t = Ok l ∧ bytesb l = true ∧
  (∃ l', l = EapTypeData_Type t :: l') ∧
  ∀ h, EapTypeData_Unmarshal (fresh_EapTypeData t) (Slice l h) = Ok (EapTypeData_read_back t).

(** Identity, notification and nak. *)
Ltac one_byte_data ty d :=
  let H := fresh in intros H; cbn in H; bools;
  exists ([ty] ++ d); split; [|split; [|split]];
  [ cbn [EapTypeData_Marshal];
    cbv delta [EapIdentity_Marshal EapNotification_Marshal EapNak_Marshal] beta;
    cbn [ei_IdentityData en_NotificationData ek_NakData]; rewrite (proj2 (Z.eqb_neq (len d) 0)) by lia; reflexivity
  | by bsplit
  | by eexists
  | intros h; cbn [EapTypeData_Unmarshal fresh_EapTypeData];
    cbv delta [EapIdentity_Unmarshal EapNotification_Unmarshal EapNak_Unmarshal slen] beta;
    cbn [vis ei_IdentityData en_NotificationData ek_NakData]; len_simpl; ztests;
    rewrite (idx_at [] ty d) by reflexivity; cbn [mbind res_bind];
    cbn [Z.eqb Pos.eqb EapTypeIdentity EapTypeNotification EapTypeNak negb];
    rewrite (sfrom_at [ty] d) by reflexivity; reflexivity ].

Lemma Identity_encodes d :
  EapTypeData_valid (TDIdentity d) = true → ∃ l, encodes (TDIdentity d) l.
Proof. destruct d as [d]. one_byte_data EapTypeIdentity d. Qed.
Lemma Notification_encodes d :
  EapTypeData_valid (TDNotification d) = true → ∃ l, encodes (TDNotification d) l.
Proof. destruct d as [d]. one_byte_data EapTypeNotification d. Qed.
Lemma Nak_encodes d :
  EapTypeData_valid (TDNak d) = true → ∃ l, encodes (TDNak d) l.
Proof. destruct d as [d]. one_byte_data EapTypeNak d. Qed.

Lemma MD5_encodes d :
  EapTypeData_valid (TDMD5 d) = true → ∃ l, encodes (TDMD5 d) l.
Proof.
  destruct d as [sz v name]. cbn. intros H. bools. subst sz.
  pose proof (len_nonneg name). exists ([EapTypeMD5; 16] ++ v ++ name).
  split; [|split; [by bsplit|split; [by eexists|]]].
  - cbn [EapTypeData_Marshal]. unfold EapMD5_Marshal, EapMD5ChallengeSize.
    cbn [em_ValueSize em_Value em_Name Z.eqb Pos.eqb negb].
    match goal with H : len v = 16 |- _ => rewrite H end. cbn [Z.eqb Pos.eqb negb].
    rewrite Z.gtb_ltb. destruct (Z.ltb_spec 0 (len name)) as [?|?]; [by rewrite <- app_assoc|].
    rewrite (len_zero_nil name) by lia. by rewrite app_nil_r.
  - intros h. cbn [EapTypeData_Unmarshal fresh_EapTypeData].
    unfold EapMD5_Unmarshal, EapMD5ChallengeSize, EapMD5HeaderLen, EapMD5MinLen, slen.
    cbn [vis]. len_simpl. ztests.
    rd_idx []. rd_step. cbn [Z.eqb Pos.eqb EapTypeMD5 negb].
    rd_idx [EapTypeMD5]. rd_step. cbn [Z.eqb Pos.eqb negb]. ztests.
    rd_sub [EapTypeMD5; 16] v name. rd_step.
    rewrite (sfrom_at ([EapTypeMD5; 16] ++ v) name) by first [done|rd_len].
    destruct (_ <? _) eqn:E; bools; [done|].
    rewrite (len_zero_nil name) by lia. done.
Qed.

Lemma lor_24 v : 0 ≤ v < 2 ^ 24 →
  Z.lor (Z.shiftl EapTypeExpanded 24) (Z.land v 0x00ffffff) = 254 * 2 ^ 24 + v ∧
  Z.land (254 * 2 ^ 24 + v) 0x00ffffff = v.
Proof.
  intros Hv. change 0x00ffffff with (Z.ones 24). rewrite !Z.land_ones by lia.
  rewrite (Z.mod_small v) by lia. split.
  - change (Z.shiftl EapTypeExpanded 24) with (254 * 2 ^ 24).
    rewrite <- Z.add_lor_land.
    enough (Z.land (254 * 2 ^ 24) v = 0) as -> by lia.
    apply Z.bits_inj'. intros i Hi. rewrite Z.land_spec, Z.bits_0.
    destruct (Z.ltb_spec i 24).
    + by rewrite Z.mul_pow2_bits_low.
    + rewrite <- (Z.mod_small v (2 ^ 24)), Z.mod_pow2_bits_high, andb_false_r by lia. done.
  - rewrite Z.add_comm, Z.mod_add by lia. by apply Z.mod_small.
Qed.

Lemma Expanded_encodes d :
  EapTypeData_valid (TDExpanded d) = true → ∃ l, encodes (TDExpanded d) l.
Proof.
  destruct d as [id ty v]. cbn [EapTypeData_valid ex_VendorID ex_VendorType ex_VendorData].
  intros H. bools. destruct (lor_24 id) as [E1 E2]; [lia|].
  set (w := 254 * 2 ^ 24 + id) in *. pose proof (len_nonneg v).
  assert (Hw : u32b w = true) by (unfold u32b, w; by ztests).
  exists (be_enc 4 w ++ be_enc 4 ty ++ v).
  assert (Hm : EapExpanded_Marshal (MkEapExpanded id ty v) = Ok (be_enc 4 w ++ be_enc 4 ty ++ v)).
  { unfold EapExpanded_Marshal. cbn [ex_VendorID ex_VendorType ex_VendorData]. rewrite E1.
    change (PutUint32 0 w (make_bytes 8)) with (Ok (be_enc 4 w ++ [0; 0; 0; 0])).
    cbn [mbind res_bind].
    change (PutUint32 4 ty _) with (Ok (be_enc 4 w ++ be_enc 4 ty)). cbn [mbind res_bind].
    destruct (Z.eqb_spec (len v) 0) as [?|?]; [|by rewrite <- app_assoc].
    rewrite (len_zero_nil v) by done. by rewrite app_nil_r. }
  split; [exact Hm|]. split; [bsplit; apply bytesb_be_enc|]. split.
  { eexists. cbn [be_enc app]. f_equal. unfold w, u8. cbn [EapTypeData_Type].
    change (256 ^ Z.of_nat 3) with (2 ^ 24). rewrite Z.div_add_l, Z.div_small by lia. done. }
  intros h. cbn [EapTypeData_Unmarshal fresh_EapTypeData]. unfold EapExpanded_Unmarshal, slen.
  cbn [vis]. len_simpl. ztests.
  rd_sub [] (be_enc 4 w) (be_enc 4 ty ++ v). rd_step.
  rewrite Uint32_enc by done. rd_step.
  rd_sub (be_enc 4 w) (be_enc 4 ty) v. rd_step.
  rewrite Uint32_enc by done. rd_step. rewrite E2.
  destruct (8 <? _) eqn:E; bools.
  - by rewrite (sfrom_at (be_enc 4 w ++ be_enc 4 ty) v) by first [done|rd_len].
  - rewrite (len_zero_nil v) by lia. done.
Qed.

Lemma Aka_encodes d :
  aka_wf d → aka_in_range d = true → ∃ l, encodes (TDAkaPrime d) l.
Proof.
  intros Hw Hr. exists (aka_bytes d). split; [by apply EapAkaPrime_Marshal_eq|].
  split; [by apply bytesb_aka|]. split; [by eexists|]. intros h.
  cbn [EapTypeData_Unmarshal fresh_EapTypeData]. by rewrite EapAkaPrime_read_back.
Qed.

Lemma EapTypeData_encodes t : EapTypeData_encodable t → ∃ l, encodes t l.
Proof.
  destruct t; cbn [EapTypeData_encodable];
    eauto using Identity_encodes, Notification_encodes, Nak_encodes, MD5_encodes, Expanded_encodes.
  intros [? ?]. by apply Aka_encodes.
Qed.

#[export] Program Instance EapTypeData_codec : Codec EapTypeData := {|
  marshal := EapTypeData_Marshal;
  unmarshal := EapTypeData_Unmarshal;
  fresh_for := fresh_EapTypeData;
  valid := EapTypeData_valid
|}.
Next Obligation.
  intros t Ht. apply EapTypeData_valid_encodable in Ht as He.
  destruct (EapTypeData_encodes t He) as (l & Hm & Hb & _ & Hu). exists l.
  by rewrite EapTypeData_valid_read_back in Hu.
Qed.

(** ** The packet codec *)

Definition eap_body (e : EAP) : list Z :=
  match eap_EapTypeData e with
  | Some t => match EapTypeData_Marshal t with Ok l => l | _ => [] end
  | None => []
  end.

Definition eap_bytes (e : EAP) : list Z :=
  [eap_Code e; eap_Identifier e] ++ be_enc 2 (4 + len (eap_body e)) ++ eap_body e.

(** A request or a response carries type data; the packet fits its 16-bit
    length. *)
Definition EAP_valid (e : EAP) : bool :=
  u8b (eap_Code e) && u8b (eap_Identifier e) && (len (eap_body e) <=? 65531) &&
  match eap_EapTypeData e with
  | Some t => EapTypeData_valid t
  | None => negb ((eap_Code e =? EapCodeRequest) || (eap_Code e =? EapCodeResponse))
  end.

(** As above, with type data that can be sent. *)
Definition EAP_encodable (e : EAP) : Prop :=
  u8b (eap_Code e) = true ∧ u8b (eap_Identifier e) = true ∧ len (eap_body e) ≤ 65531 ∧
  match eap_EapTypeData e with
  | Some t => EapTypeData_encodable t
  | None => (eap_Code e =? EapCodeRequest) || (eap_Code e =? EapCodeResponse) = false
  end.

Definition EAP_read_back (e : EAP) : EAP :=
  MkEAP (eap_Code e) (eap_Identifier e) (EapTypeData_read_back <$> eap_EapTypeData e).

Lemma EAP_valid_encodable e : EAP_valid e = true → EAP_encodable e.
Proof.
  unfold EAP_valid, EAP_encodable.
  destruct (eap_EapTypeData e); intros [[[Hc Hi]%andb_prop Hl%Z.leb_le]%andb_prop Ht]%andb_prop;
    do 3 (split; [done|]); [by apply EapTypeData_valid_encodable|by apply negb_true_iff].
Qed.

Lemma EAP_valid_read_back e : EAP_valid e = true → EAP_read_back e = e.
Proof.
  unfold EAP_valid, EAP_read_back. destruct e as [c i [t|]]; [|done]. cbn. intros H. bools.
  by rewrite EapTypeData_valid_read_back.
Qed.

Lemma EAP_Marshal_eq e :
  (∀ t, eap_EapTypeData e = Some t → is_ok (EapTypeData_Marshal t)) →
  len (eap_body e) ≤ 65531 → EAP_Marshal e = Ok (eap_bytes e).
Proof.
  destruct e as [c i t]. unfold EAP_Marshal, eap_bytes, eap_body.
  cbn [eap_Code eap_Identifier eap_EapTypeData]. intros Ht Hl.
  change (set_byte 0 c (make_bytes 4)) with (Ok [c; 0; 0; 0]). cbn [mbind res_bind].
  change (set_byte 1 i [c; 0; 0; 0]) with (Ok [c; i; 0; 0]). cbn [mbind res_bind].
  set (body := match t with Some t => match EapTypeData_Marshal t with Ok l => l | _ => [] end
               | None => [] end) in *.
  replace (match t with Some t => _ | None => _ end) with (Ok ([c; i; 0; 0] ++ body)).
  2: { subst body. destruct t as [t|]; [|done]. specialize (Ht t eq_refl).
       by destruct (EapTypeData_Marshal t). }
  cbn [mbind res_bind]. len_simpl. pose proof (len_nonneg body). ztests.
  rewrite u16_small by lia. replace (_ + len body) with (4 + len body) by lia. done.
Qed.

Lemma EAP_encodable_marshals e t :
  EAP_encodable e → eap_EapTypeData e = Some t → is_ok (EapTypeData_Marshal t).
Proof.
  intros (_ & _ & _ & H) E. rewrite E in H.
  by destruct (EapTypeData_encodes t H) as (l & -> & _).
Qed.

Lemma bytesb_eap_body e : EAP_encodable e → bytesb (eap_body e) = true.
Proof.
  intros (_ & _ & _ & H). unfold eap_body. destruct (eap_EapTypeData e) as [t|]; [|done].
  by destruct (EapTypeData_encodes t H) as (l & -> & ? & _).
Qed.

(** A packet with type data that starts with the type byte of [t]. *)
Lemma EAP_Unmarshal_body c i t l h :
  u8b c = true → u8b i = true → len l ≤ 65531 → (∃ l', l = EapTypeData_Type t :: l') →
  EAP_Unmarshal new_EAP (Slice ([c; i] ++ be_enc 2 (4 + len l) ++ l) h) =
    t' ← wrap "EAP: EAP type data unamrshal failed: "
           (EapTypeData_Unmarshal (fresh_EapTypeData t) (Slice l h));
    Ok (MkEAP c i (Some t')).
Proof.
  intros Hc Hi Hl [l' El]. pose proof (len_nonneg l').
  assert (0 < len l) by (rewrite El, len_cons; lia).
  unfold EAP_Unmarshal, slen. cbn [vis]. len_simpl. ztests.
  rd_sub [c; i] (be_enc 2 (4 + len l)) l. rd_step.
  rewrite Uint16_enc by (unfold u16b; by ztests). rd_step. ztests.
  rd_idx []. rd_step. rd_idx [c]. rd_step. ztests. rewrite andb_false_r.
  goal_call ltac:(fun x => lazymatch x with idx ?s ?k =>
    rewrite (idx_at ([c; i] ++ be_enc 2 (4 + len l)) (EapTypeData_Type t) l' s k)
      by first [by rewrite El|done] end). rd_step.
  rewrite new_EapTypeData_fresh.
  goal_call ltac:(fun x => lazymatch x with sfrom ?s ?k =>
    rewrite (sfrom_at ([c; i] ++ be_enc 2 (4 + len l)) l s k) by done end). done.
Qed.

(** A packet that can be sent is sent, and read back. *)
Lemma EAP_rt e :
  EAP_encodable e →
  EAP_Marshal e = Ok (eap_bytes e) ∧ bytesb (eap_bytes e) = true ∧
  ∀ h, EAP_Unmarshal new_EAP (Slice (eap_bytes e) h) = Ok (EAP_read_back e).
Proof.
  intros He. pose proof (bytesb_eap_body e He) as Hb.
  pose proof He as (Hc & Hi & Hl & Ht). split; [|split].
  - apply EAP_Marshal_eq; [|done]. intros t. by apply EAP_encodable_marshals.
  - unfold eap_bytes. bsplit. apply bytesb_be_enc.
  - intros h. destruct e as [c i [t|]]; cbn [eap_Code eap_Identifier eap_EapTypeData] in *.
    + destruct (EapTypeData_encodes t) as (l & Hm & _ & Hty & Hu); [done|].
      unfold eap_bytes, eap_body in *. cbn [eap_Code eap_Identifier eap_EapTypeData] in *.
      rewrite Hm in *. rewrite (EAP_Unmarshal_body c i t l h), Hu by done. done.
    + unfold eap_bytes, eap_body. cbn [eap_Code eap_Identifier eap_EapTypeData].
      unfold EAP_Unmarshal. change (slen _) with 4. cbn [Z.gtb Z.ltb Z.compare Pos.compare Pos.compare_cont].
      rd_sub [c; i] (be_enc 2 4) []. rd_step. rewrite Uint16_enc by done. rd_step.
      cbn [Z.ltb Z.eqb Z.compare Pos.compare Pos.compare_cont Pos.eqb negb].
      rd_idx []. rd_step. rd_idx [c]. rd_step. rewrite Ht. done.
Qed.

#[export] Program Instance EAP_codec : Codec EAP := {|
  marshal := EAP_Marshal;
  unmarshal := EAP_Unmarshal;
  fresh_for _ := new_EAP;
  valid := EAP_valid
|}.
Next Obligation.
  intros e He. destruct (EAP_rt e (EAP_valid_encodable e He)) as (Em & Hb & Hu).
  exists (eap_bytes e). by rewrite EAP_valid_read_back in Hu.
Qed.

(** ** The decoders return on every input *)

Lemma fmap_returns {A B} (f : A → B) (r : res A) : returns r → returns (f <$> r).
Proof. by destruct r. Qed.

Lemma EapTypeData_total : total_decoder EapTypeData_Unmarshal.
Proof.
  intros t b. destruct t; cbn [EapTypeData_Unmarshal]; apply fmap_returns.
  - unfold EapIdentity_Unmarshal. rets.
  - unfold EapNotification_Unmarshal. rets.
  - unfold EapNak_Unmarshal. rets.
  - unfold EapMD5_Unmarshal, EapMD5MinLen, EapMD5HeaderLen, EapMD5ChallengeSize. rets.
  - apply EapAkaPrime_total.
  - unfold EapExpanded_Unmarshal. rets.
Qed.

Lemma EAP_total : total_decoder EAP_Unmarshal.
Proof.
  intros e b. unfold EAP_Unmarshal. rets.
  match goal with |- returns (match ?o with _ => _ end) => destruct o; [|exact I] end.
  rets. apply EapTypeData_total.
Qed.
#[export] Hint Resolve EAP_total : go.

(** ** AT_MAC *)

Definition aka_packet (c i : Z) (e : EapAkaPrime) : EAP := MkEAP c i (Some (TDAkaPrime e)).










(** ** Properties *)



(** A packet of the API: a challenge response with a padded AT_RES. *)
Definition demo_challenge : EapAkaPrime :=
  put_attr (put_attr (NewEapAkaPrime 1) (MkAttr AT_RES 3 40 [1; 2; 3; 4; 5; 0; 0; 0]))
    (MkAttr AT_KDF 1 1 []).

Example demo_challenge_built :
  (e ← SetAttr (NewEapAkaPrime 1) AT_RES [1; 2; 3; 4; 5]; SetAttr e AT_KDF [0; 1]) =
    Ok demo_challenge.
Proof. vm_compute. reflexivity. Qed.





(** The condition on the padding is needed. With an AT_RES of five bytes the
    peer decodes the packet, but its own MAC is another one, for the decoder
    has dropped the padding. *)
Definition both_macs (e : EapAkaPrime) (key : list Z) : res (list Z * list Z) :=
  '(p, mac) ← CalcEapAkaPrimeAtMAC (aka_packet 2 7 e) key;
  match eap_EapTypeData p with
  | Some (TDAkaPrime e0) =>
      e1 ← SetAttr e0 AT_MAC mac;
      bs ← EAP_Marshal (aka_packet 2 7 e1);
      q ← EAP_Unmarshal new_EAP (of_bytes bs);
      '(_, mac') ← CalcEapAkaPrimeAtMAC q key;
      Ok (mac, mac')
  | _ => Err "no EAP-AKA' data"
  end.

Example padded_AT_RES_other_mac :
  match both_macs demo_challenge [9; 9] with
  | Ok (mac, mac') => bool_decide (mac = mac')
  | _ => true
  end = false.
Proof. vm_compute. reflexivity. Qed.

