(* ===== verification/Header.v ===== *)
(** * message/header.go: the IKE header

    The 28-byte header as a record, its constructor and flag predicates,
    [Marshal] and [ParseHeader], with the round trips in both directions. *)

From S2P Require Import Prelude GoSlice.

Definition ResponseBitCheck : Z := 0x20.
Definition VersionBitCheck : Z := 0x10.
Definition InitiatorBitCheck : Z := 0x08.
Definition IKE_HEADER_LEN : Z := 28.

(** [PayloadBytes] is a window on the received message, so it keeps what
    follows it in the message's array. *)
Record IKEHeader := MkHeader {
  h_InitiatorSPI : Z;
  h_ResponderSPI : Z;
  h_MajorVersion : Z;
  h_MinorVersion : Z;
  h_ExchangeType : Z;
  h_Flags : Z;
  h_MessageID : Z;
  h_NextPayload : Z;
  h_PayloadBytes : slice
}.

Definition NewHeader (iSPI rSPI exchgType : Z) (response initiator : bool) (mId : Z)
    (nextPayload : Z) (payloadBytes : slice) : IKEHeader :=
  let flags := 0 in
  let flags := if response then Z.lor flags ResponseBitCheck else flags in
  let flags := if initiator then Z.lor flags InitiatorBitCheck else flags in
  MkHeader iSPI rSPI 2 0 exchgType flags mId nextPayload payloadBytes.

Definition IKEHeader_Marshal (h : IKEHeader) : res (list Z) :=
  b ← PutUint64 0 (h_InitiatorSPI h) (make_bytes IKE_HEADER_LEN);
  b ← PutUint64 8 (h_ResponderSPI h) b;
  b ← set_byte 16 (h_NextPayload h) b;
  b ← set_byte 17 (Z.lor (u8 (Z.shiftl (h_MajorVersion h) 4))
                         (Z.land (h_MinorVersion h) 0x0F)) b;
  b ← set_byte 18 (h_ExchangeType h) b;
  b ← set_byte 19 (h_Flags h) b;
  b ← PutUint32 20 (h_MessageID h) b;
  let totalLen := IKE_HEADER_LEN + slen (h_PayloadBytes h) in
  if (totalLen <? 0) || (totalLen >? 4294967295) then
    Err "length exceeds uint32 limit or is negative"
  else
    b ← PutUint32 24 (u32 totalLen) b;
    Ok (if slen (h_PayloadBytes h) >? 0 then b ++ vis (h_PayloadBytes h) else b).

Definition IsResponse (h : IKEHeader) : bool :=
  negb (Z.land (h_Flags h) ResponseBitCheck =? 0).
Definition IsRequest (h : IKEHeader) : bool := negb (IsResponse h).
Definition IsInitiator (h : IKEHeader) : bool :=
  negb (Z.land (h_Flags h) InitiatorBitCheck =? 0).
Definition IsResponder (h : IKEHeader) : bool := negb (IsInitiator h).

Definition ParseHeader (b : slice) : res IKEHeader :=
  if slen b <? IKE_HEADER_LEN then Err "ParseHeader(): Received broken IKE header"
  else
    totalLen ← (t ← sub b 24 IKE_HEADER_LEN; Uint32 t);
    if totalLen <? u32 IKE_HEADER_LEN then
      Err "ParseHeader(): Illegal IKE message length < header length"
    else
      ispi ← (t ← sto b 8; Uint64 t);
      rspi ← (t ← sub b 8 16; Uint64 t);
      np ← idx b 16;
      v ← idx b 17;
      ty ← idx b 18;
      fl ← idx b 19;
      mid ← (t ← sub b 20 24; Uint32 t);
      p ← sfrom b IKE_HEADER_LEN;
      Ok (MkHeader ispi rspi (Z.shiftr v 4) (Z.land v 0x0F) ty fl mid np p).

(** ** The flags *)

Lemma NewHeader_flags i r e resp init m n p :
  IsResponse (NewHeader i r e resp init m n p) = resp ∧
  IsInitiator (NewHeader i r e resp init m n p) = init.
Proof. by destruct resp, init. Qed.

(** ** Encoding and decoding *)

Definition header_in_range (h : IKEHeader) : bool :=
  u64b (h_InitiatorSPI h) && u64b (h_ResponderSPI h) && u8b (h_NextPayload h) &&
  (0 <=? h_MajorVersion h) && (h_MajorVersion h <? 16) &&
  (0 <=? h_MinorVersion h) && (h_MinorVersion h <? 16) &&
  u8b (h_ExchangeType h) && u8b (h_Flags h) && u32b (h_MessageID h).

Definition header_bytes (h : IKEHeader) (total : Z) : list Z :=
  be_enc 8 (h_InitiatorSPI h) ++ be_enc 8 (h_ResponderSPI h) ++
  [h_NextPayload h;
   Z.lor (u8 (Z.shiftl (h_MajorVersion h) 4)) (Z.land (h_MinorVersion h) 0x0F);
   h_ExchangeType h; h_Flags h] ++ be_enc 4 (h_MessageID h) ++ be_enc 4 total.

Lemma len_header_bytes h n : len (header_bytes h n) = 28.
Proof. done. Qed.

Definition with_payload (h : IKEHeader) (p : slice) : IKEHeader :=
  MkHeader (h_InitiatorSPI h) (h_ResponderSPI h) (h_MajorVersion h) (h_MinorVersion h)
    (h_ExchangeType h) (h_Flags h) (h_MessageID h) (h_NextPayload h) p.

Lemma IKEHeader_Marshal_eq h :
  IKE_HEADER_LEN + slen (h_PayloadBytes h) ≤ 4294967295 →
  IKEHeader_Marshal h =
    Ok (header_bytes h (IKE_HEADER_LEN + slen (h_PayloadBytes h)) ++ vis (h_PayloadBytes h)).
Proof.
  intros Hl. unfold IKEHeader_Marshal, header_bytes. unfold IKE_HEADER_LEN in *.
  set (i := h_InitiatorSPI h). set (r := h_ResponderSPI h). set (np := h_NextPayload h).
  set (v := Z.lor _ _). set (ty := h_ExchangeType h). set (fl := h_Flags h).
  set (mid := h_MessageID h). set (p := h_PayloadBytes h) in *.
  change (PutUint64 0 i (make_bytes 28)) with (Ok (be_enc 8 i ++ replicate 20 0)).
  cbn [mbind res_bind].
  change (PutUint64 8 r _) with (Ok (be_enc 8 i ++ be_enc 8 r ++ replicate 12 0)).
  cbn [mbind res_bind].
  change (set_byte 16 np _) with
    (Ok (be_enc 8 i ++ be_enc 8 r ++ [np] ++ replicate 11 0)). cbn [mbind res_bind].
  change (set_byte 17 v _) with
    (Ok (be_enc 8 i ++ be_enc 8 r ++ [np; v] ++ replicate 10 0)). cbn [mbind res_bind].
  change (set_byte 18 ty _) with
    (Ok (be_enc 8 i ++ be_enc 8 r ++ [np; v; ty] ++ replicate 9 0)). cbn [mbind res_bind].
  change (set_byte 19 fl _) with
    (Ok (be_enc 8 i ++ be_enc 8 r ++ [np; v; ty; fl] ++ replicate 8 0)). cbn [mbind res_bind].
  change (PutUint32 20 mid _) with
    (Ok (be_enc 8 i ++ be_enc 8 r ++ [np; v; ty; fl] ++ be_enc 4 mid ++ replicate 4 0)).
  cbn [mbind res_bind]. pose proof (slen_nonneg p). ztests. rewrite u32_small by lia.
  set (total := 28 + slen p).
  change (PutUint32 24 total _) with
    (Ok (be_enc 8 i ++ be_enc 8 r ++ [np; v; ty; fl] ++ be_enc 4 mid ++ be_enc 4 total)).
  cbn [mbind res_bind]. destruct (Z.ltb_spec 0 (slen p)) as [?|?]; [done|].
  unfold slen in *. rewrite (len_zero_nil (vis p)) by lia. by rewrite app_nil_r.
Qed.

(** The version byte holds two half-bytes. *)
Lemma version_byte a b : 0 ≤ a < 16 → 0 ≤ b < 16 →
  let v := Z.lor (u8 (Z.shiftl a 4)) (Z.land b 0x0F) in
  u8b v = true ∧ Z.shiftr v 4 = a ∧ Z.land v 0x0F = b.
Proof.
  intros Ha Hb.
  assert (H : forallb (λ a, forallb (λ b, let v := Z.lor (u8 (Z.shiftl a 4)) (Z.land b 0x0F) in
    u8b v && (Z.shiftr v 4 =? a) && (Z.land v 0x0F =? b)) (seqZ 0 16)) (seqZ 0 16) = true)
    by (vm_compute; reflexivity).
  rewrite forallb_forall in H. specialize (H a ltac:(apply list_elem_of_In, elem_of_seqZ; lia)).
  cbn beta in H. rewrite forallb_forall in H.
  specialize (H b ltac:(apply list_elem_of_In, elem_of_seqZ; lia)). cbv zeta in *. by bools.
Qed.

Lemma bytesb_header_bytes h n : header_in_range h = true → bytesb (header_bytes h n) = true.
Proof.
  unfold header_in_range, header_bytes. intros H. bools.
  destruct (version_byte (h_MajorVersion h) (h_MinorVersion h)) as [V _]; [lia..|].
  bsplit; apply bytesb_be_enc.
Qed.

Lemma version_byte_inv v : u8b v = true →
  0 ≤ Z.shiftr v 4 < 16 ∧ 0 ≤ Z.land v 0x0F < 16 ∧
  Z.lor (u8 (Z.shiftl (Z.shiftr v 4) 4)) (Z.land (Z.land v 0x0F) 0x0F) = v.
Proof.
  intros Hv.
  assert (H : (0 <=? Z.shiftr v 4) && (Z.shiftr v 4 <? 16) && (0 <=? Z.land v 0x0F) &&
    (Z.land v 0x0F <? 16) &&
    (Z.lor (u8 (Z.shiftl (Z.shiftr v 4) 4)) (Z.land (Z.land v 0x0F) 0x0F) =? v) = true).
  { revert v Hv. apply (byte_cases (λ v, _)). vm_compute. reflexivity. }
  bools. done.
Qed.

(** The decoder gives the header back, with the payloads it windows. *)
Lemma ParseHeader_bytes h total p hd :
  header_in_range h = true → 28 ≤ total < 2 ^ 32 →
  ParseHeader (Slice (header_bytes h total ++ p) hd) = Ok (with_payload h (Slice p hd)).
Proof.
  unfold header_in_range. intros Hr Ht. bools. unfold ParseHeader, IKE_HEADER_LEN, slen. cbn [vis].
  rewrite len_app, len_header_bytes. pose proof (len_nonneg p). ztests.
  destruct (version_byte (h_MajorVersion h) (h_MinorVersion h)) as (_ & V1 & V2); [lia..|].
  unfold header_bytes. set (v := Z.lor _ _) in *.
  set (i := be_enc 8 (h_InitiatorSPI h)). set (r := be_enc 8 (h_ResponderSPI h)).
  set (np := h_NextPayload h) in *. set (ty := h_ExchangeType h) in *. set (fl := h_Flags h) in *.
  set (mid := be_enc 4 (h_MessageID h)). set (tot := be_enc 4 total).
  assert (E : len i = 8 ∧ len r = 8 ∧ len mid = 4 ∧ len tot = 4) by done.
  destruct E as (Ei & Er & Em & Et). rewrite <- !app_assoc.
  rd_sub (i ++ r ++ [np; v; ty; fl] ++ mid) tot p. rd_step.
  rewrite (Uint32_enc total) by (unfold u32b; by ztests). rd_step.
  change (u32 28) with 28. ztests. unfold sto.
  rd_sub [] i (r ++ [np; v; ty; fl] ++ mid ++ tot ++ p). rd_step.
  rewrite (Uint64_enc (h_InitiatorSPI h)) by done. rd_step.
  rd_sub i r ([np; v; ty; fl] ++ mid ++ tot ++ p). rd_step.
  rewrite (Uint64_enc (h_ResponderSPI h)) by done. rd_step.
  rd_idx (i ++ r). rd_step. rd_idx (i ++ r ++ [np]). rd_step.
  rd_idx (i ++ r ++ [np; v]). rd_step. rd_idx (i ++ r ++ [np; v; ty]). rd_step.
  rd_sub (i ++ r ++ [np; v; ty; fl]) mid (tot ++ p). rd_step.
  rewrite (Uint32_enc (h_MessageID h)) by done. rd_step.
  rd_from (i ++ r ++ [np; v; ty; fl] ++ mid ++ tot) p. rd_step.
  by rewrite V1, V2.
Qed.

Lemma ParseHeader_total b : returns (ParseHeader b).
Proof. unfold ParseHeader, IKE_HEADER_LEN. rets. Qed.
#[export] Hint Resolve ParseHeader_total : go.

Lemma take_drop_be n l : bytesb l = true → (n ≤ length l)%nat →
  l = be_enc n (be_dec (take n l)) ++ drop n l.
Proof.
  intros Hb Hn. replace (be_enc n _) with (take n l); [by rewrite take_drop|].
  rewrite <- (be_enc_dec (take n l)) at 1 by by apply bytesb_take.
  f_equal. rewrite length_take. lia.
Qed.

Lemma be_dec_take_range n l : bytesb l = true → (n ≤ length l)%nat →
  0 ≤ be_dec (take n l) < 256 ^ Z.of_nat n.
Proof.
  intros Hb Hn. pose proof (be_dec_range (take n l) (bytesb_take n l Hb)) as H.
  unfold len in H. rewrite length_take_le in H by lia. done.
Qed.

(** Every 28 bytes are a header. *)
Lemma header_split l :
  bytesb l = true → 28 ≤ len l →
  ∃ h total p, l = header_bytes h total ++ p ∧ header_in_range h = true ∧ 0 ≤ total < 2 ^ 32.
Proof.
  intros Hb Hl. assert (Hn : (28 ≤ length l)%nat) by (unfold len in Hl; lia). clear Hl.
  pose proof (take_drop_be 8 l Hb ltac:(lia)) as E0.
  pose proof (be_dec_take_range 8 l Hb ltac:(lia)) as R0. set (i := be_dec (take 8 l)) in *.
  pose proof (bytesb_drop 8 l Hb) as H1. assert (L1 : (20 ≤ length (drop 8 l))%nat)
    by (rewrite length_drop; lia). set (l1 := drop 8 l) in *. clearbody l1 i.
  pose proof (take_drop_be 8 l1 H1 ltac:(lia)) as E1.
  pose proof (be_dec_take_range 8 l1 H1 ltac:(lia)) as R1. set (r := be_dec (take 8 l1)) in *.
  pose proof (bytesb_drop 8 l1 H1) as H2. assert (L2 : (12 ≤ length (drop 8 l1))%nat)
    by (rewrite length_drop; lia). set (l2 := drop 8 l1) in *. clearbody l2 r.
  destruct l2 as [|np [|v [|ty [|fl l3]]]]; [cbn in L2; lia..|]. cbn [length] in L2. bools.
  match goal with H : bytesb l3 = true |- _ => rename H into Hl3 end.
  pose proof (take_drop_be 4 l3 Hl3 ltac:(lia)) as E3.
  pose proof (be_dec_take_range 4 l3 Hl3 ltac:(lia)) as R3. set (mid := be_dec (take 4 l3)) in *.
  pose proof (bytesb_drop 4 l3 Hl3) as Hl4. assert (L4 : (4 ≤ length (drop 4 l3))%nat)
    by (rewrite length_drop; lia). set (l4 := drop 4 l3) in *. clearbody l4 mid.
  pose proof (take_drop_be 4 l4 Hl4 ltac:(lia)) as E4.
  pose proof (be_dec_take_range 4 l4 Hl4 ltac:(lia)) as R4. set (tot := be_dec (take 4 l4)) in *.
  destruct (version_byte_inv v) as (V1 & V2 & V3); [done|].
  exists (MkHeader i r (Z.shiftr v 4) (Z.land v 0x0F) ty fl mid np (of_bytes [])), tot, (drop 4 l4).
  split; [|split].
  - unfold header_bytes. cbn [h_InitiatorSPI h_ResponderSPI h_MajorVersion h_MinorVersion
      h_ExchangeType h_Flags h_MessageID h_NextPayload].
    rewrite V3, E0, E1, E3, E4, <- !app_assoc. done.
  - unfold header_in_range. cbn [h_InitiatorSPI h_ResponderSPI h_MajorVersion h_MinorVersion
      h_ExchangeType h_Flags h_MessageID h_NextPayload].
    change (256 ^ Z.of_nat 8) with (2 ^ 64) in *. change (256 ^ Z.of_nat 4) with (2 ^ 32) in *.
    unfold u64b, u32b. ztests. by bsplit.
  - done.
Qed.

(** A length field below 28 is refused. *)
Lemma ParseHeader_short_field h total p hd :
  0 ≤ total < 28 →
  ParseHeader (Slice (header_bytes h total ++ p) hd) =
    Err "ParseHeader(): Illegal IKE message length < header length".
Proof.
  intros Ht. unfold ParseHeader, IKE_HEADER_LEN, slen. cbn [vis].
  rewrite len_app, len_header_bytes. pose proof (len_nonneg p). ztests.
  unfold header_bytes. rewrite <- !app_assoc.
  set (a := be_enc 8 _). set (b := be_enc 8 _). set (m := [_; _; _; _]). set (c := be_enc 4 _).
  assert (Es : sub (Slice (a ++ b ++ m ++ c ++ be_enc 4 total ++ p) hd) 24 28 =
    Ok (Slice (be_enc 4 total) (p ++ hd))).
  { apply (sub_at (a ++ b ++ m ++ c) (be_enc 4 total) p); [by rewrite <- !app_assoc|done..]. }
  rewrite Es. cbn [mbind res_bind]. rewrite Uint32_enc by (unfold u32b; by ztests).
  cbn [mbind res_bind]. change (u32 28) with 28. by ztests.
Qed.

Lemma ParseHeader_long b h : ParseHeader b = Ok h → 28 ≤ slen b.
Proof.
  unfold ParseHeader, IKE_HEADER_LEN. destruct (Z.ltb_spec (slen b) 28); [done|lia].
Qed.

(** The payload bytes of a parsed header are the bytes after it. *)
Lemma ParseHeader_payload b h : ParseHeader b = Ok h → sfrom b IKE_HEADER_LEN = Ok (h_PayloadBytes h).
Proof.
  intros H. unfold ParseHeader in H. destruct (_ <? _); [done|].
  apply bind_Ok_inv in H as (t & _ & H). destruct (_ <? _); [done|].
  do 7 (apply bind_Ok_inv in H as (? & _ & H)).
  apply bind_Ok_inv in H as (p & E & H). by injection H as <-.
Qed.

(** The length field is the last one. *)
Lemma header_bytes_split h total :
  ∃ a, len a = 24 ∧ header_bytes h total = a ++ be_enc 4 total ∧
    ∀ n, header_bytes h n = a ++ be_enc 4 n.
Proof.
  eexists (be_enc 8 (h_InitiatorSPI h) ++ be_enc 8 (h_ResponderSPI h) ++
    [h_NextPayload h;
     Z.lor (u8 (Z.shiftl (h_MajorVersion h) 4)) (Z.land (h_MinorVersion h) 0x0F);
     h_ExchangeType h; h_Flags h] ++ be_enc 4 (h_MessageID h)).
  unfold header_bytes. split; [done|]. split; [|intros n]; by rewrite <- !app_assoc.
Qed.

Lemma take_len {A} (a c : list A) n : len a = Z.of_nat n → take n (a ++ c) = a.
Proof. intros H. unfold len in H. apply take_app_length'. lia. Qed.
Lemma drop_len {A} (a c : list A) n : len a = Z.of_nat n → drop n (a ++ c) = c.
Proof. intros H. unfold len in H. apply drop_app_length'. lia. Qed.

(** The length field of a message, and the message with another one. *)
Lemma header_fields h total p :
  take 4 (drop 24 (header_bytes h total ++ p)) = be_enc 4 total ∧
  drop 28 (header_bytes h total ++ p) = p ∧
  ∀ n, header_bytes h n = take 24 (header_bytes h total ++ p) ++ be_enc 4 n.
Proof.
  destruct (header_bytes_split h total) as (a & La & E & En).
  split; [|split; [by apply drop_len|intros n]]; rewrite E, <- app_assoc.
  - rewrite (drop_len a) by done. by apply take_len.
  - by rewrite (take_len a), En.
Qed.

Lemma be32_field n : 0 ≤ n < 2 ^ 32 → be_dec (be_enc 4 n) = n.
Proof. intros H. apply be32_rt. unfold u32b. by ztests. Qed.

(** ** Properties *)

Definition demo_IKEHeader : IKEHeader := MkHeader 1 2 2 0 37 8 1 40 (of_bytes [7; 8]).

(** C23: a header whose fields fit their widths survives the wire: [Marshal]
    writes 28 bytes with the total length and then the payload bytes, and
    [ParseHeader] gives every field back, the payload bytes as the rest of the
    message, wherever the message lies in its buffer. *)
Theorem IKEHeader_round_trip h hd :
  header_in_range h = true → 28 + slen (h_PayloadBytes h) ≤ 4294967295 →
  ∃ bs, IKEHeader_Marshal h = Ok bs ∧ len bs = 28 + slen (h_PayloadBytes h) ∧
    be_dec (take 4 (drop 24 bs)) = len bs ∧
    ParseHeader (Slice bs hd) = Ok (with_payload h (Slice (vis (h_PayloadBytes h)) hd)).
Proof.
  intros Hr Hl. rewrite IKEHeader_Marshal_eq by done. unfold IKE_HEADER_LEN.
  pose proof (slen_nonneg (h_PayloadBytes h)). set (n := 28 + slen (h_PayloadBytes h)) in *.
  assert (Ln : len (header_bytes h n ++ vis (h_PayloadBytes h)) = n)
    by (rewrite len_app, len_header_bytes; done).
  eexists. split; [reflexivity|]. split; [done|]. split; [|apply ParseHeader_bytes; [done|lia]].
  destruct (header_fields h n (vis (h_PayloadBytes h))) as [-> _]. rewrite Ln. apply be32_field. lia.
Qed.

Lemma IKEHeader_round_trip_witness :
  ∃ bs, IKEHeader_Marshal demo_IKEHeader = Ok bs ∧ len bs = 28 + 2 ∧
    be_dec (take 4 (drop 24 bs)) = len bs ∧
    ParseHeader (Slice bs [9]) = Ok (with_payload demo_IKEHeader (Slice [7; 8] [9])).
Proof. apply (IKEHeader_round_trip demo_IKEHeader [9]); [reflexivity|]. vm_compute. discriminate. Defined.

(** C24: parsing is undone by [Marshal] except in the length field. Every
    message of at least 28 bytes whose length field is at least 28 parses, and
    marshalling the parsed header gives its bytes back with the length field
    set to the real length: [ParseHeader] never compares the two. *)
Theorem ParseHeader_Marshal b :
  bytesb (vis b) = true → 28 ≤ slen b ≤ 4294967295 →
  match ParseHeader b with
  | Ok h => header_in_range h = true ∧ 28 ≤ be_dec (take 4 (drop 24 (vis b))) ∧
            IKEHeader_Marshal h =
              Ok (take 24 (vis b) ++ be_enc 4 (slen b) ++ drop 28 (vis b))
  | Err e => be_dec (take 4 (drop 24 (vis b))) < 28 ∧
             e = "ParseHeader(): Illegal IKE message length < header length"
  | _ => False
  end.
Proof.
  intros Hb Hl. unfold slen in Hl. destruct (header_split (vis b) Hb) as (h & total & p & El & Hr & Ht);
    [lia|]. destruct b as [l hd]. cbn [vis] in *. subst l.
  destruct (header_fields h total p) as (-> & -> & En). rewrite be32_field by done.
  destruct (Z.leb_spec 28 total); 
    [|rewrite ParseHeader_short_field by lia; split; [lia|done]].
  rewrite ParseHeader_bytes by (done || lia). split; [done|]. split; [done|].
  rewrite len_app, len_header_bytes in Hl. unfold slen. cbn [vis].
  rewrite IKEHeader_Marshal_eq; unfold IKE_HEADER_LEN, slen; cbn [with_payload h_PayloadBytes vis]; [|lia].
  by rewrite app_assoc, <- En, len_app, len_header_bytes.
Qed.

Lemma ParseHeader_Marshal_witness :
  match ParseHeader (of_bytes (make_bytes 16 ++ [40; 32; 37; 8] ++ make_bytes 4 ++ be_enc 4 999 ++ [5])) with
  | Ok h => IKEHeader_Marshal h =
      Ok (make_bytes 16 ++ [40; 32; 37; 8] ++ make_bytes 4 ++ be_enc 4 29 ++ [5])
  | _ => False
  end.
Proof.
  pose proof (ParseHeader_Marshal
    (of_bytes (make_bytes 16 ++ [40; 32; 37; 8] ++ make_bytes 4 ++ be_enc 4 999 ++ [5]))
    eq_refl) as H.
  destruct (ParseHeader _) as [h|e| |].
  - apply H. vm_compute. split; discriminate.
  - destruct H as [H _]; [vm_compute; split; discriminate|]. vm_compute in H. discriminate.
  - apply H. vm_compute. split; discriminate.
  - apply H. vm_compute. split; discriminate.
Defined.

