(* ===== verification/Message.v ===== *)
(** * message/message.go: payload chains and messages

    [IKEPayload] is the sum of the payload types; its [Marshal], [Unmarshal]
    and [Type] dispatch on the case, as the interface does. *)

From S2P Require Import Prelude GoSlice Types Codec Payloads SecurityAssociation.
From S2P Require Import TrafficSelector Eap Header.

Inductive IKEPayload :=
  | PSA (p : SecurityAssociation)
  | PKE (p : KeyExchange)
  | PIDi (p : IdentificationInitiator)
  | PIDr (p : IdentificationResponder)
  | PCERT (p : Certificate)
  | PCERTreq (p : CertificateRequest)
  | PAUTH (p : Authentication)
  | PNonce (p : Nonce)
  | PN (p : Notification)
  | PD (p : Delete)
  | PV (p : VendorID)
  | PTSi (p : TrafficSelectorInitiator)
  | PTSr (p : TrafficSelectorResponder)
  | PSK (p : Encrypted)
  | PCP (p : Configuration)
  | PEAP (p : EAP).

Definition payload_Type (p : IKEPayload) : Z :=
  match p with
  | PSA _ => TypeSA | PKE _ => TypeKE | PIDi _ => TypeIDi | PIDr _ => TypeIDr
  | PCERT _ => TypeCERT | PCERTreq _ => TypeCERTreq | PAUTH _ => TypeAUTH
  | PNonce _ => TypeNiNr | PN _ => TypeN | PD _ => TypeD | PV _ => TypeV
  | PTSi _ => TypeTSi | PTSr _ => TypeTSr | PSK _ => TypeSK | PCP _ => TypeCP
  | PEAP _ => TypeEAP
  end.

Definition payload_Marshal (p : IKEPayload) : res (list Z) :=
  match p with
  | PSA p => SecurityAssociation_Marshal p
  | PKE p => KeyExchange_Marshal p
  | PIDi p => IdentificationInitiator_Marshal p
  | PIDr p => IdentificationResponder_Marshal p
  | PCERT p => Certificate_Marshal p
  | PCERTreq p => CertificateRequest_Marshal p
  | PAUTH p => Authentication_Marshal p
  | PNonce p => Nonce_Marshal p
  | PN p => Notification_Marshal p
  | PD p => Delete_Marshal p
  | PV p => VendorID_Marshal p
  | PTSi p => TrafficSelectorInitiator_Marshal p
  | PTSr p => TrafficSelectorResponder_Marshal p
  | PSK p => Encrypted_Marshal p
  | PCP p => Configuration_Marshal p
  | PEAP p => EAP_Marshal p
  end.

Definition payload_Unmarshal (p : IKEPayload) (b : slice) : res IKEPayload :=
  match p with
  | PSA p => PSA <$> SecurityAssociation_Unmarshal p b
  | PKE p => PKE <$> KeyExchange_Unmarshal p b
  | PIDi p => PIDi <$> IdentificationInitiator_Unmarshal p b
  | PIDr p => PIDr <$> IdentificationResponder_Unmarshal p b
  | PCERT p => PCERT <$> Certificate_Unmarshal p b
  | PCERTreq p => PCERTreq <$> CertificateRequest_Unmarshal p b
  | PAUTH p => PAUTH <$> Authentication_Unmarshal p b
  | PNonce p => PNonce <$> Nonce_Unmarshal p b
  | PN p => PN <$> Notification_Unmarshal p b
  | PD p => PD <$> Delete_Unmarshal p b
  | PV p => PV <$> VendorID_Unmarshal p b
  | PTSi p => PTSi <$> TrafficSelectorInitiator_Unmarshal p b
  | PTSr p => PTSr <$> TrafficSelectorResponder_Unmarshal p b
  | PSK p => PSK <$> Encrypted_Unmarshal p b
  | PCP p => PCP <$> Configuration_Unmarshal p b
  | PEAP p => PEAP <$> EAP_Unmarshal p b
  end.

(** The switch of [Decode]: the payload it makes for a type, [b0] being the
    next payload field that an encrypted payload keeps. *)
Definition new_payload (nextPayload b0 : Z) : option IKEPayload :=
  if nextPayload =? TypeSA then Some (PSA new_SecurityAssociation)
  else if nextPayload =? TypeKE then Some (PKE new_KeyExchange)
  else if nextPayload =? TypeIDi then Some (PIDi new_IdentificationInitiator)
  else if nextPayload =? TypeIDr then Some (PIDr new_IdentificationResponder)
  else if nextPayload =? TypeCERT then Some (PCERT new_Certificate)
  else if nextPayload =? TypeCERTreq then Some (PCERTreq new_CertificateRequest)
  else if nextPayload =? TypeAUTH then Some (PAUTH new_Authentication)
  else if nextPayload =? TypeNiNr then Some (PNonce new_Nonce)
  else if nextPayload =? TypeN then Some (PN new_Notification)
  else if nextPayload =? TypeD then Some (PD new_Delete)
  else if nextPayload =? TypeV then Some (PV new_VendorID)
  else if nextPayload =? TypeTSi then Some (PTSi new_TrafficSelectorInitiator)
  else if nextPayload =? TypeTSr then Some (PTSr new_TrafficSelectorResponder)
  else if nextPayload =? TypeSK then Some (PSK (MkSK b0 []))
  else if nextPayload =? TypeCP then Some (PCP new_Configuration)
  else if nextPayload =? TypeEAP then Some (PEAP new_EAP)
  else None.

(** ** The chain *)

Abbreviation IKEPayloadContainer := (list IKEPayload) (only parsing).

(** The next payload field of the last payload: an encrypted payload stores
    the type of the first payload inside it. *)
Definition last_next (p : IKEPayload) : Z :=
  match p with PSK sk => sk_NextPayload sk | _ => NoNext end.

Fixpoint Container_Encode (c : IKEPayloadContainer) : res (list Z) :=
  match c with
  | [] => Ok []
  | p :: c =>
      let next := match c with q :: _ => payload_Type q | [] => last_next p end in
      b ← set_byte 0 next (make_bytes 4);
      data ← wrap "EncodePayload(): Failed to marshal payload: " (payload_Marshal p);
      let b := b ++ data in
      if len b >? 0xFFFF then
        Err "EncodePayload(): payloadData length exceeds uint16 limit"
      else
        b ← PutUint16 2 (u16 (len b)) b;
        rest ← Container_Encode c;
        Ok (b ++ rest)
  end.

Fixpoint Container_Decode_loop (fuel : nat) (nextPayload : Z) (b : slice)
    (c : IKEPayloadContainer) : res IKEPayloadContainer :=
  if slen b >? 0 then
    match fuel with
    | O => Diverge
    | S fuel =>
        if slen b <? 4 then
          Err "DecodePayload(): No sufficient bytes to decode next payload"
        else
          payloadLength ← (t ← sub b 2 4; Uint16 t);
          if payloadLength <? 4 then
            Err "DecodePayload(): Illegal payload length < header length 4"
          else if slen b <? payloadLength then
            Err "DecodePayload(): The length of received message not matchs the length specified in header"
          else
            b1 ← idx b 1;
            let criticalBit := Z.shiftr (Z.land b1 0x80) 7 in
            b0 ← idx b 0;
            match new_payload nextPayload b0 with
            | None =>
                if criticalBit =? 0 then
                  b ← sfrom b payloadLength;
                  Container_Decode_loop fuel b0 b c
                else Err "Unknown payload type"
            | Some p =>
                body ← sub b 4 payloadLength;
                p ← wrap "DecodePayload(): Unmarshal payload failed: "
                      (payload_Unmarshal p body);
                b ← sfrom b payloadLength;
                Container_Decode_loop fuel b0 b (c ++ [p])
            end
    end
  else Ok c.

Definition Container_Decode (c : IKEPayloadContainer) (nextPayload : Z) (b : slice)
    : res IKEPayloadContainer :=
  Container_Decode_loop (length (vis b)) nextPayload b c.

(** ** Messages *)

(** The embedded header is a pointer: [None] is nil. *)
Record IKEMessage := MkMessage {
  m_IKEHeader : option IKEHeader;
  m_Payloads : IKEPayloadContainer
}.
Definition new_IKEMessage : IKEMessage := MkMessage None [].

Definition NewMessage (iSPI rSPI exchgType : Z) (response initiator : bool) (mId : Z)
    (payloads : IKEPayloadContainer) : IKEMessage :=
  MkMessage (Some (NewHeader iSPI rSPI exchgType response initiator mId NoNext (of_bytes [])))
    payloads.

Definition with_next (h : IKEHeader) (next : Z) : IKEHeader :=
  MkHeader (h_InitiatorSPI h) (h_ResponderSPI h) (h_MajorVersion h) (h_MinorVersion h)
    (h_ExchangeType h) (h_Flags h) (h_MessageID h) next (h_PayloadBytes h).

(** The type of the first payload of a chain. *)
Definition first_type (c : IKEPayloadContainer) : Z :=
  match c with p :: _ => payload_Type p | [] => NoNext end.

(** [Encode] sets the next payload and the payload bytes of its header. *)
Definition IKEMessage_Encode (m : IKEMessage) : res (IKEMessage * list Z) :=
  h ← deref (m_IKEHeader m);
  let h := with_next h (first_type (m_Payloads m)) in
  bytes ← wrap "Encode(): EncodePayload failed: " (Container_Encode (m_Payloads m));
  let h := with_payload h (of_bytes bytes) in
  data ← IKEHeader_Marshal h;
  Ok (MkMessage (Some h) (m_Payloads m), data).

Definition IKEMessage_DecodePayload (m : IKEMessage) (b : slice) : res IKEMessage :=
  h ← deref (m_IKEHeader m);
  if negb (h_NextPayload h =? 0) && (slen b =? 0) then
    Err "DecodePayload(): NextPayload is set but payloadbytes are empty"
  else
    c ← wrap "DecodePayload(): DecodePayload failed: "
          (Container_Decode (m_Payloads m) (h_NextPayload h) b);
    Ok (MkMessage (m_IKEHeader m) c).

Definition IKEMessage_Decode (m : IKEMessage) (b : slice) : res IKEMessage :=
  h ← wrap "Decode(): " (ParseHeader b);
  let m := MkMessage (Some h) (m_Payloads m) in
  wrap "Decode(): DecodePayload failed: " (IKEMessage_DecodePayload m (h_PayloadBytes h)).

(** ** Valid chains *)

Definition payload_valid (p : IKEPayload) : bool :=
  match p with
  | PSA p => valid p | PKE p => valid p | PIDi p => valid p | PIDr p => valid p
  | PCERT p => valid p | PCERTreq p => valid p | PAUTH p => valid p | PNonce p => valid p
  | PN p => valid p | PD p => valid p | PV p => valid p | PTSi p => valid p
  | PTSr p => valid p | PSK p => valid p | PCP p => valid p | PEAP p => valid p
  end.

Definition payload_body (p : IKEPayload) : list Z :=
  match payload_Marshal p with Ok l => l | _ => [] end.

Ltac payload_case p H :=
  let l := fresh "l" in let Hm := fresh "Hm" in let Hb := fresh "Hb" in
  let Hu := fresh "Hu" in
  destruct (round_trip p H) as (l & Hm & Hb & Hu); exists l;
  split; [exact Hm|]; split; [exact Hb|]; intros b0 Hb0;
  try (rewrite (Hb0 p eq_refl));
  eexists; split; [reflexivity|]; intros h; cbn [payload_Unmarshal];
  match goal with |- ?f <$> _ = _ => exact (f_equal (fmap f) (Hu h)) end.

(** Every payload type keeps the contract of [Codec], from the zero value the
    decoder makes for its type. *)
Lemma payload_codec p :
  payload_valid p = true →
  ∃ l, payload_Marshal p = Ok l ∧ bytesb l = true ∧
    ∀ b0, (∀ sk, p = PSK sk → b0 = sk_NextPayload sk) →
    ∃ q, new_payload (payload_Type p) b0 = Some q ∧
      ∀ h, payload_Unmarshal q (Slice l h) = Ok p.
Proof.
  destruct p; cbn [payload_valid payload_Type payload_Marshal]; intros H; payload_case p H.
Qed.

(** A chain that survives: payloads of at most [2^16 - 5] bytes, each valid in
    the sense of its codec, and an encrypted payload that is not the last one
    announces the type of its successor. The codecs ask that fields fit their
    widths, that data are not empty where the code refuses empty data, and

    - of a security association, SPIs of at most 247 bytes, 1 to 255 transforms
      a proposal, each in the container of its type, and no attribute that is
      of variable length or has a type of 128 or more;
    - of a notification, an SPI of at most 251 bytes;
    - of a delete payload, SPIs of four bytes, or none;
    - of a configuration, an attribute, of a 15-bit type and at most 65531 bytes;
    - of a traffic selector payload, 1 to 255 selectors with addresses of the
      length of their type;
    - of an EAP packet, EAP-AKA' data as the decoder makes them, without padding. *)
Fixpoint chain_valid (c : IKEPayloadContainer) : bool :=
  match c with
  | [] => true
  | p :: c =>
      payload_valid p && (len (payload_body p) <=? 65531) &&
      match p, c with
      | PSK sk, q :: _ => sk_NextPayload sk =? payload_Type q
      | _, _ => true
      end && chain_valid c
  end.

Definition next_of (p : IKEPayload) (c : IKEPayloadContainer) : Z :=
  match c with q :: _ => payload_Type q | [] => last_next p end.

Fixpoint chain_bytes (c : IKEPayloadContainer) : list Z :=
  match c with
  | [] => []
  | p :: c =>
      [next_of p c; 0] ++ be_enc 2 (4 + len (payload_body p)) ++ payload_body p ++
      chain_bytes c
  end.

Lemma payload_body_ok p :
  payload_valid p = true →
  payload_Marshal p = Ok (payload_body p) ∧ bytesb (payload_body p) = true.
Proof.
  intros H. destruct (payload_codec p H) as (l & Hm & Hb & _). unfold payload_body.
  by rewrite Hm.
Qed.

Lemma Container_Encode_eq c : chain_valid c = true → Container_Encode c = Ok (chain_bytes c).
Proof.
  induction c as [|p c IH]; [done|]. cbn [chain_valid Container_Encode chain_bytes]. intros H.
  apply andb_prop in H as [H Hc]. apply andb_prop in H as [H _].
  apply andb_prop in H as [Hp Hl]. bools.
  change (match c with [] => last_next p | q :: _ => payload_Type q end) with (next_of p c).
  destruct (payload_body_ok p Hp) as [-> _]. set (body := payload_body p) in *.
  change (set_byte 0 (next_of p c) (make_bytes 4)) with (Ok [next_of p c; 0; 0; 0]).
  cbn [mbind res_bind wrap]. len_simpl. pose proof (len_nonneg body). ztests.
  rewrite u16_small by lia. replace (_ + len body) with (4 + len body) by lia.
  change (PutUint16 2 (4 + len body) ([next_of p c; 0; 0; 0] ++ body)) with
    (Ok ([next_of p c; 0] ++ be_enc 2 (4 + len body) ++ body)).
  cbn [mbind res_bind]. rewrite IH by done. cbn [mbind res_bind]. by rewrite <- !app_assoc.
Qed.

Lemma type_byte p : u8b (payload_Type p) = true.
Proof. by destruct p. Qed.

Lemma bytesb_chain c : chain_valid c = true → bytesb (chain_bytes c) = true.
Proof.
  induction c as [|p c IH]; [done|]. cbn [chain_valid chain_bytes]. intros H.
  apply andb_prop in H as [H Hc]. apply andb_prop in H as [H _].
  apply andb_prop in H as [Hp Hl]. destruct (payload_body_ok p Hp) as [_ Hb].
  bsplit; [|apply bytesb_be_enc|by apply IH].
  unfold next_of. destruct c as [|q c]; [|apply type_byte].
  destruct p; try done. cbn in *. unfold Encrypted_valid in Hp. by bools.
Qed.

(** One turn of the decoding loop on a known payload. *)
Lemma decode_turn fuel ty next p body rest h acc q :
  u8b next = true → len body ≤ 65531 → new_payload ty next = Some q →
  (∀ h, payload_Unmarshal q (Slice body h) = Ok p) →
  Container_Decode_loop (S fuel) ty
    (Slice ([next; 0] ++ be_enc 2 (4 + len body) ++ body ++ rest) h) acc =
  Container_Decode_loop fuel next (Slice rest h) (acc ++ [p]).
Proof.
  intros Hn Hl Hq Hu. pose proof (len_nonneg body). pose proof (len_nonneg rest).
  cbn [Container_Decode_loop]. unfold slen. cbn [vis]. len_simpl. ztests.
  rd_sub [next; 0] (be_enc 2 (4 + len body)) (body ++ rest). rd_step.
  rewrite Uint16_enc by (unfold u16b; by ztests). rd_step. ztests.
  rd_idx [next]. rd_step. rd_idx []. rd_step. rewrite Hq.
  rd_sub ([next; 0] ++ be_enc 2 (4 + len body)) body rest. rd_step.
  rewrite Hu. cbn [wrap mbind res_bind].
  goal_call ltac:(fun x => lazymatch x with sfrom ?s ?k =>
    rewrite (sfrom_at ([next; 0] ++ be_enc 2 (4 + len body) ++ body) rest s k) end).
  - done.
  - cbn [vis]. by rewrite <- !app_assoc.
  - rd_len.
Qed.

Lemma Container_Decode_chain c fuel h acc :
  chain_valid c = true → (length (chain_bytes c) ≤ fuel)%nat →
  Container_Decode_loop fuel (first_type c) (Slice (chain_bytes c) h) acc = Ok (acc ++ c).
Proof.
  revert fuel acc. induction c as [|p c IH]; intros fuel acc H Hf.
  - rewrite app_nil_r. by destruct fuel.
  - cbn [chain_valid] in H. apply andb_prop in H as [H Hc]. apply andb_prop in H as [H Hsk].
    apply andb_prop in H as [Hp Hl]. bools.
    pose proof (bytesb_chain (p :: c)) as Hb. cbn [chain_valid chain_bytes] in Hb, Hf.
    destruct (payload_codec p Hp) as (l & Hm & _ & Hu).
    assert (El : payload_body p = l) by (unfold payload_body; by rewrite Hm).
    cbn [chain_bytes first_type]. rewrite El in *. rewrite !length_app in Hf. cbn [length] in Hf.
    destruct fuel as [|fuel]; [lia|].
    assert (Hn : ∀ sk, p = PSK sk → next_of p c = sk_NextPayload sk).
    { intros sk ->. unfold next_of. destruct c; [done|]. by bools. }
    destruct (Hu (next_of p c) Hn) as (q & Hq & Hdec).
    rewrite (decode_turn _ _ _ p) with (q := q); [|..|done|done|done].
    + unfold next_of at 1. destruct c as [|q' c].
      * cbn [chain_bytes]. by destruct fuel.
      * specialize (IH fuel (acc ++ [p]) Hc ltac:(lia)). by rewrite <- app_assoc in IH.
    + unfold next_of. destruct c as [|q' c]; [|apply type_byte].
      destruct p; try done. cbn in *. unfold Encrypted_valid in Hp. by bools.
Qed.

(** ** Messages survive *)

Definition message_valid (m : IKEMessage) : bool :=
  match m_IKEHeader m with
  | Some h => header_in_range h && chain_valid (m_Payloads m) &&
              (len (chain_bytes (m_Payloads m)) <=? 4294967267)
  | None => false
  end.

(** The message after [Encode]: its header describes the chain. *)
Definition encoded (h : IKEHeader) (c : IKEPayloadContainer) : IKEMessage :=
  MkMessage (Some (with_payload (with_next h (first_type c)) (of_bytes (chain_bytes c)))) c.

Definition message_bytes (h : IKEHeader) (c : IKEPayloadContainer) : list Z :=
  header_bytes (with_next h (first_type c)) (28 + len (chain_bytes c)) ++ chain_bytes c.

Lemma first_type_byte c : u8b (first_type c) = true.
Proof. destruct c; [done|apply type_byte]. Qed.

Lemma IKEMessage_Encode_eq h c :
  chain_valid c = true → len (chain_bytes c) ≤ 4294967267 →
  IKEMessage_Encode (MkMessage (Some h) c) = Ok (encoded h c, message_bytes h c).
Proof.
  intros Hc Hl. unfold IKEMessage_Encode. cbn [m_IKEHeader m_Payloads deref mbind res_bind].
  rewrite Container_Encode_eq by done. cbn [wrap mbind res_bind].
  rewrite IKEHeader_Marshal_eq.
  - cbn [mbind res_bind]. unfold message_bytes, slen, IKE_HEADER_LEN.
    cbn [with_payload h_PayloadBytes of_bytes vis]. done.
  - unfold slen, IKE_HEADER_LEN. cbn [with_payload h_PayloadBytes of_bytes vis]. lia.
Qed.

Lemma IKEMessage_Decode_eq h c hd acc h0 :
  header_in_range h = true → chain_valid c = true → len (chain_bytes c) ≤ 4294967267 →
  IKEMessage_Decode (MkMessage h0 acc) (Slice (message_bytes h c) hd) =
    Ok (MkMessage (Some (with_payload (with_next h (first_type c)) (Slice (chain_bytes c) hd)))
          (acc ++ c)).
Proof.
  intros Hh Hc Hl. unfold IKEMessage_Decode, message_bytes.
  pose proof (len_nonneg (chain_bytes c)).
  rewrite ParseHeader_bytes.
  2: { unfold header_in_range in *. bools. cbn. rewrite first_type_byte. by bsplit; ztests. }
  2: lia.
  cbn [wrap mbind res_bind]. unfold IKEMessage_DecodePayload.
  cbn [m_IKEHeader m_Payloads deref mbind res_bind h_PayloadBytes h_NextPayload with_payload with_next].
  replace (negb (first_type c =? 0) && _) with false.
  2: { symmetry. destruct c as [|p c]; [done|]. apply andb_false_intro2.
       unfold slen. cbn [vis chain_bytes]. len_simpl. apply Z.eqb_neq.
       pose proof (len_nonneg (payload_body p)). pose proof (len_nonneg (chain_bytes c)). lia. }
  unfold Container_Decode. cbn [vis]. rewrite Container_Decode_chain by done. done.
Qed.

(** ** Termination and panics of the decoder *)

Lemma fmap_terminates {A B} (f : A → B) (r : res A) : terminates r → terminates (f <$> r).
Proof. unfold terminates. by destruct r. Qed.

Lemma Notification_terminates p b : terminates (Notification_Unmarshal p b).
Proof. unfold Notification_Unmarshal. terms. Qed.

Lemma Delete_terminates p b : terminates (Delete_Unmarshal p b).
Proof.
  rewrite Delete_Unmarshal_outcome. unfold terminates.
  by repeat match goal with |- context [if ?c then _ else _] => destruct c end.
Qed.

Lemma Configuration_get_attrs_terminates fuel b acc :
  (length (vis b) ≤ fuel)%nat → terminates (Configuration_get_attrs fuel b acc).
Proof.
  revert b acc. induction fuel as [|fuel IH]; intros b acc Hf; cbn [Configuration_get_attrs].
  - destruct (0 <? slen b) eqn:E; [|done]. bools. unfold slen, len in E. lia.
  - terms. apply IH.
    repeat match goal with H : sfrom _ _ = Ok _ |- _ => apply sfrom_shrinks in H end. lia.
Qed.

Lemma Configuration_terminates p b : terminates (Configuration_Unmarshal p b).
Proof. unfold Configuration_Unmarshal. terms. by apply Configuration_get_attrs_terminates. Qed.

Lemma payload_terminates p b : terminates (payload_Unmarshal p b).
Proof.
  destruct p; cbn [payload_Unmarshal]; apply fmap_terminates;
    auto using Notification_terminates, Delete_terminates, Configuration_terminates,
      SecurityAssociation_terminates;
    apply returns_terminates;
    auto using KeyExchange_total, IdentificationInitiator_total, IdentificationResponder_total,
      Certificate_total, CertificateRequest_total, Authentication_total, Nonce_total,
      VendorID_total, Encrypted_total, TrafficSelectorInitiator_total,
      TrafficSelectorResponder_total, EAP_total.
Qed.

(** Every turn takes at least four bytes off. *)
Lemma Container_Decode_loop_terminates fuel n b c :
  (length (vis b) ≤ fuel)%nat → terminates (Container_Decode_loop fuel n b c).
Proof.
  revert n b c. induction fuel as [|fuel IH]; intros n b c Hf; cbn [Container_Decode_loop].
  - destruct (slen b >? 0) eqn:E; [|done]. rewrite Z.gtb_ltb in E. bools.
    unfold slen, len in E. lia.
  - terms.
    match goal with |- terminates (match ?o with _ => _ end) => destruct o end; terms;
      try apply payload_terminates;
      match goal with H : sfrom _ _ = Ok _ |- _ => apply sfrom_shrinks in H end; apply IH; lia.
Qed.

(** The payloads whose decoder can panic. *)
Definition panicky (ty : Z) : bool :=
  (ty =? TypeSA) || (ty =? TypeN) || (ty =? TypeD) || (ty =? TypeCP).

Lemma payload_calm p b : panicky (payload_Type p) = false → returns (payload_Unmarshal p b).
Proof.
  destruct p; cbn [payload_Unmarshal payload_Type]; intros H; try discriminate H;
    apply fmap_returns;
    auto using KeyExchange_total, IdentificationInitiator_total, IdentificationResponder_total,
      Certificate_total, CertificateRequest_total, Authentication_total, Nonce_total,
      VendorID_total, Encrypted_total, TrafficSelectorInitiator_total,
      TrafficSelectorResponder_total, EAP_total.
Qed.

(** A generic payload header at the front of [b]: a type for the next payload,
    the byte of the critical bit, and a length that covers the header and
    stays in [b]. It cuts [b] into the body of a payload and the rest. *)
Record front (b : slice) (next crit : Z) (body rest : slice) : Prop := {
  front_next : vis b !! 0%nat = Some next;
  front_crit : vis b !! 1%nat = Some crit;
  front_size : 4 ≤ be_dec (take 2 (drop 2 (vis b))) ≤ slen b;
  front_body : sub b 4 (be_dec (take 2 (drop 2 (vis b)))) = Ok body;
  front_rest : sfrom b (be_dec (take 2 (drop 2 (vis b)))) = Ok rest
}.

(** [arrives ty b ty' b']: a chain [b] whose first payload has type [ty] holds,
    behind unknown payloads that are not critical and known ones that are
    decoded without an error, the chain [b'] of a payload of type [ty']. *)
Inductive arrives : Z → slice → Z → slice → Prop :=
| arrives_here ty b : arrives ty b ty b
| arrives_unknown ty b next crit body rest ty' b' :
    front b next crit body rest → new_payload ty next = None →
    Z.shiftr (Z.land crit 0x80) 7 = 0 →
    arrives next rest ty' b' → arrives ty b ty' b'
| arrives_decoded ty b next crit body rest p q ty' b' :
    front b next crit body rest → new_payload ty next = Some p →
    payload_Unmarshal p body = Ok q →
    arrives next rest ty' b' → arrives ty b ty' b'.

(** The payload at the front of [b] makes its decoder panic. *)
Definition bad_payload (ty : Z) (b : slice) : Prop :=
  ∃ next crit body rest p, front b next crit body rest ∧ new_payload ty next = Some p ∧
    payload_Unmarshal p body = Panic.

(** A turn of the loop: the header is refused, or it is at the front and the
    switch on the type decides. *)
Lemma loop_turn fuel ty b c :
  returns (Container_Decode_loop (S fuel) ty b c) ∧ (∀ n k d r, ¬ front b n k d r) ∨
  ∃ next crit body rest, front b next crit body rest ∧
    Container_Decode_loop (S fuel) ty b c =
      match new_payload ty next with
      | None => if Z.shiftr (Z.land crit 0x80) 7 =? 0
                then Container_Decode_loop fuel next rest c else Err "Unknown payload type"
      | Some p => q ← wrap "DecodePayload(): Unmarshal payload failed: " (payload_Unmarshal p body);
                  Container_Decode_loop fuel next rest (c ++ [q])
      end.
Proof.
  cbn [Container_Decode_loop]. rewrite Z.gtb_ltb. destruct (Z.ltb_spec 0 (slen b)) as [H0|H0].
  2: { left. split; [done|]. intros n k d r []. lia. }
  destruct (Z.ltb_spec (slen b) 4) as [?|H4].
  { left. split; [done|]. intros n k d r []. lia. }
  destruct (sub_vis b 2 4) as [h ->]; [lia..|]. cbn [mbind res_bind].
  unfold Uint16. rewrite be_get_is.
  2: { unfold slen, len in *; cbn [vis]; rewrite length_take, length_drop; lia. }
  cbn [mbind res_bind vis]. change (Z.to_nat (4 - 2)) with 2%nat.
  change (Z.to_nat 2) with 2%nat. rewrite take_take, Nat.min_id.
  set (L := be_dec (take 2 (drop 2 (vis b)))) in *.
  destruct (Z.ltb_spec L 4) as [?|HL]; [left; split; [done|]; intros n k d r []; lia|].
  destruct (Z.ltb_spec (slen b) L) as [?|Hb]; [left; split; [done|]; intros n k d r []; lia|].
  destruct (idx_is b 1) as (b1 & -> & E1); [lia|]. cbn [mbind res_bind].
  destruct (idx_is b 0) as (b0 & -> & E0); [lia|]. cbn [mbind res_bind].
  destruct (sub_vis b 4 L) as [h' Es]; [lia..|]. pose proof (sfrom_ok b L ltac:(lia)) as Er.
  right. eexists b0, b1, _, _. split; [by constructor|]. rewrite Es, Er.
  destruct (new_payload ty b0); [|done]. cbn [mbind res_bind].
  by destruct (payload_Unmarshal _ _).
Qed.

Lemma new_payload_type ty b0 p : new_payload ty b0 = Some p → payload_Type p = ty.
Proof.
  unfold new_payload. intros H.
  repeat match type of H with
  | (if ?a =? ?b then _ else _) = _ => destruct (Z.eqb_spec a b) as [->|_]; [by injection H as <-|]
  end.
  done.
Qed.

Lemma front_unique b n k d r n' k' d' r' :
  front b n k d r → front b n' k' d' r' → n = n' ∧ k = k' ∧ d = d' ∧ r = r'.
Proof. intros [] []. split_and!; congruence. Qed.

Lemma front_shrinks b n k d r :
  front b n k d r → (length (vis r) < length (vis b))%nat.
Proof. intros [_ _ ? _ E]. apply sfrom_shrinks in E. lia. Qed.

Lemma Container_Decode_loop_panic fuel ty b c :
  Container_Decode_loop fuel ty b c = Panic → ∃ ty' b', arrives ty b ty' b' ∧ bad_payload ty' b'.
Proof.
  revert ty b c. induction fuel as [|fuel IH]; intros ty b c.
  { cbn. by destruct (_ >? _). }
  destruct (loop_turn fuel ty b c) as [[R _]|(next & crit & body & rest & F & ->)].
  { intros E. by rewrite E in R. }
  destruct (new_payload ty next) as [p|] eqn:Ep.
  - destruct (payload_Unmarshal p body) as [q|e| |] eqn:Eu; cbn [wrap mbind res_bind]; try done.
    + intros (ty' & b' & A & B)%IH. exists ty', b'. eauto using arrives.
    + intros _. exists ty, b. split; [constructor|]. by exists next, crit, body, rest, p.
  - destruct (Z.eqb_spec (Z.shiftr (Z.land crit 0x80) 7) 0); [|done].
    intros (ty' & b' & A & B)%IH. exists ty', b'. eauto using arrives.
Qed.

Lemma Container_Decode_loop_panics fuel ty b c ty' b' :
  (length (vis b) ≤ fuel)%nat → arrives ty b ty' b' → bad_payload ty' b' →
  Container_Decode_loop fuel ty b c = Panic.
Proof.
  intros Hf A B. revert fuel c Hf.
  induction A as [ty b|ty b n k d r ty' b' F E K A IH|ty b n k d r p q ty' b' F E U A IH];
    intros fuel c Hf.
  1: destruct B as (n & k & d & r & p & F & E & U).
  all: apply front_shrinks in F as Hs; destruct fuel as [|fuel]; [lia|].
  all: destruct (loop_turn fuel ty b c) as [[_ N]|(n' & k' & d' & r' & F' & ->)];
    [by apply N in F|].
  all: destruct (front_unique _ _ _ _ _ _ _ _ _ F F') as (<- & <- & <- & <-); rewrite E.
  - by rewrite U.
  - rewrite K. cbn [Z.eqb]. apply IH; [done|lia].
  - rewrite U. cbn [wrap mbind res_bind]. apply IH; [done|lia].
Qed.

(** ** Unknown payloads *)

Definition known_type (ty : Z) : bool := (33 <=? ty) && (ty <=? 48).

Lemma new_payload_unknown ty b0 : known_type ty = false → new_payload ty b0 = None.
Proof.
  unfold known_type, new_payload. intros H.
  repeat match goal with
  | |- (if ?a =? ?b then _ else _) = _ => destruct (Z.eqb_spec a b) as [->|_]; [discriminate H|]
  end.
  done.
Qed.

Lemma unknown_turn fuel ty next crit body rest h acc :
  u8b next = true → u8b crit = true → len body ≤ 65531 → known_type ty = false →
  Container_Decode_loop (S fuel) ty
    (Slice ([next; crit] ++ be_enc 2 (4 + len body) ++ body ++ rest) h) acc =
  if crit <? 128 then Container_Decode_loop fuel next (Slice rest h) acc
  else Err "Unknown payload type".
Proof.
  intros Hn Hc Hl Hk. pose proof (len_nonneg body). pose proof (len_nonneg rest).
  cbn [Container_Decode_loop]. unfold slen. cbn [vis]. len_simpl. ztests.
  rd_sub [next; crit] (be_enc 2 (4 + len body)) (body ++ rest). rd_step.
  rewrite Uint16_enc by (unfold u16b; by ztests). rd_step. ztests.
  rd_idx [next]. rd_step. rd_idx []. rd_step. rewrite new_payload_unknown by done.
  rewrite top_bit by done. unfold u8b in Hc. bools.
  destruct (Z.ltb_spec crit 128) as [Hlt|Hge].
  - rewrite Z.div_small by lia. cbn [Z.eqb].
    goal_call ltac:(fun x => lazymatch x with sfrom ?s ?k =>
      rewrite (sfrom_at ([next; crit] ++ be_enc 2 (4 + len body) ++ body) rest s k) end).
    + done.
    + cbn [vis]. by rewrite <- !app_assoc.
    + rd_len.
  - replace (crit / 128) with 1 by (Z.div_mod_to_equations; lia). done.
Qed.

(** ** Properties *)

Definition demo_IKEMessage : IKEMessage :=
  MkMessage (Some (MkHeader 1 2 2 0 34 8 0 0 (of_bytes [])))
    [PKE (MkKE 14 [9; 9]); PNonce (MkNonce [1; 2; 3]); PN (MkN 0 16388 [] [5])].

(** C6: a message survives the wire. Encoding a header in range and a valid
    chain of payloads gives bytes, 28 more than the chain's, and decoding them
    gives the same payloads in the same order and the same header, up to its
    next payload field and its payload bytes, which the chain determines. *)
Theorem IKEMessage_round_trip h c hd :
  message_valid (MkMessage (Some h) c) = true →
  ∃ m bs, IKEMessage_Encode (MkMessage (Some h) c) = Ok (m, bs) ∧
    len bs = 28 + len (chain_bytes c) ∧ m_Payloads m = c ∧
    IKEMessage_Decode new_IKEMessage (Slice bs hd) =
      Ok (MkMessage (Some (with_payload (with_next h (first_type c)) (Slice (chain_bytes c) hd))) c).
Proof.
  unfold message_valid. cbn [m_IKEHeader m_Payloads]. intros H. apply andb_prop in H as [H Hl].
  apply andb_prop in H as [Hh Hc]. apply Z.leb_le in Hl. eexists _, _.
  rewrite IKEMessage_Encode_eq by done. split; [reflexivity|]. split; [|split; [done|]].
  - unfold message_bytes. by rewrite len_app, len_header_bytes.
  - unfold new_IKEMessage. by rewrite IKEMessage_Decode_eq.
Qed.

Lemma IKEMessage_round_trip_witness :
  ∃ m bs, IKEMessage_Encode demo_IKEMessage = Ok (m, bs) ∧
    len bs = 28 + 26 ∧ m_Payloads m = m_Payloads demo_IKEMessage ∧
    ∃ h, IKEMessage_Decode new_IKEMessage (Slice bs [1]) =
      Ok (MkMessage h (m_Payloads demo_IKEMessage)).
Proof.
  destruct (IKEMessage_round_trip (MkHeader 1 2 2 0 34 8 0 0 (of_bytes []))
    (m_Payloads demo_IKEMessage) [1]) as (m & bs & E & L & P & D); [reflexivity|].
  exists m, bs. split; [exact E|]. split; [exact L|]. split; [exact P|]. eexists. exact D.
Defined.

(** Two valid messages with the same bytes are the same: the encoding
    determines the payloads, and every field of the header but the next
    payload and the payload bytes. *)
Theorem IKEMessage_Encode_inj h1 c1 h2 c2 m1 m2 bs :
  message_valid (MkMessage (Some h1) c1) = true → message_valid (MkMessage (Some h2) c2) = true →
  IKEMessage_Encode (MkMessage (Some h1) c1) = Ok (m1, bs) →
  IKEMessage_Encode (MkMessage (Some h2) c2) = Ok (m2, bs) →
  c1 = c2 ∧ with_payload (with_next h1 0) (of_bytes []) = with_payload (with_next h2 0) (of_bytes []).
Proof.
  unfold message_valid. cbn [m_IKEHeader m_Payloads]. intros H1 H2.
  apply andb_prop in H1 as [H1 L1]. apply andb_prop in H1 as [R1 V1]. apply Z.leb_le in L1.
  apply andb_prop in H2 as [H2 L2]. apply andb_prop in H2 as [R2 V2]. apply Z.leb_le in L2.
  rewrite !IKEMessage_Encode_eq by done. intros [= _ E1] [= _ E2].
  pose proof (IKEMessage_Decode_eq h1 c1 [] [] None R1 V1 L1) as D1.
  rewrite E1, <- E2, IKEMessage_Decode_eq in D1 by done. injection D1 as D1 Dc. split; [done|].
  destruct h1, h2. unfold with_payload, with_next in *. cbn in *. congruence.
Qed.

Lemma IKEMessage_DecodePayload_outcome h c b :
  terminates (IKEMessage_DecodePayload (MkMessage (Some h) c) b) ∧
  (IKEMessage_DecodePayload (MkMessage (Some h) c) b = Panic ↔
   ∃ ty b', arrives (h_NextPayload h) b ty b' ∧ bad_payload ty b').
Proof.
  unfold IKEMessage_DecodePayload, Container_Decode, terminates.
  cbn [m_IKEHeader m_Payloads deref mbind res_bind].
  pose proof (Container_Decode_loop_terminates (length (vis b)) (h_NextPayload h) b c (le_n _)) as T.
  pose proof (Container_Decode_loop_panic (length (vis b)) (h_NextPayload h) b c) as P.
  pose proof (Container_Decode_loop_panics (length (vis b)) (h_NextPayload h) b c) as Q.
  destruct (_ && _) eqn:E.
  - split; [done|]. split; [done|]. intros (ty & b' & A & B). exfalso. bools.
    specialize (Q ty b' (le_n _) A B). revert Q. unfold slen in *.
    rewrite (len_zero_nil (vis b)) by done. cbn. unfold slen.
    rewrite (len_zero_nil (vis b)) by done. done.
  - unfold terminates in T. destruct (Container_Decode_loop _ _ _ _); cbn [wrap mbind res_bind];
      (split; [done|]); split; try done; try (by intros _; apply P);
      intros (ty & b' & A & B); by specialize (Q ty b' (le_n _) A B).
Qed.

Lemma bad_payload_panicky ty b : bad_payload ty b → panicky ty = true.
Proof.
  intros (n & k & d & r & p & _ & E & U). destruct (panicky ty) eqn:Ec; [done|].
  pose proof (payload_calm p d) as R. rewrite (new_payload_type _ _ _ E), U in R.
  by specialize (R Ec).
Qed.

(** C8: decoding a message ends on every input, well-formed or not: the loop
    over the payloads needs at most one turn per byte. And it panics exactly
    when the message has a header and the decoder gets, through payloads it
    decodes or skips, to a payload of known type with a well-formed generic
    header on whose body the decoder of that type panics; that type is then a
    security association, a notification, a delete payload or a
    configuration. The loop itself never panics. *)
Theorem IKEMessage_Decode_terminates m b :
  terminates (IKEMessage_Decode m b) ∧
  (IKEMessage_Decode m b = Panic ↔
   ∃ h ty b', ParseHeader b = Ok h ∧
     arrives (h_NextPayload h) (h_PayloadBytes h) ty b' ∧ bad_payload ty b' ∧
     panicky ty = true).
Proof.
  unfold IKEMessage_Decode. pose proof (ParseHeader_total b) as R.
  destruct (ParseHeader b) as [h| | |]; cbn [wrap mbind res_bind] in *; try done.
  2: { split; [done|]. split; [done|]. by intros (? & ? & ? & [=] & _). }
  destruct (IKEMessage_DecodePayload_outcome h (m_Payloads m) (h_PayloadBytes h)) as [T P].
  split; [unfold terminates in *; by destruct (IKEMessage_DecodePayload _ _)|].
  transitivity (IKEMessage_DecodePayload (MkMessage (Some h) (m_Payloads m)) (h_PayloadBytes h) = Panic).
  { by destruct (IKEMessage_DecodePayload _ _). }
  rewrite P. split.
  - intros (ty & b' & A & B). exists h, ty, b'. eauto using bad_payload_panicky.
  - intros (h' & ty & b' & [= <-] & A & B & _). eauto.
Qed.

(** A message whose second payload, behind a nonce, is a notification with an
    SPI size of 255: the decoder gets to it, and panics there. *)
Example notification_reached :
  arrives TypeNiNr (of_bytes [41; 0; 0; 5; 7; 0; 0; 0; 8; 0; 255; 64; 4]) TypeN
    (Slice [0; 0; 0; 8; 0; 255; 64; 4] []) ∧
  bad_payload TypeN (Slice [0; 0; 0; 8; 0; 255; 64; 4] []).
Proof.
  split.
  - eapply arrives_decoded; [split; try reflexivity; vm_compute; split; discriminate| | |];
      try reflexivity. constructor.
  - do 5 eexists. split; [split; try reflexivity; vm_compute; split; discriminate|].
    split; reflexivity.
Qed.

(** C25: an unknown payload is judged by its critical bit. Without it, the
    payload is skipped, whatever it holds, and the payloads after it are
    decoded; with it, the message is refused. *)
Theorem Container_Decode_unknown ty crit body c acc hd :
  known_type ty = false → u8b crit = true → len body ≤ 65531 → chain_valid c = true →
  Container_Decode acc ty
    (Slice ([first_type c; crit] ++ be_enc 2 (4 + len body) ++ body ++ chain_bytes c) hd) =
  if crit <? 128 then Ok (acc ++ c) else Err "Unknown payload type".
Proof.
  intros Ht Hcr Hl Hc. unfold Container_Decode. cbn [vis]. rewrite !length_app.
  cbn [length Nat.add]. rewrite unknown_turn by (done || apply first_type_byte).
  rewrite Container_Decode_chain; [done|done|rewrite length_be_enc; lia].
Qed.

Lemma Container_Decode_unknown_witness :
  Container_Decode [] 200 (Slice ([40; 1] ++ be_enc 2 6 ++ [7; 7] ++
    chain_bytes [PNonce (MkNonce [1; 2; 3])]) []) = Ok [PNonce (MkNonce [1; 2; 3])] ∧
  Container_Decode [] 200 (Slice ([40; 129] ++ be_enc 2 6 ++ [7; 7] ++
    chain_bytes [PNonce (MkNonce [1; 2; 3])]) []) = Err "Unknown payload type".
Proof.
  split.
  - apply (Container_Decode_unknown 200 1 [7; 7] [PNonce (MkNonce [1; 2; 3])] []);
      [reflexivity..|vm_compute; discriminate|reflexivity].
  - apply (Container_Decode_unknown 200 129 [7; 7] [PNonce (MkNonce [1; 2; 3])] []);
      [reflexivity..|vm_compute; discriminate|reflexivity].
Defined.

(** C11: which payload decoders are safe. On every input, the decoders of key
    exchanges, identifications, certificates, certificate requests,
    authentications, nonces, vendor identifiers, traffic selectors, encrypted
    payloads and EAP packets return; each of the other four panics on some
    bytes. *)
Theorem payload_Unmarshal_panics ty :
  panicky ty = true ↔
  ∃ p b, payload_Type p = ty ∧ bytesb (vis b) = true ∧ payload_Unmarshal p b = Panic.
Proof.
  split.
  - unfold panicky. intros H. repeat (apply orb_true_iff in H as [H|H]); apply Z.eqb_eq in H as ->.
    + exists (PSA new_SecurityAssociation), (of_bytes [0; 0; 0; 8; 1; 1; 255; 1]). by vm_compute.
    + exists (PN new_Notification), (of_bytes [0; 255; 64; 4]). by vm_compute.
    + exists (PD new_Delete), (of_bytes [3; 0; 0; 0; 1]). by vm_compute.
    + exists (PCP new_Configuration), (of_bytes [1; 0; 0; 0; 0; 1; 255; 255]). by vm_compute.
  - intros (p & b & <- & _ & Ep). destruct (panicky (payload_Type p)) eqn:Ec; [done|].
    pose proof (payload_calm p b Ec) as R. by rewrite Ep in R.
Qed.
