(* ===== verification/Typed.v ===== *)
(** * Decoded messages are typed

    Integers of the code are [Z] in the model, and bytes are [Z] too. This file
    states for every payload that its fields are values of their Go types, and
    shows that whatever the decoders return for bytes is typed: a transform is
    in the list of its transform type, a traffic selector has the addresses of
    its type, and an EAP-AKA' attribute lies under its own key. *)

From S2P Require Import Prelude GoSlice Types Codec Payloads SecurityAssociation.
From S2P Require Import TrafficSelector EapAka Eap Header Message.

(** ** Reading bytes *)

(** Both the visible and the hidden part hold bytes. *)
Definition slice_ok (b : slice) : Prop := bytesb (vis b) = true ∧ bytesb (hid b) = true.

Lemma sub_typed b lo hi t : slice_ok b → sub b lo hi = Ok t → slice_ok t.
Proof.
  intros [Hv Hh]. unfold sub. destruct (_ && _); [|done]. intros [= <-].
  assert (bytesb (vis b ++ hid b) = true) as H by (rewrite bytesb_app; by rewrite Hv, Hh).
  split; cbn [vis hid]; auto using bytesb_take, bytesb_drop.
Qed.
Lemma sfrom_typed b lo t : slice_ok b → sfrom b lo = Ok t → slice_ok t.
Proof. apply sub_typed. Qed.
Lemma sto_typed b hi t : slice_ok b → sto b hi = Ok t → slice_ok t.
Proof. apply sub_typed. Qed.
Lemma idx_typed b i x : slice_ok b → idx b i = Ok x → u8b x = true.
Proof. intros [Hb _]. by apply idx_range. Qed.
Lemma Uint16_typed b x : slice_ok b → Uint16 b = Ok x → u16b x = true.
Proof. intros [Hb _] H. apply be_get_range in H; [|done]. unfold u16b. cbn in H. by ztests. Qed.
Lemma Uint32_typed b x : slice_ok b → Uint32 b = Ok x → u32b x = true.
Proof. intros [Hb _] H. apply be_get_range in H; [|done]. unfold u32b. cbn in H. by ztests. Qed.
Lemma slice_vis b : slice_ok b → bytesb (vis b) = true.
Proof. by intros []. Qed.

(** Take a decoder that returned apart, and say of every value it read that it is
    typed. *)
Ltac dec_step :=
  match goal with
  | H : (if ?c then _ else _) = Ok _ |- _ => destruct c; try discriminate H
  | H : Ok _ = Ok _ |- _ => injection H as H; try subst
  | H : Err _ = Ok _ |- _ => discriminate H
  | H : Panic = Ok _ |- _ => discriminate H
  | H : wrap _ _ = Ok _ |- _ => apply wrap_Ok_inv in H
  | H : (_ ≫= _) = Ok _ |- _ =>
      let a := fresh "a" in let E := fresh "E" in apply bind_Ok_inv in H as (a & E & H)
  | H : sub ?b _ _ = Ok _, Hb : slice_ok ?b |- _ => apply (sub_typed _ _ _ _ Hb) in H
  | H : sfrom ?b _ = Ok _, Hb : slice_ok ?b |- _ => apply (sfrom_typed _ _ _ Hb) in H
  | H : sto ?b _ = Ok _, Hb : slice_ok ?b |- _ => apply (sto_typed _ _ _ Hb) in H
  | H : idx ?b _ = Ok _, Hb : slice_ok ?b |- _ => apply (idx_typed _ _ _ Hb) in H
  | H : Uint16 ?b = Ok _, Hb : slice_ok ?b |- _ => apply (Uint16_typed _ _ Hb) in H
  | H : Uint32 ?b = Ok _, Hb : slice_ok ?b |- _ => apply (Uint32_typed _ _ Hb) in H
  end.
Ltac dec_inv := repeat (cbv beta zeta in *; dec_step).
Ltac typed := bsplit; auto using slice_vis.

(** ** The payloads *)

Definition KeyExchange_typed (p : KeyExchange) : bool :=
  u16b (ke_DiffieHellmanGroup p) && bytesb (ke_KeyExchangeData p).
Definition id_typed (ty : Z) (data : list Z) : bool := u8b ty && bytesb data.
Definition Notification_typed (p : Notification) : bool :=
  u8b (n_ProtocolID p) && u16b (n_NotifyMessageType p) && bytesb (n_SPI p) &&
  bytesb (n_NotificationData p).
Definition Delete_typed (p : Delete) : bool :=
  u8b (d_ProtocolID p) && u8b (d_SPISize p) && u16b (d_NumberOfSPI p) && forallb u32b (d_SPIs p).
Definition attribute_typed (a : IndividualConfigurationAttribute) : bool :=
  u16b (ca_Type a) && bytesb (ca_Value a).
Definition Configuration_typed (p : Configuration) : bool :=
  u8b (cp_ConfigurationType p) && forallb attribute_typed (cp_ConfigurationAttribute p).

Lemma KeyExchange_decoded b p :
  slice_ok b → KeyExchange_Unmarshal new_KeyExchange b = Ok p → KeyExchange_typed p = true.
Proof. unfold KeyExchange_Unmarshal. intros Hb H. dec_inv; [unfold KeyExchange_typed; cbn; typed|done]. Qed.

Lemma Notification_decoded b p :
  slice_ok b → Notification_Unmarshal new_Notification b = Ok p → Notification_typed p = true.
Proof. unfold Notification_Unmarshal. intros Hb H. dec_inv; [unfold Notification_typed; cbn; typed|done]. Qed.

Lemma Delete_get_spis_typed fuel b i spis l :
  slice_ok b → forallb u32b spis = true → Delete_get_spis fuel b i spis = Ok l →
  forallb u32b l = true.
Proof.
  intros Hb. revert i spis. induction fuel as [|fuel IH]; intros i spis Hs H; cbn [Delete_get_spis] in H;
    dec_inv; try done. apply IH in H; [done|]. rewrite forallb_app, Hs. cbn. by rewrite E.
Qed.
Lemma Delete_decoded b p : slice_ok b → Delete_Unmarshal new_Delete b = Ok p → Delete_typed p = true.
Proof.
  unfold Delete_Unmarshal. intros Hb H. dec_inv; [|done]. unfold Delete_typed. cbn. typed.
  by eapply Delete_get_spis_typed; [|..|eassumption].
Qed.

Lemma Configuration_get_attrs_typed fuel b acc l :
  slice_ok b → forallb attribute_typed acc = true → Configuration_get_attrs fuel b acc = Ok l →
  forallb attribute_typed l = true.
Proof.
  revert b acc. induction fuel as [|fuel IH]; intros b acc Hb Ha H; cbn [Configuration_get_attrs] in H;
    dec_inv; try done. apply IH in H; [done|done|]. rewrite forallb_app, Ha.
  cbn. unfold attribute_typed. cbn. typed.
Qed.
Lemma Configuration_decoded b p :
  slice_ok b → Configuration_Unmarshal new_Configuration b = Ok p → Configuration_typed p = true.
Proof.
  unfold Configuration_Unmarshal. intros Hb H. dec_inv; [|done]. unfold Configuration_typed. cbn. typed.
  by eapply Configuration_get_attrs_typed; [|..|eassumption].
Qed.

(** ** Security associations *)

Lemma format_typed x : u8b x = true →
  Z.shiftr (Z.land x 0x80) 7 = 0 ∨ Z.shiftr (Z.land x 0x80) 7 = 1.
Proof.
  intros H. rewrite top_bit by done. unfold u8b in H. bools. Z.div_mod_to_equations. lia.
Qed.

Lemma get_transform_typed td n t :
  slice_ok td → get_transform td n = Ok t → transform_in_range t = true.
Proof.
  unfold get_transform, get_attribute. intros Hb H.
  assert (Ha : ∀ a, 0 ≤ Z.land a 127 < 2 ^ 15).
  { intros a. change 127 with (Z.ones 7). rewrite Z.land_ones by lia.
    pose proof (Z.mod_pos_bound a (2 ^ 7)). lia. }
  dec_inv; unfold transform_in_range; cbn [t_TransformType t_TransformID t_AttributeFormat
    t_AttributeType t_AttributeValue t_VariableLengthAttributeValue]; bsplit;
    try match goal with
    | |- context [Z.shiftr (Z.land ?x 128) 7] =>
        destruct (format_typed x) as [-> | ->]; [done..]
    | |- context [Z.land ?x 127] => pose proof (Ha x); by ztests
    end.
Qed.

Lemma add_transform_typed t p :
  transform_in_range t = true → proposal_in_range p = true →
  proposal_in_range (add_transform t p) = true.
Proof.
  destruct p as [num proto spi e r i d x]. unfold add_transform, proposal_in_range, transformList.
  cbn [p_ProposalNumber p_ProtocolID p_SPI p_EncryptionAlgorithm p_PseudorandomFunction
    p_IntegrityAlgorithm p_DiffieHellmanGroup p_ExtendedSequenceNumbers].
  rewrite !forallb_app. intros Ht H. rewrite !andb_true_iff in H. destruct_and!.
  repeat case_match; cbn [p_ProposalNumber p_ProtocolID p_SPI p_EncryptionAlgorithm
    p_PseudorandomFunction p_IntegrityAlgorithm p_DiffieHellmanGroup p_ExtendedSequenceNumbers];
    rewrite ?forallb_app; cbn [forallb]; bsplit; unfold of_type;
    match goal with E : (t_TransformType t =? _) = true |- _ => exact E end.
Qed.

Lemma get_transforms_typed fuel td p q :
  slice_ok td → proposal_in_range p = true → get_transforms fuel td p = Ok q →
  proposal_in_range q = true.
Proof.
  revert td p. induction fuel as [|fuel IH]; intros td p Hb Hp H; cbn [get_transforms] in H;
    dec_inv; try done.
  eapply IH in H; [done|done|]. apply add_transform_typed; [|done]. by eapply get_transform_typed; [|eassumption].
Qed.

Lemma get_proposal_typed b n p :
  slice_ok b → get_proposal b n = Ok p → proposal_in_range p = true.
Proof.
  unfold get_proposal. intros Hb H. dec_inv; (eapply get_transforms_typed; [|..|exact H]; [done|]);
    unfold proposal_in_range; cbn; typed.
Qed.

Lemma get_proposals_typed fuel b acc l :
  slice_ok b → forallb proposal_in_range acc = true → get_proposals fuel b acc = Ok l →
  forallb proposal_in_range l = true.
Proof.
  revert b acc. induction fuel as [|fuel IH]; intros b acc Hb Ha H; cbn [get_proposals] in H;
    dec_inv; try done.
  apply IH in H; [done|done|]. rewrite forallb_app, Ha. cbn.
  by erewrite get_proposal_typed; [|..|eassumption].
Qed.

Definition SecurityAssociation_typed (sa : SecurityAssociation) : bool :=
  forallb proposal_in_range (sa_Proposals sa).
Lemma SecurityAssociation_typed_ok b sa :
  slice_ok b → SecurityAssociation_Unmarshal new_SecurityAssociation b = Ok sa →
  SecurityAssociation_typed sa = true.
Proof.
  unfold SecurityAssociation_Unmarshal. intros Hb H. dec_inv. unfold SecurityAssociation_typed. cbn.
  by eapply get_proposals_typed; [|..|eassumption].
Qed.

(** ** Traffic selectors *)
Lemma ts_unmarshal_typed b l :
  slice_ok b → ts_unmarshal [] b = Ok l → forallb ts_valid l = true.
Proof.
  unfold ts_unmarshal. intros Hb H. dec_inv; [|done].
  apply ts_get_all_inv in H as (l' & rest & -> & _ & Hl & _); auto using slice_vis.
Qed.

(** ** EAP *)

Definition aka_attr_typed (k : Z) (a : EapAkaPrimeAttr) : Prop :=
  aa_attrType a = k ∧ u8b k = true ∧ u8b (aa_length a) = true ∧ u16b (aa_reserved a) = true ∧
  bytesb (aa_value a) = true.
#[export] Instance aka_attr_typed_dec k a : Decision (aka_attr_typed k a).
Proof. unfold aka_attr_typed. apply _. Defined.

Definition EapAkaPrime_typed (e : EapAkaPrime) : bool :=
  u8b (aka_subType e) && u16b (aka_reserved e) && bool_decide (map_Forall aka_attr_typed (attrs e)).

Definition EapTypeData_typed (t : EapTypeData) : bool :=
  match t with
  | TDIdentity d => bytesb (ei_IdentityData d)
  | TDNotification d => bytesb (en_NotificationData d)
  | TDNak d => bytesb (ek_NakData d)
  | TDMD5 d => u8b (em_ValueSize d) && bytesb (em_Value d) && bytesb (em_Name d)
  | TDAkaPrime d => EapAkaPrime_typed d
  | TDExpanded d => u32b (ex_VendorID d) && u32b (ex_VendorType d) && bytesb (ex_VendorData d)
  end.
Definition EAP_typed (e : EAP) : bool :=
  u8b (eap_Code e) && u8b (eap_Identifier e) &&
  match eap_EapTypeData e with Some t => EapTypeData_typed t | None => true end.

Lemma read_full_typed n e r v r' :
  bytesb r = true → read_full n e r = Ok (v, r') → bytesb v = true ∧ bytesb r' = true ∧ len v = Z.max 0 n.
Proof.
  unfold read_full. intros Hb H. destruct (Z.ltb_spec (len r) n); [done|]. injection H as <- <-.
  split_and!; auto using bytesb_take, bytesb_drop. unfold len in *. rewrite length_take. lia.
Qed.

Lemma be_dec_typed v : bytesb v = true → len v = 2 → u16b (be_dec v) = true.
Proof.
  intros Hb Hl. pose proof (be_dec_range v Hb) as R. rewrite Hl in R. unfold u16b. by ztests.
Qed.

Lemma get_attr_typed ty n r a r' :
  u8b ty = true → u8b n = true → bytesb r = true → get_attr ty n r = Ok (a, r') →
  aka_attr_typed ty a ∧ bytesb r' = true.
Proof.
  unfold get_attr, get_fixed16, get_padded, get_code, get_checkcode, get_auts.
  intros Ht Hn Hr H.
  repeat (cbv beta zeta in *; match goal with
  | H : (if ?c then _ else _) = Ok _ |- _ => destruct c; try discriminate H
  | H : Ok (_, _) = Ok (_, _) |- _ => injection H as H; try subst
  | H : Ok ([], ?r) = Ok ?p |- _ => destruct p; injection H as H; try subst
  | H : (_ ≫= _) = Ok _ |- _ =>
      let p := fresh "p" in let E := fresh "E" in
      apply bind_Ok_inv in H as (p & E & H); destruct p
  | H : read_full _ _ ?r = Ok (_, _), Hr : bytesb ?r = true |- _ =>
      apply (read_full_typed _ _ _ _ _ Hr) in H as (? & ? & ?)
  end); (split; [|done]); unfold aka_attr_typed; cbn; split_and!; auto using be_dec_typed.
Qed.

Lemma put_attr_typed e k a :
  aka_attr_typed k a → EapAkaPrime_typed e = true → EapAkaPrime_typed (put_attr e a) = true.
Proof.
  unfold EapAkaPrime_typed. rewrite !andb_true_iff, !bool_decide_eq_true, attrs_put_attr.
  intros Ha [? Hm]. split; [done|]. destruct Ha as (Hk & Ha). rewrite Hk.
  by apply map_Forall_insert_2.
Qed.

Lemma get_attrs_typed fuel r e e' :
  bytesb r = true → EapAkaPrime_typed e = true → get_attrs fuel r e = Ok e' →
  EapAkaPrime_typed e' = true.
Proof.
  revert r e. induction fuel as [|fuel IH]; intros r e Hr He H;
    (destruct r as [|ty [|n r]]; [by injection H as <-..|]); cbn [get_attrs] in H; [done|].
  rewrite !bytesb_cons in Hr. bools. apply bind_Ok_inv in H as ([a r'] & E & H).
  apply get_attr_typed in E as [Ha Hr']; [|done..]. eapply IH in H; [done|done|].
  by eapply put_attr_typed.
Qed.

Lemma EapAkaPrime_decoded e b e' :
  slice_ok b → EapAkaPrime_Unmarshal e b = Ok e' → EapAkaPrime_typed e' = true.
Proof.
  intros [Hb _]. unfold EapAkaPrime_Unmarshal.
  destruct (vis b) as [|c [|st [|r0 [|r1 r]]]]; try done. rewrite !bytesb_cons in Hb. bools.
  destruct (negb _); [done|]. intros Hd. eapply get_attrs_typed in Hd; [done|done|].
  unfold EapAkaPrime_typed. cbn [aka_subType aka_reserved]. bsplit.
  apply be_dec_typed; [by bsplit|done].
Qed.

Lemma EapTypeData_decoded ty t b t' :
  slice_ok b → new_EapTypeData ty = Some t → EapTypeData_Unmarshal t b = Ok t' →
  EapTypeData_typed t' = true.
Proof.
  intros Hb Ht H. unfold new_EapTypeData in Ht.
  assert (Hv : ∀ x, u32b x = true → u32b (Z.land x 0x00ffffff) = true).
  { intros x _. change 0x00ffffff with (Z.ones 24). rewrite Z.land_ones by lia.
    pose proof (Z.mod_pos_bound x (2 ^ 24)). unfold u32b. by ztests. }
  repeat (destruct (_ =? _); [injection Ht as <-|]); [..|done]; cbn [EapTypeData_Unmarshal] in H.
  5: { destruct (EapAkaPrime_Unmarshal _ _) eqn:E; try done. injection H as <-.
       by eapply EapAkaPrime_decoded. }
  1: unfold EapIdentity_Unmarshal in H. 2: unfold EapNotification_Unmarshal in H.
  3: unfold EapNak_Unmarshal in H. 4: unfold EapMD5_Unmarshal in H.
  5: unfold EapExpanded_Unmarshal in H.
  all: match type of H with _ <$> ?m = _ => destruct m eqn:E; try done; injection H as <- end.
  all: dec_inv; cbn; typed.
Qed.

Lemma EAP_decoded b e : slice_ok b → EAP_Unmarshal new_EAP b = Ok e → EAP_typed e = true.
Proof.
  unfold EAP_Unmarshal. intros Hb H. dec_inv; unfold EAP_typed; cbn; try done; [typed|].
  destruct (new_EapTypeData _) eqn:En; [|done]. dec_inv. cbn. typed.
  by eapply EapTypeData_decoded; [|eassumption..].
Qed.

(** ** Payloads, chains and messages *)

Definition payload_typed (p : IKEPayload) : bool :=
  match p with
  | PSA p => SecurityAssociation_typed p
  | PKE p => KeyExchange_typed p
  | PIDi p => id_typed (idi_IDType p) (idi_IDData p)
  | PIDr p => id_typed (idr_IDType p) (idr_IDData p)
  | PCERT p => id_typed (cert_CertificateEncoding p) (cert_CertificateData p)
  | PCERTreq p => id_typed (cr_CertificateEncoding p) (cr_CertificationAuthority p)
  | PAUTH p => id_typed (auth_AuthenticationMethod p) (auth_AuthenticationData p)
  | PNonce p => bytesb (nonce_NonceData p)
  | PN p => Notification_typed p
  | PD p => Delete_typed p
  | PV p => bytesb (vendor_VendorIDData p)
  | PTSi p => forallb ts_valid (tsi_TrafficSelectors p)
  | PTSr p => forallb ts_valid (tsr_TrafficSelectors p)
  | PSK p => id_typed (sk_NextPayload p) (sk_EncryptedData p)
  | PCP p => Configuration_typed p
  | PEAP p => EAP_typed p
  end.

Lemma payload_decoded ty b0 p b q :
  u8b b0 = true → slice_ok b → new_payload ty b0 = Some p → payload_Unmarshal p b = Ok q →
  payload_typed q = true.
Proof.
  intros H0 Hb Hp H. unfold new_payload in Hp.
  repeat (destruct (_ =? _); [injection Hp as <-|]); [..|done]; cbn [payload_Unmarshal] in H;
    match type of H with _ <$> ?m = _ => destruct m eqn:E; try done; injection H as <- end;
    cbn [payload_typed];
    first [ by eapply SecurityAssociation_typed_ok | by eapply KeyExchange_decoded
          | by eapply Notification_decoded | by eapply Delete_decoded
          | by eapply Configuration_decoded | by eapply EAP_decoded | idtac ];
    unfold IdentificationInitiator_Unmarshal, IdentificationResponder_Unmarshal,
      Certificate_Unmarshal, CertificateRequest_Unmarshal, Authentication_Unmarshal,
      Nonce_Unmarshal, VendorID_Unmarshal, Encrypted_Unmarshal,
      TrafficSelectorInitiator_Unmarshal, TrafficSelectorResponder_Unmarshal in E;
    dec_inv; unfold id_typed; cbn; first [by eapply ts_unmarshal_typed | typed].
Qed.

Lemma Container_Decode_loop_typed fuel ty b c c' :
  slice_ok b → forallb payload_typed c = true → Container_Decode_loop fuel ty b c = Ok c' →
  forallb payload_typed c' = true.
Proof.
  revert ty b c. induction fuel as [|fuel IH]; intros ty b c Hb Hc H; cbn [Container_Decode_loop] in H;
    dec_inv; try done.
  destruct (new_payload _ _) as [p|] eqn:Ep; dec_inv; [|by eapply IH in H].
  eapply IH in H; [done|done|]. rewrite forallb_app, Hc. cbn.
  by erewrite payload_decoded; [|..|exact Ep|eassumption].
Qed.

Definition message_typed (m : IKEMessage) : bool :=
  match m_IKEHeader m with Some h => header_in_range h | None => false end &&
  forallb payload_typed (m_Payloads m).

Lemma ParseHeader_typed b h :
  slice_ok b → ParseHeader b = Ok h → header_in_range h = true ∧ slice_ok (h_PayloadBytes h).
Proof.
  intros Hb H. split; [|by eapply sfrom_typed, ParseHeader_payload].
  pose proof (ParseHeader_long b h H) as Hl. destruct b as [v hd]. pose proof (proj1 Hb) as Hv.
  destruct (header_split v Hv Hl) as (h' & total & p & Ev & Hr & Ht). cbn [vis] in Ev. subst v.
  destruct (Z.lt_ge_cases total 28) as [Hs|Hs].
  - rewrite ParseHeader_short_field in H by lia. done.
  - rewrite ParseHeader_bytes in H by (done || lia). injection H as <-. exact Hr.
Qed.

(** C12: decoding yields typed values only. Whatever bytes arrive, a message
    that is decoded from them has every field of its header and of each payload
    within its Go type, a transform stands in the list of its transform type, a
    traffic selector has the address length of its type, and every attribute of
    an EAP-AKA' payload lies under its own type. *)
Theorem IKEMessage_Decode_typed b m :
  slice_ok b → IKEMessage_Decode new_IKEMessage b = Ok m → message_typed m = true.
Proof.
  intros Hb. unfold IKEMessage_Decode, IKEMessage_DecodePayload. intros H.
  apply bind_Ok_inv in H as (h & Eh & H). apply wrap_Ok_inv in Eh. cbn [m_IKEHeader deref] in H.
  pose proof (ParseHeader_typed b h Hb Eh) as [Hh Hp].
  dec_inv; try done. unfold message_typed. cbn [m_IKEHeader m_Payloads]. rewrite Hh.
  by eapply Container_Decode_loop_typed; [exact Hp| |eassumption].
Qed.

Lemma IKEMessage_Decode_typed_witness :
  match IKEMessage_Decode new_IKEMessage
          (of_bytes (header_bytes (MkHeader 1 2 2 0 34 8 0 40 (of_bytes [])) 35 ++
                     [0; 0; 0; 7; 1; 2; 3])) with
  | Ok m => message_typed m = true ∧ m_Payloads m = [PNonce (MkNonce [1; 2; 3])]
  | _ => False
  end.
Proof.
  destruct (IKEMessage_Decode _ _) as [m| | |] eqn:E; [|vm_compute in E; discriminate E..].
  split.
  - eapply IKEMessage_Decode_typed; [|exact E]. split; vm_compute; reflexivity.
  - vm_compute in E. injection E as <-. reflexivity.
Defined.
