(* ===== verification/Build.v ===== *)
(** * message/build.go: building payloads

    A builder appends a payload to the container. Where the code returns the
    pointer it has stored, the model returns the position of the payload, and
    an assignment through the pointer is [set_payload] at that position, so the
    container sees it. *)

From S2P Require Import Prelude GoSlice Types Net Codec Payloads SecurityAssociation.
From S2P Require Import TrafficSelector Eap Header Message.

Definition set_payload (c : IKEPayloadContainer) (ref : nat) (p : IKEPayload)
    : IKEPayloadContainer := <[ref := p]> c.

Definition Container_Reset (c : IKEPayloadContainer) : IKEPayloadContainer := [].

Definition BuildNotification (c : IKEPayloadContainer) (protocolID notifyMessageType : Z)
    (spi notificationData : list Z) : IKEPayloadContainer :=
  c ++ [PN (MkN protocolID notifyMessageType spi notificationData)].

Definition BuildCertificate (c : IKEPayloadContainer) (certificateEncode : Z)
    (certificateData : list Z) : IKEPayloadContainer :=
  c ++ [PCERT (MkCert certificateEncode certificateData)].

Definition BuildEncrypted (c : IKEPayloadContainer) (nextPayload : Z) (encryptedData : list Z)
    : IKEPayloadContainer * nat :=
  (c ++ [PSK (MkSK (u8 nextPayload) encryptedData)], length c).

Definition BuildKeyExchange (c : IKEPayloadContainer) (diffiehellmanGroup : Z)
    (keyExchangeData : list Z) : IKEPayloadContainer :=
  c ++ [PKE (MkKE diffiehellmanGroup keyExchangeData)].

Definition BuildIdentificationInitiator (c : IKEPayloadContainer) (idType : Z) (idData : list Z)
    : IKEPayloadContainer := c ++ [PIDi (MkIDi idType idData)].

Definition BuildIdentificationResponder (c : IKEPayloadContainer) (idType : Z) (idData : list Z)
    : IKEPayloadContainer := c ++ [PIDr (MkIDr idType idData)].

Definition BuildAuthentication (c : IKEPayloadContainer) (authenticationMethod : Z)
    (authenticationData : list Z) : IKEPayloadContainer :=
  c ++ [PAUTH (MkAuth authenticationMethod authenticationData)].

Definition BuildConfiguration (c : IKEPayloadContainer) (configurationType : Z)
    : IKEPayloadContainer * nat :=
  (c ++ [PCP (MkCP configurationType [])], length c).

Definition ConfigurationAttribute_Reset (l : list IndividualConfigurationAttribute)
    : list IndividualConfigurationAttribute := [].
Definition BuildConfigurationAttribute (l : list IndividualConfigurationAttribute)
    (attributeType : Z) (attributeValue : list Z) : list IndividualConfigurationAttribute :=
  l ++ [MkCPAttr attributeType attributeValue].

Definition BuildNonce (c : IKEPayloadContainer) (nonceData : list Z) : IKEPayloadContainer :=
  c ++ [PNonce (MkNonce nonceData)].

Definition BuildTrafficSelectorInitiator (c : IKEPayloadContainer) : IKEPayloadContainer * nat :=
  (c ++ [PTSi new_TrafficSelectorInitiator], length c).
Definition BuildTrafficSelectorResponder (c : IKEPayloadContainer) : IKEPayloadContainer * nat :=
  (c ++ [PTSr new_TrafficSelectorResponder], length c).

Definition IndividualTrafficSelector_Reset (l : list IndividualTrafficSelector)
    : list IndividualTrafficSelector := [].
Definition BuildIndividualTrafficSelector (l : list IndividualTrafficSelector)
    (tsType ipProtocolID startPort endPort : Z) (startAddr endAddr : list Z)
    : list IndividualTrafficSelector :=
  l ++ [MkTS tsType ipProtocolID startPort endPort startAddr endAddr].

Definition BuildSecurityAssociation (c : IKEPayloadContainer) : IKEPayloadContainer * nat :=
  (c ++ [PSA new_SecurityAssociation], length c).

Definition Proposal_Reset (l : list Proposal) : list Proposal := [].
Definition BuildProposal (l : list Proposal) (proposalNumber protocolID : Z) (spi : list Z)
    : list Proposal * nat :=
  (l ++ [MkProposal proposalNumber protocolID spi [] [] [] [] []], length l).

Definition BuildDeletePayload (c : IKEPayloadContainer) (protocolID spiSize numberOfSPI : Z)
    (spis : list Z) : IKEPayloadContainer :=
  c ++ [PD (MkD protocolID spiSize numberOfSPI spis)].

Definition Transform_Reset (l : list Transform) : list Transform := [].
(** The two attribute pointers may be nil. *)
Definition BuildTransform (l : list Transform) (transformType transformID : Z)
    (attributeType attributeValue : option Z) (variableLengthAttributeValue : list Z)
    : list Transform :=
  match attributeType with
  | Some ty =>
      match attributeValue with
      | Some v =>
          l ++ [MkTransform transformType transformID true AttributeFormatUseTV ty v []]
      | None =>
          if negb (len variableLengthAttributeValue =? 0) then
            l ++ [MkTransform transformType transformID true AttributeFormatUseTLV ty 0
                    variableLengthAttributeValue]
          else l
      end
  | None => l ++ [MkTransform transformType transformID false 0 0 0 []]
  end.

(** ** EAP *)

Definition BuildEAP (c : IKEPayloadContainer) (code identifier : Z)
    : IKEPayloadContainer * nat :=
  (c ++ [PEAP (MkEAP code identifier None)], length c).

Definition BuildEAPSuccess (c : IKEPayloadContainer) (identifier : Z) : IKEPayloadContainer :=
  c ++ [PEAP (MkEAP EapCodeSuccess identifier None)].
Definition BuildEAPfailure (c : IKEPayloadContainer) (identifier : Z) : IKEPayloadContainer :=
  c ++ [PEAP (MkEAP EapCodeFailure identifier None)].

Definition BuildEapExpanded (vendorID vendorType : Z) (vendorData : list Z) : EapExpanded :=
  MkEapExpanded vendorID vendorType vendorData.

(** [eap.EapTypeData = d] through the pointer [BuildEAP] returned. *)
Definition set_type_data (c : IKEPayloadContainer) (ref : nat) (d : EapTypeData)
    : IKEPayloadContainer :=
  match c !! ref with
  | Some (PEAP e) =>
      set_payload c ref (PEAP (MkEAP (eap_Code e) (eap_Identifier e) (Some d)))
  | _ => c
  end.

Definition BuildEAP5GStart (c : IKEPayloadContainer) (identifier : Z) : IKEPayloadContainer :=
  let '(c, eap) := BuildEAP c EapCodeRequest identifier in
  set_type_data c eap (TDExpanded (BuildEapExpanded VendorId3GPP VendorTypeEAP5G
    [EAP5GType5GStart; EAP5GSpareValue])).

Definition BuildEAP5GNAS (c : IKEPayloadContainer) (identifier : Z) (nasPDU : list Z)
    : res IKEPayloadContainer :=
  if len nasPDU =? 0 then Err "BuildEAP5GNAS(): NASPDU is nil"
  else
    header ← set_byte 0 EAP5GType5GNAS (make_bytes 4);
    let nasPDULen := len nasPDU in
    if nasPDULen >? 0xFFFF then Err "BuildEAP5GNAS(): nasPDU length exceeds uint16 limit"
    else
      header ← PutUint16 2 (u16 nasPDULen) header;
      let vendorData := header ++ nasPDU in
      let '(c, eap) := BuildEAP c EapCodeRequest identifier in
      Ok (set_type_data c eap
            (TDExpanded (BuildEapExpanded VendorId3GPP VendorTypeEAP5G vendorData))).

(** ** 3GPP notifications *)

Definition BuildNotify5G_QOS_INFO (c : IKEPayloadContainer) (pduSessionID : Z)
    (qfiList : list Z) (isDefault isDSCPSpecified : bool) (dscp : Z)
    : res IKEPayloadContainer :=
  let notifyData := make_bytes 1 ++ [pduSessionID] in
  let qfiListLen := len qfiList in
  if qfiListLen >? 0xFF then Err "BuildNotify5G_QOS_INFO(): qfiList is too long"
  else
    let notifyData := notifyData ++ [u8 qfiListLen] ++ qfiList in
    let flags := 0 in
    let flags := if isDefault then Z.lor flags NotifyType5G_QOS_INFOBitDCSICheck else flags in
    let flags := if isDSCPSpecified then Z.lor flags NotifyType5G_QOS_INFOBitDSCPICheck
                 else flags in
    let notifyData := notifyData ++ [flags] in
    let notifyData := if isDSCPSpecified then notifyData ++ [dscp] else notifyData in
    let notifyDataLen := len notifyData in
    if notifyDataLen >? 0xFF then Err "BuildNotify5G_QOS_INFO(): notifyData is too long"
    else
      notifyData ← set_byte 0 (u8 notifyDataLen) notifyData;
      Ok (BuildNotification c TypeNone Vendor3GPPNotifyType5G_QOS_INFO [] notifyData).

Definition BuildNotifyNAS_TCP_PORT (c : IKEPayloadContainer) (port : Z)
    : res IKEPayloadContainer :=
  if port =? 0 then Ok c
  else
    portData ← PutUint16 0 port (make_bytes 2);
    Ok (BuildNotification c TypeNone Vendor3GPPNotifyTypeNAS_TCP_PORT [] portData).

(** An address that does not parse, or is not an IPv4 address, gives a
    notification without data. *)
Definition BuildNotifyNAS_IP4_ADDRESS (c : IKEPayloadContainer) (nasIPAddr : string)
    : IKEPayloadContainer :=
  if bool_decide (nasIPAddr = "") then c
  else
    let ipAddrByte := To4 (ParseIP nasIPAddr) in
    BuildNotification c TypeNone Vendor3GPPNotifyTypeNAS_IP4_ADDRESS [] ipAddrByte.

Definition BuildNotifyUP_IP4_ADDRESS (c : IKEPayloadContainer) (upIPAddr : string)
    : IKEPayloadContainer :=
  if bool_decide (upIPAddr = "") then c
  else
    let ipAddrByte := To4 (ParseIP upIPAddr) in
    BuildNotification c TypeNone Vendor3GPPNotifyTypeUP_IP4_ADDRESS [] ipAddrByte.

(** ** What the builders build *)

(** A transform built without a variable-length value is decoded to itself. *)
Lemma BuildTransform_lossless l ty id aty aval :
  u8b ty = true → u16b id = true →
  match aty with Some a => 0 ≤ a < 128 | None => True end →
  match aval with Some v => u16b v = true | None => True end →
  forallb (λ t, transform_in_range t && lossless t) l = true →
  forallb (λ t, transform_in_range t && lossless t) (BuildTransform l ty id aty aval []) = true.
Proof.
  intros Ht Hi Ha Hv Hl. unfold BuildTransform.
  destruct aty as [a|]; [destruct aval as [v|]|]; [..|rewrite forallb_app, Hl].
  - rewrite forallb_app, Hl. unfold transform_in_range, lossless. cbn [forallb
      t_TransformType t_TransformID t_AttributePresent t_AttributeFormat t_AttributeType
      t_AttributeValue t_VariableLengthAttributeValue AttributeFormatUseTV Z.eqb Pos.eqb orb].
    rewrite Ht, Hi, Hv. change (bytesb []) with true. change (len []) with 0. by ztests.
  - done.
  - unfold transform_in_range, lossless. cbn. by rewrite Ht, Hi.
Qed.

Lemma set_last c e d :
  set_type_data (c ++ [PEAP e]) (length c) d =
    c ++ [PEAP (MkEAP (eap_Code e) (eap_Identifier e) (Some d))].
Proof.
  unfold set_type_data, set_payload. rewrite list_lookup_middle by done.
  by rewrite insert_app_r_alt, Nat.sub_diag.
Qed.

(** The EAP payload of a NAS message. *)
Definition nas_eap (identifier : Z) (nasPDU : list Z) : EAP :=
  MkEAP EapCodeRequest identifier (Some (TDExpanded (MkEapExpanded VendorId3GPP VendorTypeEAP5G
    ([EAP5GType5GNAS; 0] ++ be_enc 2 (len nasPDU) ++ nasPDU)))).

Lemma BuildEAP5GNAS_eq c identifier nasPDU :
  0 < len nasPDU ≤ 65535 →
  BuildEAP5GNAS c identifier nasPDU = Ok (c ++ [PEAP (nas_eap identifier nasPDU)]).
Proof.
  intros H. unfold BuildEAP5GNAS. ztests.
  change (set_byte 0 EAP5GType5GNAS (make_bytes 4)) with (Ok [EAP5GType5GNAS; 0; 0; 0]).
  cbn [mbind res_bind]. rewrite u16_small by lia.
  change (PutUint16 2 (len nasPDU) _) with (Ok ([EAP5GType5GNAS; 0] ++ be_enc 2 (len nasPDU))).
  cbn [mbind res_bind]. unfold BuildEAP. cbv zeta. rewrite set_last. done.
Qed.

Lemma nas_eap_body identifier nasPDU :
  len (eap_body (nas_eap identifier nasPDU)) = 12 + len nasPDU.
Proof.
  unfold eap_body, nas_eap. cbn [eap_EapTypeData EapTypeData_Marshal]. unfold EapExpanded_Marshal.
  cbn [ex_VendorID ex_VendorType ex_VendorData].
  set (w := Z.lor _ _). set (data := _ ++ _).
  change (PutUint32 0 w (make_bytes 8)) with (Ok (be_enc 4 w ++ [0; 0; 0; 0])).
  cbn [mbind res_bind].
  change (PutUint32 4 VendorTypeEAP5G _) with (Ok (be_enc 4 w ++ be_enc 4 VendorTypeEAP5G)).
  cbn [mbind res_bind]. unfold data. pose proof (len_nonneg nasPDU). len_simpl. ztests.
  len_simpl. lia.
Qed.

Lemma nas_eap_valid identifier nasPDU :
  u8b identifier = true → bytesb nasPDU = true → len nasPDU ≤ 65519 →
  EAP_valid (nas_eap identifier nasPDU) = true.
Proof.
  intros Hi Hb Hl. unfold EAP_valid. rewrite nas_eap_body. ztests.
  unfold nas_eap. cbn [eap_Code eap_Identifier eap_EapTypeData EapTypeData_valid
    ex_VendorID ex_VendorType ex_VendorData]. rewrite Hi.
  assert (bytesb ([EAP5GType5GNAS; 0] ++ be_enc 2 (len nasPDU) ++ nasPDU) = true) as ->
    by (bsplit; apply bytesb_be_enc). done.
Qed.

(** The QoS notification starts with its own length. *)
Definition qos_flags (isDefault isDSCPSpecified : bool) : Z :=
  (if isDefault then 2 else 0) + (if isDSCPSpecified then 1 else 0).

Definition qos_data (pdu : Z) (qfi : list Z) (isDefault isDSCPSpecified : bool) (dscp : Z)
    : list Z :=
  [pdu; len qfi] ++ qfi ++ [qos_flags isDefault isDSCPSpecified] ++
  (if isDSCPSpecified then [dscp] else []).

(** The QoS notification carries its own length, the PDU session, the
    counted QFI list, the two flags, and the DSCP when it is specified; a list
    or a notification that does not fit the one-byte counts is an error. *)
Theorem BuildNotify5G_QOS_INFO_layout c pdu qfi d s dscp :
  BuildNotify5G_QOS_INFO c pdu qfi d s dscp =
  let data := qos_data pdu qfi d s dscp in
  if 255 <? len qfi then Err "BuildNotify5G_QOS_INFO(): qfiList is too long"
  else if 254 <? len data then Err "BuildNotify5G_QOS_INFO(): notifyData is too long"
  else Ok (c ++ [PN (MkN TypeNone Vendor3GPPNotifyType5G_QOS_INFO [] ((1 + len data) :: data))]).
Proof.
  unfold BuildNotify5G_QOS_INFO. rewrite !Z.gtb_ltb. pose proof (len_nonneg qfi).
  destruct (Z.ltb_spec 255 (len qfi)) as [?|Hq]; [done|]. rewrite (u8_small (len qfi)) by lia.
  set (data := qos_data pdu qfi d s dscp).
  set (nd := if s then _ else _).
  assert (E : nd = 0 :: data).
  { unfold nd, data, qos_data, qos_flags. destruct d, s; cbn; rewrite <- ?app_assoc; done. }
  rewrite E, len_cons. cbv zeta. pose proof (len_nonneg data).
  destruct (Z.ltb_spec 255 (1 + len data)), (Z.ltb_spec 254 (len data)); try lia; [done|].
  rewrite u8_small by lia. done.
Qed.

(** C40: a NAS message of at most 65519 bytes is carried in an EAP-5G request: the builder appends one
    EAP payload, an expanded type of 3GPP whose data are the EAP-5G message
    type, the length of the NAS message and the message, and this packet
    survives the wire. *)
Theorem BuildEAP5GNAS_carries c identifier nasPDU h :
  u8b identifier = true → bytesb nasPDU = true → 0 < len nasPDU ≤ 65519 →
  BuildEAP5GNAS c identifier nasPDU = Ok (c ++ [PEAP (nas_eap identifier nasPDU)]) ∧
  ∃ bs, EAP_Marshal (nas_eap identifier nasPDU) = Ok bs ∧
    EAP_Unmarshal new_EAP (Slice bs h) = Ok (nas_eap identifier nasPDU).
Proof.
  intros Hi Hb Hl. split; [apply BuildEAP5GNAS_eq; lia|].
  destruct (@round_trip _ EAP_codec (nas_eap identifier nasPDU)) as (bs & E & _ & D).
  - apply nas_eap_valid; [done|done|lia].
  - exists bs. split; [exact E|]. apply D.
Qed.

Lemma BuildEAP5GNAS_carries_witness :
  BuildEAP5GNAS [] 3 [1; 2; 3] = Ok [PEAP (nas_eap 3 [1; 2; 3])].
Proof. apply (BuildEAP5GNAS_carries [] 3 [1; 2; 3] []); [reflexivity|reflexivity|split; reflexivity || (vm_compute; discriminate)]. Defined.

(** An address notification holds four bytes or none. Both builders add one
    notification for a non-empty text: the four octets of a dotted address,
    and four bytes or no byte at all for any other text, so that an IPv6
    address and a text that is no address give an empty notification. An empty
    text adds nothing. *)
Theorem BuildNotify_IP4_ADDRESS c text :
  let note ty data := PN (MkN TypeNone ty [] data) in
  ∃ data,
    (BuildNotifyNAS_IP4_ADDRESS c text =
       if bool_decide (text = "") then c
       else c ++ [note Vendor3GPPNotifyTypeNAS_IP4_ADDRESS data]) ∧
    (BuildNotifyUP_IP4_ADDRESS c text =
       if bool_decide (text = "") then c
       else c ++ [note Vendor3GPPNotifyTypeUP_IP4_ADDRESS data]) ∧
    (len data = 4 ∨ data = []) ∧
    (∀ x y z w, u8b x = true → u8b y = true → u8b z = true → u8b w = true →
       text = dotted x y z w → data = [x; y; z; w]).
Proof.
  exists (To4 (ParseIP text)). split_and!; [done|done|apply To4_len|].
  intros x y z w Hx Hy Hz Hw ->. by apply To4_dotted.
Qed.

(** The witness: a dotted address, and an IPv6 address that is lost. *)
Lemma BuildNotify_IP4_ADDRESS_example :
  BuildNotifyNAS_IP4_ADDRESS [] (dotted 10 0 2 15) =
    [PN (MkN TypeNone Vendor3GPPNotifyTypeNAS_IP4_ADDRESS [] [10; 0; 2; 15])] ∧
  BuildNotifyUP_IP4_ADDRESS [] "2001:db8::1" =
    [PN (MkN TypeNone Vendor3GPPNotifyTypeUP_IP4_ADDRESS [] [])].
Proof.
  split; [|reflexivity].
  destruct (BuildNotify_IP4_ADDRESS [] (dotted 10 0 2 15)) as (d & E & _ & _ & D).
  rewrite (D 10 0 2 15) in E by reflexivity. exact E.
Defined.
