(* ===== verification/Dh.v ===== *)
(** * security/dh: the two MODP groups

    [math/big] integers are [Z]; [Exp] is square-and-multiply, and [SetString]
    reads hexadecimal. The map of groups is built by [init] from the strings
    of the code, as the package does. *)

From Stdlib Require Import Zpow_facts.
From S2P Require Import Prelude GoSlice Types SecurityAssociation.

(** ** math/big *)

Definition hex_digit (c : Ascii.ascii) : option Z :=
  let n := Z.of_N (Ascii.N_of_ascii c) in
  if (48 <=? n) && (n <=? 57) then Some (n - 48)
  else if (65 <=? n) && (n <=? 70) then Some (n - 55)
  else if (97 <=? n) && (n <=? 102) then Some (n - 87)
  else None.

Fixpoint hex_value (s : string) (acc : Z) : option Z :=
  match s with
  | EmptyString => Some acc
  | String c s => d ← hex_digit c; hex_value s (acc * 16 + d)
  end.

(** [new(big.Int).SetString(s, 16)] of digits without a sign. *)
Definition big_SetString16 (s : string) : option Z :=
  match s with EmptyString => None | _ => hex_value s 0 end.

(** [new(big.Int).Exp(x, y, m)] *)
Fixpoint pow_mod_pos (x : Z) (y : positive) (m : Z) : Z :=
  match y with
  | xH => x mod m
  | xO y => let r := pow_mod_pos x y m in (r * r) mod m
  | xI y => let r := pow_mod_pos x y m in (x * ((r * r) mod m)) mod m
  end.
Definition big_Exp (x y m : Z) : Z :=
  match y with Zpos y => pow_mod_pos x y m | _ => 1 mod m end.

(** [x.Bytes()]: big-endian, without leading zeros; [SetBytes] is [be_dec]. *)
Definition big_bytes_len (x : Z) : nat :=
  if x =? 0 then 0%nat else Z.to_nat (Z.log2 x / 8 + 1).
Fixpoint low_bytes (n : nat) (x : Z) (acc : list Z) : list Z :=
  match n with
  | O => acc
  | S n => low_bytes n (Z.shiftr x 8) (Z.land x 255 :: acc)
  end.
Definition big_Bytes (x : Z) : list Z := low_bytes (big_bytes_len x) x [].

(** ** Groups *)

Definition Group2PrimeString : string :=
  ("FFFFFFFFFFFFFFFFC90FDAA22168C234C4C6628B80DC1CD129024E088A67CC74" +:+
   "020BBEA63B139B22514A08798E3404DDEF9519B3CD3A431B302B0A6DF25F1437" +:+
   "4FE1356D6D51C245E485B576625E7EC6F44C42E9A637ED6B0BFF5CB6F406B7ED" +:+
   "EE386BFB5A899FA5AE9F24117C4B1FE649286651ECE65381FFFFFFFFFFFFFFFF")%string.
Definition Group2Generator : Z := 2.

Definition Group14PrimeString : string :=
  ("FFFFFFFFFFFFFFFFC90FDAA22168C234C4C6628B80DC1CD129024E088A67CC74" +:+
   "020BBEA63B139B22514A08798E3404DDEF9519B3CD3A431B302B0A6DF25F1437" +:+
   "4FE1356D6D51C245E485B576625E7EC6F44C42E9A637ED6B0BFF5CB6F406B7ED" +:+
   "EE386BFB5A899FA5AE9F24117C4B1FE649286651ECE45B3DC2007CB8A163BF05" +:+
   "98DA48361C55D39A69163FA8FD24CF5F83655D23DCA3AD961C62F356208552BB" +:+
   "9ED529077096966D670C354E4ABC9804F1746C08CA18217C32905E462E36CE3B" +:+
   "E39E772C180E86039B2783A2EC07A28FB5C55DF06F4C52C9DE2BCBF695581718" +:+
   "3995497CEA956AE515D2261898FA051015728E5A8AACAA68FFFFFFFFFFFFFFFF")%string.
Definition Group14Generator : Z := 2.

(** The two structs of the package have the same fields; each has its own
    methods, and [DHType] is the interface they implement. *)
Record ModpParams := MkModp { factor : Z; generator : Z; factorBytesLength : Z }.

(** [append(make([]byte, n-len(b)), b...)] *)
Definition prepend_zero (n : Z) (b : list Z) : res (list Z) :=
  if n - len b <? 0 then Panic else Ok (make_bytes (n - len b) ++ b).

Definition Dh1024BitModp_TransformID (t : ModpParams) : Z := Types.DH_1024_BIT_MODP.
(** Present, type, value and variable-length value of the attribute. *)
Definition Dh1024BitModp_getAttribute (t : ModpParams) : bool * Z * Z * option (list Z) :=
  (false, 0, 0, None).
Definition Dh1024BitModp_GetSharedKey (t : ModpParams) (secret peerPublicValue : Z)
    : res (list Z) :=
  let one := 1 in
  let pMinusOne := factor t - one in
  if (peerPublicValue <=? one) || (peerPublicValue >=? pMinusOne) then
    Err "invalid DH public value."
  else prepend_zero (factorBytesLength t) (big_Bytes (big_Exp peerPublicValue secret (factor t))).
Definition Dh1024BitModp_GetPublicValue (t : ModpParams) (secret : Z) : res (list Z) :=
  prepend_zero (factorBytesLength t) (big_Bytes (big_Exp (generator t) secret (factor t))).

Definition DH2048BitModp_TransformID (t : ModpParams) : Z := Types.DH_2048_BIT_MODP.
Definition DH2048BitModp_getAttribute (t : ModpParams) : bool * Z * Z * option (list Z) :=
  (false, 0, 0, None).
Definition DH2048BitModp_GetSharedKey (t : ModpParams) (secret peerPublicValue : Z)
    : res (list Z) :=
  let one := 1 in
  let pMinusOne := factor t - one in
  if (peerPublicValue <=? one) || (peerPublicValue >=? pMinusOne) then
    Err "invalid DH public value."
  else prepend_zero (factorBytesLength t) (big_Bytes (big_Exp peerPublicValue secret (factor t))).
Definition DH2048BitModp_GetPublicValue (t : ModpParams) (secret : Z) : res (list Z) :=
  prepend_zero (factorBytesLength t) (big_Bytes (big_Exp (generator t) secret (factor t))).

Inductive DHType :=
  | Dh1024BitModp (t : ModpParams)
  | DH2048BitModp (t : ModpParams).

Definition dh_params (t : DHType) : ModpParams :=
  match t with Dh1024BitModp t | DH2048BitModp t => t end.

Definition dh_TransformID (t : DHType) : Z :=
  match t with
  | Dh1024BitModp t => Dh1024BitModp_TransformID t
  | DH2048BitModp t => DH2048BitModp_TransformID t
  end.
Definition dh_getAttribute (t : DHType) : bool * Z * Z * option (list Z) :=
  match t with
  | Dh1024BitModp t => Dh1024BitModp_getAttribute t
  | DH2048BitModp t => DH2048BitModp_getAttribute t
  end.
Definition dh_GetSharedKey (t : DHType) (secret peerPublicValue : Z) : res (list Z) :=
  match t with
  | Dh1024BitModp t => Dh1024BitModp_GetSharedKey t secret peerPublicValue
  | DH2048BitModp t => DH2048BitModp_GetSharedKey t secret peerPublicValue
  end.
Definition dh_GetPublicValue (t : DHType) (secret : Z) : res (list Z) :=
  match t with
  | Dh1024BitModp t => Dh1024BitModp_GetPublicValue t secret
  | DH2048BitModp t => DH2048BitModp_GetPublicValue t secret
  end.

(** ** The maps built by [init] *)

Definition DH_1024_BIT_MODP : string := "DH_1024_BIT_MODP".
Definition DH_2048_BIT_MODP : string := "DH_2048_BIT_MODP".

Definition toString_DH_1024_BIT_MODP (attrType intValue : Z) (bytesValue : list Z) : string :=
  DH_1024_BIT_MODP.
Definition toString_DH_2048_BIT_MODP (attrType intValue : Z) (bytesValue : list Z) : string :=
  DH_2048_BIT_MODP.

Definition dhString : gmap Z (Z → Z → list Z → string) :=
  <[Types.DH_1024_BIT_MODP := toString_DH_1024_BIT_MODP]>
  (<[Types.DH_2048_BIT_MODP := toString_DH_2048_BIT_MODP]> ∅).

Definition new_modp (prime : string) (gen : Z) : res ModpParams :=
  f ← deref (big_SetString16 prime);
  Ok (MkModp f gen (len (big_Bytes f))).

(** [init]: a prime that does not parse is a panic. *)
Definition dh_init : res (gmap string DHType) :=
  g2 ← new_modp Group2PrimeString Group2Generator;
  g14 ← new_modp Group14PrimeString Group14Generator;
  Ok (<[DH_1024_BIT_MODP := Dh1024BitModp g2]> (<[DH_2048_BIT_MODP := DH2048BitModp g14]> ∅)).

Definition dhTypes : gmap string DHType := match dh_init with Ok m => m | _ => ∅ end.

(** Nil is [None]. *)
Definition dh_StrToType (algo : string) : option DHType := dhTypes !! algo.

Definition dh_DecodeTransform (t : Transform) : option DHType :=
  match dhString !! t_TransformID t with
  | Some f =>
      let s := f (t_AttributeType t) (t_AttributeValue t) (t_VariableLengthAttributeValue t) in
      if bool_decide (s = "") then None else dhTypes !! s
  | None => None
  end.

Definition dh_ToTransform (dhType : DHType) : Transform :=
  let '(present, ty, v, var) := dh_getAttribute dhType in
  MkTransform TypeDiffieHellmanGroup (dh_TransformID dhType) present
    (if present && (match var with None => true | Some _ => false end)
     then AttributeFormatUseTV else 0) ty v (default [] var).

(** ** Arithmetic *)

Lemma pow_mod_pos_spec x y m : 0 < m → pow_mod_pos x y m = x ^ Zpos y mod m.
Proof.
  intros Hm. induction y as [y IH|y IH|]; cbn [pow_mod_pos].
  - rewrite IH, Zmult_mod_idemp_r. set (a := x ^ Zpos y).
    rewrite Z.mul_assoc, Zmult_mod_idemp_r.
    replace (x * (a mod m) * a) with (x * a * (a mod m)) by lia.
    rewrite Zmult_mod_idemp_r. f_equal. unfold a.
    rewrite Pos2Z.inj_xI, Z.pow_add_r, Z.pow_twice_r, Z.pow_1_r by lia. lia.
  - rewrite IH, <- Z.mul_mod by lia. f_equal. rewrite Pos2Z.inj_xO, Z.pow_twice_r. done.
  - by rewrite Z.pow_1_r.
Qed.

Lemma big_Exp_spec x y m : 0 < m → 0 ≤ y → big_Exp x y m = x ^ y mod m.
Proof.
  intros Hm Hy. destruct y as [|y|y]; [done| |lia]. by apply pow_mod_pos_spec.
Qed.

Lemma be_enc_snoc n x : be_enc (S n) x = be_enc n (x / 256) ++ [u8 x].
Proof.
  revert x. induction n as [|n IH]; intros x; [cbn; by rewrite Z.div_1_r|].
  change (be_enc (S (S n)) x) with (u8 (x / 256 ^ Z.of_nat (S n)) :: be_enc (S n) x).
  rewrite IH. cbn [be_enc app]. f_equal. f_equal.
  rewrite Nat2Z.inj_succ, Z.pow_succ_r, Z.div_div by lia. done.
Qed.

Lemma low_bytes_eq n x acc : low_bytes n x acc = be_enc n x ++ acc.
Proof.
  revert x acc. induction n as [|n IH]; intros x acc; [done|].
  rewrite be_enc_snoc, <- app_assoc. cbn [low_bytes app]. rewrite IH.
  rewrite Z.shiftr_div_pow2 by lia. change 255 with (Z.ones 8). by rewrite Z.land_ones by lia.
Qed.

Lemma big_Bytes_eq x : big_Bytes x = be_enc (big_bytes_len x) x.
Proof. unfold big_Bytes. by rewrite low_bytes_eq, app_nil_r. Qed.

Lemma big_bytes_len_range x : 0 ≤ x → 0 ≤ x < 256 ^ Z.of_nat (big_bytes_len x).
Proof.
  intros Hx. unfold big_bytes_len. destruct (Z.eqb_spec x 0) as [->|Hn]; [done|].
  pose proof (Z.log2_nonneg x). pose proof (Z.log2_spec x).
  rewrite Z2Nat.id by (Z.div_mod_to_equations; lia).
  change 256 with (2 ^ 8). rewrite <- Z.pow_mul_r by (Z.div_mod_to_equations; lia).
  split; [done|]. eapply Z.lt_le_trans; [apply Z.log2_spec; lia|].
  apply Z.pow_le_mono_r; [lia|]. Z.div_mod_to_equations; lia.
Qed.

Lemma be_dec_big_Bytes x : 0 ≤ x → be_dec (big_Bytes x) = x.
Proof.
  intros Hx. rewrite big_Bytes_eq, be_dec_enc. apply Z.mod_small.
  by apply big_bytes_len_range.
Qed.

Lemma big_bytes_len_mono x y : 0 ≤ x ≤ y → (big_bytes_len x ≤ big_bytes_len y)%nat.
Proof.
  intros H. unfold big_bytes_len.
  destruct (Z.eqb_spec x 0), (Z.eqb_spec y 0); try lia.
  pose proof (Z.log2_le_mono x y ltac:(lia)). pose proof (Z.log2_nonneg x).
  apply Z2Nat.inj_le; Z.div_mod_to_equations; lia.
Qed.

Lemma be_dec_zeros n l : be_dec (make_bytes n ++ l) = be_dec l.
Proof.
  unfold make_bytes. induction (Z.to_nat n) as [|k IH]; [done|].
  cbn [replicate app]. rewrite be_dec_cons, IH. lia.
Qed.

(** A group is sound when its prime is at least 5 and its length is right. *)
Definition group_ok (t : DHType) : Prop :=
  4 < factor (dh_params t) ∧
  factorBytesLength (dh_params t) = len (big_Bytes (factor (dh_params t))).

(** A residue fills exactly the bytes of the prime. *)
Lemma prepend_residue t x :
  group_ok t → 0 ≤ x < factor (dh_params t) →
  ∃ k, prepend_zero (factorBytesLength (dh_params t)) (big_Bytes x) = Ok k ∧
    len k = factorBytesLength (dh_params t) ∧ be_dec k = x ∧ bytesb k = true.
Proof.
  intros [Hf Hl] Hx. unfold prepend_zero. rewrite Hl.
  pose proof (big_bytes_len_mono x (factor (dh_params t)) ltac:(lia)) as Hm.
  rewrite !big_Bytes_eq, !len_be_enc. ztests. eexists. split; [reflexivity|].
  split; [|split].
  - rewrite len_app. unfold make_bytes. rewrite len_replicate, len_be_enc. lia.
  - rewrite be_dec_zeros, <- big_Bytes_eq. apply be_dec_big_Bytes. lia.
  - bsplit; [by apply bytesb_replicate|apply bytesb_be_enc].
Qed.

(** The two groups of the code, as numbers. *)
Definition group2 : ModpParams :=
  Eval vm_compute in match new_modp Group2PrimeString Group2Generator with
                     | Ok p => p | _ => MkModp 0 0 0 end.
Definition group14 : ModpParams :=
  Eval vm_compute in match new_modp Group14PrimeString Group14Generator with
                     | Ok p => p | _ => MkModp 0 0 0 end.

(** [init] does not panic: the primes of the code are hexadecimal. *)
Lemma dh_init_eq :
  dh_init = Ok (<[DH_1024_BIT_MODP := Dh1024BitModp group2]>
                (<[DH_2048_BIT_MODP := DH2048BitModp group14]> ∅)).
Proof.
  unfold dh_init.
  assert (new_modp Group2PrimeString Group2Generator = Ok group2) as -> by (vm_compute; reflexivity).
  assert (new_modp Group14PrimeString Group14Generator = Ok group14) as ->
    by (vm_compute; reflexivity).
  reflexivity.
Qed.

Lemma dhTypes_eq :
  dhTypes = <[DH_1024_BIT_MODP := Dh1024BitModp group2]>
            (<[DH_2048_BIT_MODP := DH2048BitModp group14]> ∅).
Proof. unfold dhTypes. by rewrite dh_init_eq. Qed.

Lemma dhTypes_lookup : dh_StrToType DH_1024_BIT_MODP = Some (Dh1024BitModp group2).
Proof. unfold dh_StrToType. rewrite dhTypes_eq. apply lookup_insert_eq. Qed.

Lemma group2_ok : group_ok (Dh1024BitModp group2).
Proof. split; vm_compute; reflexivity. Qed.
Lemma group14_ok : group_ok (DH2048BitModp group14).
Proof. split; vm_compute; reflexivity. Qed.

Lemma dhTypes_ok s t : dhTypes !! s = Some t → group_ok t.
Proof.
  rewrite dhTypes_eq. intros [[_ <-]|[_ H]]%lookup_insert_Some; [apply group2_ok|].
  apply lookup_insert_Some in H as [[_ <-]|[_ H]]; [apply group14_ok|].
  by rewrite lookup_empty in H.
Qed.

(** ** Diffie-Hellman *)

Lemma big_Exp_range x y m : 0 < m → 0 ≤ y → 0 ≤ big_Exp x y m < m.
Proof. intros. rewrite big_Exp_spec by lia. by apply Z.mod_pos_bound. Qed.

(** The two groups compute the same functions of their parameters. *)
Lemma dh_GetPublicValue_eq t a :
  dh_GetPublicValue t a = prepend_zero (factorBytesLength (dh_params t))
    (big_Bytes (big_Exp (generator (dh_params t)) a (factor (dh_params t)))).
Proof. by destruct t. Qed.
Lemma dh_GetSharedKey_eq t a B :
  dh_GetSharedKey t a B =
  if (B <=? 1) || (B >=? factor (dh_params t) - 1) then Err "invalid DH public value."
  else prepend_zero (factorBytesLength (dh_params t))
         (big_Bytes (big_Exp B a (factor (dh_params t)))).
Proof. by destruct t. Qed.

Lemma dh_GetPublicValue_spec t a :
  group_ok t → 0 ≤ a →
  ∃ A, dh_GetPublicValue t a = Ok A ∧ len A = factorBytesLength (dh_params t) ∧
    bytesb A = true ∧ be_dec A = generator (dh_params t) ^ a mod factor (dh_params t).
Proof.
  intros Ht Ha. pose proof Ht as [Hf _]. rewrite dh_GetPublicValue_eq.
  destruct (prepend_residue t (big_Exp (generator (dh_params t)) a (factor (dh_params t))) Ht)
    as (k & -> & Hk & Hd & Hb); [apply big_Exp_range; lia|].
  exists k. rewrite Hd, big_Exp_spec by lia. done.
Qed.

Lemma dh_GetSharedKey_spec t a B :
  group_ok t → 0 ≤ a → 1 < B < factor (dh_params t) - 1 →
  ∃ k, dh_GetSharedKey t a B = Ok k ∧ len k = factorBytesLength (dh_params t) ∧
    bytesb k = true ∧ be_dec k = B ^ a mod factor (dh_params t).
Proof.
  intros Ht Ha HB. pose proof Ht as [Hf _]. rewrite dh_GetSharedKey_eq.
  rewrite Z.geb_leb. ztests.
  destruct (prepend_residue t (big_Exp B a (factor (dh_params t))) Ht)
    as (k & -> & Hk & Hd & Hb); [apply big_Exp_range; lia|].
  exists k. rewrite Hd, big_Exp_spec by lia. done.
Qed.

Lemma be_dec_inj a b :
  bytesb a = true → bytesb b = true → length a = length b → be_dec a = be_dec b → a = b.
Proof. intros Ha Hb Hl E. rewrite <- (be_enc_dec a Ha), <- (be_enc_dec b Hb). congruence. Qed.

Lemma dh_agree t a b A B :
  group_ok t → 0 ≤ a → 0 ≤ b →
  dh_GetPublicValue t a = Ok A → dh_GetPublicValue t b = Ok B →
  1 < be_dec A < factor (dh_params t) - 1 → 1 < be_dec B < factor (dh_params t) - 1 →
  ∃ k, dh_GetSharedKey t a (be_dec B) = Ok k ∧ dh_GetSharedKey t b (be_dec A) = Ok k ∧
    len k = factorBytesLength (dh_params t).
Proof.
  intros Ht Ha Hb EA EB RA RB. pose proof Ht as [Hf _].
  destruct (dh_GetPublicValue_spec t a Ht Ha) as (A' & EA' & _ & _ & DA).
  destruct (dh_GetPublicValue_spec t b Ht Hb) as (B' & EB' & _ & _ & DB).
  assert (A' = A) as -> by congruence. assert (B' = B) as -> by congruence.
  destruct (dh_GetSharedKey_spec t a (be_dec B) Ht Ha RB) as (k & Ek & Lk & Bk & Dk).
  destruct (dh_GetSharedKey_spec t b (be_dec A) Ht Hb RA) as (k' & Ek' & Lk' & Bk' & Dk').
  exists k. split; [done|]. split; [|done]. rewrite Ek'. f_equal.
  apply be_dec_inj; [done..|unfold len in *; lia|].
  rewrite Dk, Dk', DA, DB, <- !Zpower_mod by lia.
  rewrite <- !Z.pow_mul_r by lia. do 2 f_equal. lia.
Qed.

(** ** Transforms *)

Lemma dh_transform_rt s t : dhTypes !! s = Some t → dh_DecodeTransform (dh_ToTransform t) = Some t.
Proof.
  assert (E2 : dhTypes !! DH_1024_BIT_MODP = Some (Dh1024BitModp group2))
    by (by rewrite dhTypes_eq, lookup_insert_eq).
  assert (E14 : dhTypes !! DH_2048_BIT_MODP = Some (DH2048BitModp group14))
    by (by rewrite dhTypes_eq, lookup_insert_ne, lookup_insert_eq).
  rewrite dhTypes_eq. intros [[_ <-]|[_ H]]%lookup_insert_Some; [exact E2|].
  apply lookup_insert_Some in H as [[_ <-]|[_ H]]; [exact E14|].
  by rewrite lookup_empty in H.
Qed.

Lemma group_len_pos t : group_ok t → 0 < factorBytesLength (dh_params t).
Proof.
  intros [Hf ->]. pose proof (big_bytes_len_range (factor (dh_params t)) ltac:(lia)).
  rewrite big_Bytes_eq, len_be_enc. destruct (big_bytes_len _); [|lia].
  change (256 ^ Z.of_nat 0) with 1 in *. lia.
Qed.

Lemma dh_GetSharedKey_inv t a B k :
  dh_GetSharedKey t a B = Ok k → 1 < B < factor (dh_params t) - 1.
Proof.
  rewrite dh_GetSharedKey_eq. destruct (_ || _) eqn:E; [done|]. intros _.
  rewrite Z.geb_leb in E. bools. lia.
Qed.

Lemma dh_DecodeTransform_ok tr t : dh_DecodeTransform tr = Some t → group_ok t.
Proof.
  unfold dh_DecodeTransform. destruct (dhString !! _); [|done]. cbv zeta.
  destruct (bool_decide _); [done|]. apply dhTypes_ok.
Qed.

(** ** Properties *)

(** C15: both sides of a Diffie-Hellman exchange in one of the groups compute
    the same shared key, of exactly the length of the group's prime, whenever
    neither public value is one of the values the code refuses. *)
Theorem DH_agreement s t a b A B :
  dh_StrToType s = Some t → 0 ≤ a → 0 ≤ b →
  dh_GetPublicValue t a = Ok A → dh_GetPublicValue t b = Ok B →
  1 < be_dec A < factor (dh_params t) - 1 → 1 < be_dec B < factor (dh_params t) - 1 →
  ∃ k, dh_GetSharedKey t a (be_dec B) = Ok k ∧ dh_GetSharedKey t b (be_dec A) = Ok k ∧
    len k = factorBytesLength (dh_params t) ∧
    be_dec k = generator (dh_params t) ^ (a * b) mod factor (dh_params t).
Proof.
  intros Hs Ha Hb EA EB RA RB. pose proof (dhTypes_ok s t Hs) as Ht. pose proof Ht as [Hf _].
  destruct (dh_agree t a b A B Ht Ha Hb EA EB RA RB) as (k & E1 & E2 & Hl).
  exists k. split_and!; [done..|].
  destruct (dh_GetSharedKey_spec t b (be_dec A) Ht Hb RA) as (k' & E2' & _ & _ & D).
  destruct (dh_GetPublicValue_spec t a Ht Ha) as (A' & EA' & _ & _ & DA).
  assert (k' = k) as -> by congruence. assert (A' = A) as -> by congruence.
  rewrite D, DA, <- Zpower_mod, <- Z.pow_mul_r by lia. done.
Qed.

Lemma DH_agreement_witness :
  ∃ A B k, dh_GetPublicValue (Dh1024BitModp group2) 5 = Ok A ∧
    dh_GetPublicValue (Dh1024BitModp group2) 7 = Ok B ∧
    dh_GetSharedKey (Dh1024BitModp group2) 5 (be_dec B) = Ok k ∧
    dh_GetSharedKey (Dh1024BitModp group2) 7 (be_dec A) = Ok k.
Proof.
  destruct (DH_agreement DH_1024_BIT_MODP (Dh1024BitModp group2) 5 7
    (make_bytes 127 ++ [32]) (make_bytes 127 ++ [128])) as (k & E1 & E2 & _).
  1: by rewrite dhTypes_lookup.
  1,2: lia.
  1,2: vm_compute; reflexivity.
  1,2: vm_compute; split; reflexivity.
  exists (make_bytes 127 ++ [32]), (make_bytes 127 ++ [128]), k.
  split; [vm_compute; reflexivity|]. split; [vm_compute; reflexivity|]. exact (conj E1 E2).
Defined.

(** The check of a peer's public value, and the length of what is
    computed. A value that is 0, 1, the prime less one, or outside the group
    is refused; every other one gives a shared key, and every secret a public
    value, padded with zeros to the length of the prime. *)
Theorem DH_values s t secret peer :
  dh_StrToType s = Some t → 0 ≤ secret →
  (∃ A, dh_GetPublicValue t secret = Ok A ∧ len A = factorBytesLength (dh_params t) ∧
     bytesb A = true ∧ be_dec A = generator (dh_params t) ^ secret mod factor (dh_params t)) ∧
  if (1 <? peer) && (peer <? factor (dh_params t) - 1) then
    ∃ k, dh_GetSharedKey t secret peer = Ok k ∧ len k = factorBytesLength (dh_params t) ∧
      bytesb k = true ∧ be_dec k = peer ^ secret mod factor (dh_params t)
  else dh_GetSharedKey t secret peer = Err "invalid DH public value.".
Proof.
  intros Hs Ha. pose proof (dhTypes_ok s t Hs) as Ht.
  split; [by apply dh_GetPublicValue_spec|].
  destruct (_ && _) eqn:E.
  - bools. by apply dh_GetSharedKey_spec.
  - rewrite dh_GetSharedKey_eq, Z.geb_leb. apply andb_false_iff in E as [E|E]; bools.
    + by ztests.
    + rewrite (proj2 (Z.leb_le (factor (dh_params t) - 1) peer)) by lia. by rewrite orb_true_r.
Qed.

Lemma DH_values_example :
  dh_GetSharedKey (Dh1024BitModp group2) 5 1 = Err "invalid DH public value." ∧
  ∃ k, dh_GetSharedKey (Dh1024BitModp group2) 5 2 = Ok k ∧ len k = 128.
Proof.
  split.
  - apply (DH_values DH_1024_BIT_MODP (Dh1024BitModp group2) 5 1); [by rewrite dhTypes_lookup|lia].
  - destruct (DH_values DH_1024_BIT_MODP (Dh1024BitModp group2) 5 2) as [_ H];
      [by rewrite dhTypes_lookup|lia|].
    destruct H as (k & E & L & _). exists k. exact (conj E L).
Defined.
