(* ===== verification/Prf.v ===== *)
(** * security/prf: the pseudo-random functions

    The registry of HMAC-SHA1 and HMAC-SHA2-256 as pseudo-random functions, by
    name and by transform, and the keyed hash each makes. *)

From S2P Require Import Prelude GoSlice Hash Types SecurityAssociation.

Definition PRF_HMAC_SHA1 : string := "PRF_HMAC_SHA1".
Definition PRF_HMAC_SHA2_256 : string := "PRF_HMAC_SHA2_256".

(** The two structs have the same fields, and each its own methods. *)
Record PrfLengths := MkPrfLengths { pr_keyLength : Z; pr_outputLength : Z }.

Definition PrfHmacSha1_TransformID (t : PrfLengths) : Z := Types.PRF_HMAC_SHA1.
Definition PrfHmacSha1_getAttribute (t : PrfLengths) : bool * Z * Z * option (list Z) :=
  (false, 0, 0, None).
Definition PrfHmacSha1_GetKeyLength (t : PrfLengths) : Z := pr_keyLength t.
Definition PrfHmacSha1_GetOutputLength (t : PrfLengths) : Z := pr_outputLength t.
Definition PrfHmacSha1_Init (t : PrfLengths) (key : list Z) : Hash := hmac_sha1_New key.

Definition PrfHmacSha2_256_TransformID (t : PrfLengths) : Z := Types.PRF_HMAC_SHA2_256.
Definition PrfHmacSha2_256_getAttribute (t : PrfLengths) : bool * Z * Z * option (list Z) :=
  (false, 0, 0, None).
Definition PrfHmacSha2_256_GetKeyLength (t : PrfLengths) : Z := pr_keyLength t.
Definition PrfHmacSha2_256_GetOutputLength (t : PrfLengths) : Z := pr_outputLength t.
Definition PrfHmacSha2_256_Init (t : PrfLengths) (key : list Z) : Hash := hmac_sha256_New key.

(** The interface [PRFType]. *)
Inductive PRFType :=
  | PrfHmacSha1 (t : PrfLengths)
  | PrfHmacSha2_256 (t : PrfLengths).

Definition prf_TransformID (t : PRFType) : Z :=
  match t with
  | PrfHmacSha1 t => PrfHmacSha1_TransformID t
  | PrfHmacSha2_256 t => PrfHmacSha2_256_TransformID t
  end.
Definition prf_getAttribute (t : PRFType) : bool * Z * Z * option (list Z) :=
  match t with
  | PrfHmacSha1 t => PrfHmacSha1_getAttribute t
  | PrfHmacSha2_256 t => PrfHmacSha2_256_getAttribute t
  end.
Definition prf_GetKeyLength (t : PRFType) : Z :=
  match t with
  | PrfHmacSha1 t => PrfHmacSha1_GetKeyLength t
  | PrfHmacSha2_256 t => PrfHmacSha2_256_GetKeyLength t
  end.
Definition prf_GetOutputLength (t : PRFType) : Z :=
  match t with
  | PrfHmacSha1 t => PrfHmacSha1_GetOutputLength t
  | PrfHmacSha2_256 t => PrfHmacSha2_256_GetOutputLength t
  end.
Definition prf_Init (t : PRFType) (key : list Z) : Hash :=
  match t with
  | PrfHmacSha1 t => PrfHmacSha1_Init t key
  | PrfHmacSha2_256 t => PrfHmacSha2_256_Init t key
  end.

Definition toString_PRF_HMAC_SHA1 (attrType intValue : Z) (bytesValue : list Z) : string :=
  PRF_HMAC_SHA1.
Definition toString_PRF_HMAC_SHA2_256 (attrType intValue : Z) (bytesValue : list Z) : string :=
  PRF_HMAC_SHA2_256.

Definition prfString : gmap Z (Z → Z → list Z → string) :=
  <[Types.PRF_HMAC_SHA1 := toString_PRF_HMAC_SHA1]>
  (<[Types.PRF_HMAC_SHA2_256 := toString_PRF_HMAC_SHA2_256]> ∅).
Definition prfTypes : gmap string PRFType :=
  <[PRF_HMAC_SHA1 := PrfHmacSha1 (MkPrfLengths 20 20)]> (<[PRF_HMAC_SHA2_256 := PrfHmacSha2_256 (MkPrfLengths 32 32)]> ∅).

Definition prf_StrToType (algo : string) : option PRFType := prfTypes !! algo.

Definition prf_DecodeTransform (t : Transform) : option PRFType :=
  match prfString !! t_TransformID t with
  | Some f =>
      let s := f (t_AttributeType t) (t_AttributeValue t) (t_VariableLengthAttributeValue t) in
      if bool_decide (s = "") then None else prfTypes !! s
  | None => None
  end.

Definition prf_ToTransform (prfType : PRFType) : Transform :=
  let '(present, ty, v, var) := prf_getAttribute prfType in
  MkTransform TypePseudorandomFunction (prf_TransformID prfType) present
    (if present && (match var with None => true | Some _ => false end)
     then AttributeFormatUseTV else 0) ty v (default [] var).

(** ** The supported functions *)

Lemma prfTypes_cases s t :
  prfTypes !! s = Some t → t = PrfHmacSha1 (MkPrfLengths 20 20) ∨ t = PrfHmacSha2_256 (MkPrfLengths 32 32).
Proof.
  unfold prfTypes. intros [[_ <-]|[_ H]]%lookup_insert_Some; [by left|].
  apply lookup_insert_Some in H as [[_ <-]|[_ H]]; [by right|]. by rewrite lookup_empty in H.
Qed.

Lemma prf_transform_rt s t : prfTypes !! s = Some t → prf_DecodeTransform (prf_ToTransform t) = Some t.
Proof. by intros [-> | ->]%prfTypes_cases. Qed.

(** A supported function: its object is well formed, and the lengths it
    declares are the length of its output. *)
Definition prf_ok (t : PRFType) : Prop :=
  0 < prf_GetKeyLength t ∧
  ∀ k, hash_ok (prf_Init t k) ∧ h_size (prf_Init t k) = prf_GetOutputLength t.

Lemma prfTypes_ok s t : prfTypes !! s = Some t → prf_ok t.
Proof.
  intros [-> | ->]%prfTypes_cases; split; try done; intros k; split; try done;
    [apply hmac_sha1_ok|apply hmac_sha256_ok].
Qed.

Lemma prf_DecodeTransform_ok tr t : prf_DecodeTransform tr = Some t → prf_ok t.
Proof.
  unfold prf_DecodeTransform. destruct (prfString !! _); [|done].
  cbv zeta. destruct (bool_decide _); [done|]. apply prfTypes_ok.
Qed.
