(* ===== verification/Integ.v ===== *)
(** * security/integ: the integrity algorithms

    The registries of HMAC-SHA1-96 and HMAC-SHA2-256-128, for IKE SAs and for
    child SAs, by name and by transform, and the keyed hash each makes. *)

From S2P Require Import Prelude GoSlice Hash Types SecurityAssociation.

Definition AUTH_HMAC_SHA1_96 : string := "AUTH_HMAC_SHA1_96".
Definition AUTH_HMAC_SHA2_256_128 : string := "AUTH_HMAC_SHA2_256_128".

(** The two structs have the same fields, and each its own methods. *)
Record HmacLengths := MkLengths { i_keyLength : Z; i_outputLength : Z }.

Definition AuthHmacSha1_96_TransformID (t : HmacLengths) : Z := Types.AUTH_HMAC_SHA1_96.
Definition AuthHmacSha1_96_getAttribute (t : HmacLengths) : bool * Z * Z * option (list Z) :=
  (false, 0, 0, None).
Definition AuthHmacSha1_96_GetKeyLength (t : HmacLengths) : Z := i_keyLength t.
Definition AuthHmacSha1_96_GetOutputLength (t : HmacLengths) : Z := i_outputLength t.
(** A key of another length gives a nil hash. *)
Definition AuthHmacSha1_96_Init (t : HmacLengths) (key : list Z) : option Hash :=
  if len key =? 20 then Some (hmac_sha1_New key) else None.

Definition AuthHmacSha2_256_128_TransformID (t : HmacLengths) : Z :=
  Types.AUTH_HMAC_SHA2_256_128.
Definition AuthHmacSha2_256_128_getAttribute (t : HmacLengths)
    : bool * Z * Z * option (list Z) := (false, 0, 0, None).
Definition AuthHmacSha2_256_128_GetKeyLength (t : HmacLengths) : Z := i_keyLength t.
Definition AuthHmacSha2_256_128_GetOutputLength (t : HmacLengths) : Z := i_outputLength t.
Definition AuthHmacSha2_256_128_Init (t : HmacLengths) (key : list Z) : option Hash :=
  if len key =? 32 then Some (hmac_sha256_New key) else None.

(** [INTEGType]; [INTEGKType] is the same structs behind fewer methods. *)
Inductive INTEGType :=
  | AuthHmacSha1_96 (t : HmacLengths)
  | AuthHmacSha2_256_128 (t : HmacLengths).

Definition integ_TransformID (t : INTEGType) : Z :=
  match t with
  | AuthHmacSha1_96 t => AuthHmacSha1_96_TransformID t
  | AuthHmacSha2_256_128 t => AuthHmacSha2_256_128_TransformID t
  end.
Definition integ_getAttribute (t : INTEGType) : bool * Z * Z * option (list Z) :=
  match t with
  | AuthHmacSha1_96 t => AuthHmacSha1_96_getAttribute t
  | AuthHmacSha2_256_128 t => AuthHmacSha2_256_128_getAttribute t
  end.
Definition integ_GetKeyLength (t : INTEGType) : Z :=
  match t with
  | AuthHmacSha1_96 t => AuthHmacSha1_96_GetKeyLength t
  | AuthHmacSha2_256_128 t => AuthHmacSha2_256_128_GetKeyLength t
  end.
Definition integ_GetOutputLength (t : INTEGType) : Z :=
  match t with
  | AuthHmacSha1_96 t => AuthHmacSha1_96_GetOutputLength t
  | AuthHmacSha2_256_128 t => AuthHmacSha2_256_128_GetOutputLength t
  end.
Definition integ_Init (t : INTEGType) (key : list Z) : option Hash :=
  match t with
  | AuthHmacSha1_96 t => AuthHmacSha1_96_Init t key
  | AuthHmacSha2_256_128 t => AuthHmacSha2_256_128_Init t key
  end.

Definition toString_AUTH_HMAC_SHA1_96 (attrType intValue : Z) (bytesValue : list Z) : string :=
  AUTH_HMAC_SHA1_96.
Definition toString_AUTH_HMAC_SHA2_256_128 (attrType intValue : Z) (bytesValue : list Z)
    : string := AUTH_HMAC_SHA2_256_128.

Definition integString : gmap Z (Z → Z → list Z → string) :=
  <[Types.AUTH_HMAC_SHA1_96 := toString_AUTH_HMAC_SHA1_96]>
  (<[Types.AUTH_HMAC_SHA2_256_128 := toString_AUTH_HMAC_SHA2_256_128]> ∅).
Definition integTypes : gmap string INTEGType :=
  <[AUTH_HMAC_SHA1_96 := AuthHmacSha1_96 (MkLengths 20 12)]>
  (<[AUTH_HMAC_SHA2_256_128 := AuthHmacSha2_256_128 (MkLengths 32 16)]> ∅).
Definition integKTypes : gmap string INTEGType :=
  <[AUTH_HMAC_SHA1_96 := AuthHmacSha1_96 (MkLengths 20 12)]>
  (<[AUTH_HMAC_SHA2_256_128 := AuthHmacSha2_256_128 (MkLengths 32 16)]> ∅).

Definition integ_StrToType (algo : string) : option INTEGType := integTypes !! algo.
Definition integ_StrToKType (algo : string) : option INTEGType := integKTypes !! algo.

Definition integ_DecodeTransform (t : Transform) : option INTEGType :=
  match integString !! t_TransformID t with
  | Some f =>
      let s := f (t_AttributeType t) (t_AttributeValue t) (t_VariableLengthAttributeValue t) in
      if bool_decide (s = "") then None else integTypes !! s
  | None => None
  end.
Definition integ_DecodeTransformChildSA (t : Transform) : option INTEGType :=
  match integString !! t_TransformID t with
  | Some f =>
      let s := f (t_AttributeType t) (t_AttributeValue t) (t_VariableLengthAttributeValue t) in
      if bool_decide (s = "") then None else integKTypes !! s
  | None => None
  end.

Definition integ_ToTransform (integType : INTEGType) : Transform :=
  let '(present, ty, v, var) := integ_getAttribute integType in
  MkTransform TypeIntegrityAlgorithm (integ_TransformID integType) present
    (if present && (match var with None => true | Some _ => false end) then 1 else 0)
    ty v (default [] var).
Definition integ_ToTransformChildSA (integKType : INTEGType) : Transform :=
  let '(present, ty, v, var) := integ_getAttribute integKType in
  MkTransform TypeIntegrityAlgorithm (integ_TransformID integKType) present
    (if present && (match var with None => true | Some _ => false end)
     then AttributeFormatUseTV else 0) ty v (default [] var).

(** ** The supported algorithms *)

Definition integ_supported (t : INTEGType) : Prop :=
  t = AuthHmacSha1_96 (MkLengths 20 12) ∨ t = AuthHmacSha2_256_128 (MkLengths 32 16).

Lemma integTypes_cases s t : integTypes !! s = Some t → integ_supported t.
Proof.
  unfold integTypes. intros [[_ <-]|[_ H]]%lookup_insert_Some; [by left|].
  apply lookup_insert_Some in H as [[_ <-]|[_ H]]; [by right|]. by rewrite lookup_empty in H.
Qed.

Lemma integ_DecodeTransform_supported tr t :
  integ_DecodeTransform tr = Some t → integ_supported t.
Proof.
  unfold integ_DecodeTransform. destruct (integString !! _); [|done].
  cbv zeta. destruct (bool_decide _); [done|]. apply integTypes_cases.
Qed.

Lemma integ_transform_rt t :
  integ_supported t →
  integ_DecodeTransform (integ_ToTransform t) = Some t ∧
  integ_DecodeTransformChildSA (integ_ToTransformChildSA t) = Some t.
Proof. by intros [-> | ->]. Qed.

(** With a key of its length, a supported algorithm has a hash whose output is
    at least as long as the checksum. *)
Lemma integ_Init_ok t key :
  integ_supported t → len key = integ_GetKeyLength t →
  ∃ h, integ_Init t key = Some h ∧ hash_ok h ∧ 0 < integ_GetOutputLength t ≤ h_size h.
Proof.
  intros [-> | ->] H; cbn in H; cbn [integ_Init];
    unfold AuthHmacSha1_96_Init, AuthHmacSha2_256_128_Init; rewrite H; eexists;
    (split; [reflexivity|]); (split; [|done]); [apply hmac_sha1_ok|apply hmac_sha256_ok].
Qed.
