(* ===== verification/Esn.v ===== *)
(** * security/esn: extended sequence numbers

    The registry of the two values of the transform, by name and by transform. *)

From S2P Require Import Prelude GoSlice Types SecurityAssociation.

Definition String_ESN_ENABLE : string := "ESN_ENABLE".
Definition String_ESN_DISABLE : string := "ESN_DISABLE".

Record ESN := MkESN { needESN : bool }.

Definition GetNeedESN (e : ESN) : bool := needESN e.
Definition esn_TransformID (e : ESN) : Z := if needESN e then ESN_ENABLE else ESN_DISABLE.
Definition esn_getAttribute (e : ESN) : bool * Z * Z * option (list Z) := (false, 0, 0, None).

Definition toString_ESN_ENABLE (attrType intValue : Z) (bytesValue : list Z) : string :=
  String_ESN_ENABLE.
Definition toString_ESN_DISABLE (attrType intValue : Z) (bytesValue : list Z) : string :=
  String_ESN_DISABLE.

Definition esnString : gmap Z (Z → Z → list Z → string) :=
  <[ESN_ENABLE := toString_ESN_ENABLE]> (<[ESN_DISABLE := toString_ESN_DISABLE]> ∅).
Definition esnTypes : gmap string ESN :=
  <[String_ESN_ENABLE := MkESN true]> (<[String_ESN_DISABLE := MkESN false]> ∅).

Definition esn_StrToType (algo : string) : res ESN :=
  match esnTypes !! algo with
  | Some t => Ok t
  | None => Err "ESN StrToType get unsupport string"
  end.

Definition esn_DecodeTransform (t : Transform) : res ESN :=
  match esnString !! t_TransformID t with
  | Some f =>
      let s := f (t_AttributeType t) (t_AttributeValue t) (t_VariableLengthAttributeValue t) in
      if bool_decide (s = "") then Err "ESN DecodeTransform get unsupport string"
      else wrap "ESN DecodeTransform: " (esn_StrToType s)
  | None => Err "ESN DecodeTransform get unsupport transform"
  end.

Definition esn_ToTransform (esnType : ESN) : Transform :=
  let '(present, ty, v, var) := esn_getAttribute esnType in
  MkTransform TypeExtendedSequenceNumbers (esn_TransformID esnType) present
    (if present && (match var with None => true | Some _ => false end)
     then AttributeFormatUseTV else 0) ty v (default [] var).

Lemma esn_transform_rt e : esn_DecodeTransform (esn_ToTransform e) = Ok e.
Proof. by destruct e as [[]]. Qed.
