(* ===== verification/Encr.v ===== *)
(** * security/encr, security/IKECrypto: AES-CBC

    [IKECrypto] is the interface through which the protocol encrypts: a record
    of its two methods, with the laws its clients rely on as a class.
    Encryption takes its padding and its initialization vector from the tape of
    random bytes. *)

From S2P Require Import Prelude GoSlice Aes Lib Types SecurityAssociation.

(** ** IKECrypto

    The plain text [Decrypt] returns is a window on a buffer that still holds
    the padding. *)
Record IKECrypto := MkCrypto {
  cr_Encrypt : list Z → tape → res (list Z * tape);
  cr_Decrypt : list Z → res slice
}.

(** Encrypting bytes with enough randomness succeeds, adds between one and
    [cr_overhead] bytes, and is undone by decrypting. *)
Class CryptoLaws (c : IKECrypto) (cr_overhead : Z) : Prop := {
  cr_total p r : bytesb p = true → bytesb r = true → cr_overhead ≤ len r →
    ∃ ct r', cr_Encrypt c p r = Ok (ct, r');
  cr_inverse p r ct r' : bytesb p = true → bytesb r = true →
    cr_Encrypt c p r = Ok (ct, r') →
    (∃ h, cr_Decrypt c ct = Ok (Slice p h)) ∧ bytesb ct = true ∧ bytesb r' = true ∧
    len p < len ct ≤ len p + cr_overhead
}.

(** ** EncrAesCbcCrypto *)

(** Nil [Iv] and [Padding] are [None]: [NewCrypto] leaves them nil. *)
Record EncrAesCbcCrypto := MkAesCrypto {
  ac_Block : Block;
  ac_Iv : option (list Z);
  ac_Padding : option (list Z)
}.

Definition EncrAesCbcCrypto_Encrypt (encr : EncrAesCbcCrypto) (plainText : list Z) (r : tape)
    : res (list Z * tape) :=
  '(plainText, r) ← match ac_Padding encr with
                    | None => wrap "Encr Encrypt(): " (PKCS7Padding plainText BlockSize r)
                    | Some padding => Ok (plainText ++ padding, r)
                    end;
  '(iv, r) ← match ac_Iv encr with
             | None =>
                 match rand_read BlockSize r with
                 | Err _ => Err "Read random initialization vector failed"
                 | x => x
                 end
             | Some iv => Ok (iv, r)
             end;
  c ← CBC_Encrypt (ac_Block encr) iv plainText;
  Ok (iv ++ c, r).

Definition EncrAesCbcCrypto_Decrypt (encr : EncrAesCbcCrypto) (cipherText : list Z)
    : res slice :=
  if len cipherText <? BlockSize then
    Err "EncrAesCbcCrypto: Length of cipher text is too short to decrypt"
  else
    iv ← match ac_Iv encr with
         | None => s ← sto (of_bytes cipherText) BlockSize; Ok (vis s)
         | Some iv => Ok iv
         end;
    encryptedMessage ← sfrom (of_bytes cipherText) BlockSize;
    if negb (slen encryptedMessage mod BlockSize =? 0) then
      Err "EncrAesCbcCrypto: Cipher text is not a multiple of block size"
    else
      plainText ← CBC_Decrypt (ac_Block encr) iv (vis encryptedMessage);
      last ← idx (of_bytes plainText) (len plainText - 1);
      let padding := last + 1 in
      if padding >? len plainText then
        Err "invalid padding length exceeds plaintext length"
      else
        sto (of_bytes plainText) (len plainText - padding).

(** The object behind the interface. *)
Definition aes_IKECrypto (encr : EncrAesCbcCrypto) : IKECrypto :=
  MkCrypto (EncrAesCbcCrypto_Encrypt encr) (EncrAesCbcCrypto_Decrypt encr).

(** ** EncrAesCbc *)

Definition ENCR_AES_CBC_128 : string := "ENCR_AES_CBC_128".
Definition ENCR_AES_CBC_192 : string := "ENCR_AES_CBC_192".
Definition ENCR_AES_CBC_256 : string := "ENCR_AES_CBC_256".

Definition toString_ENCR_AES_CBC (attrType intValue : Z) (bytesValue : list Z) : string :=
  if attrType =? AttributeTypeKeyLength then
    if intValue =? 128 then ENCR_AES_CBC_128
    else if intValue =? 192 then ENCR_AES_CBC_192
    else if intValue =? 256 then ENCR_AES_CBC_256
    else ""
  else "".

(** [ENCRType]; [ENCRKType] is the same struct behind fewer methods. *)
Record EncrAesCbc := MkEncrAesCbc { keyLength : Z }.

Definition encr_TransformID (t : EncrAesCbc) : Z := ENCR_AES_CBC.
Definition encr_getAttribute (t : EncrAesCbc) : res (bool * Z * Z * option (list Z)) :=
  let keyLengthBits := keyLength t * 8 in
  if (keyLengthBits <? 0) || (keyLengthBits >? 0xFFFF) then
    Err "key length exceeds uint16 maximum value"
  else Ok (true, AttributeTypeKeyLength, u16 keyLengthBits, None).
Definition encr_GetKeyLength (t : EncrAesCbc) : Z := keyLength t.
Definition encr_NewCrypto (t : EncrAesCbc) (key : list Z) : res IKECrypto :=
  if negb (len key =? keyLength t) then
    Err "EncrAesCbc init error: Get unexpected key length"
  else
    b ← wrap "EncrAesCbc init: Error occur when create new cipher: " (aes_NewCipher key);
    Ok (aes_IKECrypto (MkAesCrypto b None None)).

Definition encrString : gmap Z (Z → Z → list Z → string) :=
  <[ENCR_AES_CBC := toString_ENCR_AES_CBC]> ∅.
Definition encrTypes : gmap string EncrAesCbc :=
  <[ENCR_AES_CBC_128 := MkEncrAesCbc 16]> (<[ENCR_AES_CBC_192 := MkEncrAesCbc 24]>
  (<[ENCR_AES_CBC_256 := MkEncrAesCbc 32]> ∅)).
Definition encrKTypes : gmap string EncrAesCbc :=
  <[ENCR_AES_CBC_128 := MkEncrAesCbc 16]> (<[ENCR_AES_CBC_192 := MkEncrAesCbc 24]>
  (<[ENCR_AES_CBC_256 := MkEncrAesCbc 32]> ∅)).

Definition encr_StrToType (algo : string) : option EncrAesCbc := encrTypes !! algo.
Definition encr_StrToKType (algo : string) : option EncrAesCbc := encrKTypes !! algo.

Definition encr_DecodeTransform (t : Transform) : option EncrAesCbc :=
  match encrString !! t_TransformID t with
  | Some f =>
      let s := f (t_AttributeType t) (t_AttributeValue t) (t_VariableLengthAttributeValue t) in
      if bool_decide (s = "") then None else encrTypes !! s
  | None => None
  end.
Definition encr_DecodeTransformChildSA (t : Transform) : option EncrAesCbc :=
  match encrString !! t_TransformID t with
  | Some f =>
      let s := f (t_AttributeType t) (t_AttributeValue t) (t_VariableLengthAttributeValue t) in
      if bool_decide (s = "") then None else encrKTypes !! s
  | None => None
  end.

Definition encr_ToTransform (encrType : EncrAesCbc) : res Transform :=
  '(present, ty, v, var) ← wrap "ToTransform: " (encr_getAttribute encrType);
  Ok (MkTransform TypeEncryptionAlgorithm (encr_TransformID encrType) present
    (if present && (match var with None => true | Some _ => false end)
     then AttributeFormatUseTV else 0) ty v (default [] var)).
Definition encr_ToTransformChildSA (encrKType : EncrAesCbc) : res Transform :=
  '(present, ty, v, var) ← wrap "ToTransformChildSA: " (encr_getAttribute encrKType);
  Ok (MkTransform TypeEncryptionAlgorithm (encr_TransformID encrKType) present
    (if present && (match var with None => true | Some _ => false end)
     then AttributeFormatUseTV else 0) ty v (default [] var)).

(** ** The supported key lengths *)

Definition encr_supported (t : EncrAesCbc) : Prop :=
  t = MkEncrAesCbc 16 ∨ t = MkEncrAesCbc 24 ∨ t = MkEncrAesCbc 32.

Lemma encrTypes_cases s t : encrTypes !! s = Some t → encr_supported t.
Proof.
  unfold encrTypes, encr_supported. intros H.
  repeat (apply lookup_insert_Some in H as [[_ <-]|[_ H]]; [auto|]). by rewrite lookup_empty in H.
Qed.

Lemma encr_DecodeTransform_supported tr t :
  encr_DecodeTransform tr = Some t → encr_supported t.
Proof.
  unfold encr_DecodeTransform. destruct (encrString !! _); [|done].
  cbv zeta. destruct (bool_decide _); [done|]. apply encrTypes_cases.
Qed.
Lemma encr_transform_rt t :
  encr_supported t →
  ∃ tr, encr_ToTransform t = Ok tr ∧ encr_ToTransformChildSA t = Ok tr ∧
    encr_DecodeTransform tr = Some t ∧ encr_DecodeTransformChildSA tr = Some t.
Proof. intros [-> | [-> | ->]]; eexists; split_and!; reflexivity. Qed.

Lemma encr_NewCrypto_total t key :
  encr_supported t → len key = keyLength t → bytesb key = true →
  ∃ b, encr_NewCrypto t key = Ok (aes_IKECrypto (MkAesCrypto b None None)) ∧ BlockLaws b.
Proof.
  intros Ht Hk Hb. unfold encr_NewCrypto. rewrite Hk, Z.eqb_refl. cbn [negb].
  destruct (aes_NewCipher_total key) as [b Eb].
  { rewrite Hk. destruct Ht as [-> | [-> | ->]]; auto. }
  exists b. rewrite Eb. split; [done|]. by eapply aes_NewCipher_laws.
Qed.

(** ** The laws of AES-CBC *)
Section aes_cbc.
Context (b : Block) {HB : BlockLaws b}.
Let encr := MkAesCrypto b None None.

Lemma aes_Encrypt_inv p r c r' :
  bytesb p = true → bytesb r = true → EncrAesCbcCrypto_Encrypt encr p r = Ok (c, r') →
  ∃ iv pad q, blk iv ∧ q = len pad ∧ 0 ≤ q < 16 ∧ bytesb (pad ++ [q]) = true ∧
    len (p ++ pad ++ [q]) mod 16 = 0 ∧ bytesb r' = true ∧
    c = iv ++ cbc_enc b (length (p ++ pad ++ [q]) / 16) iv (p ++ pad ++ [q]).
Proof.
  intros Hp Hr H. unfold EncrAesCbcCrypto_Encrypt in H. cbn [ac_Padding ac_Iv ac_Block encr] in H.
  inv_res. destruct a as [pt r1].
  apply PKCS7Padding_inv in E as (pad & q & -> & Hq & Hq' & Hm & Hb & Hr1); [|done..].
  inv_res. destruct a as [iv r2].
  destruct (rand_read BlockSize r1) as [[x y]| | |] eqn:Er; try discriminate E.
  injection E as -> ->. apply rand_read_inv in Er as [-> Hiv]; [|done].
  rewrite bytesb_app in Hr1. bools. inv_res.
  unfold BlockSize in *.
  exists iv, pad, (len pad). split_and!; try done; [lia|lia|by bsplit|].
  unfold CBC_Encrypt, BlockSize in E. rewrite Hiv, Hm in E. injection E as <-. done.
Qed.

Lemma aes_Encrypt_total p r :
  bytesb p = true → bytesb r = true → 32 ≤ len r →
  ∃ ct r', EncrAesCbcCrypto_Encrypt encr p r = Ok (ct, r').
Proof.
  intros Hp Hr Hl. unfold EncrAesCbcCrypto_Encrypt. cbn [ac_Padding ac_Iv ac_Block encr].
  destruct (PKCS7Padding_total p BlockSize r) as (out & r1 & E); [done|unfold BlockSize; lia|].
  pose proof E as E'. apply PKCS7Padding_inv in E' as (pad & q & -> & Hq & Hq' & Hm & Hb & Hr1);
    [|done..].
  rewrite E. cbn [wrap mbind res_bind].
  assert (Hr2 : 16 ≤ len r1).
  { unfold PKCS7Padding in E. destruct (_ =? 0); [done|]. cbv zeta in E.
    destruct (_ || _) eqn:Eo; [done|]. inv_res. destruct a as [t r2].
    apply rand_read_inv in E0 as [-> Ht]; [|bools; lia]. inv_res. rewrite len_app in Hl.
    enough (len t ≤ 16) by lia.
    match type of Ht with len t = (if ?c then _ else _) => destruct c end; [by rewrite Ht|].
    rewrite Ht. unfold BlockSize.
    pose proof (Z.rem_bound_pos (len p) 16 (len_nonneg p)). lia. }
  unfold BlockSize. rewrite rand_read_ok by lia. cbn [mbind res_bind].
  unfold CBC_Encrypt, BlockSize.
  replace (len (take (Z.to_nat 16) r1)) with 16
    by (unfold len in *; rewrite length_take; lia).
  unfold BlockSize in Hm. rewrite Hm. cbn [Z.eqb Pos.eqb negb mbind res_bind]. eauto.
Qed.

Lemma aes_Decrypt_Encrypt p r c r' :
  bytesb p = true → bytesb r = true → EncrAesCbcCrypto_Encrypt encr p r = Ok (c, r') →
  (∃ h, EncrAesCbcCrypto_Decrypt encr c = Ok (Slice p h)) ∧ bytesb c = true ∧ bytesb r' = true ∧
  len p < len c ≤ len p + 32.
Proof.
  intros Hp Hr (iv & pad & q & [Liv Biv] & Hq & Hq' & Hb & Hm & Hr' & ->)%aes_Encrypt_inv;
    [|done..].
  set (pt := p ++ pad ++ [q]) in *.
  assert (Hpt : bytesb pt = true) by (unfold pt; by rewrite bytesb_app, Hp).
  assert (Hn : len pt = 16 * Z.of_nat (length pt / 16)).
  { unfold len in *. rewrite Nat2Z.inj_div. Z.div_mod_to_equations; lia. }
  destruct (len_cbc_enc b (length pt / 16) iv pt) as [Lc Bc]; [done..|].
  set (c := cbc_enc b (length pt / 16) iv pt) in *.
  assert (Lpt : len pt = len p + q + 1) by (unfold pt; rewrite !len_app, len_cons, len_nil; lia).
  pose proof (len_nonneg p). unfold BlockSize in Liv.
  split; [|split; [by rewrite bytesb_app, Biv, Bc|split; [done|rewrite len_app; lia]]].
  exists ((pad ++ [q]) ++ []).
  unfold EncrAesCbcCrypto_Decrypt, BlockSize. cbn [ac_Iv ac_Block encr].
  rewrite len_app, Liv. ztests. unfold sto. rd_sub [] iv c. rd_step.
  rd_from iv c. rd_step. unfold slen. cbn [vis]. rewrite Lc, Hm. cbn [Z.eqb negb].
  unfold CBC_Decrypt, BlockSize. rewrite Liv, Lc, Hm. cbn [Z.eqb Pos.eqb negb mbind res_bind].
  replace (length c) with (length pt) by (unfold len in Lc; lia).
  unfold c. rewrite cbc_dec_enc by done.
  rewrite (idx_at (p ++ pad) q []); [|cbn [vis of_bytes]; unfold pt; by rewrite <- app_assoc|].
  2: { rewrite len_app. lia. }
  cbn [mbind res_bind]. rewrite Z.gtb_ltb. ztests.
  replace (len pt - (q + 1)) with (len p) by lia.
  by rewrite (sub_at [] p (pad ++ [q])) by done.
Qed.

#[export] Instance aes_CryptoLaws : CryptoLaws (aes_IKECrypto encr) 32.
Proof.
  split; intros p r; [|intros ct r'].
  - apply aes_Encrypt_total.
  - apply aes_Decrypt_Encrypt.
Qed.
End aes_cbc.

(** ** Cipher texts that are refused, and the one that panics *)

(** Sixteen bytes: an initialization vector and no block, so the padding length
    is read before the start of the plain text. *)
Lemma aes_Decrypt_iv_only encr c :
  ac_Iv encr = None → len c = 16 → EncrAesCbcCrypto_Decrypt encr c = Panic.
Proof.
  intros Hiv Hl. unfold EncrAesCbcCrypto_Decrypt, BlockSize. rewrite Hl, Hiv. cbn [Z.ltb Z.compare Pos.compare Pos.compare_cont].
  unfold sto. rewrite sub_ok by (unfold scap; cbn [vis hid of_bytes]; rewrite ?len_nil; lia).
  cbn [mbind res_bind vis hid of_bytes]. rewrite sfrom_ok by (unfold slen; cbn [vis of_bytes]; lia).
  cbn [mbind res_bind vis hid of_bytes].
  assert (drop (Z.to_nat 16) c = []) as ->.
  { apply drop_ge. unfold len in Hl. lia. }
  unfold slen. cbn [vis]. change (len [] mod 16 =? 0) with true. cbn [negb].
  unfold CBC_Decrypt, BlockSize. replace (len (take _ _)) with 16.
  - reflexivity.
  - unfold len in *. rewrite length_take, length_drop, app_nil_r. lia.
Qed.

Lemma split_block (c : list Z) : 16 ≤ len c → ∃ iv ct, c = iv ++ ct ∧ len iv = 16.
Proof.
  intros H. exists (take 16 c), (drop 16 c). split; [by rewrite take_drop|].
  unfold len in *. rewrite length_take. lia.
Qed.

(** Sixteen bytes and at least one block: the decrypted bytes end in a padding
    length, which is checked. *)
Lemma aes_Decrypt_blocks b c :
  BlockLaws b → bytesb c = true → 16 < len c → (len c - 16) mod 16 = 0 →
  returns (EncrAesCbcCrypto_Decrypt (MkAesCrypto b None None) c).
Proof.
  intros HB Hb Hl Hm. destruct (split_block c) as (iv & ct & -> & Liv); [lia|].
  rewrite bytesb_app in Hb. bools. rewrite len_app, Liv in Hl, Hm.
  replace (16 + len ct - 16) with (len ct) in Hm by lia.
  unfold EncrAesCbcCrypto_Decrypt, BlockSize. cbn [ac_Iv ac_Block].
  rewrite len_app, Liv. pose proof (len_nonneg ct). ztests. unfold of_bytes.
  rewrite key_sto by done. rd_step. rewrite key_sfrom by done. rd_step.
  unfold slen. cbn [vis]. rewrite Hm. cbn [Z.eqb negb].
  unfold CBC_Decrypt, BlockSize. rewrite Liv, Hm. cbn [Z.eqb Pos.eqb negb mbind res_bind].
  destruct (len_cbc_dec b (length ct / 16) iv ct) as [Lp Bp]; [done| |done|].
  { unfold len in *. rewrite Nat2Z.inj_div. Z.div_mod_to_equations; lia. }
  set (pt := cbc_dec _ _ _ _) in *. apply bind_returns.
  { apply idx_returns. unfold slen. cbn [vis of_bytes]. lia. }
  intros q Eq. apply (idx_range (of_bytes pt)) in Eq; [|done]. unfold u8b in Eq. bools.
  destruct (_ >? _) eqn:Eg; [exact I|]. rewrite Z.gtb_ltb in Eg. bools.
  apply sub_returns; [lia|]. unfold slen. cbn [vis of_bytes]. lia.
Qed.

(** ** Properties *)

(** C16: AES-CBC, as the interface [IKECrypto] needs it. For each supported key
    length and every key of that length, [NewCrypto] gives an object that
    encrypts every plain text, taking padding and initialization vector from
    the random bytes, and decrypts the result to the plain text; the cipher
    text is 17 to 32 bytes longer, in whole blocks. *)
Theorem EncrAesCbc_round_trip t key :
  encr_supported t → len key = keyLength t → bytesb key = true →
  ∃ c, encr_NewCrypto t key = Ok c ∧
    ∀ p r, bytesb p = true → bytesb r = true → 32 ≤ len r →
      ∃ ct r', cr_Encrypt c p r = Ok (ct, r') ∧ (∃ h, cr_Decrypt c ct = Ok (Slice p h)) ∧
        len p + 16 < len ct ≤ len p + 32 ∧ len ct mod 16 = 0.
Proof.
  intros Ht Hk Hb. destruct (encr_NewCrypto_total t key Ht Hk Hb) as (b & E & HB).
  exists (aes_IKECrypto (MkAesCrypto b None None)). split; [done|]. intros p r Bp Br Lr.
  destruct (aes_Encrypt_total b p r Bp Br Lr) as (ct & r' & Ect). exists ct, r'.
  split; [done|]. destruct (aes_Decrypt_Encrypt b p r ct r' Bp Br Ect) as (Hd & _ & _ & _).
  split; [done|].
  destruct (aes_Encrypt_inv b p r ct r' Bp Br Ect)
    as (iv & pad & q & [Liv Biv] & Hq & Hq' & Bpad & Hm & _ & ->).
  assert (Hn : len (p ++ pad ++ [q]) = 16 * Z.of_nat (length (p ++ pad ++ [q]) / 16)).
  { unfold len in *. rewrite Nat2Z.inj_div. Z.div_mod_to_equations; lia. }
  destruct (len_cbc_enc b (length (p ++ pad ++ [q]) / 16) iv (p ++ pad ++ [q])) as [Lc _];
    [done|done|by rewrite bytesb_app, Bp|].
  rewrite len_app, Lc, Liv. unfold BlockSize.
  assert (len (p ++ pad ++ [q]) = len p + (q + 1)) as E2
    by (rewrite !len_app, len_cons; change (len (@nil Z)) with 0; lia).
  split; [lia|]. rewrite <- Zplus_mod_idemp_r, Hm. done.
Qed.

Lemma EncrAesCbc_round_trip_witness :
  ∃ c ct r', encr_NewCrypto (MkEncrAesCbc 16) (make_bytes 16) = Ok c ∧
    cr_Encrypt c [1; 2; 3] (make_bytes 32) = Ok (ct, r') ∧ ∃ h, cr_Decrypt c ct = Ok (Slice [1; 2; 3] h).
Proof.
  destruct (EncrAesCbc_round_trip (MkEncrAesCbc 16) (make_bytes 16)) as (c & E & H);
    [by left|reflexivity|reflexivity|].
  destruct (H [1; 2; 3] (make_bytes 32) eq_refl eq_refl) as (ct & r' & E1 & E2 & _);
    [vm_compute; discriminate|].
  exists c, ct, r'. exact (conj E (conj E1 E2)).
Defined.

(** C29: what decryption does with every cipher text. Less than a block, or not
    whole blocks, is an error; the initialization vector alone panics, since
    the padding length is read before the start of an empty plain text; the
    rest returns. *)
Theorem EncrAesCbcCrypto_Decrypt_outcome t key c :
  encr_supported t → len key = keyLength t → bytesb key = true → bytesb c = true →
  ∃ d, encr_NewCrypto t key = Ok d ∧
    if len c <? 16 then
      cr_Decrypt d c = Err "EncrAesCbcCrypto: Length of cipher text is too short to decrypt"
    else if negb (len c mod 16 =? 0) then
      cr_Decrypt d c = Err "EncrAesCbcCrypto: Cipher text is not a multiple of block size"
    else if len c =? 16 then cr_Decrypt d c = Panic
    else returns (cr_Decrypt d c).
Proof.
  intros Ht Hk Hb Hc. destruct (encr_NewCrypto_total t key Ht Hk Hb) as (b & E & HB).
  exists (aes_IKECrypto (MkAesCrypto b None None)). split; [done|].
  cbn [aes_IKECrypto cr_Decrypt]. destruct (Z.ltb_spec (len c) 16) as [?|H16].
  { unfold EncrAesCbcCrypto_Decrypt, BlockSize. by ztests. }
  assert (Em : (len c - 16) mod 16 = len c mod 16).
  { replace (len c - 16) with (len c + (-1) * 16) by lia. by rewrite Z.mod_add. }
  destruct (Z.eqb_spec (len c mod 16) 0) as [Hm|Hm]; cbn [negb].
  - destruct (Z.eqb_spec (len c) 16) as [E16|]; [by apply aes_Decrypt_iv_only|].
    apply aes_Decrypt_blocks; [done|done|lia|by rewrite Em].
  - destruct (split_block c) as (iv & ct & -> & Liv); [lia|].
    unfold EncrAesCbcCrypto_Decrypt, BlockSize. cbn [ac_Iv ac_Block]. ztests.
    unfold sto. rd_sub [] iv ct. rd_step. rd_from iv ct. rd_step. unfold slen. cbn [vis].
    rewrite len_app, Liv in Em, Hm. replace (16 + len ct - 16) with (len ct) in Em by lia.
    rewrite Em. by ztests.
Qed.

Lemma EncrAesCbcCrypto_Decrypt_outcome_witness :
  ∃ d, encr_NewCrypto (MkEncrAesCbc 16) (make_bytes 16) = Ok d ∧ cr_Decrypt d (make_bytes 16) = Panic.
Proof.
  apply (EncrAesCbcCrypto_Decrypt_outcome (MkEncrAesCbc 16) (make_bytes 16) (make_bytes 16));
    [by left|reflexivity..].
Defined.
