(* ===== verification/Security.v ===== *)
(** * security/security.go: keys of an IKE SA and of its child SAs

    Interface values and pointers that the code compares with nil are options.
    The hash objects of an IKE SA are mutable: deriving keys for a child SA
    returns the IKE SA with its [Prf_d] as the call leaves it. *)

From stdpp Require Import pretty.
From S2P Require Import Prelude GoSlice Hash Aes Lib Types Codec SecurityAssociation Dh Prf.
From S2P Require Import Integ Esn Encr.

(** ** Random numbers *)

(** [crypto/rand.Int(rand.Reader, max)]: as many bytes as [max-1] has, the
    excess bits of the first one cleared, until the number is below [max]. *)
Fixpoint rand_Int_loop (fuel : nat) (k b max : Z) (r : tape) : res (Z * tape) :=
  match fuel with
  | O => Diverge
  | S fuel =>
      '(bytes, r) ← rand_read k r;
      let n := be_dec (match bytes with
                       | x :: l => Z.land x (u8 (2 ^ b - 1)) :: l
                       | [] => []
                       end) in
      if n <? max then Ok (n, r) else rand_Int_loop fuel k b max r
  end.
Definition rand_Int (max : Z) (r : tape) : res (Z * tape) :=
  if max <=? 0 then Panic
  else if max =? 1 then Ok (0, r)
  else
    let bitLen := Z.log2 (max - 1) + 1 in
    let k := (bitLen + 7) / 8 in
    let b := if bitLen mod 8 =? 0 then 8 else bitLen mod 8 in
    rand_Int_loop (S (length r)) k b max r.

(** [strings.Repeat(s, n)] *)
Fixpoint strings_Repeat (s : string) (n : nat) : string :=
  match n with O => EmptyString | S n => s +:+ strings_Repeat s n end.

(** Set by [init]: 512 and 32 hexadecimal digits. *)
Definition randomNumberMaximum : Z := default 0 (big_SetString16 (strings_Repeat "F" 512)).
Definition randomNumberMinimum : Z := default 0 (big_SetString16 (strings_Repeat "F" 32)).

Fixpoint GenerateRandomNumber_loop (fuel : nat) (r : tape) : res (Z * tape) :=
  match fuel with
  | O => Diverge
  | S fuel =>
      '(number, r) ← wrap "GenerateRandomNumber(): Error occurs when generate random number: "
                       (rand_Int randomNumberMaximum r);
      if number >? randomNumberMinimum then Ok (number, r)
      else GenerateRandomNumber_loop fuel r
  end.
Definition GenerateRandomNumber (r : tape) : res (Z * tape) :=
  GenerateRandomNumber_loop (S (length r)) r.

Definition GenerateRandomUint8 (r : tape) : res (Z * tape) :=
  '(number, r) ← wrap "Read random failed: " (rand_read 1 r);
  x ← idx (of_bytes number) 0;
  Ok (x, r).

(** ** IKE SA keys *)

Definition concatenateNonceAndSPI (nonce : list Z) (spi_initiator spi_responder : Z)
    : list Z :=
  nonce ++ be_enc 8 spi_initiator ++ be_enc 8 spi_responder.

Record IKESAKey := MkIKESAKey {
  DhInfo : option DHType;
  EncrInfo : option EncrAesCbc;
  IntegInfo : option INTEGType;
  PrfInfo : option PRFType;
  Prf_d : option Hash;
  Integ_i : option Hash;
  Integ_r : option Hash;
  Encr_i : option IKECrypto;
  Encr_r : option IKECrypto;
  Prf_i : option Hash;
  Prf_r : option Hash;
  SK_d : list Z;
  SK_ai : list Z;
  SK_ar : list Z;
  SK_ei : list Z;
  SK_er : list Z;
  SK_pi : list Z;
  SK_pr : list Z
}.

(** An IKE SA with its algorithms and nothing else. *)
Definition with_infos (dh : option DHType) (encr : option EncrAesCbc)
    (integ : option INTEGType) (prf : option PRFType) : IKESAKey :=
  MkIKESAKey dh encr integ prf None None None None None None None [] [] [] [] [] [] [].

(** The escape [\n] of a Go string. *)
Definition newline : string := String (Ascii.ascii_of_nat 10) "".

(** [hex.EncodeToString] and [strconv.FormatUint(n, 10)] *)
Definition hex_char (n : Z) : string :=
  default "" (String.get (Z.to_nat n) "0123456789abcdef" ≫= λ a, Some (String a "")).
Definition hex_EncodeToString (b : list Z) : string :=
  foldr (λ x s, hex_char (x / 16) +:+ hex_char (x mod 16) +:+ s) "" b.
Definition FormatUint (n : Z) : string := pretty n.

(** [IKESAKey.String]: a nil encryption or integrity type panics. *)
Definition IKESAKey_String (k : IKESAKey) : res string :=
  encr ← deref (EncrInfo k);
  integ ← deref (IntegInfo k);
  Ok (newline +:+ "Encryption Algorithm: " +:+ FormatUint (encr_TransformID encr) +:+
      newline +:+ "SK_ei: " +:+ hex_EncodeToString (SK_ei k) +:+
      newline +:+ "SK_er: " +:+ hex_EncodeToString (SK_er k) +:+
      newline +:+ "Integrity Algorithm: " +:+ FormatUint (integ_TransformID integ) +:+
      newline +:+ "SK_ai: " +:+ hex_EncodeToString (SK_ai k) +:+
      newline +:+ "SK_ar: " +:+ hex_EncodeToString (SK_ar k) +:+
      newline +:+ "SK_pi: " +:+ hex_EncodeToString (SK_pi k) +:+
      newline +:+ "SK_pr: " +:+ hex_EncodeToString (SK_pr k) +:+
      newline +:+ "SK_d : " +:+ hex_EncodeToString (SK_d k) +:+ newline).

Definition IKESAKey_ToProposal (k : IKESAKey) : res Proposal :=
  dh ← deref (DhInfo k);
  let dhT := dh_ToTransform dh in
  prf ← deref (PrfInfo k);
  let prfT := prf_ToTransform prf in
  encr ← deref (EncrInfo k);
  encrT ← wrap "IKESAKey ToProposal: " (encr_ToTransform encr);
  integ ← deref (IntegInfo k);
  Ok (MkProposal 0 TypeIKE [] [encrT] [prfT] [integ_ToTransform integ] [dhT] []).

Definition CalculateDiffieHellmanMaterials (k : IKESAKey) (peerPublicValue : list Z) (r : tape)
    : res (list Z * list Z * tape) :=
  '(secret, r) ← wrap "CalculateDiffieHellmanMaterials(): " (GenerateRandomNumber r);
  dh ← deref (DhInfo k);
  sharedKey ← wrap "CalculateDiffieHellmanMaterials() failed to get shared key: "
                (dh_GetSharedKey dh secret (be_dec peerPublicValue));
  pub ← dh_GetPublicValue dh secret;
  Ok (pub, sharedKey, r).

(** [GenerateKeyForIKESA]: SKEYSEED, then the seven keys cut from prf+. *)
Definition GenerateKeyForIKESA (k : option IKESAKey)
    (concatenatedNonce diffieHellmanSharedKey : list Z) (initiatorSPI responderSPI : Z)
    : res IKESAKey :=
  match k with
  | None => Err "IKE SA is nil"
  | Some k =>
  match EncrInfo k, IntegInfo k, PrfInfo k, DhInfo k with
  | None, _, _, _ => Err "No encryption algorithm specified"
  | _, None, _, _ => Err "No integrity algorithm specified"
  | _, _, None, _ => Err "No pseudorandom function specified"
  | _, _, _, None => Err "No Diffie-hellman group algorithm specified"
  | Some encr, Some integ, Some prfInfo, Some _ =>
    if len concatenatedNonce =? 0 then Err "No concatenated nonce data"
    else if len diffieHellmanSharedKey =? 0 then Err "No Diffie-Hellman shared key"
    else
      let length_SK_d := prf_GetKeyLength prfInfo in
      let length_SK_ai := integ_GetKeyLength integ in
      let length_SK_ar := length_SK_ai in
      let length_SK_ei := encr_GetKeyLength encr in
      let length_SK_er := length_SK_ei in
      let length_SK_pi := length_SK_d in
      let length_SK_pr := length_SK_d in
      let totalKeyLength := length_SK_d + length_SK_ai + length_SK_ar + length_SK_ei +
                            length_SK_er + length_SK_pi + length_SK_pr in
      let prf := Hash_Write (prf_Init prfInfo concatenatedNonce) diffieHellmanSharedKey in
      let skeyseed := Hash_Sum prf [] in
      let seed := concatenateNonceAndSPI concatenatedNonce initiatorSPI responderSPI in
      '(keyStream, _) ← PrfPlus (prf_Init prfInfo skeyseed) seed totalKeyLength;
      match keyStream with
      | None => Err "Error happened in PrfPlus"
      | Some keyStream =>
          let s := of_bytes keyStream in
          skd ← sto s length_SK_d; s ← sfrom s length_SK_d;
          skai ← sto s length_SK_ai; s ← sfrom s length_SK_ai;
          skar ← sto s length_SK_ar; s ← sfrom s length_SK_ar;
          skei ← sto s length_SK_ei; s ← sfrom s length_SK_ei;
          sker ← sto s length_SK_er; s ← sfrom s length_SK_er;
          skpi ← sto s length_SK_pi; s ← sfrom s length_SK_pi;
          skpr ← sto s length_SK_pr;
          ci ← encr_NewCrypto encr (vis skei);
          cr ← encr_NewCrypto encr (vis sker);
          Ok (MkIKESAKey (DhInfo k) (EncrInfo k) (IntegInfo k) (PrfInfo k)
                (Some (prf_Init prfInfo (vis skd)))
                (integ_Init integ (vis skai)) (integ_Init integ (vis skar))
                (Some ci) (Some cr)
                (Some (prf_Init prfInfo (vis skpi))) (Some (prf_Init prfInfo (vis skpr)))
                (vis skd) (vis skai) (vis skar) (vis skei) (vis sker) (vis skpi) (vis skpr))
      end
  end
  end.

Definition NewIKESAKey (proposal : option Proposal) (keyExchangeData concatenatedNonce : list Z)
    (initiatorSPI responderSPI : Z) (r : tape) : res (IKESAKey * list Z * tape) :=
  match proposal with
  | None => Err "NewIKESAKey : proposal is nil"
  | Some p =>
      match p_DiffieHellmanGroup p, p_EncryptionAlgorithm p, p_IntegrityAlgorithm p,
            p_PseudorandomFunction p with
      | [], _, _, _ => Err "NewIKESAKey : DiffieHellmanGroup is nil"
      | _, [], _, _ => Err "NewIKESAKey : EncryptionAlgorithm is nil"
      | _, _, [], _ => Err "NewIKESAKey : IntegrityAlgorithm is nil"
      | _, _, _, [] => Err "NewIKESAKey : PseudorandomFunction is nil"
      | dhT :: _, encrT :: _, integT :: _, prfT :: _ =>
          let dh := dh_DecodeTransform dhT in
          if bool_decide (dh = None) then Err "NewIKESAKey : Get unsupport DiffieHellmanGroup"
          else
            let encr := encr_DecodeTransform encrT in
            if bool_decide (encr = None) then
              Err "NewIKESAKey : Get unsupport EncryptionAlgorithm"
            else
              let integ := integ_DecodeTransform integT in
              (* the code tests [EncrInfo] again *)
              if bool_decide (encr = None) then
                Err "NewIKESAKey : Get unsupport IntegrityAlgorithm"
              else
                let prf := prf_DecodeTransform prfT in
                if bool_decide (prf = None) then
                  Err "NewIKESAKey : Get unsupport PseudorandomFunction"
                else
                  let k := with_infos dh encr integ prf in
                  '(localPublicValue, sharedKeyData, r) ←
                     wrap "NewIKESAKey: " (CalculateDiffieHellmanMaterials k keyExchangeData r);
                  k ← wrap "NewIKESAKey: "
                        (GenerateKeyForIKESA (Some k) concatenatedNonce sharedKeyData
                           initiatorSPI responderSPI);
                  Ok (k, localPublicValue, r)
      end
  end.

(** ** Child SA keys *)

Record ChildSAKey := MkChildSAKey {
  c_SPI : Z;
  c_DhInfo : option DHType;
  c_EncrKInfo : option EncrAesCbc;
  c_IntegKInfo : option INTEGType;
  c_EsnInfo : ESN;
  InitiatorToResponderEncryptionKey : list Z;
  ResponderToInitiatorEncryptionKey : list Z;
  InitiatorToResponderIntegrityKey : list Z;
  ResponderToInitiatorIntegrityKey : list Z
}.

Definition child_infos (dh : option DHType) (encr : option EncrAesCbc)
    (integ : option INTEGType) (esn : ESN) : ChildSAKey :=
  MkChildSAKey 0 dh encr integ esn [] [] [] [].

Definition ChildSAKey_ToProposal (k : ChildSAKey) : res Proposal :=
  let dhT := match c_DhInfo k with Some dh => [dh_ToTransform dh] | None => [] end in
  encr ← deref (c_EncrKInfo k);
  encrT ← wrap "ChildSAKey ToProposal: " (encr_ToTransformChildSA encr);
  let integT := match c_IntegKInfo k with
                | Some integ => [integ_ToTransformChildSA integ]
                | None => []
                end in
  Ok (MkProposal 0 TypeESP [] [encrT] [] integT dhT [esn_ToTransform (c_EsnInfo k)]).

Definition NewChildSAKeyByProposal (proposal : option Proposal) : res ChildSAKey :=
  match proposal with
  | None => Err "NewChildSAKeyByProposal : proposal is nil"
  | Some p =>
      match p_EncryptionAlgorithm p, p_IntegrityAlgorithm p, p_ExtendedSequenceNumbers p with
      | [], _, _ => Err "NewChildSAKeyByProposal : EncryptionAlgorithm is nil"
      | _, [], _ => Err "NewChildSAKeyByProposal : IntegrityAlgorithm is nil"
      | _, _, [] => Err "NewChildSAKeyByProposal : ExtendedSequenceNumbers is nil"
      | encrT :: _, _, esnT :: _ =>
          dh ← match p_DiffieHellmanGroup p with
               | [dhT] =>
                   match dh_DecodeTransform dhT with
                   | None => Err "NewChildSAKeyByProposal : Get unsupport DiffieHellmanGroup"
                   | dh => Ok dh
                   end
               | _ => Ok None
               end;
          encr ← match encr_DecodeTransformChildSA encrT with
                 | None => Err "NewChildSAKeyByProposal : Get unsupport EncryptionAlgorithm"
                 | encr => Ok encr
                 end;
          integ ← match p_IntegrityAlgorithm p with
                  | [integT] =>
                      match integ_DecodeTransformChildSA integT with
                      | None => Err "NewChildSAKeyByProposal : Get unsupport IntegrityAlgorithm"
                      | integ => Ok integ
                      end
                  | _ => Ok None
                  end;
          esn ← wrap "NewChildSAKeyByProposal: " (esn_DecodeTransform esnT);
          Ok (child_infos dh encr integ esn)
      end
  end.

(** [GenerateKeyForChildSA]: the four keys are appended to what the child SA
    holds. *)
Definition GenerateKeyForChildSA (child : option ChildSAKey) (ikeSA : option IKESAKey)
    (concatenatedNonce : list Z) : res (ChildSAKey * IKESAKey) :=
  match ikeSA, child with
  | None, _ => Err "IKE SA is nil"
  | _, None => Err "Child SA is nil"
  | Some sa, Some c =>
      match PrfInfo sa, c_EncrKInfo c, Prf_d sa with
      | None, _, _ => Err "No pseudorandom function specified"
      | _, None, _ => Err "No encryption algorithm specified"
      | _, _, None => Err "No key deriving key"
      | Some _, Some encr, Some prf_d =>
          let lengthEncryptionKeyIPSec := encr_GetKeyLength encr in
          let lengthIntegrityKeyIPSec :=
            match c_IntegKInfo c with Some integ => integ_GetKeyLength integ | None => 0 end in
          let totalKeyLength := (lengthEncryptionKeyIPSec + lengthIntegrityKeyIPSec) * 2 in
          '(keyStream, prf_d) ← PrfPlus prf_d concatenatedNonce totalKeyLength;
          let sa := MkIKESAKey (DhInfo sa) (EncrInfo sa) (IntegInfo sa) (PrfInfo sa)
                      (Some prf_d) (Integ_i sa) (Integ_r sa) (Encr_i sa) (Encr_r sa)
                      (Prf_i sa) (Prf_r sa) (SK_d sa) (SK_ai sa) (SK_ar sa) (SK_ei sa)
                      (SK_er sa) (SK_pi sa) (SK_pr sa) in
          match keyStream with
          | None => Err "Error happened in PrfPlus"
          | Some keyStream =>
              let s := of_bytes keyStream in
              ei ← sto s lengthEncryptionKeyIPSec; s ← sfrom s lengthEncryptionKeyIPSec;
              ai ← sto s lengthIntegrityKeyIPSec; s ← sfrom s lengthIntegrityKeyIPSec;
              er ← sto s lengthEncryptionKeyIPSec; s ← sfrom s lengthEncryptionKeyIPSec;
              ar ← sto s lengthIntegrityKeyIPSec;
              Ok (MkChildSAKey (c_SPI c) (c_DhInfo c) (c_EncrKInfo c) (c_IntegKInfo c) (c_EsnInfo c)
                    (InitiatorToResponderEncryptionKey c ++ vis ei)
                    (ResponderToInitiatorEncryptionKey c ++ vis er)
                    (InitiatorToResponderIntegrityKey c ++ vis ai)
                    (ResponderToInitiatorIntegrityKey c ++ vis ar), sa)
          end
      end
  end.

(** ** Certificates *)
Definition CompareRootCertificate (ca : list Z) (certificateEncoding : Z)
    (requestedCertificateAuthorityHash : list Z) : bool :=
  if negb (certificateEncoding =? X509CertificateSignature) then false
  else if len ca =? 0 then false
  else bool_decide (ca = requestedCertificateAuthorityHash).

(** ** Random numbers: range and termination *)

Lemma rand_Int_loop_spec fuel k b max r :
  0 < k → (length r < fuel)%nat →
  match rand_Int_loop fuel k b max r with
  | Ok (n, r') => n < max ∧ (length r' < length r)%nat ∧ ∃ used, r = used ++ r'
  | Err _ => True
  | _ => False
  end.
Proof.
  intros Hk. revert r. induction fuel as [|fuel IH]; intros r Hf; [lia|].
  cbn [rand_Int_loop]. destruct (rand_read k r) as [[bytes r1]|e| |] eqn:E; cbn [mbind res_bind];
    [|exact I|..].
  - apply rand_read_inv in E as [-> Hl]; [|lia]. rewrite length_app in *. unfold len in Hl.
    destruct (Z.ltb_spec (be_dec (match bytes with
      | [] => [] | x :: l => Z.land x (u8 (2 ^ b - 1)) :: l end)) max) as [Hn|_].
    + split; [done|]. split; [lia|]. by exists bytes.
    + specialize (IH r1 ltac:(lia)). destruct (rand_Int_loop fuel k b max r1) as [[n r2]| | |];
        [|done..]. destruct IH as (? & ? & used & ->). split; [done|]. split; [lia|].
      exists (bytes ++ used). by rewrite app_assoc.
  - unfold rand_read in E. by destruct (_ <=? _).
  - unfold rand_read in E. by destruct (_ <=? _).
Qed.

Lemma rand_Int_spec max r :
  2 < max →
  match rand_Int max r with
  | Ok (n, r') => n < max ∧ (length r' < length r)%nat ∧ ∃ used, r = used ++ r'
  | Err _ => True
  | _ => False
  end.
Proof.
  intros Hm. unfold rand_Int. ztests. apply rand_Int_loop_spec; [|lia].
  pose proof (Z.log2_nonneg (max - 1)). Z.div_mod_to_equations; lia.
Qed.

Lemma random_bounds : 2 < randomNumberMaximum ∧ 0 < randomNumberMinimum.
Proof. split; vm_compute; reflexivity. Qed.
#[global] Opaque randomNumberMaximum randomNumberMinimum.

(** The number is in the open interval of the code; a tape that runs out is an
    error, so the loop always ends. *)
Lemma GenerateRandomNumber_loop_spec fuel r :
  (length r < fuel)%nat →
  match GenerateRandomNumber_loop fuel r with
  | Ok (n, r') => randomNumberMinimum < n < randomNumberMaximum ∧ ∃ used, r = used ++ r'
  | Err _ => True
  | _ => False
  end.
Proof.
  revert r. induction fuel as [|fuel IH]; intros r Hf; [lia|]. cbn [GenerateRandomNumber_loop].
  pose proof (rand_Int_spec randomNumberMaximum r (proj1 random_bounds)) as H.
  destruct (rand_Int randomNumberMaximum r) as [[n r1]|e| |]; cbn [wrap mbind res_bind]; try done.
  destruct H as (Hn & Hl & used & ->). rewrite Z.gtb_ltb.
  destruct (Z.ltb_spec randomNumberMinimum n) as [Hgt|_].
  - split; [done|]. by exists used.
  - rewrite length_app in *. specialize (IH r1 ltac:(lia)).
    destruct (GenerateRandomNumber_loop fuel r1) as [[n2 r2]| | |]; [|done..].
    destruct IH as (? & used' & ->). split; [done|]. exists (used ++ used'). by rewrite app_assoc.
Qed.

Lemma GenerateRandomNumber_spec r :
  match GenerateRandomNumber r with
  | Ok (n, r') => randomNumberMinimum < n < randomNumberMaximum ∧ ∃ used, r = used ++ r'
  | Err _ => True
  | _ => False
  end.
Proof. unfold GenerateRandomNumber. apply GenerateRandomNumber_loop_spec. lia. Qed.

(** ** Cutting the key stream *)

(** [s[:n]] and [s[n:]] where the first [n] bytes are known. *)
Lemma split_at (l : list Z) n :
  0 ≤ n ≤ len l → bytesb l = true →
  ∃ a b, l = a ++ b ∧ len a = n ∧ bytesb a = true ∧ bytesb b = true.
Proof.
  intros Hn Hb. exists (take (Z.to_nat n) l), (drop (Z.to_nat n) l).
  split; [by rewrite take_drop|]. split; [unfold len in *; rewrite length_take; lia|].
  split; [by apply bytesb_take|by apply bytesb_drop].
Qed.

Ltac inv_forall2 H :=
  repeat match type of H with
  | Forall2 _ _ (_ :: _) =>
      let k := fresh "k" in let ks := fresh "ks" in
      let H1 := fresh "HF" in
      apply Forall2_cons_inv_r in H as (k & ks & [? ?] & H1 & ->); rename H1 into H
  end; apply Forall2_nil_inv_r in H as ->.

(** A key stream cut into pieces of the given lengths. *)
Lemma split_keys (ns : list Z) (l : list Z) :
  Forall (λ n, 0 ≤ n) ns → len l = foldr Z.add 0 ns → bytesb l = true →
  ∃ ks, l = concat ks ∧ Forall2 (λ k n, len k = n ∧ bytesb k = true) ks ns.
Proof.
  intros Hns. revert l. induction Hns as [|n ns Hn Hns IH]; intros l Hl Hb.
  - exists []. apply len_zero_nil in Hl as ->. by split.
  - cbn [foldr] in Hl.
    assert (Hsum : 0 ≤ foldr Z.add 0 ns) by (clear -Hns; induction Hns; cbn; lia).
    destruct (split_at l n) as (a & b & -> & Ha & Ba & Bb); [lia|done|].
    rewrite len_app in Hl. destruct (IH b) as (ks & -> & HF); [lia|done|].
    exists (a :: ks). split; [done|]. by constructor.
Qed.

(** ** What an IKE SA promises to the protocol *)

(** An integrity hash whose output is at least the checksum. *)
Definition integ_ok (h : option Hash) (out : Z) : Prop :=
  ∃ g, h = Some g ∧ hash_ok g ∧ 0 < out ≤ h_size g.

Definition crypto_ok (c : option IKECrypto) : Prop := ∃ d, c = Some d ∧ CryptoLaws d 32.

Definition sa_ok (k : IKESAKey) : Prop :=
  is_Some (EncrInfo k) ∧
  (∃ t, IntegInfo k = Some t ∧ 0 < integ_GetOutputLength t ≤ 16 ∧
     integ_ok (Integ_i k) (integ_GetOutputLength t) ∧
     integ_ok (Integ_r k) (integ_GetOutputLength t)) ∧
  crypto_ok (Encr_i k) ∧ crypto_ok (Encr_r k).

(** The key stream of RFC 7296, section 2.14. *)
Definition ike_seed (prf : PRFType) (nonce shared : list Z) : list Z :=
  h_fun (prf_Init prf nonce) shared.
Definition ike_stream (prf : PRFType) (nonce shared : list Z) (spii spir : Z) (n : Z) : list Z :=
  prf_plus (h_fun (prf_Init prf (ike_seed prf nonce shared)))
    (concatenateNonceAndSPI nonce spii spir) n.

Definition ike_key_lengths (prf : PRFType) (integ : INTEGType) (encr : EncrAesCbc) : Z :=
  3 * prf_GetKeyLength prf + 2 * integ_GetKeyLength integ + 2 * encr_GetKeyLength encr.

(** The seven keys are the consecutive pieces of the stream. *)
Definition keys_from (k : IKESAKey) (p a e : Z) (s : list Z) : Prop :=
  s = SK_d k ++ SK_ai k ++ SK_ar k ++ SK_ei k ++ SK_er k ++ SK_pi k ++ SK_pr k ∧
  len (SK_d k) = p ∧ len (SK_ai k) = a ∧ len (SK_ar k) = a ∧ len (SK_ei k) = e ∧
  len (SK_er k) = e ∧ len (SK_pi k) = p ∧ len (SK_pr k) = p.

(** Each object of the IKE SA is made from the key of its name. *)
Definition objects_from (k : IKESAKey) (prf : PRFType) (integ : INTEGType) (encr : EncrAesCbc)
    : Prop :=
  Prf_d k = Some (prf_Init prf (SK_d k)) ∧ Prf_i k = Some (prf_Init prf (SK_pi k)) ∧
  Prf_r k = Some (prf_Init prf (SK_pr k)) ∧ Integ_i k = integ_Init integ (SK_ai k) ∧
  Integ_r k = integ_Init integ (SK_ar k) ∧
  (∃ ci, Encr_i k = Some ci ∧ encr_NewCrypto encr (SK_ei k) = Ok ci) ∧
  (∃ cr, Encr_r k = Some cr ∧ encr_NewCrypto encr (SK_er k) = Ok cr).

Lemma ike_stream_bytes prf nonce shared spii spir n :
  prf_ok prf → 0 ≤ n →
  len (ike_stream prf nonce shared spii spir n) = n ∧
  bytesb (ike_stream prf nonce shared spii spir n) = true.
Proof.
  intros [_ Hh] Hn. destruct (Hh (ike_seed prf nonce shared)) as [Hok _].
  split; [by apply len_prf_plus|by apply bytesb_prf_plus].
Qed.

(** The keys, cut from the stream of RFC 7296, section 2.14. *)
Lemma ike_keys_split prf integ encr nonce shared spii spir :
  prf_ok prf → integ_supported integ → encr_supported encr →
  ∃ d ai ar ei er pi pr,
    ike_stream prf nonce shared spii spir (ike_key_lengths prf integ encr) =
      d ++ ai ++ ar ++ ei ++ er ++ pi ++ pr ∧
    len d = prf_GetKeyLength prf ∧ len ai = integ_GetKeyLength integ ∧
    len ar = integ_GetKeyLength integ ∧ len ei = encr_GetKeyLength encr ∧
    len er = encr_GetKeyLength encr ∧ len pi = prf_GetKeyLength prf ∧
    len pr = prf_GetKeyLength prf ∧ bytesb ei = true ∧ bytesb er = true.
Proof.
  intros Hp Si Se. pose proof Hp as [Hp0 _].
  assert (Ha : 0 < integ_GetKeyLength integ) by (by destruct Si as [-> | ->]).
  assert (He : 0 < encr_GetKeyLength encr) by (by destruct Se as [-> | [-> | ->]]).
  set (p := prf_GetKeyLength prf) in *. set (a := integ_GetKeyLength integ) in *.
  set (e := encr_GetKeyLength encr) in *.
  destruct (ike_stream_bytes prf nonce shared spii spir (ike_key_lengths prf integ encr) Hp)
    as [Hl Hb]; [unfold ike_key_lengths; lia|].
  destruct (split_keys [p; a; a; e; e; p; p]
    (ike_stream prf nonce shared spii spir (ike_key_lengths prf integ encr)))
    as (ks & Eks & HF); [repeat constructor; lia| |done|].
  { rewrite Hl. unfold ike_key_lengths. cbn [foldr]. lia. }
  inv_forall2 HF. exists k, k0, k1, k2, k3, k4, k5. rewrite Eks. cbn [concat].
  rewrite app_nil_r. by split_and!.
Qed.

Lemma GenerateKeyForIKESA_spec k dh encr integ prf nonce shared spii spir :
  DhInfo k = Some dh → EncrInfo k = Some encr → IntegInfo k = Some integ → PrfInfo k = Some prf →
  encr_supported encr → integ_supported integ → prf_ok prf →
  len nonce ≠ 0 → len shared ≠ 0 →
  ∃ k', GenerateKeyForIKESA (Some k) nonce shared spii spir = Ok k' ∧
    DhInfo k' = Some dh ∧ EncrInfo k' = Some encr ∧ IntegInfo k' = Some integ ∧
    PrfInfo k' = Some prf ∧
    keys_from k' (prf_GetKeyLength prf) (integ_GetKeyLength integ) (encr_GetKeyLength encr)
      (ike_stream prf nonce shared spii spir (ike_key_lengths prf integ encr)) ∧
    objects_from k' prf integ encr ∧ sa_ok k'.
Proof.
  intros Hdh Hencr Hinteg Hprf Se Si Hpo Hn Hs. pose proof Hpo as [Hp Hh].
  unfold GenerateKeyForIKESA. rewrite Hencr, Hinteg, Hprf, Hdh. ztests. cbv zeta.
  destruct (ike_keys_split prf integ encr nonce shared spii spir Hpo Si Se)
    as (d & ai & ar & ei & er & pi & pr & Es & Ld & Lai & Lar & Lei & Ler & Lpi & Lpr & Bei & Ber).
  replace (prf_GetKeyLength prf + _ + _ + _ + _ + _ + _) with (ike_key_lengths prf integ encr)
    by (unfold ike_key_lengths; lia).
  assert (0 < ike_key_lengths prf integ encr).
  { unfold ike_key_lengths. destruct Si as [-> | ->], Se as [-> | [-> | ->]]; cbn; lia. }
  destruct (Hh (Hash_Sum (Hash_Write (prf_Init prf nonce) shared) [])) as [Hok _].
  destruct (PrfPlus_spec _ (concatenateNonceAndSPI nonce spii spir)
    (ike_key_lengths prf integ encr) Hok) as (h' & _ & ->); [done|].
  cbn [mbind res_bind].
  replace (prf_plus _ _ _) with (d ++ ai ++ ar ++ ei ++ er ++ pi ++ pr).
  2: { rewrite <- Es. unfold ike_stream, ike_seed, Hash_Sum. by destruct prf. }
  unfold of_bytes.
  do 6 (rewrite key_sto by done; cbn [mbind res_bind]; rewrite key_sfrom by done;
        cbn [mbind res_bind]).
  rewrite key_last by done. cbn [mbind res_bind vis].
  destruct (encr_NewCrypto_total encr ei) as (bi & Ei & Li); [done..|].
  destruct (encr_NewCrypto_total encr er) as (br & Er & Lr); [done..|]. rewrite Ei, Er.
  cbn [mbind res_bind]. eexists. split; [reflexivity|]. cbn.
  do 4 (split; [done|]). split; [by unfold keys_from|].
  split; [unfold objects_from; cbn; by eauto 12|].
  split; [by eexists|]. split.
  - destruct (integ_Init_ok integ ai Si Lai) as (gi & Egi & Oi & Si').
    destruct (integ_Init_ok integ ar Si Lar) as (gr & Egr & Or & Sr').
    exists integ. cbn. split; [done|]. split; [by destruct Si as [-> | ->]|].
    rewrite Egi, Egr. split; [by exists gi|by exists gr].
  - split; eexists; (split; [reflexivity|]); by apply aes_CryptoLaws.
Qed.

(** ** NewIKESAKey *)

(** The context NewIKESAKey builds carries the algorithms of the proposal. *)
Lemma NewIKESAKey_inv p ke nonce spii spir r k pub r' :
  NewIKESAKey (Some p) ke nonce spii spir r = Ok (k, pub, r') →
  ∃ dh encr integ prf secret shared dhT encrT integT prfT,
    head (p_DiffieHellmanGroup p) = Some dhT ∧ head (p_EncryptionAlgorithm p) = Some encrT ∧
    head (p_IntegrityAlgorithm p) = Some integT ∧
    head (p_PseudorandomFunction p) = Some prfT ∧
    dh_DecodeTransform dhT = Some dh ∧ encr_DecodeTransform encrT = Some encr ∧
    integ_DecodeTransform integT = Some integ ∧ prf_DecodeTransform prfT = Some prf ∧
    GenerateRandomNumber r = Ok (secret, r') ∧
    dh_GetPublicValue dh secret = Ok pub ∧
    dh_GetSharedKey dh secret (be_dec ke) = Ok shared ∧
    GenerateKeyForIKESA (Some (with_infos (Some dh) (Some encr) (Some integ) (Some prf)))
      nonce shared spii spir = Ok k.
Proof.
  unfold NewIKESAKey. destruct (p_DiffieHellmanGroup p) as [|dhT ?]; [done|].
  destruct (p_EncryptionAlgorithm p) as [|encrT ?]; [done|].
  destruct (p_IntegrityAlgorithm p) as [|integT ?]; [done|].
  destruct (p_PseudorandomFunction p) as [|prfT ?]; [done|]. cbv zeta.
  destruct (dh_DecodeTransform dhT) as [dh|] eqn:Edh; [|done].
  destruct (encr_DecodeTransform encrT) as [encr|] eqn:Een; [|done].
  destruct (prf_DecodeTransform prfT) as [prf|] eqn:Ep; [|done].
  cbn [bool_decide decide_rel]. intros H.
  repeat (case_bool_decide; [done|]).
  apply bind_Ok_inv in H as ([[pub' shared] r1] & E & H). apply wrap_Ok_inv in E.
  apply bind_Ok_inv in H as (k' & Ek & H). apply wrap_Ok_inv in Ek. injection H as -> -> ->.
  unfold CalculateDiffieHellmanMaterials in E.
  apply bind_Ok_inv in E as ([secret r2] & Er & E). apply wrap_Ok_inv in Er.
  cbn [with_infos DhInfo deref mbind res_bind] in E.
  apply bind_Ok_inv in E as (sh & Es & E). apply wrap_Ok_inv in Es.
  apply bind_Ok_inv in E as (pb & Epb & E). injection E as -> -> ->.
  destruct (integ_DecodeTransform integT) as [integ|] eqn:Ei; [|done].
  exists dh, encr, integ, prf, secret, shared, dhT, encrT, integT, prfT. by split_and!.
Qed.

(** And it is built for every proposal whose first transforms are supported. *)
Lemma NewIKESAKey_ok p ke nonce spii spir r secret r' dhT encrT integT prfT dhTs encrTs integTs prfTs
    dh encr integ prf :
  p_DiffieHellmanGroup p = dhT :: dhTs → p_EncryptionAlgorithm p = encrT :: encrTs →
  p_IntegrityAlgorithm p = integT :: integTs → p_PseudorandomFunction p = prfT :: prfTs →
  dh_DecodeTransform dhT = Some dh → encr_DecodeTransform encrT = Some encr →
  integ_DecodeTransform integT = Some integ → prf_DecodeTransform prfT = Some prf →
  GenerateRandomNumber r = Ok (secret, r') → 1 < be_dec ke < factor (dh_params dh) - 1 →
  len nonce ≠ 0 →
  ∃ k pub shared,
    NewIKESAKey (Some p) ke nonce spii spir r = Ok (k, pub, r') ∧ sa_ok k ∧
    be_dec pub = generator (dh_params dh) ^ secret mod factor (dh_params dh) ∧
    len pub = factorBytesLength (dh_params dh) ∧
    be_dec shared = be_dec ke ^ secret mod factor (dh_params dh) ∧
    len shared = factorBytesLength (dh_params dh) ∧
    keys_from k (prf_GetKeyLength prf) (integ_GetKeyLength integ) (encr_GetKeyLength encr)
      (ike_stream prf nonce shared spii spir (ike_key_lengths prf integ encr)) ∧
    objects_from k prf integ encr.
Proof.
  intros E1 E2 E3 E4 D1 D2 D3 D4 Er Hke Hn.
  pose proof (dh_DecodeTransform_ok _ _ D1) as Hok. pose proof Hok as [Hf _].
  pose proof (GenerateRandomNumber_spec r) as HR. rewrite Er in HR. destruct HR as [HR _].
  pose proof random_bounds as [_ Hmin].
  destruct (dh_GetPublicValue_spec dh secret Hok ltac:(lia)) as (pub & Epub & Lpub & _ & Dpub).
  destruct (dh_GetSharedKey_spec dh secret (be_dec ke) Hok ltac:(lia) Hke)
    as (shared & Esh & Lsh & _ & Dsh).
  destruct (GenerateKeyForIKESA_spec (with_infos (Some dh) (Some encr) (Some integ) (Some prf))
    dh encr integ prf nonce shared spii spir eq_refl eq_refl eq_refl eq_refl)
    as (k & Ek & _ & _ & _ & _ & Hkeys & Hobj & Hk).
  { by eapply encr_DecodeTransform_supported. }
  { by eapply integ_DecodeTransform_supported. }
  { by eapply prf_DecodeTransform_ok. }
  { done. }
  { rewrite Lsh. apply group_len_pos in Hok. lia. }
  exists k, pub, shared. split; [|by split_and!].
  unfold NewIKESAKey. rewrite E1, E2, E3, E4. cbv zeta. rewrite D1, D2, D3, D4.
  do 3 (rewrite bool_decide_eq_false_2 by done).
  unfold CalculateDiffieHellmanMaterials. rewrite Er. cbn [wrap mbind res_bind].
  cbn [with_infos DhInfo deref mbind res_bind]. rewrite Esh. cbn [wrap mbind res_bind].
  rewrite Epub. cbn [mbind res_bind wrap]. rewrite Ek. reflexivity.
Qed.

(** ** Child SA *)

(** The IKE SA with another state of its key deriving hash. *)
Definition with_prf_d (k : IKESAKey) (h : Hash) : IKESAKey :=
  MkIKESAKey (DhInfo k) (EncrInfo k) (IntegInfo k) (PrfInfo k) (Some h)
    (Integ_i k) (Integ_r k) (Encr_i k) (Encr_r k) (Prf_i k) (Prf_r k)
    (SK_d k) (SK_ai k) (SK_ar k) (SK_ei k) (SK_er k) (SK_pi k) (SK_pr k).

(** [Prf_d] is the negotiated function under SK_d, in whatever state the hash is. *)
Definition keyed_with_SK_d (k : IKESAKey) (prf : PRFType) : Prop :=
  ∃ h, Prf_d k = Some h ∧ same_hash (prf_Init prf (SK_d k)) h.

Lemma hash_ok_same h0 h : same_hash h0 h → hash_ok h0 → hash_ok h.
Proof. unfold hash_ok. by intros [-> ->]. Qed.

Lemma GenerateKeyForChildSA_spec c sa encr prf prf_d nonce :
  PrfInfo sa = Some prf → c_EncrKInfo c = Some encr → Prf_d sa = Some prf_d →
  encr_supported encr → (∀ t, c_IntegKInfo c = Some t → integ_supported t) → hash_ok prf_d →
  let el := encr_GetKeyLength encr in
  let al := match c_IntegKInfo c with Some t => integ_GetKeyLength t | None => 0 end in
  ∃ c' sa' ei ai er ar,
    GenerateKeyForChildSA (Some c) (Some sa) nonce = Ok (c', sa') ∧
    prf_plus (h_fun prf_d) nonce ((el + al) * 2) = ei ++ ai ++ er ++ ar ∧
    len ei = el ∧ len ai = al ∧ len er = el ∧ len ar = al ∧
    InitiatorToResponderEncryptionKey c' = InitiatorToResponderEncryptionKey c ++ ei ∧
    InitiatorToResponderIntegrityKey c' = InitiatorToResponderIntegrityKey c ++ ai ∧
    ResponderToInitiatorEncryptionKey c' = ResponderToInitiatorEncryptionKey c ++ er ∧
    ResponderToInitiatorIntegrityKey c' = ResponderToInitiatorIntegrityKey c ++ ar ∧
    c_SPI c' = c_SPI c ∧ c_DhInfo c' = c_DhInfo c ∧ c_EncrKInfo c' = c_EncrKInfo c ∧
    c_IntegKInfo c' = c_IntegKInfo c ∧ c_EsnInfo c' = c_EsnInfo c ∧
    ∃ h, sa' = with_prf_d sa h ∧ same_hash prf_d h.
Proof.
  intros Hp He Hd Se Si Hok el al. unfold GenerateKeyForChildSA. rewrite Hp, He, Hd. cbv zeta.
  fold el al.
  assert (Hel : 0 < el) by (unfold el; by destruct Se as [-> | [-> | ->]]).
  assert (Hal : 0 ≤ al).
  { unfold al. destruct (c_IntegKInfo c) as [t|]; [|done].
    by destruct (Si t eq_refl) as [-> | ->]. }
  destruct (PrfPlus_spec prf_d nonce ((el + al) * 2) Hok) as (h & Hh & ->); [lia|].
  cbn [mbind res_bind].
  set (s := prf_plus _ _ _).
  destruct (split_keys [el; al; el; al] s) as (ks & Eks & HF).
  { repeat constructor; lia. }
  { unfold s. rewrite len_prf_plus by (done || lia). cbn [foldr]. lia. }
  { by apply bytesb_prf_plus. }
  inv_forall2 HF. cbn [concat] in Eks. rewrite app_nil_r in Eks. rewrite Eks. unfold of_bytes.
  do 3 (rewrite key_sto by done; cbn [mbind res_bind]; rewrite key_sfrom by done;
        cbn [mbind res_bind]).
  rewrite key_last by done. cbn [mbind res_bind vis].
  eexists _, _, k, k0, k1, k2. split; [reflexivity|]. cbn.
  split_and!; try done. exists h. split; [|done]. unfold with_prf_d. by rewrite Hp.
Qed.

(** ** Proposals and back *)

Lemma NewChildSAKeyByProposal_ToProposal k encr integ :
  c_EncrKInfo k = Some encr → encr_supported encr →
  c_IntegKInfo k = Some integ → integ_supported integ →
  (∀ t, c_DhInfo k = Some t → ∃ s, dh_StrToType s = Some t) →
  ∃ p, ChildSAKey_ToProposal k = Ok p ∧
    NewChildSAKeyByProposal (Some p) =
      Ok (child_infos (c_DhInfo k) (Some encr) (Some integ) (c_EsnInfo k)).
Proof.
  intros He Se Hi Si Hd. unfold ChildSAKey_ToProposal. rewrite He, Hi. cbn [deref mbind res_bind].
  destruct (encr_transform_rt encr Se) as (tr & _ & -> & _ & Etr). cbn [wrap mbind res_bind].
  eexists. split; [reflexivity|]. unfold NewChildSAKeyByProposal.
  cbn [p_EncryptionAlgorithm p_IntegrityAlgorithm p_ExtendedSequenceNumbers p_DiffieHellmanGroup].
  rewrite Etr. destruct (integ_transform_rt integ Si) as [_ ->].
  destruct (c_DhInfo k) as [t|].
  - destruct (Hd t eq_refl) as [s Hs]. rewrite (dh_transform_rt s t Hs).
    cbn [mbind res_bind]. by rewrite esn_transform_rt.
  - cbn [mbind res_bind]. by rewrite esn_transform_rt.
Qed.

Lemma IKESAKey_ToProposal_decodes k dh encr integ prf s1 s2 :
  DhInfo k = Some dh → EncrInfo k = Some encr → IntegInfo k = Some integ → PrfInfo k = Some prf →
  dh_StrToType s1 = Some dh → prf_StrToType s2 = Some prf →
  encr_supported encr → integ_supported integ →
  ∃ p dhT encrT integT prfT, IKESAKey_ToProposal k = Ok p ∧
    p_ProtocolID p = TypeIKE ∧
    p_DiffieHellmanGroup p = [dhT] ∧ dh_DecodeTransform dhT = Some dh ∧
    p_EncryptionAlgorithm p = [encrT] ∧ encr_DecodeTransform encrT = Some encr ∧
    p_IntegrityAlgorithm p = [integT] ∧ integ_DecodeTransform integT = Some integ ∧
    p_PseudorandomFunction p = [prfT] ∧ prf_DecodeTransform prfT = Some prf.
Proof.
  intros Hd He Hi Hp Sd Sp Se Si. unfold IKESAKey_ToProposal. rewrite Hd, Hp, He, Hi.
  cbn [deref mbind res_bind].
  destruct (encr_transform_rt encr Se) as (tr & -> & _ & Etr & _). cbn [wrap mbind res_bind].
  eexists _, _, tr, _, _. split; [reflexivity|]. split_and!; try reflexivity; [|done|..].
  - by apply (dh_transform_rt s1).
  - by apply integ_transform_rt.
  - by apply (prf_transform_rt s2).
Qed.

(** ** Properties *)

Definition demo_AES : EncrAesCbc := MkEncrAesCbc 16.
Definition demo_SHA1 : INTEGType := AuthHmacSha1_96 (MkLengths 20 12).
Definition demo_PRF : PRFType := PrfHmacSha1 (MkPrfLengths 20 20).
Definition demo_suite : IKESAKey :=
  with_infos (Some (Dh1024BitModp group2)) (Some demo_AES) (Some demo_SHA1) (Some demo_PRF).
Lemma demo_PRF_ok : prf_ok demo_PRF.
Proof. by apply (prfTypes_ok PRF_HMAC_SHA1). Qed.

(** C7: the keys of an IKE SA. With four supported algorithms,
    [GenerateKeyForIKESA] is an error without nonces or without a shared key,
    and otherwise computes SKEYSEED = prf(nonces, shared key), cuts
    prf+(SKEYSEED, nonces | SPIi | SPIr) into SK_d, SK_ai, SK_ar, SK_ei, SK_er,
    SK_pi and SK_pr, and builds from each the object of its name: Prf_d, Prf_i
    and Prf_r from SK_d, SK_pi and SK_pr, the integrity hashes from SK_ai and
    SK_ar, the ciphers Encr_i and Encr_r from SK_ei and SK_er. The algorithms
    stay. *)
Theorem GenerateKeyForIKESA_keys k dh encr integ prf nonce shared spii spir :
  DhInfo k = Some dh → EncrInfo k = Some encr → IntegInfo k = Some integ → PrfInfo k = Some prf →
  encr_supported encr → integ_supported integ → prf_ok prf →
  if len nonce =? 0 then
    GenerateKeyForIKESA (Some k) nonce shared spii spir = Err "No concatenated nonce data"
  else if len shared =? 0 then
    GenerateKeyForIKESA (Some k) nonce shared spii spir = Err "No Diffie-Hellman shared key"
  else ∃ k', GenerateKeyForIKESA (Some k) nonce shared spii spir = Ok k' ∧
    keys_from k' (prf_GetKeyLength prf) (integ_GetKeyLength integ) (encr_GetKeyLength encr)
      (prf_plus (h_fun (prf_Init prf (h_fun (prf_Init prf nonce) shared)))
         (nonce ++ be_enc 8 spii ++ be_enc 8 spir) (ike_key_lengths prf integ encr)) ∧
    objects_from k' prf integ encr ∧ sa_ok k' ∧
    DhInfo k' = Some dh ∧ EncrInfo k' = Some encr ∧ IntegInfo k' = Some integ ∧
    PrfInfo k' = Some prf.
Proof.
  intros Hd He Hi Hp Se Si Hok.
  destruct (Z.eqb_spec (len nonce) 0) as [En|Hn].
  { unfold GenerateKeyForIKESA. by rewrite Hd, He, Hi, Hp, En. }
  destruct (Z.eqb_spec (len shared) 0) as [Es|Hs].
  { unfold GenerateKeyForIKESA. rewrite Hd, He, Hi, Hp, Es. by ztests. }
  destruct (GenerateKeyForIKESA_spec k dh encr integ prf nonce shared spii spir Hd He Hi Hp Se Si Hok
    Hn Hs) as (k' & E & I1 & I2 & I3 & I4 & K & O & S).
  exists k'. unfold ike_stream, ike_seed, concatenateNonceAndSPI in K. by split_and!.
Qed.

Lemma GenerateKeyForIKESA_keys_witness :
  ∃ k, GenerateKeyForIKESA (Some demo_suite) [1; 2] [3] 4 5 = Ok k ∧ sa_ok k ∧
    ∃ c, Encr_r k = Some c ∧ encr_NewCrypto demo_AES (SK_er k) = Ok c.
Proof.
  destruct (GenerateKeyForIKESA_keys demo_suite (Dh1024BitModp group2) demo_AES demo_SHA1 demo_PRF
    [1; 2] [3] 4 5 eq_refl eq_refl eq_refl eq_refl)
    as (k & E & _ & (_ & _ & _ & _ & _ & _ & C) & S & _); [by left|by left|apply demo_PRF_ok|].
  exists k. exact (conj E (conj S C)).
Defined.

(** C14: [NewIKESAKey] on a proposal whose first transforms are supported. With
    nonces that are not empty, a random number and an acceptable public value of the peer it answers with
    its own public value, a power of the generator, and with the IKE SA whose
    keys come from the shared power of the peer's value; the random bytes left
    over are returned. *)
Theorem NewIKESAKey_builds p ke nonce spii spir r secret r' dhT encrT integT prfT dhTs encrTs integTs
    prfTs dh encr integ prf :
  p_DiffieHellmanGroup p = dhT :: dhTs → p_EncryptionAlgorithm p = encrT :: encrTs →
  p_IntegrityAlgorithm p = integT :: integTs → p_PseudorandomFunction p = prfT :: prfTs →
  dh_DecodeTransform dhT = Some dh → encr_DecodeTransform encrT = Some encr →
  integ_DecodeTransform integT = Some integ → prf_DecodeTransform prfT = Some prf →
  GenerateRandomNumber r = Ok (secret, r') → 1 < be_dec ke < factor (dh_params dh) - 1 →
  len nonce ≠ 0 →
  ∃ k pub shared,
    NewIKESAKey (Some p) ke nonce spii spir r = Ok (k, pub, r') ∧ sa_ok k ∧
    be_dec pub = generator (dh_params dh) ^ secret mod factor (dh_params dh) ∧
    len pub = factorBytesLength (dh_params dh) ∧
    be_dec shared = be_dec ke ^ secret mod factor (dh_params dh) ∧
    len shared = factorBytesLength (dh_params dh) ∧
    keys_from k (prf_GetKeyLength prf) (integ_GetKeyLength integ) (encr_GetKeyLength encr)
      (ike_stream prf nonce shared spii spir (ike_key_lengths prf integ encr)) ∧
    objects_from k prf integ encr.
Proof. apply NewIKESAKey_ok. Qed.

Definition demo_random : tape := make_bytes 239 ++ [2] ++ make_bytes 16.
Definition demo_encrT : Transform := MkTransform 1 12 true 1 14 128 [].

Lemma NewIKESAKey_builds_witness :
  ∃ k pub, NewIKESAKey
    (Some (MkProposal 1 1 [] [demo_encrT] [MkTransform 2 2 false 0 0 0 []]
       [MkTransform 3 2 false 0 0 0 []] [MkTransform 4 2 false 0 0 0 []] []))
    [4] [1] 2 3 demo_random = Ok (k, pub, []) ∧ sa_ok k ∧ len pub = 128.
Proof.
  destruct (NewIKESAKey_builds
    (MkProposal 1 1 [] [demo_encrT] [MkTransform 2 2 false 0 0 0 []]
       [MkTransform 3 2 false 0 0 0 []] [MkTransform 4 2 false 0 0 0 []] [])
    [4] [1] 2 3 demo_random (2 * 2 ^ 128) [] (MkTransform 4 2 false 0 0 0 []) demo_encrT
    (MkTransform 3 2 false 0 0 0 []) (MkTransform 2 2 false 0 0 0 []) [] [] [] []
    (Dh1024BitModp group2) demo_AES demo_SHA1 demo_PRF) as (k & pub & sh & E & S & _ & L & _).
  1-9: vm_compute; reflexivity.
  - vm_compute. by split.
  - done.
  - exists k, pub. exact (conj E (conj S L)).
Defined.

(** C38: an unsupported integrity algorithm is not reported as one.
    [NewIKESAKey] tests the encryption algorithm a second time instead, so it
    goes on, computes the Diffie-Hellman values and fails only in
    [GenerateKeyForIKESA]. *)
Theorem NewIKESAKey_unsupported_integrity p ke nonce spii spir r secret r' dhT encrT integT prfT
    dhTs encrTs integTs prfTs dh encr prf :
  p_DiffieHellmanGroup p = dhT :: dhTs → p_EncryptionAlgorithm p = encrT :: encrTs →
  p_IntegrityAlgorithm p = integT :: integTs → p_PseudorandomFunction p = prfT :: prfTs →
  dh_DecodeTransform dhT = Some dh → encr_DecodeTransform encrT = Some encr →
  integ_DecodeTransform integT = None → prf_DecodeTransform prfT = Some prf →
  GenerateRandomNumber r = Ok (secret, r') → 1 < be_dec ke < factor (dh_params dh) - 1 →
  NewIKESAKey (Some p) ke nonce spii spir r = Err "NewIKESAKey: No integrity algorithm specified".
Proof.
  intros E1 E2 E3 E4 D1 D2 D3 D4 Er Hke.
  pose proof (dh_DecodeTransform_ok _ _ D1) as Hok.
  pose proof (GenerateRandomNumber_spec r) as HR. rewrite Er in HR. destruct HR as [HR _].
  pose proof random_bounds as [_ Hmin].
  destruct (dh_GetPublicValue_spec dh secret Hok ltac:(lia)) as (pub & Epub & _).
  destruct (dh_GetSharedKey_spec dh secret (be_dec ke) Hok ltac:(lia) Hke) as (shared & Esh & _).
  unfold NewIKESAKey. rewrite E1, E2, E3, E4. cbv zeta. rewrite D1, D2, D3, D4.
  do 3 (rewrite bool_decide_eq_false_2 by done).
  unfold CalculateDiffieHellmanMaterials. rewrite Er. cbn [wrap mbind res_bind].
  cbn [with_infos DhInfo deref mbind res_bind]. rewrite Esh. cbn [wrap mbind res_bind].
  rewrite Epub. reflexivity.
Qed.

Lemma NewIKESAKey_unsupported_integrity_witness :
  NewIKESAKey
    (Some (MkProposal 1 1 [] [demo_encrT] [MkTransform 2 2 false 0 0 0 []]
       [MkTransform 3 1 false 0 0 0 []] [MkTransform 4 2 false 0 0 0 []] []))
    [4] [1] 2 3 demo_random = Err "NewIKESAKey: No integrity algorithm specified".
Proof.
  apply (NewIKESAKey_unsupported_integrity _ _ _ _ _ _ (2 * 2 ^ 128) []
    (MkTransform 4 2 false 0 0 0 []) demo_encrT (MkTransform 3 1 false 0 0 0 [])
    (MkTransform 2 2 false 0 0 0 []) [] [] [] [] (Dh1024BitModp group2) demo_AES demo_PRF).
  1-9: vm_compute; reflexivity.
  vm_compute. by split.
Defined.

(** C37: the random numbers the Diffie-Hellman secrets are: whatever the random
    bytes, the rejection loop ends, with an error when they run out, and a
    number it returns is at least 2^128 and below 2^2048 - 1, from a beginning
    of the bytes. *)
Theorem GenerateRandomNumber_range r :
  returns (GenerateRandomNumber r) ∧
  ∀ n r', GenerateRandomNumber r = Ok (n, r') →
    2 ^ 128 ≤ n < 2 ^ 2048 - 1 ∧ ∃ used, r = used ++ r'.
Proof.
  pose proof (GenerateRandomNumber_spec r) as H.
  assert (E : randomNumberMinimum = 2 ^ 128 - 1 ∧ randomNumberMaximum = 2 ^ 2048 - 1)
    by (vm_compute; split; reflexivity).
  destruct E as [-> ->] in H.
  destruct (GenerateRandomNumber r) as [[n r']| | |]; [|done..]. split; [done|].
  intros n' r'' [= <- <-]. destruct H as [H Hu]. split; [lia|done].
Qed.

(** C18: the keys of a child SA, with supported algorithms and an IKE SA whose key
    deriving hash is keyed with SK_d, as [GenerateKeyForIKESA] makes it. The four keys are the encryption and integrity
    keys of the initiator's direction and then those of the responder's, cut
    from prf+(SK_d, nonces) and appended to what the child SA holds; without
    an integrity algorithm the integrity keys are empty. The IKE SA keeps its
    SK_d, every other key and object, and a key deriving hash keyed with SK_d,
    so that the next child SA is derived in the same way. *)
Theorem GenerateKeyForChildSA_keys c sa encr prf nonce :
  PrfInfo sa = Some prf → c_EncrKInfo c = Some encr → keyed_with_SK_d sa prf →
  encr_supported encr → (∀ t, c_IntegKInfo c = Some t → integ_supported t) → prf_ok prf →
  let el := encr_GetKeyLength encr in
  let al := match c_IntegKInfo c with Some t => integ_GetKeyLength t | None => 0 end in
  ∃ c' sa' ei ai er ar,
    GenerateKeyForChildSA (Some c) (Some sa) nonce = Ok (c', sa') ∧
    prf_plus (h_fun (prf_Init prf (SK_d sa))) nonce ((el + al) * 2) = ei ++ ai ++ er ++ ar ∧
    len ei = el ∧ len ai = al ∧ len er = el ∧ len ar = al ∧
    InitiatorToResponderEncryptionKey c' = InitiatorToResponderEncryptionKey c ++ ei ∧
    InitiatorToResponderIntegrityKey c' = InitiatorToResponderIntegrityKey c ++ ai ∧
    ResponderToInitiatorEncryptionKey c' = ResponderToInitiatorEncryptionKey c ++ er ∧
    ResponderToInitiatorIntegrityKey c' = ResponderToInitiatorIntegrityKey c ++ ar ∧
    c_SPI c' = c_SPI c ∧ c_DhInfo c' = c_DhInfo c ∧ c_EncrKInfo c' = c_EncrKInfo c ∧
    c_IntegKInfo c' = c_IntegKInfo c ∧ c_EsnInfo c' = c_EsnInfo c ∧
    SK_d sa' = SK_d sa ∧ keyed_with_SK_d sa' prf ∧ ∃ h, sa' = with_prf_d sa h.
Proof.
  intros Hp He (prf_d & Hd & Hs) Se Si [_ Hok].
  pose proof (hash_ok_same _ _ Hs (proj1 (Hok (SK_d sa)))). destruct Hs as [Hf Hs].
  destruct (GenerateKeyForChildSA_spec c sa encr prf prf_d nonce Hp He Hd Se Si)
    as (c' & sa' & ei & ai & er & ar & E & P & R); [done|].
  exists c', sa', ei, ai, er, ar. rewrite Hf in P.
  destruct R as (? & ? & ? & ? & ? & ? & ? & ? & ? & ? & ? & ? & ? & h & -> & F & S).
  split_and!; try done; [|by exists h].
  exists h. split; [done|]. unfold same_hash in *. cbn [with_prf_d SK_d]. split; congruence.
Qed.

(** The key deriving hash of the IKE SA that [GenerateKeyForIKESA] returns is
    keyed with SK_d. *)
Lemma objects_from_keyed k prf integ encr : objects_from k prf integ encr → keyed_with_SK_d k prf.
Proof. intros (E & _). by eexists. Qed.

Definition demo_child : ChildSAKey :=
  child_infos None (Some demo_AES) (Some demo_SHA1) (MkESN false).
Definition demo_ready : IKESAKey :=
  MkIKESAKey (DhInfo demo_suite) (EncrInfo demo_suite) (IntegInfo demo_suite) (PrfInfo demo_suite)
    (Some (prf_Init demo_PRF [7])) None None None None None None [7] [] [] [] [] [] [].

Lemma GenerateKeyForChildSA_keys_witness :
  ∃ c sa, GenerateKeyForChildSA (Some demo_child) (Some demo_ready) [1; 2] = Ok (c, sa) ∧
    len (InitiatorToResponderEncryptionKey c) = 16 ∧
    len (ResponderToInitiatorIntegrityKey c) = 20 ∧ SK_d sa = [7].
Proof.
  destruct (GenerateKeyForChildSA_keys demo_child demo_ready demo_AES demo_PRF [1; 2]
    eq_refl eq_refl) as (c & sa & ei & ai & er & ar & E & _ & L1 & _ & _ & L4 & K1 & _
    & _ & K4 & _ & _ & _ & _ & _ & D & _).
  - by eexists.
  - by left.
  - intros t [= <-]. by left.
  - by apply demo_PRF_ok.
  - exists c, sa. split; [exact E|]. rewrite K1, K4. exact (conj L1 (conj L4 D)).
Defined.

(** ** Negotiation *)

Lemma dh_StrToType_cases s t :
  dh_StrToType s = Some t → t = Dh1024BitModp group2 ∨ t = DH2048BitModp group14.
Proof.
  unfold dh_StrToType. rewrite dhTypes_eq. intros H.
  repeat (apply lookup_insert_Some in H as [[_ <-]|[_ H]]; [auto|]). by rewrite lookup_empty in H.
Qed.

(** The proposal of an IKE SA is one the wire does not change. *)
Lemma IKESAKey_ToProposal_valid k dh encr integ prf s1 s2 p :
  DhInfo k = Some dh → EncrInfo k = Some encr → IntegInfo k = Some integ → PrfInfo k = Some prf →
  dh_StrToType s1 = Some dh → prf_StrToType s2 = Some prf →
  encr_supported encr → integ_supported integ →
  IKESAKey_ToProposal k = Ok p → SecurityAssociation_valid (MkSA [p]) = true.
Proof.
  intros Hd He Hi Hp Sd Sp Se Si. unfold IKESAKey_ToProposal. rewrite Hd, Hp, He, Hi.
  cbn [deref mbind res_bind].
  assert (Ed : ∀ f : DHType → Transform, f = dh_ToTransform →
    f dh = MkTransform 4 2 false 0 0 0 [] ∨ f dh = MkTransform 4 14 false 0 0 0 []).
  { intros f ->. destruct (dh_StrToType_cases s1 dh Sd) as [-> | ->]; [by left|by right]. }
  destruct (Ed _ eq_refl) as [-> | ->]; destruct (prfTypes_cases s2 prf Sp) as [-> | ->],
    Si as [-> | ->], Se as [-> | [-> | ->]]; intros [= <-]; reflexivity.
Qed.

(** C36: an IKE SA offers its own algorithms, and the offer survives the wire:
    the proposal of a supported suite is marshalled in a security association
    that is read back unchanged, and its transforms are decoded to the
    algorithms it came from. *)
Theorem IKESAKey_ToProposal_negotiates k dh encr integ prf s1 s2 :
  DhInfo k = Some dh → EncrInfo k = Some encr → IntegInfo k = Some integ → PrfInfo k = Some prf →
  dh_StrToType s1 = Some dh → prf_StrToType s2 = Some prf →
  encr_supported encr → integ_supported integ →
  ∃ p bs dhT encrT integT prfT, IKESAKey_ToProposal k = Ok p ∧
    SecurityAssociation_Marshal (MkSA [p]) = Ok bs ∧
    (∀ h, SecurityAssociation_Unmarshal new_SecurityAssociation (Slice bs h) = Ok (MkSA [p])) ∧
    p_DiffieHellmanGroup p = [dhT] ∧ dh_DecodeTransform dhT = Some dh ∧
    p_EncryptionAlgorithm p = [encrT] ∧ encr_DecodeTransform encrT = Some encr ∧
    p_IntegrityAlgorithm p = [integT] ∧ integ_DecodeTransform integT = Some integ ∧
    p_PseudorandomFunction p = [prfT] ∧ prf_DecodeTransform prfT = Some prf.
Proof.
  intros Hd He Hi Hp Sd Sp Se Si.
  destruct (IKESAKey_ToProposal_decodes k dh encr integ prf s1 s2 Hd He Hi Hp Sd Sp Se Si)
    as (p & dhT & encrT & integT & prfT & E & _ & H).
  pose proof (IKESAKey_ToProposal_valid k dh encr integ prf s1 s2 p Hd He Hi Hp Sd Sp Se Si E) as V.
  destruct (@round_trip _ SecurityAssociation_codec (MkSA [p]) V) as (bs & Em & _ & Du).
  exists p, bs, dhT, encrT, integT, prfT. split; [exact E|]. split; [exact Em|]. split; [exact Du|].
  exact H.
Qed.

Lemma IKESAKey_ToProposal_negotiates_witness :
  ∃ p bs, IKESAKey_ToProposal demo_suite = Ok p ∧ SecurityAssociation_Marshal (MkSA [p]) = Ok bs ∧
    ∀ h, SecurityAssociation_Unmarshal new_SecurityAssociation (Slice bs h) = Ok (MkSA [p]).
Proof.
  destruct (IKESAKey_ToProposal_negotiates demo_suite (Dh1024BitModp group2) demo_AES demo_SHA1
    demo_PRF DH_1024_BIT_MODP PRF_HMAC_SHA1 eq_refl eq_refl eq_refl eq_refl)
    as (p & bs & _ & _ & _ & _ & E & M & U & _).
  - apply dhTypes_lookup.
  - reflexivity.
  - by left.
  - by left.
  - exists p, bs. exact (conj E (conj M U)).
Defined.

(** A child SA's proposal is taken up by [NewChildSAKeyByProposal] as the
    algorithms it was made from, with or without a Diffie-Hellman group. *)
Theorem ChildSAKey_ToProposal_negotiates k encr integ :
  c_EncrKInfo k = Some encr → encr_supported encr →
  c_IntegKInfo k = Some integ → integ_supported integ →
  (∀ t, c_DhInfo k = Some t → ∃ s, dh_StrToType s = Some t) →
  ∃ p, ChildSAKey_ToProposal k = Ok p ∧
    NewChildSAKeyByProposal (Some p) =
      Ok (child_infos (c_DhInfo k) (Some encr) (Some integ) (c_EsnInfo k)).
Proof. apply NewChildSAKeyByProposal_ToProposal. Qed.

Lemma ChildSAKey_ToProposal_negotiates_example :
  ∃ p, ChildSAKey_ToProposal demo_child = Ok p ∧ NewChildSAKeyByProposal (Some p) = Ok demo_child.
Proof.
  apply (ChildSAKey_ToProposal_negotiates demo_child demo_AES demo_SHA1);
    [reflexivity|by left|reflexivity|by left|discriminate].
Defined.
