(* ===== verification/Ike.v ===== *)
(** * ike.go: protecting and opening messages

    [EncodeEncrypt] and [DecodeDecrypt]. Pointers the code compares with nil
    are options. The hash objects of the IKE SA are reset and written by every
    checksum, so the calls return the IKE SA as they leave it; the message a
    call mutates is returned too, and randomness is a tape. *)

From S2P Require Import Prelude GoSlice Hash Aes Lib Types Codec Payloads SecurityAssociation.
From S2P Require Import Eap Header Message Build Dh Prf Integ Esn Encr Security.

Definition set_integ_i (k : IKESAKey) (h : Hash) : IKESAKey :=
  MkIKESAKey (DhInfo k) (EncrInfo k) (IntegInfo k) (PrfInfo k) (Prf_d k) (Some h) (Integ_r k)
    (Encr_i k) (Encr_r k) (Prf_i k) (Prf_r k) (SK_d k) (SK_ai k) (SK_ar k) (SK_ei k) (SK_er k)
    (SK_pi k) (SK_pr k).
Definition set_integ_r (k : IKESAKey) (h : Hash) : IKESAKey :=
  MkIKESAKey (DhInfo k) (EncrInfo k) (IntegInfo k) (PrfInfo k) (Prf_d k) (Integ_i k) (Some h)
    (Encr_i k) (Encr_r k) (Prf_i k) (Prf_r k) (SK_d k) (SK_ai k) (SK_ar k) (SK_ei k) (SK_er k)
    (SK_pi k) (SK_pr k).

(** ** Integrity *)

Definition calculateIntegrity (k : IKESAKey) (role : Role) (originData : list Z)
    : res (IKESAKey * list Z) :=
  integ ← deref (IntegInfo k);
  let outputLen := integ_GetOutputLength integ in
  '(k, calculatedChecksum) ←
    (if bool_decide (role = Role_Initiator) then
       match Integ_i k with
       | None => Err "CalcIKEChecksum() : IKE SA have nil Integ_r"
       | Some h =>
           let h := Hash_Write (Hash_Reset h) originData in
           Ok (set_integ_i k h, Hash_Sum h [])
       end
     else
       match Integ_r k with
       | None => Err "CalcIKEChecksum() : IKE SA have nil Integ_i"
       | Some h =>
           let h := Hash_Write (Hash_Reset h) originData in
           Ok (set_integ_r k h, Hash_Sum h [])
       end);
  c ← sto (of_bytes calculatedChecksum) outputLen;
  Ok (k, vis c).

Definition verifyIntegrity (originData checksum : list Z) (k : IKESAKey) (role : Role)
    : res IKESAKey :=
  '(k, expectChecksum) ← wrap "verifyIntegrity: " (calculateIntegrity k role originData);
  if negb (hmac_Equal checksum expectChecksum) then Err "invalid checksum" else Ok k.

(** ** Encryption *)

(** The initiator sends with [Encr_i] and receives with [Encr_r]. *)
Definition encryptPayload (plainText : list Z) (k : IKESAKey) (role : Role) (r : tape)
    : res (list Z * tape) :=
  if bool_decide (role = Role_Initiator) then
    c ← deref (Encr_i k); wrap "encryptPayload(): " (cr_Encrypt c plainText r)
  else
    c ← deref (Encr_r k); wrap "encryptPayload(): " (cr_Encrypt c plainText r).

Definition decryptPayload (cipherText : list Z) (k : IKESAKey) (role : Role) : res slice :=
  if bool_decide (role = Role_Initiator) then
    c ← deref (Encr_r k); wrap "decryptPayload(): " (cr_Decrypt c cipherText)
  else
    c ← deref (Encr_i k); wrap "decryptPayload(): " (cr_Decrypt c cipherText).

(** ** Opening *)

(** The loop over the payloads: the last encrypted one, any other type is
    refused. *)
Fixpoint find_encrypted (c : IKEPayloadContainer) (encryptedPayload : option Encrypted)
    : res (option Encrypted) :=
  match c with
  | [] => Ok encryptedPayload
  | PSK sk :: c => find_encrypted c (Some sk)
  | _ :: _ => Err "Get IKE payload, this payload will not be decode"
  end.

Definition decryptMsg (msg : option slice) (ikeMsg : option IKEMessage) (k : option IKESAKey)
    (role : Role) : res (IKEMessage * IKESAKey) :=
  match k, msg, ikeMsg with
  | None, _, _ => Err "decryptMsg(): IKE SA is nil"
  | _, None, _ => Err "decryptMsg(): msg is nil"
  | _, _, None => Err "decryptMsg(): IKE encrypted payload is nil"
  | Some k, Some msg, Some m =>
  match IntegInfo k, EncrInfo k, Integ_i k, Encr_i k with
  | None, _, _, _ => Err "decryptMsg(): No integrity algorithm specified"
  | _, None, _, _ => Err "decryptMsg(): No encryption algorithm specified"
  | _, _, None, _ => Err "decryptMsg(): No initiator's integrity key"
  | _, _, _, None => Err "decryptMsg(): No initiator's encryption key"
  | Some integ, Some _, Some _, Some _ =>
      encryptedPayload ← find_encrypted (m_Payloads m) None;
      let checksumLength := integ_GetOutputLength integ in
      sk ← deref encryptedPayload;
      let data := of_bytes (sk_EncryptedData sk) in
      checksum ← sfrom data (slen data - checksumLength);
      origin ← sto msg (slen msg - checksumLength);
      k ← wrap "decryptMsg(): verify integrity: "
            (verifyIntegrity (vis origin) (vis checksum) k (negb role));
      encryptedData ← sto data (slen data - checksumLength);
      plainText ← wrap "decryptMsg(): Error decrypting message: "
                    (decryptPayload (vis encryptedData) k role);
      decryptedPayloads ← wrap "decryptMsg(): Decoding decrypted payload failed: "
                            (Container_Decode [] (sk_NextPayload sk) plainText);
      Ok (MkMessage (m_IKEHeader m) (Container_Reset (m_Payloads m) ++ decryptedPayloads), k)
  end
  end.

Definition DecodeDecrypt (msg : slice) (ikeHeader : option IKEHeader) (k : option IKESAKey)
    (role : Role) : res (IKEMessage * option IKESAKey) :=
  m ← match ikeHeader with
      | None => wrap "DecodeDecrypt(): " (IKEMessage_Decode new_IKEMessage msg)
      | Some h =>
          b ← sfrom msg IKE_HEADER_LEN;
          wrap "DecodeDecrypt(): " (IKEMessage_DecodePayload (MkMessage (Some h) []) b)
      end;
  match m_Payloads m with
  | p :: _ =>
      if payload_Type p =? TypeSK then
        match k with
        | None => Err "IKE decode decrypt: need ikesaKey to decrypt"
        | Some _ =>
            '(m, k) ← wrap "IKE decode decrypt: " (decryptMsg (Some msg) (Some m) k role);
            Ok (m, Some k)
        end
      else Ok (m, k)
  | [] => Ok (m, k)
  end.

(** ** Protecting *)

(** [copy(dst[len(dst)-n:], src)] *)
Definition copy_tail (n : Z) (src dst : list Z) : res (list Z) :=
  field ← sfrom (of_bytes dst) (len dst - n);
  let m := Z.to_nat (Z.min (slen field) (len src)) in
  let off := Z.to_nat (len dst - n) in
  Ok (take off dst ++ take m src ++ drop (off + m) dst).

Definition encryptMsg (ikeMsg : option IKEMessage) (k : option IKESAKey) (role : Role) (r : tape)
    : res (IKEMessage * IKESAKey * tape) :=
  match ikeMsg, k with
  | None, _ => Err "encryptMsg(): Response IKE message is nil"
  | _, None => Err "encryptMsg(): IKE SA is nil"
  | Some m, Some k =>
  let ikePayloads := m_Payloads m in
  match IntegInfo k, EncrInfo k, Integ_r k, Encr_r k with
  | None, _, _, _ => Err "encryptMsg(): No integrity algorithm specified"
  | _, None, _, _ => Err "encryptMsg(): No encryption algorithm specified"
  | _, _, None, _ => Err "encryptMsg(): No responder's integrity key"
  | _, _, _, None => Err "encryptMsg(): No responder's encryption key"
  | Some integ, Some _, Some _, Some _ =>
      let checksumLength := integ_GetOutputLength integ in
      plainTextPayload ← wrap "encryptMsg(): Encoding IKE payload failed.: "
                           (Container_Encode ikePayloads);
      '(encryptedData, r) ← wrap "encryptMsg(): Error encrypting message: "
                              (encryptPayload plainTextPayload k role r);
      let encryptedData := encryptedData ++ make_bytes checksumLength in
      let encrNextPayloadType :=
        match ikePayloads with [] => NoNext | p :: _ => payload_Type p end in
      let '(payloads, sk) :=
        BuildEncrypted (Container_Reset ikePayloads) encrNextPayloadType encryptedData in
      '(m, ikeMsgData) ← wrap "encryptMsg(): Encoding IKE message error: "
                           (IKEMessage_Encode (MkMessage (m_IKEHeader m) payloads));
      origin ← sto (of_bytes ikeMsgData) (len ikeMsgData - checksumLength);
      '(k, checksumOfMessage) ← wrap "encryptMsg(): Error calculating checksum: "
                                  (calculateIntegrity k role (vis origin));
      encryptedData ← copy_tail checksumLength checksumOfMessage encryptedData;
      Ok (MkMessage (m_IKEHeader m)
            (set_payload (m_Payloads m) sk (PSK (MkSK (u8 encrNextPayloadType) encryptedData))),
          k, r)
  end
  end.

Definition EncodeEncrypt (ikeMsg : option IKEMessage) (k : option IKESAKey) (role : Role)
    (r : tape) : res (list Z * IKEMessage * option IKESAKey * tape) :=
  '(m, k, r) ← match k with
               | Some _ =>
                   '(m, k, r) ← wrap "IKE encode encrypt: " (encryptMsg ikeMsg k role r);
                   Ok (m, Some k, r)
               | None => m ← deref ikeMsg; Ok (m, None, r)
               end;
  '(m, msg) ← wrap "IKE encode: " (IKEMessage_Encode m);
  Ok (msg, m, k, r).

(** ** The two sides of an IKE SA *)

(** The hash of the sender's side, and the objects it sends with. *)
Definition integ_side (k : IKESAKey) (role : Role) : option Hash :=
  if bool_decide (role = Role_Initiator) then Integ_i k else Integ_r k.
Definition send_crypto (k : IKESAKey) (role : Role) : option IKECrypto :=
  if bool_decide (role = Role_Initiator) then Encr_i k else Encr_r k.

Definition hash_id (h : option Hash) : option ((list Z → list Z) * Z) :=
  (λ h, (h_fun h, h_size h)) <$> h.

(** Two IKE SAs with the same keys: they differ at most in what was last
    written to their integrity hashes. *)
Definition same_sa (k k2 : IKESAKey) : Prop :=
  IntegInfo k2 = IntegInfo k ∧ EncrInfo k2 = EncrInfo k ∧
  Encr_i k2 = Encr_i k ∧ Encr_r k2 = Encr_r k ∧
  hash_id (Integ_i k2) = hash_id (Integ_i k) ∧ hash_id (Integ_r k2) = hash_id (Integ_r k).

#[export] Instance same_sa_equiv : Equivalence same_sa.
Proof.
  split.
  - by intros k; unfold same_sa.
  - intros k k2 H. unfold same_sa in *. by destruct H as (-> & -> & -> & -> & -> & ->).
  - intros k k2 k3 H H2. unfold same_sa in *. destruct H as (<- & <- & <- & <- & <- & <-). done.
Qed.

(** The checksum of some data, on the sender's side. *)
Definition checksum (k : IKESAKey) (role : Role) (data : list Z) : list Z :=
  match IntegInfo k, integ_side k role with
  | Some t, Some g => take (Z.to_nat (integ_GetOutputLength t)) (h_fun g data)
  | _, _ => []
  end.

#[export] Instance checksum_Proper : Proper (same_sa ==> eq ==> eq ==> eq) checksum.
Proof.
  intros k k2 (E1 & _ & _ & _ & Ei & Er) role ? <- data ? <-. unfold checksum, integ_side.
  rewrite E1. destruct (IntegInfo k); [|done].
  destruct (bool_decide _);
    [destruct (Integ_i k), (Integ_i k2)|destruct (Integ_r k), (Integ_r k2)];
    cbn in *; try done; [injection Ei as -> _|injection Er as -> _]; done.
Qed.

Lemma integ_ok_same h h2 n : hash_id h2 = hash_id h → integ_ok h n → integ_ok h2 n.
Proof.
  intros E (g & -> & [Hs Hf] & Hn). destruct h2 as [g2|]; [|done]. cbn in E.
  injection E as Ef Es. exists g2. split; [done|]. rewrite Es. split; [|done].
  split; [by rewrite Es|]. intros m. rewrite Ef, Es. apply Hf.
Qed.

#[export] Instance sa_ok_Proper : Proper (same_sa ==> iff) sa_ok.
Proof.
  assert (H : ∀ k k2, same_sa k k2 → sa_ok k → sa_ok k2).
  { intros k k2 (E1 & E2 & E3 & E4 & E5 & E6) (He & (t & Ht & Ho & Hi & Hr) & Hci & Hcr).
    unfold sa_ok. rewrite E2, E3, E4. split; [done|]. split; [|done].
    exists t. rewrite E1. split; [done|]. split; [done|].
    split; eapply integ_ok_same; eauto. }
  intros k k2 E. split; [by apply H|]. apply H. by symmetry.
Qed.

Lemma sa_ok_side k role :
  sa_ok k → ∃ t g, IntegInfo k = Some t ∧ integ_side k role = Some g ∧ hash_ok g ∧
    0 < integ_GetOutputLength t ≤ 16 ∧ integ_GetOutputLength t ≤ h_size g.
Proof.
  intros (_ & (t & Ht & Ho & (gi & Ei & Hi & Ni) & (gr & Er & Hr & Nr)) & _).
  exists t. unfold integ_side. destruct (bool_decide _).
  - exists gi. split_and!; try done; lia.
  - exists gr. split_and!; try done; lia.
Qed.

Lemma sa_ok_crypto k role :
  sa_ok k → ∃ c, send_crypto k role = Some c ∧ CryptoLaws c 32.
Proof. intros (_ & _ & Hi & Hr). unfold send_crypto. by destruct (bool_decide _). Qed.

(** The length of the checksum. *)
Definition out_len (k : IKESAKey) : Z :=
  match IntegInfo k with Some t => integ_GetOutputLength t | None => 0 end.

Lemma calculateIntegrity_eq k role data :
  sa_ok k → ∃ k', calculateIntegrity k role data = Ok (k', checksum k role data) ∧
    same_sa k k' ∧ len (checksum k role data) = out_len k ∧
    bytesb (checksum k role data) = true.
Proof.
  intros Hk. destruct (sa_ok_side k role Hk) as (t & g & Ht & Hg & [Hs Hf] & Ho & Hn).
  destruct (Hf data) as [Hl Hb].
  assert (Hc : sto (of_bytes (Hash_Sum (Hash_Write (Hash_Reset g) data) []))
    (integ_GetOutputLength t) = Ok (Slice (checksum k role data)
      (drop (Z.to_nat (integ_GetOutputLength t)) (h_fun g data)))).
  { unfold sto, checksum. rewrite Ht, Hg. unfold Hash_Sum. cbn [app Hash_Write Hash_Reset h_fun h_buf].
    rewrite sub_ok by (unfold scap; cbn [vis hid of_bytes]; rewrite ?len_nil; lia).
    cbn [vis hid of_bytes]. by rewrite app_nil_r, Z.sub_0_r. }
  assert (Hlen : len (checksum k role data) = out_len k).
  { unfold checksum, out_len. rewrite Ht, Hg. unfold len in *. rewrite length_take. lia. }
  assert (Hbytes : bytesb (checksum k role data) = true)
    by (unfold checksum; rewrite Ht, Hg; by apply bytesb_take).
  unfold calculateIntegrity. rewrite Ht. cbn [deref mbind res_bind].
  unfold integ_side in Hg. destruct (bool_decide (role = Role_Initiator)) eqn:Er; rewrite Hg;
    cbn [mbind res_bind]; rewrite Hc; cbn [mbind res_bind vis];
    (eexists; split; [reflexivity|]; split; [|done]);
    unfold same_sa; cbn; rewrite Hg; done.
Qed.

Lemma verifyIntegrity_eq k role data ck :
  sa_ok k → ∃ k', same_sa k k' ∧ verifyIntegrity data ck k role =
    if bool_decide (ck = checksum k role data) then Ok k' else Err "invalid checksum".
Proof.
  intros Hk. destruct (calculateIntegrity_eq k role data Hk) as (k' & E & Hs & _).
  exists k'. split; [done|]. unfold verifyIntegrity. rewrite E. cbn [wrap mbind res_bind].
  unfold hmac_Equal. by destruct (bool_decide _).
Qed.

(** ** The encrypted message *)

(** What precedes the checksum on the wire. *)
Definition sk_prefix (h : IKEHeader) (next : Z) (ct : list Z) (out : Z) : list Z :=
  header_bytes (with_next h TypeSK) (28 + (4 + (len ct + out))) ++
  [next; 0] ++ be_enc 2 (4 + (len ct + out)) ++ ct.

Definition sk_chain (next : Z) (data : list Z) : IKEPayloadContainer := [PSK (MkSK next data)].

Lemma sk_chain_bytes next data :
  data ≠ [] → chain_bytes (sk_chain next data) = [next; 0] ++ be_enc 2 (4 + len data) ++ data.
Proof.
  intros Hd. unfold sk_chain. cbn [chain_bytes next_of last_next sk_NextPayload].
  assert (payload_body (PSK (MkSK next data)) = data) as ->.
  { unfold payload_body. cbn [payload_Marshal]. unfold Encrypted_Marshal. cbn [sk_EncryptedData].
    destruct (Z.eqb_spec (len data) 0) as [E|]; [by apply len_zero_nil in E|done]. }
  by rewrite app_nil_r.
Qed.

Lemma bytesb_sk_prefix h next ct out :
  header_in_range h = true → u8b next = true → bytesb ct = true →
  bytesb (sk_prefix h next ct out) = true.
Proof.
  intros Hh Hn Hct. unfold sk_prefix. bsplit; [|apply bytesb_be_enc].
  apply bytesb_header_bytes. revert Hh. unfold header_in_range, with_next.
  cbn [h_InitiatorSPI h_ResponderSPI h_NextPayload h_MajorVersion h_MinorVersion h_ExchangeType
    h_Flags h_MessageID]. change (u8b TypeSK) with true.
  rewrite !andb_true_iff. intros [[[[[[[[[? ?] ?] ?] ?] ?] ?] ?] ?] ?]. by split_and!.
Qed.

Lemma sk_chain_valid next data :
  u8b next = true → bytesb data = true → 0 < len data ≤ 65531 →
  chain_valid (sk_chain next data) = true.
Proof.
  intros Hn Hb Hl. unfold sk_chain. cbn [chain_valid].
  assert (payload_body (PSK (MkSK next data)) = data) as ->.
  { unfold payload_body. cbn [payload_Marshal]. unfold Encrypted_Marshal. cbn [sk_EncryptedData].
    ztests. done. }
  cbn. unfold Encrypted_valid. cbn. rewrite Hn, Hb. by ztests.
Qed.

Lemma sk_message h next ct ck :
  0 < len ck →
  message_bytes h (sk_chain next (ct ++ ck)) = sk_prefix h next ct (len ck) ++ ck.
Proof.
  intros Hk. unfold message_bytes. rewrite sk_chain_bytes.
  2: { intros E. assert (len (ct ++ ck) = 0) by (by rewrite E). rewrite len_app in *.
       pose proof (len_nonneg ct). lia. }
  unfold sk_prefix. cbn [sk_chain first_type payload_Type]. rewrite !len_app, len_be_enc.
  change (len [next; 0]) with 2. change (Z.of_nat 2) with 2. rewrite <- !app_assoc.
  replace (2 + (2 + (len ct + len ck))) with (4 + (len ct + len ck)) by lia. done.
Qed.

Lemma copy_tail_eq n src a z :
  len src = n → len z = n → 0 ≤ n → copy_tail n src (a ++ z) = Ok (a ++ src).
Proof.
  intros Hs Hz Hn. unfold copy_tail. rewrite len_app, Hz.
  replace (len a + n - n) with (len a) by lia.
  rewrite (sfrom_at a z) by done. cbn [mbind res_bind]. unfold slen. cbn [vis of_bytes].
  rewrite Hz, Hs, Z.min_id. unfold len. rewrite Nat2Z.id, take_app_length.
  rewrite take_ge by (unfold len in Hs; lia).
  rewrite drop_ge; [by rewrite app_nil_r|]. rewrite length_app. unfold len in *. lia.
Qed.

Lemma encryptPayload_eq k role p r :
  encryptPayload p k role r =
    (c ← deref (send_crypto k role); wrap "encryptPayload(): " (cr_Encrypt c p r)).
Proof. unfold encryptPayload, send_crypto. by destruct (bool_decide _). Qed.

(** The receiver decrypts with the sender's object. *)
Lemma decryptPayload_eq k role ct :
  decryptPayload ct k role =
    (c ← deref (send_crypto k (negb role)); wrap "decryptPayload(): " (cr_Decrypt c ct)).
Proof. unfold decryptPayload, send_crypto. by destruct role. Qed.

(** The header the two encodings give is the same. *)
Lemma message_bytes_twice h x p c :
  message_bytes (with_payload (with_next h x) p) c = message_bytes h c.
Proof. done. Qed.

(** The plain text of a message with its payloads protected: the largest chain
    whose encryption still fits the 16-bit length of the encrypted payload. *)
Definition sealable (k : IKESAKey) (h : IKEHeader) (c : IKEPayloadContainer) : Prop :=
  sa_ok k ∧ header_in_range h = true ∧ chain_valid c = true ∧ len (chain_bytes c) ≤ 65483.

Lemma sealed_valid k h c ct ck :
  sealable k h c → bytesb ct = true → bytesb ck = true → 0 < len ct ≤ len (chain_bytes c) + 32 →
  len ck = out_len k →
  chain_valid (sk_chain (first_type c) (ct ++ ck)) = true ∧
  len (chain_bytes (sk_chain (first_type c) (ct ++ ck))) ≤ 4294967267.
Proof.
  intros (Hk & _ & _ & Hl) Bct Bck Hct Hck.
  destruct (sa_ok_side k true Hk) as (t & _ & Ht & _ & _ & Ho & _).
  unfold out_len in Hck. rewrite Ht in Hck.
  assert (len (ct ++ ck) = len ct + len ck) as E by apply len_app.
  split; [apply sk_chain_valid; [apply first_type_byte|by bsplit|lia]|].
  rewrite sk_chain_bytes; [len_simpl; lia|].
  intros E0. rewrite E0 in E. change (len (@nil Z)) with 0 in E. lia.
Qed.

(** What [encryptMsg] leaves in the message: one encrypted payload that holds
    the cipher text of the chain and the checksum of everything before it. *)
Lemma encryptMsg_eq k role h c r :
  sealable k h c → bytesb r = true → 32 ≤ len r →
  ∃ d ct r' k', send_crypto k role = Some d ∧
    cr_Encrypt d (chain_bytes c) r = Ok (ct, r') ∧ same_sa k k' ∧
    let pre := sk_prefix h (first_type c) ct (out_len k) in
    let sk := sk_chain (first_type c) (ct ++ checksum k role pre) in
    ∃ p, encryptMsg (Some (MkMessage (Some h) c)) (Some k) role r =
      Ok (MkMessage (Some (with_payload (with_next h TypeSK) p)) sk, k', r').
Proof.
  intros Hs Br Lr. pose proof Hs as (Hk & Hh & Hc & Hl).
  destruct (sa_ok_crypto k role Hk) as (d & Ed & Ld).
  destruct (cr_total (chain_bytes c) r) as (ct & r' & Ect); [by apply bytesb_chain|done..|].
  destruct (cr_inverse _ _ _ _ (bytesb_chain c Hc) Br Ect) as (_ & Bct & _ & Hct).
  pose proof (len_nonneg (chain_bytes c)).
  exists d, ct, r'. cbv zeta. set (pre := sk_prefix _ _ _ _).
  destruct (calculateIntegrity_eq k role pre Hk) as (k' & Eck & Hsame & Lck & Bck).
  exists k'. split_and!; [done..|].
  destruct (sa_ok_side k true Hk) as (t & _ & Ht & _ & _ & Ho & _).
  assert (Ek : out_len k = integ_GetOutputLength t) by (unfold out_len; by rewrite Ht).
  unfold encryptMsg. cbn [m_Payloads m_IKEHeader].
  destruct Hk as ([e He] & _ & _ & (dr & Edr & _)).
  destruct (sa_ok_side k false (proj1 Hs)) as (_ & gr & _ & Egr & _).
  change (integ_side k false) with (Integ_r k) in Egr.
  rewrite Ht, He, Egr, Edr, Container_Encode_eq by done. cbn [wrap mbind res_bind].
  rewrite encryptPayload_eq, Ed. cbn [deref mbind res_bind]. rewrite Ect. cbn [wrap mbind res_bind].
  change (match c with [] => NoNext | p :: _ => payload_Type p end) with (first_type c).
  set (z := make_bytes (integ_GetOutputLength t)).
  assert (Lz : len z = out_len k) by (unfold z, make_bytes; rewrite len_replicate; lia).
  assert (Bz : bytesb z = true) by (by apply bytesb_replicate).
  destruct (sealed_valid k h c ct z Hs Bct Bz ltac:(lia) Lz) as [Hv Hb].
  unfold BuildEncrypted, Container_Reset, set_payload. cbn [app length].
  rewrite u8_id by apply first_type_byte.
  change [PSK (MkSK (first_type c) (ct ++ z))] with (sk_chain (first_type c) (ct ++ z)).
  rewrite IKEMessage_Encode_eq by done. cbn [wrap mbind res_bind].
  rewrite sk_message by lia. rewrite Lz, len_app, Lz, <- Ek.
  replace (len _ + out_len k - out_len k) with (len pre) by (unfold pre; lia).
  unfold sto. rewrite (sub_at [] pre z) by done. cbn [mbind res_bind vis]. rewrite Eck.
  cbn [wrap mbind res_bind]. rewrite copy_tail_eq by (lia || done). cbn [mbind res_bind].
  by eexists.
Qed.

(** What a protected message looks like on the wire. *)
Lemma EncodeEncrypt_eq k role h c r :
  sealable k h c → bytesb r = true → 32 ≤ len r →
  ∃ d ct m r' k', send_crypto k role = Some d ∧
    cr_Encrypt d (chain_bytes c) r = Ok (ct, r') ∧ same_sa k k' ∧
    let pre := sk_prefix h (first_type c) ct (out_len k) in
    EncodeEncrypt (Some (MkMessage (Some h) c)) (Some k) role r =
      Ok (pre ++ checksum k role pre, m, Some k', r').
Proof.
  intros Hs Br Lr. pose proof Hs as (Hk & Hh & Hc & Hl).
  destruct (encryptMsg_eq k role h c r Hs Br Lr) as (d & ct & r' & k' & Ed & Ect & Hsame & p & E).
  set (pre := sk_prefix _ _ _ _) in *.
  destruct (calculateIntegrity_eq k role pre Hk) as (_ & _ & _ & Lck & Bck).
  destruct (sa_ok_crypto k role Hk) as (d' & Ed' & Ld).
  replace d' with d in Ld by congruence.
  destruct (cr_inverse _ _ _ _ (bytesb_chain c Hc) Br Ect) as (_ & Bct & _ & Hct).
  pose proof (len_nonneg (chain_bytes c)).
  destruct (sealed_valid k h c ct _ Hs Bct Bck ltac:(lia) Lck) as [Hv Hb].
  eexists d, ct, _, r', k'. split_and!; [done..|]. cbv zeta.
  unfold EncodeEncrypt. rewrite E. cbn [wrap mbind res_bind].
  rewrite IKEMessage_Encode_eq by done. cbn [wrap mbind res_bind].
  rewrite message_bytes_twice, sk_message; [by rewrite Lck|].
  destruct (sa_ok_side k true Hk) as (t & _ & Ht & _ & _ & Ho & _).
  unfold out_len in Lck. rewrite Ht in Lck. lia.
Qed.

(** Decoding a message with one encrypted payload. *)
Lemma sk_decodes h next data hd :
  header_in_range h = true → u8b next = true → bytesb data = true → 0 < len data ≤ 65531 →
  ∃ p, IKEMessage_Decode new_IKEMessage (Slice (message_bytes h (sk_chain next data)) hd) =
    Ok (MkMessage (Some (with_payload (with_next h TypeSK) p)) (sk_chain next data)).
Proof.
  intros Hh Hn Hb Hl. unfold new_IKEMessage.
  rewrite IKEMessage_Decode_eq; [by eexists|done|by apply sk_chain_valid|].
  rewrite sk_chain_bytes; [len_simpl; lia|]. intros ->. change (len (@nil Z)) with 0 in Hl. lia.
Qed.

Lemma sealed_decodes k h next ct ck hd :
  sa_ok k → header_in_range h = true → u8b next = true → bytesb ct = true → bytesb ck = true →
  len ct ≤ 65515 → len ck = out_len k →
  ∃ p, IKEMessage_Decode new_IKEMessage (Slice (sk_prefix h next ct (out_len k) ++ ck) hd) =
    Ok (MkMessage (Some (with_payload (with_next h TypeSK) p)) (sk_chain next (ct ++ ck))).
Proof.
  intros Hk Hh Hn Bct Bck Hct Lck.
  assert (0 < len ck ≤ 16).
  { rewrite Lck. destruct (sa_ok_side k true Hk) as (t & _ & Ht & _ & _ & Ho & _).
    unfold out_len. rewrite Ht. lia. }
  rewrite <- Lck, <- sk_message by lia. pose proof (len_nonneg ct).
  apply sk_decodes; [done|done|by bsplit|rewrite len_app; lia].
Qed.

(** Opening: what [decryptMsg] does with one encrypted payload whose data end
    in a checksum. *)
Lemma decryptMsg_sealed k role h next ct ck pre hd :
  sa_ok k → len ck = out_len k →
  ∃ k' d, same_sa k k' ∧ send_crypto k (negb role) = Some d ∧ CryptoLaws d 32 ∧
    decryptMsg (Some (Slice (pre ++ ck) hd)) (Some (MkMessage h (sk_chain next (ct ++ ck))))
      (Some k) role =
    if bool_decide (ck = checksum k (negb role) pre) then
      plainText ← wrap "decryptMsg(): Error decrypting message: "
                    (wrap "decryptPayload(): " (cr_Decrypt d ct));
      c ← wrap "decryptMsg(): Decoding decrypted payload failed: "
            (Container_Decode [] next plainText);
      Ok (MkMessage h c, k')
    else Err "decryptMsg(): verify integrity: invalid checksum".
Proof.
  intros Hk Lck. destruct (verifyIntegrity_eq k (negb role) pre ck Hk) as (k' & Hsame & Ev).
  destruct (sa_ok_crypto k (negb role) Hk) as (d & Ed & Ld).
  exists k', d. split_and!; [done..|].
  destruct (sa_ok_side k true Hk) as (t & gi & Ht & Egi & _ & Ho & _).
  change (integ_side k true) with (Integ_i k) in Egi.
  pose proof Hk as ([e He] & _ & (di & Edi & _) & _).
  assert (Ek : len ck = integ_GetOutputLength t) by (unfold out_len in Lck; by rewrite Ht in Lck).
  unfold decryptMsg. rewrite Ht, He, Egi, Edi. unfold sk_chain.
  cbn [m_Payloads m_IKEHeader find_encrypted mbind res_bind deref sk_EncryptedData sk_NextPayload].
  rewrite (sfrom_at ct ck (of_bytes (ct ++ ck))).
  2: done. 2: { unfold slen. cbn [vis of_bytes]. rewrite len_app. lia. }
  cbn [mbind res_bind vis hid of_bytes].
  rewrite (key_sto pre ck hd) by (unfold slen; cbn [vis]; rewrite len_app; lia).
  cbn [mbind res_bind vis]. rewrite Ev. destruct (bool_decide _); [|done].
  cbn [wrap mbind res_bind]. unfold of_bytes.
  rewrite (key_sto ct ck []) by (unfold slen; cbn [vis]; rewrite len_app; lia).
  cbn [mbind res_bind vis]. rewrite decryptPayload_eq.
  destruct Hsame as (_ & _ & E1 & E2 & _).
  replace (send_crypto k' (negb role)) with (Some d).
  2: { rewrite <- Ed. unfold send_crypto. by rewrite E1, E2. }
  done.
Qed.

(** ** A concrete IKE SA for the witnesses *)

Definition demo_integ : INTEGType := AuthHmacSha1_96 (MkLengths 20 12).
Definition demo_prf : PRFType := PrfHmacSha1 (MkPrfLengths 20 20).
Definition demo_infos : IKESAKey :=
  with_infos (Some (Dh1024BitModp group2)) (Some (MkEncrAesCbc 16)) (Some demo_integ) (Some demo_prf).
Definition demo_sa : IKESAKey :=
  match GenerateKeyForIKESA (Some demo_infos) [1] [2] 3 4 with Ok k => k | _ => demo_infos end.

Lemma demo_sa_ok : sa_ok demo_sa.
Proof.
  destruct (GenerateKeyForIKESA_spec demo_infos _ _ _ _ [1] [2] 3 4 eq_refl eq_refl eq_refl eq_refl)
    as (k & E & _ & _ & _ & _ & _ & _ & H); [by left|by left| |done|done|].
  - by eapply (prfTypes_ok PRF_HMAC_SHA1).
  - unfold demo_sa. by rewrite E.
Qed.

Definition demo_header : IKEHeader := MkHeader 1 2 2 0 37 8 1 0 (of_bytes []).
Definition demo_chain : IKEPayloadContainer :=
  [PNonce (MkNonce [1; 2; 3]); PV (MkVendor [4])].

Lemma demo_sealable : sealable demo_sa demo_header demo_chain.
Proof. split; [apply demo_sa_ok|]. by vm_compute. Qed.

(** ** Properties *)

(** Bytes that protect the payloads [c] under a header [h]: the encrypted
    payload holds a cipher text of the chain, and the sender's checksum ends the
    message. *)
Definition sendable (h : IKEHeader) (c : IKEPayloadContainer) : Prop :=
  header_in_range h = true ∧ chain_valid c = true ∧ len (chain_bytes c) ≤ 65483.

Definition seals (k : IKESAKey) (role : Role) (h : IKEHeader) (c : IKEPayloadContainer)
    (bs : list Z) : Prop :=
  sendable h c ∧ ∃ ct d hp, bytesb ct = true ∧ len ct ≤ 65515 ∧
    send_crypto k role = Some d ∧ cr_Decrypt d ct = Ok (Slice (chain_bytes c) hp) ∧
    let pre := sk_prefix h (first_type c) ct (out_len k) in bs = pre ++ checksum k role pre.

Lemma out_len_same k k2 : same_sa k k2 → out_len k2 = out_len k.
Proof. intros (E & _). unfold out_len. by rewrite E. Qed.

Lemma seals_same k k2 role h c bs : same_sa k k2 → seals k role h c bs → seals k2 role h c bs.
Proof.
  intros H2 (Hs & ct & d & hp & Bct & Lct & Ed & Edec & ->). split; [done|].
  exists ct, d, hp. rewrite (out_len_same k k2 H2). split_and!; try done.
  - destruct H2 as (_ & _ & E1 & E2 & _). unfold send_crypto in *. by rewrite E1, E2.
  - cbv zeta. by rewrite (checksum_Proper k k2 H2 role role eq_refl _ _ eq_refl).
Qed.

Lemma checksum_len k role data : sa_ok k → len (checksum k role data) = out_len k.
Proof. intros Hk. by destruct (calculateIntegrity_eq k role data Hk) as (_ & _ & _ & H & _). Qed.
Lemma checksum_bytes k role data : sa_ok k → bytesb (checksum k role data) = true.
Proof. intros Hk. by destruct (calculateIntegrity_eq k role data Hk) as (_ & _ & _ & _ & H). Qed.

Lemma sealing k role h c r :
  sa_ok k → sendable h c → bytesb r = true → 32 ≤ len r →
  ∃ bs m r' k', EncodeEncrypt (Some (MkMessage (Some h) c)) (Some k) role r =
      Ok (bs, m, Some k', r') ∧ seals k role h c bs ∧ same_sa k k'.
Proof.
  intros Hk Hs Br Lr. pose proof Hs as (_ & Hc & Hl).
  destruct (EncodeEncrypt_eq k role h c r) as (d & ct & m & r' & k' & Ed & Ect & Hk' & E);
    [by destruct Hs|done..|].
  destruct (sa_ok_crypto k role Hk) as (d1 & Ed1 & Ld). replace d1 with d in Ld by congruence.
  destruct (cr_inverse _ _ _ _ (bytesb_chain c Hc) Br Ect) as ([hp Edec] & Bct & _ & Hct).
  cbv zeta in E. eexists _, m, r', k'. split_and!; [done| |done]. split; [done|].
  exists ct, d, hp. split_and!; try done. lia.
Qed.

(** The other side opens them. *)
Lemma seals_opened k role h c bs hd :
  sa_ok k → seals k role h c bs →
  ∃ p k', DecodeDecrypt (Slice bs hd) None (Some k) (negb role) =
      Ok (MkMessage (Some (with_payload (with_next h TypeSK) p)) c, Some k') ∧ same_sa k k'.
Proof.
  intros Hk ((Hh & Hc & _) & ct & d & hp & Bct & Lct & Ed & Edec & ->).
  set (pre := sk_prefix _ _ _ _) in *. pose proof (checksum_len k role pre Hk) as Lck.
  destruct (sealed_decodes k h (first_type c) ct (checksum k role pre) hd Hk Hh
    (first_type_byte c) Bct (checksum_bytes k role pre Hk) Lct Lck) as [p Ep].
  fold pre in Ep.
  destruct (decryptMsg_sealed k (negb role) (Some (with_payload (with_next h TypeSK) p))
    (first_type c) ct (checksum k role pre) pre hd Hk Lck) as (k' & d2 & Hk' & Ed2 & _ & Em).
  exists p, k'. split; [|done]. unfold DecodeDecrypt. rewrite Ep. unfold sk_chain in *.
  cbn [wrap mbind res_bind m_Payloads payload_Type].
  change (TypeSK =? TypeSK) with true. cbv iota. rewrite Em.
  rewrite negb_involutive in *. rewrite bool_decide_eq_true_2 by done.
  replace d2 with d by congruence. rewrite Edec. cbn [wrap mbind res_bind].
  unfold Container_Decode. cbn [vis]. by rewrite Container_Decode_chain.
Qed.

Lemma sealed_round_trip k k2 role h c r hd :
  sealable k h c → same_sa k k2 → bytesb r = true → 32 ≤ len r →
  ∃ bs m r' k' k2' p,
    EncodeEncrypt (Some (MkMessage (Some h) c)) (Some k) role r = Ok (bs, m, Some k', r') ∧
    DecodeDecrypt (Slice bs hd) None (Some k2) (negb role) =
      Ok (MkMessage (Some (with_payload (with_next h TypeSK) p)) c, Some k2') ∧
    same_sa k k' ∧ same_sa k2 k2'.
Proof.
  intros (Hk & Hs) H2 Br Lr.
  destruct (sealing k role h c r Hk Hs Br Lr) as (bs & m & r' & k' & E & Hb & Hk').
  destruct (seals_opened k2 role h c bs hd) as (p & k2' & Ed & Hk2').
  { by rewrite <- H2. } { by eapply seals_same. }
  by exists bs, m, r', k', k2', p.
Qed.

(** C1: a message protected by one side of an IKE SA is opened by the other
    side, when the fields of its header are in range and its payloads are a
    valid chain ([chain_valid]: payloads the codecs read back, so no
    notification SPI above 251 bytes, no proposal SPI above 247, no EAP-AKA'
    data that were not decoded) of at most 65483 bytes: whatever the 32 or more
    random bytes, the payloads come back in order, the header comes back with
    the encrypted payload as its next payload, and both sides keep their keys. *)
Theorem EncodeEncrypt_DecodeDecrypt k k2 role h c r hd :
  sealable k h c → same_sa k k2 → bytesb r = true → 32 ≤ len r →
  ∃ bs m r' k' k2' p,
    EncodeEncrypt (Some (MkMessage (Some h) c)) (Some k) role r = Ok (bs, m, Some k', r') ∧
    DecodeDecrypt (Slice bs hd) None (Some k2) (negb role) =
      Ok (MkMessage (Some (with_payload (with_next h TypeSK) p)) c, Some k2') ∧
    same_sa k k' ∧ same_sa k2 k2'.
Proof. apply sealed_round_trip. Qed.

Lemma EncodeEncrypt_DecodeDecrypt_witness :
  ∃ bs m r' k' k2' p,
    EncodeEncrypt (Some (MkMessage (Some demo_header) demo_chain)) (Some demo_sa) Role_Initiator
      (make_bytes 32) = Ok (bs, m, Some k', r') ∧
    DecodeDecrypt (Slice bs [0]) None (Some demo_sa) (negb Role_Initiator) =
      Ok (MkMessage (Some (with_payload (with_next demo_header TypeSK) p)) demo_chain, Some k2') ∧
    same_sa demo_sa k' ∧ same_sa demo_sa k2'.
Proof.
  apply EncodeEncrypt_DecodeDecrypt; [apply demo_sealable|reflexivity|reflexivity|].
  vm_compute. discriminate.
Defined.

(** The encrypted payload [decryptMsg] opens is the last one of the chain. *)
Lemma find_encrypted_last c o r :
  find_encrypted c o = Ok r → (c = [] ∧ r = o) ∨ ∃ sk, last c = Some (PSK sk) ∧ r = Some sk.
Proof.
  revert o. induction c as [|p c IH]; intros o H; [left; cbn in H; by injection H as ->|right].
  destruct p; try discriminate H. cbn in H.
  destruct (IH _ H) as [[-> ->]|(sk & El & ->)]; [by eexists|].
  exists sk. split; [|done]. destruct c; [done|]. exact El.
Qed.

(** A slice expression [data[len(data)-n:]] and its complement [data[:len(data)-n]]. *)
Lemma tail_split s n t :
  sfrom s (slen s - n) = Ok t →
  len (vis t) = n ∧ vis s = take (Z.to_nat (slen s - n)) (vis s) ++ vis t.
Proof.
  intros [H ->]%sfrom_inv. cbn [vis]. split; [|by rewrite take_drop].
  unfold slen, len in *. rewrite length_drop. lia.
Qed.
Lemma sto_vis s n t : 0 ≤ n ≤ slen s → sto s n = Ok t → vis t = take (Z.to_nat n) (vis s).
Proof.
  intros Hn H. unfold sto in H. destruct (sub_vis s 0 n) as [h E]; [lia..|].
  rewrite E in H. injection H as <-. cbn [vis]. by rewrite drop_0, Z.sub_0_r.
Qed.

(** A message that is opened was checked first. *)
Lemma decryptMsg_inv b m0 k role m k' :
  sa_ok k → out_len k ≤ slen b →
  decryptMsg (Some b) (Some m0) (Some k) role = Ok (m, k') →
  ∃ sk ct d plain,
    last (m_Payloads m0) = Some (PSK sk) ∧
    sk_EncryptedData sk =
      ct ++ checksum k (negb role) (take (Z.to_nat (slen b - out_len k)) (vis b)) ∧
    send_crypto k (negb role) = Some d ∧ cr_Decrypt d ct = Ok plain ∧
    Container_Decode [] (sk_NextPayload sk) plain = Ok (m_Payloads m) ∧
    m_IKEHeader m = m_IKEHeader m0 ∧ same_sa k k'.
Proof.
  intros Hk Hb H. destruct (sa_ok_side k true Hk) as (t & gi & Ht & Egi & _ & Ho & _).
  change (integ_side k true) with (Integ_i k) in Egi.
  pose proof Hk as ([e He] & _ & (di & Edi & _) & _).
  unfold decryptMsg in H. rewrite Ht, He, Egi, Edi in H.
  apply bind_Ok_inv in H as (o & Eo & H). cbv zeta in H.
  apply bind_Ok_inv in H as (sk & Esk & H). destruct o as [sk'|]; [injection Esk as ->|done].
  apply find_encrypted_last in Eo as [[_ [=]]|(sk' & El & [= <-])].
  apply bind_Ok_inv in H as (tl & Etl & H). apply bind_Ok_inv in H as (org & Eorg & H).
  apply bind_Ok_inv in H as (k1 & Ek1 & H). apply wrap_Ok_inv in Ek1.
  apply bind_Ok_inv in H as (ed & Eed & H). apply bind_Ok_inv in H as (pt & Ept & H).
  apply wrap_Ok_inv in Ept. apply bind_Ok_inv in H as (c & Ec & H). apply wrap_Ok_inv in Ec.
  injection H as <- <-. unfold out_len in *. rewrite Ht in *.
  apply sto_vis in Eorg; [|lia]. pose proof Etl as Etl'. apply sfrom_inv in Etl' as [Htl _].
  apply tail_split in Etl as [_ Edata]. apply sto_vis in Eed; [|lia].
  destruct (verifyIntegrity_eq k (negb role) (vis org) (vis tl) Hk) as (k2 & Hs & Ev).
  rewrite Ev in Ek1. case_bool_decide as Eck; [|done]. injection Ek1 as <-.
  rewrite decryptPayload_eq in Ept. apply bind_Ok_inv in Ept as (d & Ed & Ept).
  apply wrap_Ok_inv in Ept. cbn [vis of_bytes] in *.
  destruct (send_crypto k2 (negb role)) as [d'|] eqn:Es; [injection Ed as ->|done].
  exists sk, (vis ed), d, pt. split_and!; try done.
  - rewrite Eed, <- Eorg, <- Eck. done.
  - destruct Hs as (_ & _ & E1 & E2 & _). rewrite <- Es. unfold send_crypto. by rewrite E1, E2.
Qed.

(** A message that is accepted was decoded, and opened if its first payload is
    an encrypted one. *)
Lemma DecodeDecrypt_inv b k role m k' :
  sa_ok k → DecodeDecrypt b None (Some k) role = Ok (m, Some k') →
  ∃ m0, IKEMessage_Decode new_IKEMessage b = Ok m0 ∧
    ((first_type (m_Payloads m0) ≠ TypeSK ∧ m = m0 ∧ k' = k) ∨
     first_type (m_Payloads m0) = TypeSK ∧
     ∃ sk ct d plain,
       last (m_Payloads m0) = Some (PSK sk) ∧
       sk_EncryptedData sk =
         ct ++ checksum k (negb role) (take (Z.to_nat (slen b - out_len k)) (vis b)) ∧
       send_crypto k (negb role) = Some d ∧ cr_Decrypt d ct = Ok plain ∧
       Container_Decode [] (sk_NextPayload sk) plain = Ok (m_Payloads m) ∧
       m_IKEHeader m = m_IKEHeader m0 ∧ same_sa k k').
Proof.
  intros Hk H. unfold DecodeDecrypt in H. apply bind_Ok_inv in H as (m0 & E & H).
  apply wrap_Ok_inv in E. exists m0. split; [done|].
  destruct (m_Payloads m0) as [|p c] eqn:Ec.
  { injection H as <- <-. left. by split_and!. }
  destruct (Z.eqb_spec (payload_Type p) TypeSK) as [Et|Et].
  2: { injection H as <- <-. left. by split_and!. }
  right. apply bind_Ok_inv in H as ([m1 k1] & H & [= <- <-]). apply wrap_Ok_inv in H.
  split; [exact Et|]. rewrite <- Ec. apply decryptMsg_inv; [done| |done].
  destruct (sa_ok_side k true Hk) as (t & _ & Ht & _ & _ & Ho & _).
  unfold out_len. rewrite Ht. pose proof (ParseHeader_long b) as Hl.
  unfold IKEMessage_Decode in E. apply bind_Ok_inv in E as (h & Eh & _). apply wrap_Ok_inv in Eh.
  specialize (Hl h Eh). lia.
Qed.

(** C2: what [DecodeDecrypt] accepts is authentic. A message comes back either
    as it was decoded, when its first payload is not an encrypted one; or its
    first payload is an encrypted one and its last payload is an encrypted one whose data end in the
    sender's checksum of everything that precedes the last bytes of the
    message, and then the payloads are the decoding of the rest of that data,
    decrypted. *)
Theorem DecodeDecrypt_authentic b k role m k' :
  sa_ok k → DecodeDecrypt b None (Some k) role = Ok (m, Some k') →
  ∃ m0, IKEMessage_Decode new_IKEMessage b = Ok m0 ∧
    ((first_type (m_Payloads m0) ≠ TypeSK ∧ m = m0 ∧ k' = k) ∨
     first_type (m_Payloads m0) = TypeSK ∧
     ∃ sk ct d plain,
       last (m_Payloads m0) = Some (PSK sk) ∧
       sk_EncryptedData sk =
         ct ++ checksum k (negb role) (take (Z.to_nat (slen b - out_len k)) (vis b)) ∧
       send_crypto k (negb role) = Some d ∧ cr_Decrypt d ct = Ok plain ∧
       Container_Decode [] (sk_NextPayload sk) plain = Ok (m_Payloads m) ∧
       m_IKEHeader m = m_IKEHeader m0 ∧ same_sa k k').
Proof. apply DecodeDecrypt_inv. Qed.

Lemma DecodeDecrypt_authentic_witness :
  ∃ b m k', sa_ok demo_sa ∧ DecodeDecrypt b None (Some demo_sa) Role_Responder = Ok (m, Some k') ∧
  ∃ m0, IKEMessage_Decode new_IKEMessage b = Ok m0 ∧
    ((first_type (m_Payloads m0) ≠ TypeSK ∧ m = m0 ∧ k' = demo_sa) ∨
     first_type (m_Payloads m0) = TypeSK ∧
     ∃ sk ct d plain,
       last (m_Payloads m0) = Some (PSK sk) ∧
       sk_EncryptedData sk =
         ct ++ checksum demo_sa (negb Role_Responder)
                 (take (Z.to_nat (slen b - out_len demo_sa)) (vis b)) ∧
       send_crypto demo_sa (negb Role_Responder) = Some d ∧ cr_Decrypt d ct = Ok plain ∧
       Container_Decode [] (sk_NextPayload sk) plain = Ok (m_Payloads m) ∧
       m_IKEHeader m = m_IKEHeader m0 ∧ same_sa demo_sa k').
Proof.
  destruct (sealed_round_trip demo_sa demo_sa Role_Initiator demo_header demo_chain (make_bytes 32) []
    demo_sealable (reflexivity _) eq_refl) as (bs & m & r & k & k2 & p & _ & E & _).
  { vm_compute. discriminate. }
  exists (Slice bs []), (MkMessage (Some (with_payload (with_next demo_header TypeSK) p)) demo_chain),
    k2. split; [apply demo_sa_ok|]. split; [exact E|].
  apply DecodeDecrypt_authentic; [apply demo_sa_ok|exact E].
Defined.

(** C4: a message that was changed in transit is refused before anything is
    decrypted: for any header, cipher text and checksum other than the
    sender's, the outcome is the error, the same whatever the cipher text. *)
Theorem DecodeDecrypt_rejects k role h next ct ck hd :
  sa_ok k → header_in_range h = true → u8b next = true → bytesb ct = true → bytesb ck = true →
  len ct ≤ 65515 → len ck = out_len k →
  ck ≠ checksum k (negb role) (sk_prefix h next ct (out_len k)) →
  DecodeDecrypt (Slice (sk_prefix h next ct (out_len k) ++ ck) hd) None (Some k) role =
    Err "IKE decode decrypt: decryptMsg(): verify integrity: invalid checksum".
Proof.
  intros Hk Hh Hn Bct Bck Hct Lck Hne.
  destruct (sealed_decodes k h next ct ck hd Hk Hh Hn Bct Bck Hct Lck) as [p Ep].
  destruct (decryptMsg_sealed k role (Some (with_payload (with_next h TypeSK) p)) next ct ck
    (sk_prefix h next ct (out_len k)) hd Hk Lck) as (k' & d & _ & _ & _ & Em).
  unfold DecodeDecrypt. rewrite Ep. unfold sk_chain in *.
  cbn [wrap mbind res_bind m_Payloads payload_Type].
  change (TypeSK =? TypeSK) with true. cbv iota. rewrite Em.
  by rewrite bool_decide_eq_false_2.
Qed.

Lemma DecodeDecrypt_rejects_witness :
  DecodeDecrypt (Slice (sk_prefix demo_header 40 (make_bytes 32) 12 ++ make_bytes 12) [])
    None (Some demo_sa) Role_Responder =
    Err "IKE decode decrypt: decryptMsg(): verify integrity: invalid checksum".
Proof.
  assert (E : out_len demo_sa = 12) by (vm_compute; reflexivity).
  rewrite <- E at 1. apply DecodeDecrypt_rejects; try reflexivity.
  - apply demo_sa_ok.
  - vm_compute. discriminate.
  - rewrite E. vm_compute. discriminate.
Defined.

(** ** From the key exchange to the protected message *)

Lemma GenerateKeyForIKESA_nonce k nonce shared i r k' :
  GenerateKeyForIKESA (Some k) nonce shared i r = Ok k' → len nonce ≠ 0 ∧ len shared ≠ 0.
Proof.
  unfold GenerateKeyForIKESA.
  destruct (EncrInfo k), (IntegInfo k), (PrfInfo k), (DhInfo k); try done.
  destruct (Z.eqb_spec (len nonce) 0); [done|]. by destruct (Z.eqb_spec (len shared) 0).
Qed.

(** C5: from the key exchange to the first protected message. The initiator
    keeps a secret and sends its public value; the responder runs
    [NewIKESAKey] on it. If the initiator accepts the responder's public
    value, it derives from the same nonces and SPIs exactly the responder's
    IKE SA; and with this IKE SA, every message whose header is in range and
    whose payloads are a valid chain ([chain_valid]) of at most 65483 bytes is
    protected in either role, with 32 random bytes or more, and opened in the
    other to the same payloads. *)
Theorem handshake_then_message p dhT dh a A nonce i r rB kr B rB' :
  head (p_DiffieHellmanGroup p) = Some dhT → dh_DecodeTransform dhT = Some dh → 0 ≤ a →
  dh_GetPublicValue dh a = Ok A →
  NewIKESAKey (Some p) A nonce i r rB = Ok (kr, B, rB') →
  (∃ encr integ prf, ∀ shared, dh_GetSharedKey dh a (be_dec B) = Ok shared →
     GenerateKeyForIKESA (Some (with_infos (Some dh) (Some encr) (Some integ) (Some prf)))
       nonce shared i r = Ok kr) ∧ sa_ok kr ∧
  ∀ role h c t hd,
    header_in_range h = true → chain_valid c = true → len (chain_bytes c) ≤ 65483 →
    bytesb t = true → 32 ≤ len t →
    ∃ bs m k' k'' q t',
      EncodeEncrypt (Some (MkMessage (Some h) c)) (Some kr) role t = Ok (bs, m, Some k', t') ∧
      DecodeDecrypt (Slice bs hd) None (Some kr) (negb role) =
        Ok (MkMessage (Some (with_payload (with_next h TypeSK) q)) c, Some k'').
Proof.
  intros Hd Edh Ha EA HN.
  apply NewIKESAKey_inv in HN as (dh' & encr & integ & prf & secret & shared' & dhT' & encrT & integT
    & prfT & Hd' & _ & _ & _ & Edh' & Een & Ei & Ep & Er & EB & Es' & Ek).
  assert (dhT' = dhT) as -> by congruence. assert (dh' = dh) as -> by congruence.
  pose proof (dh_DecodeTransform_ok _ _ Edh) as Hok.
  pose proof (GenerateRandomNumber_spec rB) as HR. rewrite Er in HR. destruct HR as [HR _].
  pose proof random_bounds.
  pose proof Ek as Ek'. apply GenerateKeyForIKESA_nonce in Ek' as [Hn Hs].
  set (infos := with_infos (Some dh) (Some encr) (Some integ) (Some prf)) in *.
  destruct (GenerateKeyForIKESA_spec infos dh encr integ prf nonce shared' i r eq_refl eq_refl eq_refl
    eq_refl) as (k & E & _ & _ & _ & _ & _ & _ & Hk); [| | |done|done|].
  { by eapply encr_DecodeTransform_supported. }
  { by eapply integ_DecodeTransform_supported. }
  { by eapply prf_DecodeTransform_ok. }
  rewrite Ek in E. injection E as <-. split; [|split; [exact Hk|]].
  - exists encr, integ, prf. intros shared Es.
    destruct (dh_agree dh a secret A B Hok Ha ltac:(lia) EA EB) as (s & Es1 & Es2 & _).
    { by eapply dh_GetSharedKey_inv. } { by eapply dh_GetSharedKey_inv. }
    rewrite Es in Es1. injection Es1 as ->. rewrite Es' in Es2. injection Es2 as ->. exact Ek.
  - intros role h c t hd Hh Hc Hl Bt Lt.
    destruct (sealed_round_trip kr kr role h c t hd) as (bs & m & t' & k' & k'' & q & E1 & E2 & _);
      [exact (conj Hk (conj Hh (conj Hc Hl)))|reflexivity|exact Bt|exact Lt|].
    exists bs, m, k', k'', q, t'. split; [exact E1|exact E2].
Qed.

Definition demo_proposal : Proposal :=
  match IKESAKey_ToProposal demo_infos with Ok p => p | _ => MkProposal 0 0 [] [] [] [] [] [] end.
Definition demo_dhT : Transform := dh_ToTransform (Dh1024BitModp group2).
Definition demo_encrT : Transform := default demo_dhT (head (p_EncryptionAlgorithm demo_proposal)).
Definition demo_integT : Transform := default demo_dhT (head (p_IntegrityAlgorithm demo_proposal)).
Definition demo_prfT : Transform := default demo_dhT (head (p_PseudorandomFunction demo_proposal)).
Definition demo_tape : tape := make_bytes 239 ++ [2] ++ make_bytes 16.

Lemma demo_exchange :
  ∃ kr B, NewIKESAKey (Some demo_proposal) (make_bytes 127 ++ [32]) [1] 3 4 demo_tape =
    Ok (kr, B, []).
Proof.
  destruct (NewIKESAKey_ok demo_proposal (make_bytes 127 ++ [32]) [1] 3 4 demo_tape
    (2 * 2 ^ 128) [] demo_dhT demo_encrT demo_integT demo_prfT [] [] [] []
    (Dh1024BitModp group2) (MkEncrAesCbc 16) demo_integ demo_prf) as (kr & B & _ & E & _).
  1-9: vm_compute; reflexivity.
  - vm_compute. by split.
  - done.
  - exists kr, B. exact E.
Qed.

Lemma handshake_then_message_witness :
  ∃ kr B,
    NewIKESAKey (Some demo_proposal) (make_bytes 127 ++ [32]) [1] 3 4 demo_tape = Ok (kr, B, []) ∧
    sa_ok kr.
Proof.
  destruct demo_exchange as (kr & B & E). exists kr, B. split; [exact E|].
  eapply (handshake_then_message demo_proposal _ (Dh1024BitModp group2) 5); [| | | |exact E].
  - vm_compute. reflexivity.
  - vm_compute. reflexivity.
  - discriminate.
  - vm_compute. reflexivity.
Defined.

(** ** Other outcomes of DecodeDecrypt *)

(** C28: an encrypted payload shorter than the checksum makes [DecodeDecrypt]
    panic, before anything is authenticated: any sender can do it. *)
Theorem DecodeDecrypt_short_sk_panics k role h next data hd :
  sa_ok k → header_in_range h = true → u8b next = true → bytesb data = true →
  0 < len data < out_len k →
  DecodeDecrypt (Slice (message_bytes h (sk_chain next data)) hd) None (Some k) role = Panic.
Proof.
  intros Hk Hh Hn Bd Hd. destruct (sa_ok_side k true Hk) as (t & gi & Ht & Egi & _ & Ho & _).
  change (integ_side k true) with (Integ_i k) in Egi.
  pose proof Hk as ([e He] & _ & (di & Edi & _) & _). unfold out_len in Hd. rewrite Ht in Hd.
  destruct (sk_decodes h next data hd Hh Hn Bd ltac:(lia)) as [p Ep].
  unfold DecodeDecrypt. rewrite Ep. unfold sk_chain.
  cbn [wrap mbind res_bind m_Payloads payload_Type].
  change (TypeSK =? TypeSK) with true. cbv iota.
  unfold decryptMsg. rewrite Ht, He, Egi, Edi.
  cbn [m_Payloads m_IKEHeader find_encrypted mbind res_bind deref sk_EncryptedData].
  unfold sfrom, sub, slen. cbn [vis of_bytes]. by ztests.
Qed.

Lemma DecodeDecrypt_short_sk_panics_witness :
  DecodeDecrypt (Slice (message_bytes demo_header (sk_chain 40 [1; 2; 3])) []) None (Some demo_sa)
    Role_Responder = Panic.
Proof.
  apply DecodeDecrypt_short_sk_panics; [apply demo_sa_ok|reflexivity..|]. by vm_compute.
Defined.

(** C27: the encryption is decided by the message. A message whose first
    payload is not an encrypted one comes back as it was decoded, whether or
    not the receiver has an IKE SA, and the IKE SA is not used; an encrypted
    one needs an IKE SA. *)
Theorem DecodeDecrypt_by_first_payload b k role m :
  IKEMessage_Decode new_IKEMessage b = Ok m →
  (first_type (m_Payloads m) ≠ TypeSK → DecodeDecrypt b None k role = Ok (m, k)) ∧
  (first_type (m_Payloads m) = TypeSK →
     DecodeDecrypt b None None role = Err "IKE decode decrypt: need ikesaKey to decrypt").
Proof.
  intros E. unfold DecodeDecrypt. rewrite E. cbn [wrap mbind res_bind].
  destruct (m_Payloads m) as [|p c]; [done|]. cbn [first_type].
  destruct (Z.eqb_spec (payload_Type p) TypeSK); done.
Qed.

Lemma DecodeDecrypt_by_first_payload_witness :
  DecodeDecrypt (of_bytes (message_bytes demo_header demo_chain)) None (Some demo_sa)
    Role_Responder =
    Ok (MkMessage (Some (with_payload (with_next demo_header 40)
          (of_bytes (chain_bytes demo_chain)))) demo_chain, Some demo_sa).
Proof.
  assert (E : IKEMessage_Decode new_IKEMessage (of_bytes (message_bytes demo_header demo_chain)) =
    Ok (MkMessage (Some (with_payload (with_next demo_header 40)
          (of_bytes (chain_bytes demo_chain)))) demo_chain)) by (vm_compute; reflexivity).
  apply (DecodeDecrypt_by_first_payload _ _ _ _ E). discriminate.
Defined.

(** Parsing the header beforehand changes nothing: [DecodeDecrypt] with
    the header [ParseHeader] gives and [DecodeDecrypt] without a header
    return the same messages, and panic on the same messages. *)
Theorem DecodeDecrypt_parsed_header b h k role :
  ParseHeader b = Ok h →
  (∀ m, DecodeDecrypt b (Some h) k role = Ok m ↔ DecodeDecrypt b None k role = Ok m) ∧
  (DecodeDecrypt b (Some h) k role = Panic ↔ DecodeDecrypt b None k role = Panic).
Proof.
  intros E. pose proof (ParseHeader_payload b h E) as Ep. unfold DecodeDecrypt. rewrite Ep.
  unfold IKEMessage_Decode. rewrite E. cbn [wrap mbind res_bind new_IKEMessage m_Payloads].
  by destruct (IKEMessage_DecodePayload _ _).
Qed.

Lemma DecodeDecrypt_parsed_header_example :
  ∃ h, ParseHeader (of_bytes (message_bytes demo_header demo_chain)) = Ok h ∧
    ∃ m, DecodeDecrypt (of_bytes (message_bytes demo_header demo_chain)) (Some h) None
      Role_Responder = Ok m.
Proof.
  eexists. split; [vm_compute; reflexivity|].
  eexists. apply DecodeDecrypt_parsed_header; vm_compute; reflexivity.
Defined.
