(* ===== verification/Session.v ===== *)
(** * A session: two IKE SAs, a network and an attacker

    The two sides of an IKE SA exchange messages through [EncodeEncrypt] and
    [DecodeDecrypt] in any order. The network may drop, repeat and reorder what
    is sent, and an attacker may present bytes of its own; it only cannot
    compute the checksum of data it has not seen protected. The abstract
    channel delivers what was sent by the other side, and what arrived without
    protection under a label of its own. *)

From S2P Require Import Prelude GoSlice Lts Lib Types Codec Payloads SecurityAssociation.
From S2P Require Import Eap Header Message Build Security Ike.

(** ** The system *)

(** A side that has panicked is [None]. The wire holds every message sent,
    with its sender. *)
Record conf := Conf {
  initiator : option IKESAKey;
  responder : option IKESAKey;
  wire : list (Role * list Z)
}.

Definition side (s : conf) (role : Role) : option IKESAKey :=
  if bool_decide (role = Role_Initiator) then initiator s else responder s.
Definition set_side (s : conf) (role : Role) (k : option IKESAKey) : conf :=
  if bool_decide (role = Role_Initiator) then Conf k (responder s) (wire s)
  else Conf (initiator s) k (wire s).
Definition put_wire (s : conf) (role : Role) (bs : list Z) : conf :=
  Conf (initiator s) (responder s) ((role, bs) :: wire s).

(** Both sides start with the keys of the IKE SA. *)
Definition start (k : IKESAKey) : conf := Conf (Some k) (Some k) [].

Inductive label :=
  | Send (role : Role) (h : IKEHeader) (c : IKEPayloadContainer)
  | Recv (role : Role) (m : IKEMessage)
  | Clear (role : Role) (m : IKEMessage)
  | Reject (role : Role)
  | Crash (role : Role).

(** The first payload of the bytes is an encrypted one. *)
Definition sealed (b : slice) : bool :=
  match IKEMessage_Decode new_IKEMessage b with
  | Ok m => first_type (m_Payloads m) =? TypeSK
  | _ => false
  end.

(** What the checksum is taken over: all but the last bytes. *)
Definition protected (k : IKESAKey) (b : list Z) : list Z :=
  take (Z.to_nat (len b - out_len k)) b.

(** The bytes decode to a message whose last payload ends in the checksum the
    other side computes for the rest of the message. *)
Definition checksummed (k : IKESAKey) (role : Role) (b : slice) : Prop :=
  ∃ m sk ct, IKEMessage_Decode new_IKEMessage b = Ok m ∧ last (m_Payloads m) = Some (PSK sk) ∧
    sk_EncryptedData sk = ct ++ checksum k (negb role) (protected k (vis b)).

(** No forgery: whoever presents such bytes has them from a message in which the
    other side has protected the same data. *)
Definition unforged (s : conf) (k : IKESAKey) (role : Role) (b : slice) : Prop :=
  checksummed k role b → ∃ bs, (negb role, bs) ∈ wire s ∧ protected k bs = protected k (vis b).

Inductive step (s : conf) : label → conf → Prop :=
  | step_send role k h c r bs m k' r' :
      side s role = Some k → sendable h c → bytesb r = true → 32 ≤ len r →
      EncodeEncrypt (Some (MkMessage (Some h) c)) (Some k) role r = Ok (bs, m, Some k', r') →
      step s (Send role h c) (put_wire (set_side s role (Some k')) role bs)
  | step_recv role k b m k' :
      side s role = Some k → bytesb (vis b) = true → unforged s k role b →
      DecodeDecrypt b None (Some k) role = Ok (m, Some k') →
      step s (if sealed b then Recv role m else Clear role m) (set_side s role (Some k'))
  | step_reject role k b e k' :
      side s role = Some k → bytesb (vis b) = true →
      DecodeDecrypt b None (Some k) role = Err e → same_sa k k' →
      step s (Reject role) (set_side s role (Some k'))
  | step_crash role k b :
      side s role = Some k → bytesb (vis b) = true →
      DecodeDecrypt b None (Some k) role = Panic →
      step s (Crash role) (set_side s role None).

(** ** The channel *)

(** The state of the specification: what was sent, and by whom. *)
Abbreviation chan := (list (Role * IKEHeader * IKEPayloadContainer)) (only parsing).

(** A message as it is delivered: the header says that the payloads were
    encrypted, and the payloads are those that were sent. *)
Definition delivered (h : IKEHeader) (c : IKEPayloadContainer) (m : IKEMessage) : Prop :=
  ∃ p, m = MkMessage (Some (with_payload (with_next h TypeSK) p)) c.

Inductive chan_step (s : chan) : label → chan → Prop :=
  | chan_send role h c : chan_step s (Send role h c) ((role, h, c) :: s)
  | chan_recv role h c m :
      (negb role, h, c) ∈ s → delivered h c m → chan_step s (Recv role m) s
  | chan_clear role m :
      first_type (m_Payloads m) ≠ TypeSK → chan_step s (Clear role m) s
  | chan_reject role : chan_step s (Reject role) s
  | chan_crash role : chan_step s (Crash role) s.

(** ** Sides *)

Lemma side_set s role role' k :
  side (set_side s role k) role' = if bool_decide (role' = role) then k else side s role'.
Proof. by destruct role, role'. Qed.
Lemma wire_set s role k : wire (set_side s role k) = wire s.
Proof. by destruct role. Qed.
Lemma side_put s role role' bs : side (put_wire s role bs) role' = side s role'.
Proof. done. Qed.

(** ** Recognising what was sent *)

Lemma out_len_range k : sa_ok k → 0 < out_len k ≤ 16.
Proof.
  intros Hk. destruct (sa_ok_side k true Hk) as (t & _ & Ht & _ & _ & Ho & _).
  unfold out_len. by rewrite Ht.
Qed.

Lemma protected_app k pre ck : len ck = out_len k → protected k (pre ++ ck) = pre.
Proof.
  intros H. unfold protected. rewrite len_app, H.
  replace (Z.to_nat (len pre + out_len k - out_len k)) with (length pre) by (unfold len; lia).
  apply take_app_length.
Qed.

(** Bytes that agree with a protected message up to its checksum and are
    accepted are that message. *)
Lemma checksummed_sent k role h c bs b :
  sa_ok k → bytesb (vis b) = true → seals k (negb role) h c bs → checksummed k role b →
  protected k bs = protected k (vis b) → vis b = bs.
Proof.
  intros Hk Bb ((Hh & Hc & _) & ct & d & hp & Bct & Lct & _ & _ & ->) (m & sk & ct' & E & El & Esk) Hp.
  set (pre := sk_prefix _ _ _ _) in *. pose proof (out_len_range k Hk) as Ho.
  rewrite protected_app in Hp by (by apply checksum_len).
  pose proof (take_drop (Z.to_nat (len (vis b) - out_len k)) (vis b)) as Hb.
  change (take (Z.to_nat (len (vis b) - out_len k)) (vis b)) with (protected k (vis b)) in Hb.
  rewrite <- Hp in *. set (tl := drop _ _) in *.
  assert (Lpre : 28 ≤ len pre)
    by (unfold pre, sk_prefix; rewrite len_app, len_header_bytes; pose proof (len_nonneg ([first_type c; 0] ++ be_enc 2 (4 + (len ct + out_len k)) ++ ct)); lia).
  assert (Ltl : len tl = out_len k).
  { assert (len pre = len (protected k (vis b))) as Hl by by rewrite <- Hp.
    unfold protected, tl, len in *. rewrite length_take in Hl. rewrite length_drop. lia. }
  assert (Btl : bytesb tl = true) by (by apply bytesb_drop).
  destruct (sealed_decodes k h (first_type c) ct tl (hid b) Hk Hh (first_type_byte c) Bct Btl Lct Ltl)
    as [p Ep]. fold pre in Ep. rewrite Hb in Ep.
  replace (Slice (vis b) (hid b)) with b in Ep by by destruct b.
  rewrite E in Ep. injection Ep as ->. unfold sk_chain in El.
  cbn [last m_Payloads] in El. injection El as <-. cbn [sk_EncryptedData] in Esk.
  apply app_inj_2 in Esk as [_ <-]; [by rewrite Hb|].
  pose proof (checksum_len k (negb role) pre Hk). unfold len in *. lia.
Qed.

(** ** The simulation *)

Section session.
Context (k0 : IKESAKey) (Hk0 : sa_ok k0).

(** Sides that are up hold the keys of the start, and the wire holds, in order,
    a protected form of what was sent. *)
Definition matches (w : Role * list Z) (x : Role * IKEHeader * IKEPayloadContainer) : Prop :=
  w.1 = x.1.1 ∧ seals k0 x.1.1 x.1.2 x.2 w.2.

Definition sim (s : conf) (a : chan) : Prop :=
  (∀ role k, side s role = Some k → same_sa k0 k) ∧ Forall2 matches (wire s) a.

Lemma sim_set s a role k :
  sim s a → (∀ k', k = Some k' → same_sa k0 k') → sim (set_side s role k) a.
Proof.
  intros [Hs Hw] Hk. split; [|by rewrite wire_set].
  intros role' k'. rewrite side_set. case_bool_decide; [by apply Hk|apply Hs].
Qed.

Lemma sim_key s a role k : sim s a → side s role = Some k → sa_ok k ∧ same_sa k0 k.
Proof. intros [Hs _] H. specialize (Hs role k H). by rewrite <- Hs. Qed.

(** Accepted bytes leave the keys as they are; if their first payload is an
    encrypted one, they carry a checksum of the other side, else they are
    returned as they were decoded. *)
Lemma accepted b k role m k' :
  sa_ok k → DecodeDecrypt b None (Some k) role = Ok (m, Some k') →
  same_sa k k' ∧
  if sealed b then checksummed k role b else first_type (m_Payloads m) ≠ TypeSK.
Proof.
  intros Hk H. destruct (DecodeDecrypt_inv b k role m k' Hk H) as (m0 & E & Hm).
  unfold sealed. rewrite E.
  destruct Hm as [(Ht & -> & ->)|(Ht & sk & ct & d & pl & El & Esk & _ & _ & _ & Eh & Hs)].
  - by rewrite (proj2 (Z.eqb_neq _ _) Ht).
  - rewrite Ht. split; [done|]. by exists m0, sk, ct.
Qed.

(** The other side's messages, and only they, come through. *)
Lemma received s a role k b m k' :
  sim s a → side s role = Some k → bytesb (vis b) = true → unforged s k role b →
  DecodeDecrypt b None (Some k) role = Ok (m, Some k') → sealed b = true →
  ∃ h c, (negb role, h, c) ∈ a ∧ delivered h c m.
Proof.
  intros Hsim Hk Bb Hu E Hb. destruct (sim_key s a role k Hsim Hk) as [Ok Hs].
  destruct (accepted b k role m k' Ok E) as [_ Hc]. rewrite Hb in Hc.
  destruct (Hu Hc) as (bs & Hin & Hp). destruct Hsim as [_ Hw].
  apply list_elem_of_lookup in Hin as [i Hi].
  destruct (Forall2_lookup_l _ _ _ _ _ Hw Hi) as ([[r h] c] & Ha & Hr & Hseal).
  cbn in Hr, Hseal. subst r. exists h, c. split; [by eapply list_elem_of_lookup_2|].
  apply (seals_same k0 k) in Hseal; [|done].
  assert (vis b = bs) as Ev by by eapply checksummed_sent.
  destruct (seals_opened k (negb role) h c bs (hid b) Ok Hseal) as (p & k2 & Ed & _).
  rewrite negb_involutive, <- Ev in Ed. replace (Slice (vis b) (hid b)) with b in Ed by by destruct b.
  rewrite Ed in E. injection E as <- _. by exists p.
Qed.

Lemma sim_step s l s' a : sim s a → step s l s' → ∃ a', chan_step a l a' ∧ sim s' a'.
Proof.
  intros Hsim H. destruct H as [role k h c r bs m k' r' Hk Hs Br Lr E|role k b m k' Hk Bb Hu E
                               |role k b e k' Hk Bb E Hk'|role k b Hk Bb E];
    destruct (sim_key s a role k Hsim Hk) as [Hok Hsame].
  - eexists. split; [constructor|].
    destruct (sealing k role h c r Hok Hs Br Lr) as (bs' & m' & r2 & k2 & E' & Hb & Hk2).
    rewrite E in E'. injection E' as <- <- <- <-.
    destruct (sim_set s a role (Some k') Hsim) as [H1 H2]; [intros ? [= <-]; by etrans|].
    split; [done|]. constructor; [|done]. split; [done|]. cbn. apply (seals_same k); [by symmetry|done].
  - destruct (accepted b k role m k' Hok E) as [Hk' Hm]. exists a. split.
    + destruct (sealed b) eqn:Eb; [|by constructor].
      destruct (received s a role k b m k' Hsim Hk Bb Hu E Eb) as (h & c & Hin & Hd).
      by econstructor.
    + apply sim_set; [done|]. intros ? [= <-]. by etrans.
  - exists a. split; [constructor|]. apply sim_set; [done|]. intros ? [= <-]. by etrans.
  - exists a. split; [constructor|]. by apply sim_set.
Qed.

Lemma sim_start : sim (start k0) [].
Proof. split; [intros [] k; cbn; by intros [= <-]|constructor]. Qed.

Lemma session_run t s : run step (start k0) t s → ∃ a, run chan_step [] t a ∧ sim s a.
Proof. apply run_simulation with (R := sim); [by eauto using sim_step|apply sim_start]. Qed.

(** A side that is up can send, and what was sent can be delivered. *)
Lemma send_step s a role k h c r :
  sim s a → side s role = Some k → sendable h c → bytesb r = true → 32 ≤ len r →
  ∃ s', step s (Send role h c) s' ∧ ∀ role', is_Some (side s role') → is_Some (side s' role').
Proof.
  intros Hsim Hk Hs Br Lr. destruct (sim_key s a role k Hsim Hk) as [Hok _].
  destruct (sealing k role h c r Hok Hs Br Lr) as (bs & m & r' & k' & E & _).
  eexists. split; [by econstructor|].
  intros role'. rewrite side_put, side_set. by case_bool_decide.
Qed.

Lemma deliver_step s a role k h c :
  sim s a → side s (negb role) = Some k → (role, h, c) ∈ a →
  ∃ m s', step s (Recv (negb role) m) s' ∧ delivered h c m.
Proof.
  intros Hsim Hk Hin. destruct (sim_key s a _ k Hsim Hk) as [Hok Hs].
  apply list_elem_of_lookup in Hin as [i Hi].
  destruct (Forall2_lookup_r _ _ _ _ _ (proj2 Hsim) Hi) as ([role' bs] & Hw & Hr & Hseal).
  cbn in Hr, Hseal. subst role'. apply (seals_same k0 k) in Hseal; [|done].
  destruct (seals_opened k role h c bs [] Hok Hseal) as (p & k' & E & _).
  destruct Hseal as ((Hh & Hc & _) & ct & d & hp & Bct & Lct & _ & _ & Ebs). cbv zeta in Ebs.
  set (pre := sk_prefix _ _ _ _) in *.
  pose proof (checksum_bytes k role pre Hok) as Bck. pose proof (checksum_len k role pre Hok) as Lck.
  destruct (sealed_decodes k h (first_type c) ct _ [] Hok Hh (first_type_byte c) Bct Bck Lct Lck)
    as [q Eq]. fold pre in Eq. rewrite <- Ebs in Eq.
  assert (Hsealed : sealed (Slice bs []) = true) by (unfold sealed; by rewrite Eq).
  assert (Bbs : bytesb bs = true).
  { rewrite Ebs. bsplit. by apply bytesb_sk_prefix; [|apply first_type_byte|]. }
  eexists _, _. split; [|by eexists].
  epose proof (step_recv s (negb role) k (Slice bs []) _ k' Hk Bbs) as Hst.
  rewrite Hsealed in Hst. apply Hst; [|exact E].
  intros _. exists bs. rewrite negb_involutive. split; [by eapply list_elem_of_lookup_2|done].
Qed.
End session.

(** The channel's state is what was sent. *)
Lemma chan_sent t a role h c :
  run chan_step [] t a → (role, h, c) ∈ a ↔ Send role h c ∈ t.
Proof.
  apply (run_invariant chan_step (λ t a, (role, h, c) ∈ a ↔ Send role h c ∈ t)); [set_solver|].
  clear t a. intros t a l a' _ IH H. rewrite elem_of_app, list_elem_of_singleton, <- IH.
  destruct H as [role' h' c'|role' h' c' m Hin Hd|role' m Hm|role'|role'].
  2-5: split; [by left|by intros [?|[=]]].
  rewrite elem_of_cons. split; intros [E|E]; auto; injection E as -> -> ->; auto.
Qed.

(** ** Properties *)

(** C3: a session behaves like a channel between the two sides. For every run
    of the system from two sides with the same keys, with any interleaving of
    sends and receptions, with packets lost, repeated, reordered or made up by an
    attacker that does not forge checksums, the channel has the same run: a
    payload chain is received under [Recv] only from the other side and
    unchanged, and what arrives without protection is labelled [Clear]. *)
Theorem session_refines_channel k t s :
  sa_ok k → run step (start k) t s → ∃ a, run chan_step [] t a.
Proof. intros Hk H. destruct (session_run k Hk t s H) as (a & Ha & _). by exists a. Qed.

(** C9: the invariant of a session, in every state reachable by any
    interleaving. A side that has not crashed holds the keys it started with,
    and every message received under protection was sent before, by the other
    side, with the same payloads and the same header, up to its next payload
    field and its payload bytes. That a refused packet leaves the keys of the
    side alone is part of the step. *)
Theorem session_invariant k t s :
  sa_ok k → run step (start k) t s →
  (∀ role k', side s role = Some k' → same_sa k k' ∧ sa_ok k') ∧
  ∀ t1 t2 role m, t = t1 ++ Recv role m :: t2 →
    ∃ h c, Send (negb role) h c ∈ t1 ∧ delivered h c m.
Proof.
  intros Hk H. split.
  - intros role k' Hs. destruct (session_run k Hk t s H) as (a & _ & Hsim).
    by destruct (sim_key k Hk s a role k' Hsim Hs).
  - intros t1 t2 role m ->. apply run_split in H as (s1 & s2 & H1 & H2).
    destruct (session_run k Hk t1 s1 H1) as (a & Ha & Hsim).
    destruct (sim_step k Hk s1 _ s2 a Hsim H2) as (a' & Hc & _).
    inversion Hc as [|role' h c m' Hin Hd| | |]; subst.
    exists h, c. split; [|done]. by eapply chan_sent.
Qed.

(** C10: a session never gets stuck. In every reachable state a side that has
    not crashed can send any message that is valid and fits ([sendable]: a
    header in range, and a chain of at most 65483 bytes that is [chain_valid]),
    and everything sent so far can still be delivered to the other side, if it has
    not crashed, however many packets were lost, repeated, refused or injected
    in between. *)
Theorem session_live k t s :
  sa_ok k → run step (start k) t s →
  (∀ role h c, is_Some (side s role) → sendable h c → ∃ s', step s (Send role h c) s') ∧
  ∀ role h c, is_Some (side s (negb role)) → Send role h c ∈ t →
    ∃ m s', step s (Recv (negb role) m) s' ∧ delivered h c m.
Proof.
  intros Hk H. destruct (session_run k Hk t s H) as (a & Ha & Hsim). split.
  - intros role h c [k' Hs] Hc.
    destruct (send_step k Hk s a role k' h c (make_bytes 32) Hsim Hs Hc) as (s' & H' & _);
      [done..|by exists s'].
  - intros role h c [k' Hs] Hin. apply (deliver_step k Hk s a role k' h c Hsim Hs).
    by apply (chan_sent t a).
Qed.

(** The runs of the witnesses: the initiator sends, the responder receives. *)
Lemma demo_sent :
  ∃ s, run step (start demo_sa) [Send Role_Initiator demo_header demo_chain] s ∧
    ∀ role, is_Some (side s role).
Proof.
  assert (Hs : sendable demo_header demo_chain) by apply demo_sealable.
  destruct (send_step demo_sa demo_sa_ok (start demo_sa) [] Role_Initiator demo_sa demo_header
    demo_chain (make_bytes 32) (sim_start demo_sa) eq_refl Hs eq_refl) as (s & H & Hu);
    [by vm_compute|].
  exists s. split; [|intros role; apply Hu; by destruct role; eexists].
  by apply (run_snoc _ _ [] _ (start demo_sa)); [left|].
Qed.

Lemma demo_run :
  ∃ m s, delivered demo_header demo_chain m ∧
    run step (start demo_sa)
      [Send Role_Initiator demo_header demo_chain; Recv Role_Responder m] s.
Proof.
  destruct demo_sent as (s1 & H1 & Hu). destruct (Hu Role_Responder) as [k Hk].
  destruct (session_run demo_sa demo_sa_ok _ _ H1) as (a & Ha & Hsim).
  destruct (deliver_step demo_sa demo_sa_ok s1 a Role_Initiator k demo_header demo_chain Hsim Hk)
    as (m & s2 & H3 & Hm); [apply (chan_sent _ _ _ _ _ Ha); by left|].
  exists m, s2. split; [done|]. by apply (run_snoc _ _ [_] _ s1).
Qed.

Lemma session_refines_channel_witness :
  ∃ m s a, delivered demo_header demo_chain m ∧
    run step (start demo_sa)
      [Send Role_Initiator demo_header demo_chain; Recv Role_Responder m] s ∧
    run chan_step [] [Send Role_Initiator demo_header demo_chain; Recv Role_Responder m] a.
Proof.
  destruct demo_run as (m & s & Hm & H).
  destruct (session_refines_channel _ _ _ demo_sa_ok H) as [a Ha]. by exists m, s, a.
Defined.

Lemma session_invariant_witness :
  ∃ m s, run step (start demo_sa)
      [Send Role_Initiator demo_header demo_chain; Recv Role_Responder m] s ∧
    ∃ h c, Send (negb Role_Responder) h c ∈ [Send Role_Initiator demo_header demo_chain] ∧
      delivered h c m.
Proof.
  destruct demo_run as (m & s & Hm & H). exists m, s. split; [exact H|].
  apply (proj2 (session_invariant _ _ _ demo_sa_ok H) [_] [] Role_Responder m eq_refl).
Defined.

Lemma session_live_witness :
  ∃ s, run step (start demo_sa) [Send Role_Initiator demo_header demo_chain] s ∧
    ∃ m s', step s (Recv Role_Responder m) s' ∧ delivered demo_header demo_chain m.
Proof.
  destruct demo_sent as (s & H & Hu). exists s. split; [exact H|].
  apply (proj2 (session_live _ _ _ demo_sa_ok H) Role_Initiator); [apply Hu|by left].
Defined.
