(* ===== verification/Vectors.v ===== *)
(** * The test vectors of the repository, evaluated on the model

    The packages under src/ come with tests that compare their results with
    recorded bytes: a message captured from a 5G core with its keys, key
    derivations, cipher texts, message authentication codes, and encoded
    messages. Each [Example] runs the model on such an input and compares the
    result, so that the definitions are checked against the code's own
    expectations and not only against each other. *)

From S2P Require Import Prelude GoSlice Hash Aes Lib Types Payloads SecurityAssociation.
From S2P Require Import TrafficSelector EapAka Eap Header Message Dh Prf Integ Esn Encr.
From S2P Require Import Security Ike.

(** [hex.DecodeString] on the recorded texts *)
Fixpoint hex_pairs (l : list (option Z)) : list Z :=
  match l with
  | Some a :: Some b :: l => (16 * a + b) :: hex_pairs l
  | _ => []
  end.
Definition hex (s : string) : list Z := hex_pairs (Dh.hex_digit <$> String.list_ascii_of_string s).

Definition bytes_of_text (s : string) : list Z :=
  (λ c, Z.of_nat (Ascii.nat_of_ascii c)) <$> String.list_ascii_of_string s.

(** ** ike_test.go *)

(** TestDecodeDecrypt: a message of an IKE_AUTH exchange and the keys of its SA. *)
Definition eapRawMsg : list Z :=
  hex (
    "000000000006f708c9e2e31f8b64053d2e202308000000030000006c30000050" +:+
    "ec5031162c692fbbfc4d20640c9121ebe9475ef94f9b02959d31242e535e9c3c" +:+
    "4dcaecd1bfd6dd80aa812b07de36dee9b7509435f635e1aaae1c3825f4eae338" +:+
    "4903f724f444170c6845ca80").

Definition sa_with (ei er ai ar : option (list Z)) : res IKESAKey :=
  encr ← deref (encr_StrToType "ENCR_AES_CBC_256");
  integ ← deref (integ_StrToType "AUTH_HMAC_SHA1_96");
  let crypto key := match key with
                    | Some key => c ← encr_NewCrypto encr key; Ok (Some c)
                    | None => Ok None
                    end in
  ci ← crypto ei; cr ← crypto er;
  Ok (MkIKESAKey None (Some encr) (Some integ) None None
        (ai ≫= integ_Init integ) (ar ≫= integ_Init integ) ci cr None None
        [] [] [] [] [] [] []).

Definition SK_EI : list Z := hex "3d7a26417122cee9c77c59f375b024cdb9f0b5777ea18b50f8a671fd3b2daa99".
Definition SK_ER : list Z := hex "3ea57e7ddfb30756a04619a9873333b08e94deef05b6a05d7eb3dba075d81c6f".
Definition SK_AI : list Z := hex "ab8047415535cf53e19a69e2c86feadfebfff1e9".
Definition SK_AR : list Z := hex "16d5ae6f2859a73a8c7db60bed07e24538b19bb0".

Definition eapPayload : IKEPayload :=
  PEAP (MkEAP 0x02 0x3b (Some (TDExpanded (MkEapExpanded 0x28af 0x03
    (hex "0200000000157e00572d10f507362e322de368579365d2862b50ed"))))).

Definition open_as_responder (sa : res IKESAKey) (b : list Z) : res (option IKEHeader * list IKEPayload) :=
  k ← sa;
  '(m, _) ← DecodeDecrypt (of_bytes b) None (Some k) Role_Responder;
  Ok (m_IKEHeader m, m_Payloads m).

Definition full_sa : res IKESAKey := sa_with (Some SK_EI) (Some SK_ER) (Some SK_AI) (Some SK_AR).

Example decrypt_with_key :
  open_as_responder full_sa eapRawMsg =
  Ok (Some (MkHeader 0x000000000006f708 0xc9e2e31f8b64053d 2 0 IKE_AUTH InitiatorBitCheck 0x03
              TypeSK (of_bytes (drop 28 eapRawMsg))), [eapPayload]).
Proof. vm_compute. reflexivity. Qed.

Example decrypt_without_key :
  DecodeDecrypt (of_bytes eapRawMsg) None None Role_Responder =
  Err "IKE decode decrypt: need ikesaKey to decrypt".
Proof. vm_compute. reflexivity. Qed.

Example decrypt_no_message :
  open_as_responder full_sa [] =
  Err "DecodeDecrypt(): Decode(): ParseHeader(): Received broken IKE header".
Proof. vm_compute. reflexivity. Qed.

Example decrypt_no_sk_ai :
  open_as_responder (sa_with (Some SK_EI) (Some SK_ER) None (Some SK_AR)) eapRawMsg =
  Err "IKE decode decrypt: decryptMsg(): No initiator's integrity key".
Proof. vm_compute. reflexivity. Qed.

Example decrypt_no_sk_ei :
  open_as_responder (sa_with None (Some SK_ER) (Some SK_AI) (Some SK_AR)) eapRawMsg =
  Err "IKE decode decrypt: decryptMsg(): No initiator's encryption key".
Proof. vm_compute. reflexivity. Qed.

Example decrypt_invalid_checksum :
  open_as_responder full_sa (take 104 eapRawMsg ++ [0; 0; 0; 0]) =
  Err "IKE decode decrypt: decryptMsg(): verify integrity: invalid checksum".
Proof. vm_compute. reflexivity. Qed.

(** TestEncryptMsg: with a fixed initialization vector and padding, encryption is
    deterministic. *)
Definition fixed_crypto (key iv padding : list Z) : res IKECrypto :=
  b ← aes_NewCipher key; Ok (aes_IKECrypto (MkAesCrypto b (Some iv) (Some padding))).

Definition encrypted_by (ei er ai ar iv padding : string) (h : IKEHeader)
    (c : list IKEPayload) (role : Role) : res (list IKEPayload) :=
  encr ← deref (encr_StrToType "ENCR_AES_CBC_256");
  integ ← deref (integ_StrToType "AUTH_HMAC_SHA1_96");
  ci ← fixed_crypto (hex ei) (hex iv) (hex padding);
  cr ← fixed_crypto (hex er) (hex iv) (hex padding);
  let k := MkIKESAKey None (Some encr) (Some integ) None None
             (integ_Init integ (hex ai)) (integ_Init integ (hex ar)) (Some ci) (Some cr)
             None None [] [] [] [] [] [] [] in
  '(m, _, _) ← encryptMsg (Some (MkMessage (Some h) c)) (Some k) role [];
  Ok (m_Payloads m).

Example encryptMsg_payload :
  encrypted_by
    "b2e0279136e0477624e635e53e561c0b241d1388f3ea0873496e835b48c17508"
    "71919fd9d651da48fe141d0e6735d9a2ffc4512354db293c7b4c35f0fab62242"
    "f63878f3236929f870fe5e4f58621084b8be0c86"
    "63204bde31bfd4e142081bb7beaba3819bf09aad"
    "a2fbbcddd39adadd6710bc3833c02372" "e6597d139aa0d93b08"
    (MkHeader 0x494e377c00000000 0x8ea9e2fc844bfaaf 2 0 IKE_AUTH 0x20 0x03 TypeEAP (of_bytes []))
    [PEAP (MkEAP 0x01 0xd9 (Some (TDExpanded (MkEapExpanded 0x28af 0x03
       (hex "020000137e0322e763cb007e005d0200028020e1360102")))))]
    Role_Responder =
  Ok [PSK (MkSK TypeEAP (hex (
    "a2fbbcddd39adadd6710bc3833c02372cdb2d8bd5264b4fe072c5318690a891d" +:+
    "23290b19b277fe5496252c863f6b42aa7a9e24690ab5eacb8865ca1af0d0c9bb" +:+
    "bda2d99b2276767c8084d2b4")))].
Proof. vm_compute. reflexivity. Qed.

Example encryptMsg_no_payload :
  encrypted_by
    "3d3c6a1f1c693acf223aedf30ac81ae4fcd21c7e6fcefdd74280842d7feefd10"
    "577462e5d72cced94747c2742866d3ec5ed2ca53cf05eb59bfb88998a66c279a"
    "89a2b8789cc33333b01d26eaf4529f22a3420e24"
    "02f3ce7b78d16bd12b9f0b462ea823b9c67cc824"
    "95b0f4844980f4aa28861a0f11253061" "b78db03d231f014db091cb5214ed7b0f"
    (MkHeader 0x172eb78b61479973 0x7fff512ecf965300 2 0 INFORMATIONAL 0x08 0x02 NoNext (of_bytes []))
    [] Role_Initiator =
  Ok [PSK (MkSK NoNext (hex (
    "95b0f4844980f4aa28861a0f11253061f26c082f44368b76943fd6ee38e548e8" +:+
    "90d8c62f5ebebd2345793f7f")))].
Proof. vm_compute. reflexivity. Qed.

(** TestVerifyIntegrity; a key of the wrong length gives no hash object. *)
Definition verified (algo : string) (key checksum : string) : res bool :=
  integ ← deref (integ_StrToType algo);
  let k := MkIKESAKey None None (Some integ) None None (integ_Init integ (hex key)) None None None
             None None [] [] [] [] [] [] [] in
  _ ← verifyIntegrity (bytes_of_text "hello world") (hex checksum) k Role_Initiator;
  Ok true.

Example verifyIntegrity_vectors :
  let key1 := "0123456789abcdef0123456789abcdef01234567" in
  let key2 := "0123456789abcdef0123456789abcdef0123456789abcdef0123456789abcdef" in
  verified "AUTH_HMAC_SHA1_96" key1 "5089f6a86e4dafb89e3fcd23" = Ok true ∧
  verified "AUTH_HMAC_SHA1_96" key1 "01231875aa" = Err "invalid checksum" ∧
  verified "AUTH_HMAC_SHA1_96" "0123" "" =
    Err "verifyIntegrity: CalcIKEChecksum() : IKE SA have nil Integ_r" ∧
  verified "AUTH_HMAC_SHA2_256_128" key2 "a64166565bc1f48eb3edd4109fcaeb72" = Ok true ∧
  verified "AUTH_HMAC_SHA2_256_128" key2 "01231875aa" = Err "invalid checksum" ∧
  verified "AUTH_HMAC_SHA2_256_128" "0123" "" =
    Err "verifyIntegrity: CalcIKEChecksum() : IKE SA have nil Integ_r".
Proof. vm_compute. done. Qed.

(** ** security_test.go *)

Example concatenateNonceAndSPI_vector :
  concatenateNonceAndSPI [1; 2; 3; 4] 0x0506070809000102 0x0304050607080900 =
  [1; 2; 3; 4; 5; 6; 7; 8; 9; 0; 1; 2; 3; 4; 5; 6; 7; 8; 9; 0].
Proof. vm_compute. reflexivity. Qed.

(** TestGenerateKeyForIKESA *)
Definition key_vector_sa : res IKESAKey :=
  encr ← deref (encr_StrToType "ENCR_AES_CBC_256");
  integ ← deref (integ_StrToType "AUTH_HMAC_SHA1_96");
  prf ← deref (prf_StrToType "PRF_HMAC_SHA1");
  dh ← deref (dh_StrToType "DH_2048_BIT_MODP");
  GenerateKeyForIKESA (Some (with_infos (Some dh) (Some encr) (Some integ) (Some prf)))
    [1; 2; 3; 4] [5; 6; 7; 8] 0x456 0x123.

Example GenerateKeyForIKESA_vector :
  (k ← key_vector_sa;
   Ok [SK_ai k; SK_ar k; SK_ei k; SK_er k; SK_pi k; SK_pr k; SK_d k]) =
  Ok (hex <$> [
    "58a17edd463b4b5062359c1c98b1736d80219691"; "eb2e18e9a8f9643ea0d0107a28cf5947ecd1597e";
    "3dcbcbb2d71d1806d5e5356a5600727eb482101de1868ae9cf71c4117d22cddb";
    "ba3b43cf173435c449f3098c01944f2d9a66c2ca1d967f06a69f36e945a4754b";
    "aff4def6c9113c6942f31fa2d8b74f6c054e0e73"; "c06bd0c0dd3e0b3f9c5b4cbe35c88fdd3948430f";
    "276e1a8f0d65dae5309da66277ff7c82d39a8956"]).
Proof. vm_compute. reflexivity. Qed.

(** TestGenerateKeyForChildSA: the key deriving key is the SK_d above, and the
    nonces are nil. *)
Example GenerateKeyForChildSA_vector :
  (k ← key_vector_sa;
   encr ← deref (encr_StrToKType "ENCR_AES_CBC_256");
   integ ← deref (integ_StrToKType "AUTH_HMAC_SHA1_96");
   '(c, _) ← GenerateKeyForChildSA
               (Some (MkChildSAKey 0 None (Some encr) (Some integ) (MkESN false) [] [] [] []))
               (Some k) [];
   Ok [InitiatorToResponderEncryptionKey c; InitiatorToResponderIntegrityKey c;
       ResponderToInitiatorEncryptionKey c; ResponderToInitiatorIntegrityKey c]) =
  Ok (hex <$> [
    "8adf11fb9c3d575f9aff5ce58c4891533c44026dc537d68dcc8c08d453e9e6df";
    "1a04be51ae650581a546411d2dbe09507e49329f";
    "103318186d2f7837e2d8a28cf375c2552634bd610f5142f30dfb223892cdca13";
    "f3e8e1d3b1e0e1ce731b0d4f84dc05ac9456454c"]).
Proof. vm_compute. reflexivity. Qed.

(** ** encr_aes_cbc*_test.go: encryption with a fixed initialization vector and
    padding, and back *)
Definition encrypts (key iv padding plain : list Z) : res (list Z) :=
  b ← aes_NewCipher key;
  '(c, _) ← EncrAesCbcCrypto_Encrypt (MkAesCrypto b (Some iv) (Some padding)) plain [];
  Ok c.
Definition decrypts (key iv padding cipher : list Z) : res (list Z) :=
  b ← aes_NewCipher key;
  p ← EncrAesCbcCrypto_Decrypt (MkAesCrypto b (Some iv) (Some padding)) cipher;
  Ok (vis p).

Definition sk_ei_128 : list Z := hex "545e6b2657680e51c8871ed9f91b4bfe".

Example aes_cbc_128_nil :
  let iv := hex "dbe6dbac7a0e31945d7c3d36c44e4e59" in
  let padding := hex "0e0420396bf15b5306833c2a51aed80f" in
  let cipher := hex "dbe6dbac7a0e31945d7c3d36c44e4e596eab02adf9863a6a05358a026e6903d7" in
  encrypts sk_ei_128 iv padding [] = Ok cipher ∧ decrypts sk_ei_128 iv padding cipher = Ok [].
Proof. vm_compute. done. Qed.

Definition sk_ei_192 : list Z := hex "a00a7bb92b05f934921572cdca00a0df064bbad33e15154e".

Definition plainText_192 : list Z := hex (
    "2900000c010000000a0a00ca24000008000040002700000c010000000a0a005e" +:+
    "2100001c02000000fe8067e48ae23e60217b0c91ee8fef76c9109ace2c00002c" +:+
    "0000002801030403cbf8d2d70300000c0100000c800e00c0030000080300000c" +:+
    "00000008050000002d00001801000000070000100000ffff0a0a00000a0a00ff" +:+
    "2900001801000000070000100000ffff0a0a00000a0a00ff290000080000400c" +:+
    "2900000c0000400d0a64647c2900000c0000400dac1016fd2900000c0000400d" +:+
    "ac1006fd2900000c0000400dac1fffff2900000c0000400dac1100012900000c" +:+
    "0000400d0a64640c2900000c0000400dac103d012900000c0000400dac103e01" +:+
    "290000080000401429000008000040210000000800004024").
Definition cipherText_192 : list Z := hex (
    "518db469195aca2e089da0cd0dbc5672e0636f4ea9f990fac00abfb79d619919" +:+
    "b1ca7753edbe74733d24336796a947758ecb2195b4406e98b86d686f588e4a7b" +:+
    "4d343f19f65db9714bcd5c1470b9601725a15a4f19cbe4f3809755a4cb2e8f46" +:+
    "dd16f2154e4a9ce14d3733fc83be63fdb3f6d80330827be9c71cc75f8a5c79af" +:+
    "fa143ed7e4a616f3b7d0e2c49413279e30da713365476fc4e5d08f1af68f26fb" +:+
    "570f8cdd9b22c43f4d846ad617e3bb8945df7e59bacfb2422d019d64bce87b8a" +:+
    "a9d8c69d93c29f940f3cea3fd53501653b177ebe5118a3094b43b6ea11d3d8c1" +:+
    "7a8e1b3145befa1e24f1134b5a902e2c9b64b6cd32a75ccea59aabf8c94cbec7" +:+
    "d6e3945027650f842864f89f18874dfee6ee2f656cbdcbd78a13479f15392270" +:+
    "288c28c0992e241733f8dfc809782250").

Example aes_cbc_192 :
  let iv := hex "518db469195aca2e089da0cd0dbc5672" in
  let padding := hex "d54e5b27f4d6a307" in
  encrypts sk_ei_192 iv padding plainText_192 = Ok cipherText_192 ∧
  decrypts sk_ei_192 iv padding cipherText_192 = Ok plainText_192.
Proof. vm_compute. done. Qed.

Example aes_cbc_192_nil :
  let iv := hex "2ae6ef86a92292982fa5662410ad5a4b" in
  let padding := hex "a49b113a38ca7659e60b683d80963a0f" in
  let cipher := hex "2ae6ef86a92292982fa5662410ad5a4b72e65a406dc6b8af11c4bcb13135c519" in
  encrypts sk_ei_192 iv padding [] = Ok cipher ∧ decrypts sk_ei_192 iv padding cipher = Ok [].
Proof. vm_compute. done. Qed.

Definition sk_ei_256 : list Z := hex "3d3c6a1f1c693acf223aedf30ac81ae4fcd21c7e6fcefdd74280842d7feefd10".

Example aes_cbc_256_nil :
  let iv := hex "95b0f4844980f4aa28861a0f11253061" in
  let padding := hex "b78db03d231f014db091cb5214ed7b0f" in
  let cipher := hex "95b0f4844980f4aa28861a0f11253061f26c082f44368b76943fd6ee38e548e8" in
  encrypts sk_ei_256 iv padding [] = Ok cipher ∧ decrypts sk_ei_256 iv padding cipher = Ok [].
Proof. vm_compute. done. Qed.

(** ** eap_aka_prime_test.go and eap_test.go *)

Example EapAkaPrimePRF_vector :
  EapAkaPrimePRF (hex "4bf4f64b21b59444277f2c60c417d4c7") (hex "403075840723643618b6fae83236c86d")
    (bytes_of_text "208930123456789") =
  Ok (hex "d2e0e54aa01d48959e38ca1aff6c38fb",
      hex "a56e1733adf3747cfe045dacebedeb33dd53e0f5200f6697c0855e2f856c4e40",
      hex "c362f256003483d0766bf877191741254446986158e66d57fcdc251d531fdec4",
      hex "e6ad162cd2fbcf3b6df5765b51e8983f5fb3204d16930c9bbbef5a971cf1de7c" ++
      hex "1c60f79516b4efe1b937ce510a3e52c161d6c6db3f03a62a93e33a53cc15bb70",
      hex "f74892a2343d64de4528bd0cbbf12edf03b47adbc72e7839175af598d87cc7d3" ++
      hex "3cf0671517eb051345946b978e7afc9b48327e90f816e67efddc5949adab08ad").
Proof. vm_compute. reflexivity. Qed.

(** TestEapAkaMac *)
Definition aka_mac (id : Z) (at_res key : string) : res (list Z) :=
  e ← SetAttr (NewEapAkaPrime SubtypeAkaChallenge) AT_RES (hex at_res);
  e ← SetAttr e AT_CHECKCODE [];
  '(_, mac) ← CalcEapAkaPrimeAtMAC (MkEAP EapCodeResponse id (Some (TDAkaPrime e))) (hex key);
  Ok mac.

Example aka_mac_vectors :
  aka_mac 64 "e2f5c0ab3685b3b4"
    "7e28ba2f666944737f6c8a0a008e834895206a02725b5b4b925a399ae6f09cf0" =
    Ok (hex "fd69971493e2b7f873a06e72e2051e8a") ∧
  aka_mac 2 "1e4c99649c900fec"
    "7ee97c273b07a773c29f670d2e688b2a70eb206963bd7d3d40a0eb18955133f8" =
    Ok (hex "66a5e7f1e0df7cb0043069ae5a9e181c").
Proof. vm_compute. done. Qed.

(** TestEapAkaMacPreservesReceivedAttributeOrder *)
Example aka_mac_received_order :
  (e ← EAP_Unmarshal new_EAP (of_bytes (
         hex "02ab002c3201000003030040c4532b691a62a48c86010000" ++
         hex "0b050000d5300e0989ee0bbd17d642b1f4abeeb6"));
   '(_, mac) ← CalcEapAkaPrimeAtMAC e
                 (hex "36ba2ad66f240be3fc8e793f91d5d39953c07c45232b65b8e2f6cc5c06d3b9d0");
   Ok mac) = Ok (hex "d5300e0989ee0bbd17d642b1f4abeeb6").
Proof. vm_compute. reflexivity. Qed.

(** TestEapAkaPrimeMarshal and TestEapAkaPrimeUnmarshal *)
Definition aka_marshals (subType : Z) (l : list (Z * list Z)) : res (list Z) :=
  e ← foldl (λ e '(t, v), e ← e; SetAttr e t v) (Ok (NewEapAkaPrime subType)) l;
  EapAkaPrime_Marshal e.
Definition aka_values (b : list Z) (types : list Z) : res (list (res (list Z))) :=
  e ← EapAkaPrime_Unmarshal (MkAka 0 0 None None) (of_bytes b);
  Ok ((λ t, a ← GetAttr e t; Ok (GetValue a)) <$> types).

Example aka_codec_vectors :
  let rand := hex "0102030405060708090a0b0c0d0e0f10" in
  let mac := hex "1112131415161718191a1b1c1d1e1f20" in
  let auts := hex "0102030405060708090a0b0c0d0e" in
  let name := bytes_of_text "free5gc.org" in
  let challenge := hex "32010000" ++ hex "01050000" ++ rand ++ hex "0b050000" ++ mac in
  let res := hex "32010000" ++ hex "03030028" ++ hex "0102030405" ++ [0; 0; 0] in
  let identity := hex "32050000" ++ hex "1704000b" ++ name ++ [0] ++ hex "18010001" in
  let note := hex "320c0000" ++ hex "0c011234" in
  let sync := hex "32010000" ++ hex "0404" ++ auts in
  aka_marshals SubtypeAkaChallenge [(AT_MAC, mac); (AT_RAND, rand)] = Ok challenge ∧
  aka_values challenge [AT_RAND; AT_MAC] = Ok [Ok rand; Ok mac] ∧
  aka_marshals SubtypeAkaChallenge [(AT_RES, hex "0102030405")] = Ok res ∧
  aka_values res [AT_RES] = Ok [Ok (hex "0102030405")] ∧
  aka_marshals SubtypeAkaIdentity [(AT_KDF, [0; 1]); (AT_KDF_INPUT, name)] = Ok identity ∧
  aka_values identity [AT_KDF; AT_KDF_INPUT] = Ok [Ok [0; 1]; Ok name] ∧
  aka_marshals SubtypeAkaChallenge [] = Ok (hex "32010000") ∧
  aka_marshals SubtypeAkaNotification [(AT_NOTIFICATION, hex "1234")] = Ok note ∧
  aka_values note [AT_NOTIFICATION] = Ok [Ok (hex "1234")] ∧
  aka_marshals SubtypeAkaChallenge [(AT_AUTS, auts)] = Ok sync ∧
  aka_values sync [AT_AUTS] = Ok [Ok auts].
Proof. vm_compute. done. Qed.

Example aka_Unmarshal_errors :
  let short := "EAP-AKA' Unmarshal(): no sufficient bytes to decode the EAP-AKA' type" in
  aka_values [] [] = Err short ∧ aka_values [50] [] = Err short ∧ aka_values [50; 1] [] = Err short ∧
  aka_values [0; 1; 0; 0] [] = Err "EAP-AKA' Unmarshal(): expect EAP type is 50" ∧
  aka_values (hex "3201000001020000") [] =
    Err "EAP-AKA' Unmarshal(): attribute length must be 5" ∧
  aka_values (hex "3201000001050000") [] =
    Err "EAP-AKA' Unmarshal(): attribute value length mismatch".
Proof. vm_compute. done. Qed.

(** TestEapMarshal and TestEapUnmarshal *)
Definition eap_both_ways (e : EAP) (b : list Z) : Prop :=
  EAP_Marshal e = Ok b ∧ EAP_Unmarshal new_EAP (of_bytes b) = Ok e.

Example eap_vectors :
  let data := hex "7d091842609c9e20569fc039da3f222ab856818a" in
  let value := hex "0102030405060708090a0b0c0d0e0f10" in
  eap_both_ways (MkEAP EapCodeRequest 9 (Some (TDIdentity (MkEapIdentity data))))
    (hex "01090019" ++ [1] ++ data) ∧
  eap_both_ways (MkEAP EapCodeRequest 9 (Some (TDNotification (MkEapNotification data))))
    (hex "01090019" ++ [2] ++ data) ∧
  eap_both_ways (MkEAP EapCodeRequest 9 (Some (TDNak (MkEapNak data))))
    (hex "01090019" ++ [3] ++ data) ∧
  eap_both_ways (MkEAP EapCodeRequest 9 (Some (TDExpanded
      (MkEapExpanded VendorId3GPP VendorTypeEAP5G data))))
    (hex "01090020" ++ hex "fe0028af00000003" ++ data) ∧
  eap_both_ways (MkEAP EapCodeRequest 9 (Some (TDMD5
      (MkEapMD5 EapMD5ChallengeSize value (bytes_of_text "testuser")))))
    (hex "0109001e" ++ hex "0410" ++ value ++ bytes_of_text "testuser").
Proof. vm_compute. done. Qed.

(** ** message_test.go and header_test.go *)

(** TestEncodeDecodeUsingPublicData: a recorded IKE_SA_INIT message is decoded and
    encoded to the same bytes. *)
Definition publicData : list Z := hex (
    "864330ac30e6564d00000000000000002120220800000000000001c922000030" +:+
    "0000002c010100040300000c0100000c800e0080030000080200000203000008" +:+
    "030000020000000804000002280000880002000003dcf59a29057b5a49bd558c" +:+
    "9b147a110eedffe5ea2d12c21e5c7a5f5e9c99e3d1d300243c89731e6c6d6341" +:+
    "7b33faaf5ac726e8b6f8c3b52a14ebecd56f1bd95b2832849e26fc59eef14e38" +:+
    "5f55c21be8f6a3fbc555d73592862400628beace23f047afaaf861e45c42ba5c" +:+
    "a14a526ed8e8f1b974aee4d19c9fa59bf0d7db552b0000444ca7f39bcd1dc201" +:+
    "79faa2e472e061c44561e6492db396aec92cdb5421f4984f72d24378ab80e46c" +:+
    "01786ac46445bca81f56bcedf9b5d821954171e90eb43c4e2b00001743495343" +:+
    "4f2d44454c4554452d524541534f4e2b00003b434953434f28434f5059524947" +:+
    "48542926436f7079726967687420286329203230303920436973636f20537973" +:+
    "74656d732c20496e632e29000013434953434f2d4752452d4d4f444502290000" +:+
    "1c010040047e576cc013d40543a2e8777d003468a5b1890c582b00001c010040" +:+
    "0552644d87d47c2d4423bd37e448a9f5170181cb8a000000144048b7d56ebce8" +:+
    "8525e7de7f00d6c2d3").
Example public_data :
  (m ← IKEMessage_Decode new_IKEMessage (of_bytes publicData);
   '(_, b) ← IKEMessage_Encode m;
   Ok (payload_Type <$> m_Payloads m, b)) =
  Ok ([TypeSA; TypeKE; TypeNiNr; TypeV; TypeV; TypeV; TypeN; TypeN; TypeV], publicData).
Proof. vm_compute. reflexivity. Qed.

(** TestDecode and TestEncode *)
Definition message_both_ways (h : list Z → IKEHeader) (c : list IKEPayload) (b : list Z) : Prop :=
  let m := MkMessage (Some (h (drop 28 b))) c in
  IKEMessage_Decode new_IKEMessage (of_bytes b) = Ok m ∧ snd <$> IKEMessage_Encode m = Ok b.
Definition vector_header (ty flags id next : Z) (payload : list Z) : IKEHeader :=
  MkHeader 0x000000000006f708 0xc9e2e31f8b64053d 2 0 ty flags id next (of_bytes payload).

Definition plain_transform (ty id : Z) : Transform := MkTransform ty id false 0 0 0 [].
Definition nat_data : list Z := hex "50c4c2be8e3fd9161924650d145d4ff646d89d75".

Example message_init :
  message_both_ways (vector_header IKE_SA_INIT InitiatorBitCheck 0 TypeSA)
    [PSA (MkSA [MkProposal 2 1 [1; 2; 3]
       [MkTransform TypeEncryptionAlgorithm ENCR_AES_CBC true AttributeFormatUseTV
          AttributeTypeKeyLength 128 []]
       [plain_transform TypePseudorandomFunction Types.PRF_HMAC_SHA2_256]
       [plain_transform TypeIntegrityAlgorithm Types.AUTH_HMAC_SHA2_256_128]
       [plain_transform TypeDiffieHellmanGroup Types.DH_1024_BIT_MODP]
       [plain_transform TypeExtendedSequenceNumbers ESN_DISABLE]]);
     PN (MkN TypeNone NAT_DETECTION_SOURCE_IP [1; 2; 3] nat_data);
     PN (MkN TypeNone NAT_DETECTION_DESTINATION_IP [1; 2; 3] nat_data)]
    (hex (
      "000000000006f708c9e2e31f8b64053d2120220800000000000000952900003b" +:+
      "00000037020103050102030300000c0100000c800e0080030000080200000503" +:+
      "0000080300000c030000080400000200000008050000002900001f0003400401" +:+
      "020350c4c2be8e3fd9161924650d145d4ff646d89d750000001f000340050102" +:+
      "0350c4c2be8e3fd9161924650d145d4ff646d89d75")).
Proof. vm_compute. done. Qed.

Example message_create_child_sa :
  let ts := MkTS TS_IPV4_ADDR_RANGE IPProtocolAll 0 65535 [10; 0; 0; 1] [10; 0; 0; 1] in
  message_both_ways (vector_header CREATE_CHILD_SA 0 0 TypeTSi)
    [PTSi (MkTSi [ts]); PTSr (MkTSr [ts]);
     PN (MkN 0 Vendor3GPPNotifyType5G_QOS_INFO [] [5; 1; 1; 1; 2])]
    (hex (
      "000000000006f708c9e2e31f8b64053d2c20240000000000000000592d000018" +:+
      "01000000070000100000ffff0a0000010a000001290000180100000007000010" +:+
      "0000ffff0a0000010a0000010000000d0000d8cd0501010102")).
Proof. vm_compute. done. Qed.

Example message_informational :
  message_both_ways (vector_header INFORMATIONAL (Z.lor InitiatorBitCheck ResponseBitCheck) 7 TypeN)
    [PN (MkN TypeNone NAT_DETECTION_SOURCE_IP [1; 2; 3] nat_data);
     PN (MkN TypeNone NAT_DETECTION_DESTINATION_IP [1; 2; 3]
           (hex "c4c2be8e3fd9161924650d145d4ff646"))]
    (hex (
      "000000000006f708c9e2e31f8b64053d2920252800000007000000562900001f" +:+
      "0003400401020350c4c2be8e3fd9161924650d145d4ff646d89d750000001b00" +:+
      "034005010203c4c2be8e3fd9161924650d145d4ff646")).
Proof. vm_compute. done. Qed.

Example message_auth :
  message_both_ways (vector_header IKE_AUTH ResponseBitCheck 3 TypeSK)
    [PSK (MkSK TypeEAP (drop 32 eapRawMsg))]
    (hex (
      "000000000006f708c9e2e31f8b64053d2e202320000000030000006c30000050" +:+
      "ec5031162c692fbbfc4d20640c9121ebe9475ef94f9b02959d31242e535e9c3c" +:+
      "4dcaecd1bfd6dd80aa812b07de36dee9b7509435f635e1aaae1c3825f4eae338" +:+
      "4903f724f444170c6845ca80")).
Proof. vm_compute. done. Qed.

Example header_vector :
  IKEHeader_Marshal (NewHeader 0x000000000006f708 0xc9e2e31f8b64053d IKE_AUTH false true 3 NoNext
    (of_bytes [])) = Ok (hex "000000000006f708c9e2e31f8b64053d00202308000000030000001c").
Proof. vm_compute. reflexivity. Qed.

(** ** payload_securityassociation_test.go and payload_delete_test.go *)
Example security_association_vector :
  let key n := MkTransform TypeEncryptionAlgorithm ENCR_AES_CBC true AttributeFormatUseTV
                 AttributeTypeKeyLength n [] in
  let sa := MkSA [
    MkProposal 1 1 [1; 2; 3] [key 256; key 192]
      (plain_transform TypePseudorandomFunction <$> [PRF_HMAC_MD5; Types.PRF_HMAC_SHA1])
      (plain_transform TypeIntegrityAlgorithm <$> [AUTH_HMAC_MD5_96; Types.AUTH_HMAC_SHA1_96])
      (plain_transform TypeDiffieHellmanGroup <$> [Types.DH_1024_BIT_MODP; Types.DH_2048_BIT_MODP])
      [plain_transform TypeExtendedSequenceNumbers ESN_DISABLE];
    MkProposal 2 1 [1; 2; 3] [key 128]
      [plain_transform TypePseudorandomFunction Types.PRF_HMAC_SHA2_256]
      [plain_transform TypeIntegrityAlgorithm Types.AUTH_HMAC_SHA2_256_128]
      [plain_transform TypeDiffieHellmanGroup Types.DH_1024_BIT_MODP]
      [plain_transform TypeExtendedSequenceNumbers ESN_DISABLE]] in
  let b := hex (
    "0200005b010103090102030300000c0100000c800e01000300000c0100000c80" +:+
    "0e00c00300000802000001030000080200000203000008030000010300000803" +:+
    "0000020300000804000002030000080400000e00000008050000000000003702" +:+
    "0103050102030300000c0100000c800e00800300000802000005030000080300" +:+
    "000c03000008040000020000000805000000") in
  SecurityAssociation_Marshal sa = Ok b ∧
  SecurityAssociation_Unmarshal new_SecurityAssociation (of_bytes b) = Ok sa.
Proof. vm_compute. done. Qed.

Example security_association_errors :
  let read b := SecurityAssociation_Unmarshal new_SecurityAssociation (of_bytes (hex b)) in
  read "01020304" = Err "Proposal: No sufficient bytes to decode next proposal" ∧
  read "0102000405060708" = Err "Proposal: Illegal payload length < header length 8" ∧
  read "0102000905060708" =
    Err "Proposal: The length of received message not matchs the length specified in header" ∧
  read "01020009050607080102" =
    Err "Proposal: No sufficient bytes for unmarshalling SPI of proposal" ∧
  (∃ e, read "00000018020103010101050000000d0300000c0000000501" = Err e) ∧
  SecurityAssociation_Marshal (MkSA [MkProposal 1 1 [1; 2; 3] [] [] [] [] []]) =
    Err "One proposal has no any transform".
Proof. vm_compute. eauto 10. Qed.

Example delete_vectors :
  let b := hex "0304000400000001000000020000000300000004" in
  Delete_Marshal (MkD TypeESP 4 1 [1; 2; 3]) = Err "Number of SPI not correct" ∧
  Delete_Marshal (MkD TypeIKE 0 0 []) = Ok [1; 0; 0; 0] ∧
  Delete_Marshal (MkD TypeESP 4 4 [1; 2; 3; 4]) = Ok b ∧
  Delete_Unmarshal new_Delete (of_bytes b) = Ok (MkD TypeESP 4 4 [1; 2; 3; 4]).
Proof. vm_compute. done. Qed.
